(* ===== verification/_CoqProject ===== *)
-Q . S2P
Prelude.v
Digest.v
Sha256.v
Access.v
Transit.v
LevelTag.v
Crypto.v
CosignChain.v
SyscallTypes.v
Hookwall.v
SignGate.v
SpawnGate.v
Gnn.v
Interleave.v
Hardware.v
Envelope.v
WeakQueue.v
FrameAlloc.v
Queue.v
Vfs.v
AgentRuntime.v
AgentRegistry.v
Utf8.v
Syscall.v
SyscallErrors.v
Concurrent.v
Init.v
Pid.v
LinkAuth.v
Fedenv.v
ReflectionRoom.v
RoomWaves.v
CycleOrch.v
BootLines.v
BootWriters.v
BumpAlloc.v
Hwinv.v
BootChain.v
RowWriters.v
BootScreen.v
UefiLayout.v
Boot.v
BusFabric.v
GlyphGenesis.v
Atlas.v
BusAndKick.v
SurfaceText.v
AtlasGen.v
SeatConfig.v
Surface.v
SurfaceHost.v
Replay.v
ConformanceGates.v
ConformanceKernel.v
ConformanceRecords.v
ConformanceIdentities.v
ConformanceWaves.v
ConformanceFabric.v
ConformanceBoot.v
