(* ===== verification/Prelude.v ===== *)
(** * Asolaria OS: verification library

    The library models the Rust code of the repository: the kernel core
    ([kernel/core/src]), the UEFI boot program ([kernel/boot/src]), the build
    scripts of both and the front-end shell ([surface/src/main.rs]).
    Definitions are translated from the source and keep its names; file names
    below are relative to [src/].

    ** The parts and how they interact

    The kernel core is a library of mostly independent modules around a
    system-call surface. A call of [syscall] works on the kernel statics: the
    single-slot envelope queue, the frame allocator, the descriptor table,
    the child-handle counter, the cosign ledger and the halt state. The
    gates ([tier_gate], [hookwall], [sign_gate], [spawn_gate], [link_auth])
    decide; [cosign_chain] and [reflection_room] record. The boot program
    sets up its heap, reports what it sees, derives the machine's identity
    from the PCI bus and the clock, paints the screen and runs [init], which
    serves envelopes through the system calls. The shell is a separate
    program: a small HTTP server with a table of terminal sessions. The two
    build scripts write Rust source: the seat constants the boot program
    includes and the atlas functions.

    ** Files

    - Foundations. [Prelude] (this file): bytes, machine integers with their
      wrap-around, results, text operations, hexadecimal and decimal, shared
      lemmas and tactics. [Digest]: the interface of SHA-256; [Sha256]: the
      boot program's own SHA-256 ([kernel/boot/src/hwinv.rs]), which
      implements it. [Interleave]: threads over shared atomic cells, with a
      rely-guarantee rule, a termination rule and the measures of lock-free
      and wait-free calls. [Hardware]: programs on bare hardware as
      interaction trees, with a calculus of finished runs and one of what
      holds of every access.
      [Utf8]: the validity check of [str::from_utf8].
    - Access control. [Access]: [syscall::AccessTier], [tier], [tier_gate].
      [Transit]: [highway], [transit]. [LevelTag]: [level_tag]. [Hookwall]:
      [hookwall]. [SignGate]: [sign_gate]. [SpawnGate]: [spawn_gate].
      [LinkAuth]: [link_auth].
    - Records. [Crypto]: [crypto]. [CosignChain]: [cosign_chain].
      [ReflectionRoom]: [reflection_room]; [RoomWaves]: windows of events
      going through a room. [Fedenv]: [envelope/fedenv].
    - Kernel services. [Envelope]: [envelope], the byte queue; [WeakQueue]:
      the same on a memory that honours only the orderings asked for;
      [Queue]: what the queue promises its clients, as a class. [FrameAlloc]: [frame_alloc].
      [Vfs]: [vfs]. [AgentRuntime], [AgentRegistry]: [agent_runtime]. [Gnn]:
      [gnn]. [SyscallTypes], [Syscall]: [syscall], the sixteen calls on one
      record of the statics; [SyscallErrors]: when they are refused;
      [Concurrent]: the calls as threads run at once.
    - Names and codes. [Pid]: [pid]. [BusFabric]: [bus_fabric].
      [GlyphGenesis]: [glyph_genesis]. [Atlas]: [atlas]; [AtlasGen]:
      [kernel/core/build.rs] with a reader of the source it writes.
      [BusAndKick]: [bus_and_kick]. [CycleOrch]: [cycle_orch].
    - Boot. [BootLines]: [boot_diag], [boot_identity]; [BootWriters]: their
      two line writers method by method. [BumpAlloc]: the heap of
      [boot/src/main.rs]. [Hwinv]: [hwinv]. [BootChain]: [rtc], [bootproj],
      the driver rows and the check of the seat; [RowWriters]: the functions
      that write these rows, on their buffers. [BootScreen]: framebuffer
      and report of [main.rs]; [UefiLayout]: its UEFI structs in memory.
      [Init]: [init]. [Boot]: [efi_main] instruction by instruction at its
      ports, over the texts of the other boot files. [SeatConfig]:
      [kernel/boot/build.rs] with a reader of the source it writes.
    - Shell. [SurfaceText]: the pure functions of [surface/src/main.rs] and
      the library text operations they use; [Surface]: requests and routes
      (module [Requests]), terminal sessions (module [Sessions]);
      [SurfaceHost]: the listener, the probes of the local services, the
      identity and the programs started, on a host given as an argument.
    - Conformance. [Replay]: assertions of a test as propositions.
      [ConformanceGates], [ConformanceKernel], [ConformanceRecords],
      [ConformanceIdentities], [ConformanceWaves], [ConformanceFabric],
      [ConformanceBoot]: the unit tests of the repository, a Module per test
      module, each a proposition with the test's name, and a lemma per
      Module that they hold.

    Each file has a Module per source module with its data and operations,
    then lemmas, then theorems. Statics are explicit state: an operation
    takes the state and returns the new one with its result. Code that
    several processors run at once is also given as threads, one atomic
    operation per step, and the theorems on it quantify over every
    interleaving: the envelope queue, frame allocation, descriptors, child
    handles, the boot heap, the shell's sessions.

    ** What the theorems show

    - Invariants over any run or interleaving: ledger rows stay chained and
      numbered; room logs hold exactly the committed events, linked to the
      head; messages of the envelope queue are consumed once, whole and in
      order; frame reservations, heap blocks, descriptors, child handles and
      session ids never collide; a stream delivers a prefix of its session's
      output; peers move along the transition table; the kernel statics stay
      well formed under the sixteen calls, whose errors are the listed ones.
    - Safety of the gates: each verdict of a gate under exactly its
      conditions, stated apart from the checks. The tier gate implements its
      documented matrix; the sign gate, the spawn gate, the link gate (an
      RFC 2104 code, five verdicts in order) and the route-layer validator
      (its verdicts in order) are pinned on every branch; level tags agree
      with a declarative reading of their tables. Two ledgers with one head
      agree row by row or their last differing rows are a collision.
    - Round trips: PIDs, ledger verdict rows, canonical envelope bytes,
      boot lines, base64, response framing, requests with any other header
      lines around their length; the source text both build scripts write is
      read back to the tables and constants meant, the atlas up to the 65535
      rows its count can hold.
    - Equivalence with reference definitions: the fragment search and digit
      scan, the PCI scan against the configuration mechanism, HMAC against
      RFC 2104, hexadecimal comparison loops, SHA-256
      padding; the writers of the boot lines and of the boot rows, with their
      digit buffers, and the texts of [BootLines], [Hwinv] and [BootChain];
      the cut UEFI structs and the tables of the specification.
    - Errors: in every reachable state each system call fails exactly when a
      table on the state says so, with the error named there, and a refused
      call leaves every static and the caller's buffer alone; refused calls
      can be struck from a run.
    - Refinement: the queue's functions are its threads run alone, and so is
      every system call; on weak memory the queue behaves as on plain memory;
      the boot program, port access by port access, puts out exactly the
      texts and pixels of the functional model; the gates' matrices.
    - Composition: each shared part (queue, frames, handles, descriptors,
      counters) is simulated by the system calls run at once, so its
      guarantees hold in every interleaving of calls; the status page is
      proved end to end, from the bytes of the request through the probes to
      the bytes of the answer; whatever seat a build accepts, the boot
      program built derives its identity without a panic.
    - Termination: concurrent [alloc_pages] calls take at most n (n + 3)
      atomic steps (lock-free), each call on the envelope queue a number of
      its own steps that the others cannot raise (wait-free); a room
      takes window after window without stalling; the clock wait, the header
      loop and the parsers are total functions.
    - On any machine, whatever it answers: the boot program only reads the
      configuration and clock data ports and sends a serial byte only to an
      empty transmitter; one that never empties stops the boot unseen.
    - Bounds and overflow: framebuffer writes stay inside the framebuffer
      with 32-bit wrap-around written out; the rounding of [alloc_pages]
      overflows only in the last page of [usize]; row buffers are never
      overrun; port labels and their 64-bit handles.
    - Panics: slicing off a character boundary, indexing, capacity overflow
      are values of [comp]; [parse_pid] never panics on UTF-8 text; the boot
      chain does not panic for any accepted seat; a request that announces
      a body beyond [isize::MAX] does.
    - Behaviour the names or comments of the code do not suggest is proved
      as it is: [init] never serves an envelope it did not send itself,
      [highway] ignores the tier gate, the ledger's last row can be altered
      unnoticed, a retry behind a seal is published again, one unread terminal
      input blocks the shell's session table.
    - Conformance: the model gives the answers the repository's own tests
      pin, so a translation that strayed from the code would have to stray
      where no test looks.

    ** Conventions, bounds and fuel

    - A [u8] is a [Z]; [u16], [u32], [u64] and [usize] (64 bits) are [Z] with
      [wrap] where the code computes: the release profile wraps on
      overflow. Saturating and checked operations are written out.
    - Strings are their UTF-8 bytes. A static array is a list of its length.
    - Atomics are sequentially consistent, except in [WeakQueue], which gives
      the envelope queue the Acquire, Release and Relaxed orderings it asks
      for, with views and timestamped messages; a store there is never seen
      before the loads that precede it.
    - Fuel: [dec] has 20 digits, enough for 2^64; SHA-256 pads in at most 64
      rounds and takes blocks by the message length; the sixty-dimensional
      projection runs 60 rounds; polling loops are bounded by the spin budget
      of the call; the clock wait by the code's own 1000000 polls; search,
      header and decoding loops by the length of their input. Each use has
      a lemma that the fuel is enough.

    ** Parameters

    [sha2] is the class [Digest]; case conversion outside ASCII is the class
    [UnicodeCase]; the answers of the PCI configuration space, the CMOS, the
    time stamp counter and the firmware tables are arguments, and so are
    the environment, the clock, files, services and programs of the shell's
    host ([SurfaceHost.Host.HostEnv]), the memory the firmware's pointers
    lead to, and what the build scripts read and whether their write
    succeeds. In
    [Boot] the machine is a function from the history of accesses to the
    next answer; [machine_ok] states what its documentation promises.
    Each class has an instance, so that the witnesses compute.

    ** Not modelled

    Sockets below the level of bytes read and written, and what started
    programs do; memory exhaustion of the host; the module declarations of
    [kernel/core/src/lib.rs]; types and constants of the core that no code
    uses ([FileOps], [ReflectionGateDecision], the throughput targets of
    [hookwall]); two unit tests without assertions; scripts, pages,
    documents and receipts. *)

From Stdlib Require Export ZArith Lia Bool List String Ascii.
From stdpp Require Export base list numbers option decidable strings.

Declare Scope asolaria_scope.
Delimit Scope asolaria_scope with aso.

#[export] Set Default Proof Using "Type".

(** ** Bytes and byte strings *)

(** A Rust [u8] is a [Z] in [0, 256); [&[u8]], [&str], [Vec<u8>] and
    [String] are lists of them (UTF-8 contents, as Rust stores them). *)
Abbreviation bytes := (list Z).

Definition is_byte (b : Z) : Prop := (0 <= b < 256)%Z.

Definition is_byteb (b : Z) : bool := ((0 <=? b) && (b <? 256))%Z.

(** Length as the [usize] the code computes with. *)
Definition zlen {A} (l : list A) : Z := Z.of_nat (length l).

Definition byte_of_ascii (c : ascii) : Z := Z.of_N (N_of_ascii c).

(** The bytes of a string literal of the source. *)
Fixpoint lit (s : string) : bytes :=
  match s with
  | EmptyString => []
  | String c s' => byte_of_ascii c :: lit s'
  end.

Arguments lit _%_string_scope.

Definition bytes_eqb (a b : bytes) : bool := bool_decide (a = b).

(** ** Machine integers: wrap-around of the release profile *)

Definition wrap (w z : Z) : Z := (z mod 2 ^ w)%Z.
Abbreviation wrap8 := (wrap 8).
Abbreviation wrap16 := (wrap 16).
Abbreviation wrap32 := (wrap 32).
Abbreviation wrap64 := (wrap 64).

Definition U8_MAX : Z := 255.
Definition U64_MAX : Z := 18446744073709551615.

Definition is_u (w z : Z) : Prop := (0 <= z < 2 ^ w)%Z.

Definition sat_add (w a b : Z) : Z := Z.min (2 ^ w - 1) (a + b).
Definition sat_sub (a b : Z) : Z := Z.max 0 (a - b).
Definition sat_mul (w a b : Z) : Z := Z.min (2 ^ w - 1) (a * b).

(** [uN::to_le_bytes] / [uN::to_be_bytes] on [n] bytes. *)
Fixpoint le_bytes (n : nat) (z : Z) : bytes :=
  match n with
  | O => []
  | S n' => (z mod 256)%Z :: le_bytes n' (z / 256)%Z
  end.

Definition be_bytes (n : nat) (z : Z) : bytes := rev (le_bytes n z).

Fixpoint le_value (l : bytes) : Z :=
  match l with
  | [] => 0
  | b :: l' => b + 256 * le_value l'
  end%Z.

Definition be_value (l : bytes) : Z := le_value (rev l).

(** ** Results and computations that may panic *)

Inductive result (E A : Type) : Type :=
| Ok (a : A)
| Err (e : E).
Arguments Ok {E A} _.
Arguments Err {E A} _.

#[export] Instance result_ret E : MRet (result E) := fun A a => Ok a.
#[export] Instance result_bind E : MBind (result E) :=
  fun A B f m => match m with Ok a => f a | Err e => Err e end.
#[export] Instance result_eq_dec E A `{EqDecision E} `{EqDecision A} :
  EqDecision (result E A).
Proof. solve_decision. Defined.

Definition is_ok {E A} (r : result E A) : bool :=
  match r with Ok _ => true | Err _ => false end.

Definition map_err {E F A} (f : E -> F) (r : result E A) : result F A :=
  match r with Ok a => Ok a | Err e => Err (f e) end.

(** A computation that returns, fails with an error value, or panics
    (out-of-range index, [str] slice off a character boundary). *)
Inductive comp (E A : Type) : Type :=
| CRet (a : A)
| CErr (e : E)
| CPanic.
Arguments CRet {E A} _.
Arguments CErr {E A} _.
Arguments CPanic {E A}.

#[export] Instance comp_ret E : MRet (comp E) := fun A a => CRet a.
#[export] Instance comp_bind E : MBind (comp E) :=
  fun A B f m =>
    match m with CRet a => f a | CErr e => CErr e | CPanic => CPanic end.

Definition comp_of_result {E A} (r : result E A) : comp E A :=
  match r with Ok a => CRet a | Err e => CErr e end.

(** ** Text operations of [str] and slices *)

Fixpoint starts_with (p s : bytes) : bool :=
  match p, s with
  | [], _ => true
  | _ :: _, [] => false
  | a :: p', b :: s' => (a =? b)%Z && starts_with p' s'
  end.

Definition ends_with (p s : bytes) : bool := starts_with (rev p) (rev s).

Fixpoint contains (needle hay : bytes) : bool :=
  starts_with needle hay ||
  match hay with
  | [] => false
  | _ :: hay' => contains needle hay'
  end.

(** [str::find] and [str::rfind] on a pattern string. *)
Fixpoint find_sub (needle hay : bytes) : option nat :=
  if starts_with needle hay then Some 0%nat
  else match hay with
       | [] => None
       | _ :: hay' => S <$> find_sub needle hay'
       end.

Fixpoint rfind_sub (needle hay : bytes) : option nat :=
  match hay with
  | [] => if starts_with needle [] then Some 0%nat else None
  | _ :: hay' =>
      match rfind_sub needle hay' with
      | Some i => Some (S i)
      | None => if starts_with needle hay then Some 0%nat else None
      end
  end.

(** [str::split(c)]: always at least one piece. *)
Fixpoint split_on (c : Z) (s : bytes) : list bytes :=
  match s with
  | [] => [[]]
  | b :: s' =>
      if (b =? c)%Z then [] :: split_on c s'
      else match split_on c s' with
           | [] => [[b]]
           | p :: ps => (b :: p) :: ps
           end
  end.

Fixpoint join_with (c : Z) (ps : list bytes) : bytes :=
  match ps with
  | [] => []
  | [p] => p
  | p :: ps' => p ++ c :: join_with c ps'
  end.

(** [str::is_char_boundary]: a continuation byte is 0x80..=0xBF. *)
Definition is_continuation (b : Z) : bool := ((128 <=? b) && (b <? 192))%Z.

Definition is_char_boundary (s : bytes) (i : nat) : bool :=
  Nat.eqb i 0 ||
  match s !! i with
  | Some b => negb (is_continuation b)
  | None => Nat.eqb i (length s)
  end.

(** [&s[i..]], [&s[..i]] and [&s[i..j]]. *)
Definition slice_from {E} (s : bytes) (i : nat) : comp E bytes :=
  if is_char_boundary s i then CRet (drop i s) else CPanic.
Definition slice_to {E} (s : bytes) (i : nat) : comp E bytes :=
  if is_char_boundary s i then CRet (take i s) else CPanic.
Definition slice_range {E} (s : bytes) (i j : nat) : comp E bytes :=
  if is_char_boundary s i && is_char_boundary s j && Nat.leb i j
  then CRet (take (j - i) (drop i s)) else CPanic.

(** ** Character classes *)

Definition is_ascii_digit (b : Z) : bool := ((48 <=? b) && (b <=? 57))%Z.
Definition is_ascii_uppercase (b : Z) : bool := ((65 <=? b) && (b <=? 90))%Z.
Definition is_ascii_lowercase (b : Z) : bool := ((97 <=? b) && (b <=? 122))%Z.
Definition is_ascii_hexdigit (b : Z) : bool :=
  is_ascii_digit b || ((65 <=? b) && (b <=? 70))%Z || ((97 <=? b) && (b <=? 102))%Z.
Definition is_ascii (b : Z) : bool := ((0 <=? b) && (b <? 128))%Z.

Definition to_ascii_lower (b : Z) : Z :=
  if is_ascii_uppercase b then (b + 32)%Z else b.
Definition to_ascii_upper (b : Z) : Z :=
  if is_ascii_lowercase b then (b - 32)%Z else b.

(** [str::to_lowercase] and [str::to_uppercase] follow the Unicode tables;
    the development relies only on their behaviour on ASCII text. *)
Class UnicodeCase : Type := {
  to_lowercase : bytes -> bytes;
  to_uppercase : bytes -> bytes;
  to_lowercase_ascii : forall s,
    forallb is_ascii s = true -> to_lowercase s = map to_ascii_lower s;
  to_uppercase_ascii : forall s,
    forallb is_ascii s = true -> to_uppercase s = map to_ascii_upper s
}.

Definition ascii_case : UnicodeCase := {|
  to_lowercase := map to_ascii_lower;
  to_uppercase := map to_ascii_upper;
  to_lowercase_ascii := fun _ _ => eq_refl;
  to_uppercase_ascii := fun _ _ => eq_refl
|}.

(** ** Hexadecimal and decimal rendering *)

(** The table [b"0123456789abcdef"] the code indexes. *)
Definition HEX : bytes := lit "0123456789abcdef".

Definition hex_digit (n : Z) : Z := if (n <? 10)%Z then (48 + n)%Z else (87 + n)%Z.

Definition hex_pair (b : Z) : bytes :=
  [hex_digit (Z.shiftr b 4); hex_digit (Z.land b 15)].

Definition hex_of (l : bytes) : bytes := flat_map hex_pair l.

(** Decimal digits of an unsigned integer below 2^64 ([Display]). *)
Fixpoint dec_aux (fuel : nat) (n : Z) (acc : bytes) : bytes :=
  match fuel with
  | O => acc
  | S f =>
      if (n <? 10)%Z then (48 + n)%Z :: acc
      else dec_aux f (n / 10)%Z ((48 + n mod 10)%Z :: acc)
  end.

Definition dec (n : Z) : bytes := dec_aux 20 n [].

Fixpoint dec_value_aux (acc : Z) (l : bytes) : Z :=
  match l with
  | [] => acc
  | d :: l' => dec_value_aux (10 * acc + (d - 48))%Z l'
  end.

Definition dec_value (l : bytes) : Z := dec_value_aux 0 l.

(** ** Automation *)

Create HintDb aso.
Create Rewrite HintDb aso_len.

(** Turn the boolean tests of the code into propositions. *)
Ltac to_prop :=
  repeat match goal with
  | H : (_ && _) = true |- _ => apply andb_true_iff in H as [? ?]
  | H : (_ || _) = false |- _ => apply orb_false_iff in H as [? ?]
  | H : (_ || _) = true |- _ => apply orb_true_iff in H
  | H : (_ && _) = false |- _ => apply andb_false_iff in H
  | H : negb _ = true |- _ => apply negb_true_iff in H
  | H : negb _ = false |- _ => apply negb_false_iff in H
  | H : (_ <? _)%Z = true |- _ => apply Z.ltb_lt in H
  | H : (_ <? _)%Z = false |- _ => apply Z.ltb_ge in H
  | H : (_ <=? _)%Z = true |- _ => apply Z.leb_le in H
  | H : (_ <=? _)%Z = false |- _ => apply Z.leb_gt in H
  | H : (_ =? _)%Z = true |- _ => apply Z.eqb_eq in H
  | H : (_ =? _)%Z = false |- _ => apply Z.eqb_neq in H
  | H : bool_decide _ = true |- _ => apply bool_decide_eq_true in H
  | H : bool_decide _ = false |- _ => apply bool_decide_eq_false in H
  end.

(** Split on the first [if] of the goal, keeping the test as a proposition. *)
Ltac split_if :=
  match goal with
  | |- context [if ?c then _ else _] => destruct c eqn:?; to_prop
  end.

Ltac split_if_in H :=
  match type of H with
  | context [if ?c then _ else _] => destruct c eqn:?; to_prop
  end.

(** ** Lists *)

Lemma zlen_nonneg {A} (l : list A) : (0 <= zlen l)%Z.
Proof. unfold zlen. lia. Qed.

Lemma zlen_app {A} (l k : list A) : zlen (l ++ k) = (zlen l + zlen k)%Z.
Proof. unfold zlen. rewrite length_app. lia. Qed.

Lemma zlen_cons {A} (x : A) l : zlen (x :: l) = (1 + zlen l)%Z.
Proof. unfold zlen. cbn [length]. lia. Qed.

Lemma zlen_nil {A} : zlen (@nil A) = 0%Z.
Proof. done. Qed.

Lemma zlen_snoc {A} (l : list A) x : zlen (l ++ [x]) = (zlen l + 1)%Z.
Proof. unfold zlen. rewrite length_app. cbn [length]. lia. Qed.

Lemma zlen_zero_nil {A} (l : list A) : zlen l = 0%Z -> l = [].
Proof. destruct l; [done | rewrite zlen_cons; pose proof (zlen_nonneg l); lia]. Qed.

#[export] Hint Rewrite @zlen_app @zlen_cons @zlen_nil : aso_len.
#[export] Hint Resolve zlen_nonneg : aso.

Lemma app_eq_len {A} (a b c d : list A) :
  length a = length c -> a ++ b = c ++ d -> a = c /\ b = d.
Proof. intros Hl H. by apply app_inj_1 in H. Qed.

Lemma app_eq_len_r {A} (a b c d : list A) :
  length b = length d -> a ++ b = c ++ d -> a = c /\ b = d.
Proof. intros Hl H. by apply app_inj_2 in H. Qed.

Lemma bytes_eqb_true a b : bytes_eqb a b = true <-> a = b.
Proof. apply bool_decide_eq_true. Qed.

Lemma bytes_eqb_false a b : bytes_eqb a b = false <-> a <> b.
Proof. apply bool_decide_eq_false. Qed.

Lemma bytes_eqb_refl a : bytes_eqb a a = true.
Proof. by apply bytes_eqb_true. Qed.

#[export] Hint Resolve bytes_eqb_refl : aso.

Lemma Ok_inj {E A} (a b : A) : @Ok E A a = Ok b -> a = b.
Proof. congruence. Qed.

(** ** Text search *)

Lemma starts_with_spec p s : starts_with p s = true <-> exists r, s = p ++ r.
Proof.
  revert s. induction p as [|a p IH]; intros s; cbn.
  - split; [by exists s | done].
  - destruct s as [|b s]; [split; [done | by intros [r ?]]|].
    rewrite andb_true_iff, Z.eqb_eq, IH. split.
    + intros [-> [r ->]]. by exists r.
    + intros [r [= -> ->]]. eauto.
Qed.

Lemma starts_with_app p r : starts_with p (p ++ r) = true.
Proof. apply starts_with_spec. by exists r. Qed.

Lemma starts_with_false p s : starts_with p s = false <-> forall r, s <> p ++ r.
Proof.
  rewrite <- not_true_iff_false, starts_with_spec. naive_solver.
Qed.

Lemma starts_with_length p s : starts_with p s = true -> (length p <= length s)%nat.
Proof. intros [r ->]%starts_with_spec. rewrite length_app. lia. Qed.

Lemma ends_with_spec p s : ends_with p s = true <-> exists r, s = r ++ p.
Proof.
  unfold ends_with. rewrite starts_with_spec. split; intros [r H].
  - exists (rev r). apply (f_equal (@rev Z)) in H.
    by rewrite rev_involutive, rev_app_distr, rev_involutive in H.
  - exists (rev r). by rewrite H, rev_app_distr.
Qed.

Lemma contains_spec n h :
  contains n h = true <-> exists a b, h = a ++ n ++ b.
Proof.
  induction h as [|c h IH]; cbn.
  - rewrite orb_false_r, starts_with_spec. split.
    + intros [r Hr]. exists [], r. done.
    + intros (a & b & H). symmetry in H. apply app_eq_nil in H as [-> H]. by exists b.
  - rewrite orb_true_iff, starts_with_spec, IH. split.
    + intros [[r ->] | (a & b & ->)]; [by exists [], r | by exists (c :: a), b].
    + intros ([|x a] & b & H); cbn in H; [left; by exists b | right].
      injection H as -> ->. by exists a, b.
Qed.

Lemma contains_mid n a b : contains n (a ++ n ++ b) = true.
Proof. apply contains_spec. by exists a, b. Qed.

Lemma contains_trans n m h :
  contains n m = true -> contains m h = true -> contains n h = true.
Proof.
  rewrite !contains_spec. intros (a & b & ->) (c & d & ->).
  exists (c ++ a), (b ++ d). by rewrite <- !app_assoc.
Qed.

Lemma contains_length n h : contains n h = true -> (length n <= length h)%nat.
Proof. intros (a & b & ->)%contains_spec. rewrite !length_app. lia. Qed.

Lemma find_sub_Some n h i :
  find_sub n h = Some i ->
  (exists b, h = take i h ++ n ++ b) /\ (i <= length h)%nat /\
  forall j, (j < i)%nat -> starts_with n (drop j h) = false.
Proof.
  revert i. induction h as [|c h IH]; intros i; cbn; destruct (starts_with n _) eqn:E.
  - intros [= <-]. apply starts_with_spec in E as [r E].
    split_and!; [exists r; cbn; done | cbn; lia | intros; lia].
  - done.
  - intros [= <-]. apply starts_with_spec in E as [r E].
    split_and!; [exists r; cbn; done | cbn; lia | intros; lia].
  - destruct (find_sub n h) as [k|] eqn:Ek; [|done]. intros [= <-].
    destruct (IH k eq_refl) as ((b & Hb) & Hl & Hm). split_and!.
    + exists b. cbn. by f_equal.
    + cbn. lia.
    + intros [|j] Hj; [done | cbn; apply Hm; lia].
Qed.

Lemma find_sub_None n h : find_sub n h = None <-> contains n h = false.
Proof.
  induction h as [|c h IH]; cbn; destruct (starts_with n _) eqn:E; cbn; try done.
  rewrite <- IH. destruct (find_sub n h); naive_solver.
Qed.

Lemma rfind_sub_Some n h i :
  rfind_sub n h = Some i ->
  h = take i h ++ n ++ drop (i + length n) h /\
  (i + length n <= length h)%nat /\
  forall j, (i < j)%nat -> starts_with n (drop j h) = true -> n = [].
Proof.
  revert i. induction h as [|c h IH]; intros i; cbn.
  - destruct n; cbn; [|done]. intros [= <-]. split_and!; [done | cbn; lia | done].
  - destruct (rfind_sub n h) as [k|] eqn:Ek.
    + intros [= <-]. destruct (IH k eq_refl) as (Hb & Hl & Hm). split_and!.
      * cbn. by f_equal.
      * cbn. lia.
      * intros [|j] Hj; [lia | cbn; apply Hm; lia].
    + destruct (starts_with n (c :: h)) eqn:E; [|done]. intros [= <-].
      apply starts_with_spec in E as [r E].
      assert (Hn : forall m, rfind_sub n m = None -> forall j,
                   starts_with n (drop j m) = true -> False).
      { clear. induction m as [|d m IHm]; intros H j Hj.
        - cbn in *. rewrite drop_nil in Hj. by destruct (starts_with n []).
        - cbn in H. destruct (rfind_sub n m) eqn:Em; [done|].
          destruct j as [|j]; [|by apply (IHm eq_refl j)].
          rewrite drop_0 in Hj. by destruct (starts_with n (d :: m)). }
      split_and!.
      * change (c :: h = n ++ drop (length n) (c :: h)).
        rewrite E. by rewrite drop_app_length.
      * apply (f_equal length) in E. rewrite length_app in E. cbn in *. lia.
      * intros [|j] Hj Hs; [lia|]. cbn in Hs. by destruct (Hn h Ek j).
Qed.

Lemma split_on_nonempty c s : split_on c s <> [].
Proof. destruct s as [|b s]; cbn; [done|]. destruct (b =? c)%Z; [done|]. by destruct (split_on c s). Qed.

Lemma join_split c s : join_with c (split_on c s) = s.
Proof.
  induction s as [|b s IH]; [done|]. cbn.
  destruct (Z.eqb_spec b c) as [->|Hbc].
  - pose proof (split_on_nonempty c s). destruct (split_on c s) eqn:E; [done|].
    cbn [join_with app]. f_equal. exact IH.
  - pose proof (split_on_nonempty c s). destruct (split_on c s) as [|p [|q ps]] eqn:E; [done| |].
    + cbn in *. by f_equal.
    + cbn in *. by f_equal.
Qed.

Lemma split_on_no_sep c s : Forall (fun p => c ∉ p) (split_on c s).
Proof.
  induction s as [|b s IH]; cbn.
  - constructor; [apply not_elem_of_nil | done].
  - destruct (Z.eqb_spec b c); [constructor; [apply not_elem_of_nil|done]|].
    destruct (split_on c s) as [|p ps]; inversion IH; subst; constructor; eauto.
    all: rewrite elem_of_cons; intros [?|?]; try done; try congruence.
    by apply not_elem_of_nil in H.
Qed.

Lemma split_on_app c p s :
  c ∉ p -> split_on c (p ++ c :: s) = p :: split_on c s.
Proof.
  induction p as [|a p IH]; intros H; cbn.
  - by rewrite Z.eqb_refl.
  - apply not_elem_of_cons in H as [H1 H2].
    destruct (Z.eqb_spec a c); [congruence|]. by rewrite (IH H2).
Qed.

Lemma split_on_single c p : c ∉ p -> split_on c p = [p].
Proof.
  induction p as [|a p IH]; intros H; cbn; [done|].
  apply not_elem_of_cons in H as [H1 H2].
  destruct (Z.eqb_spec a c); [congruence|]. by rewrite (IH H2).
Qed.

Lemma split_first_unique c (a a' r r' : bytes) :
  c ∉ a -> c ∉ a' -> a ++ c :: r = a' ++ c :: r' -> a = a' /\ r = r'.
Proof.
  revert a'. induction a as [|x a IH]; intros [|y a'] H H' E; cbn in E.
  - by injection E.
  - injection E as <- _. by destruct H'; constructor.
  - injection E as -> _. by destruct H; constructor.
  - injection E as -> E. apply not_elem_of_cons in H as [_ H].
    apply not_elem_of_cons in H' as [_ H'].
    destruct (IH a' H H' E) as [-> ->]. done.
Qed.

(** ** Bytes and fixed-width encodings *)

Lemma is_byteb_true b : is_byteb b = true <-> is_byte b.
Proof. unfold is_byteb, is_byte. rewrite andb_true_iff, Z.leb_le, Z.ltb_lt. lia. Qed.

(** A boolean fact about bytes is checked on the 256 of them. *)
Lemma byte_forall (P : Z -> bool) :
  forallb P (map Z.of_nat (seq 0 256)) = true -> forall b, is_byte b -> P b = true.
Proof.
  intros H b [H1 H2]. rewrite forallb_forall in H. apply H.
  apply in_map_iff. exists (Z.to_nat b). split; [lia|]. apply in_seq. lia.
Qed.

Lemma lit_bytes s : Forall is_byte (lit s).
Proof.
  induction s as [|c s IH]; cbn; constructor; [|done].
  unfold byte_of_ascii, is_byte. pose proof (N_ascii_bounded c). lia.
Qed.

Lemma wrap_range w z : (0 <= w)%Z -> is_u w (wrap w z).
Proof. intros. unfold wrap, is_u. apply Z.mod_pos_bound. lia. Qed.

Lemma wrap_id w z : is_u w z -> wrap w z = z.
Proof. unfold wrap, is_u. intros. by apply Z.mod_small. Qed.

Lemma wrap_add_inj w s x y : (0 < w)%Z -> (0 <= x < 2 ^ w)%Z -> (0 <= y < 2 ^ w)%Z ->
  wrap w (s + x) = wrap w (s + y) -> x = y.
Proof.
  intros Hw Hx Hy E. unfold wrap in E. assert (0 < 2 ^ w)%Z by (apply Z.pow_pos_nonneg; lia).
  rewrite <- (Z.mod_small x (2 ^ w)), <- (Z.mod_small y (2 ^ w)) by lia.
  replace x with (s + x - s)%Z at 1 by lia. replace y with (s + y - s)%Z at 1 by lia.
  rewrite <- (Zminus_mod_idemp_l (s + x)), E. apply Zminus_mod_idemp_l.
Qed.

#[export] Hint Resolve lit_bytes wrap_range : aso.

Lemma le_bytes_length n z : length (le_bytes n z) = n.
Proof. revert z. induction n as [|n IH]; intros; cbn; [done|]. by rewrite IH. Qed.

Lemma be_bytes_length n z : length (be_bytes n z) = n.
Proof. unfold be_bytes. by rewrite length_rev, le_bytes_length. Qed.

Lemma le_bytes_bytes n z : Forall is_byte (le_bytes n z).
Proof.
  revert z. induction n as [|n IH]; intros; cbn; constructor; [|done].
  unfold is_byte. apply Z.mod_pos_bound. lia.
Qed.

Lemma be_bytes_bytes n z : Forall is_byte (be_bytes n z).
Proof. unfold be_bytes. apply List.Forall_rev, le_bytes_bytes. Qed.

Lemma le_value_bytes n z :
  (0 <= z < 256 ^ Z.of_nat n)%Z -> le_value (le_bytes n z) = z.
Proof.
  revert z. induction n as [|n IH]; intros z Hz; cbn [le_bytes le_value].
  - cbn in Hz. lia.
  - rewrite Nat2Z.inj_succ, Z.pow_succ_r in Hz by lia.
    rewrite IH; [pose proof (Z.div_mod z 256); lia|].
    split; [apply Z.div_pos; lia | apply Z.div_lt_upper_bound; lia].
Qed.

Lemma be_value_bytes n z :
  (0 <= z < 256 ^ Z.of_nat n)%Z -> be_value (be_bytes n z) = z.
Proof. intros. unfold be_value, be_bytes. rewrite rev_involutive. by apply le_value_bytes. Qed.

Lemma le_bytes_value l :
  Forall is_byte l -> le_bytes (length l) (le_value l) = l.
Proof.
  induction 1 as [|b l Hb Hl IH]; cbn [length le_bytes le_value]; [done|].
  unfold is_byte in Hb. f_equal.
  - rewrite (Z.mul_comm 256), Z_mod_plus_full. apply Z.mod_small. lia.
  - rewrite (Z.mul_comm 256), Z_div_plus_full by lia.
    rewrite Z.div_small by lia. by rewrite Z.add_0_l.
Qed.

Lemma le_value_range l :
  Forall is_byte l -> (0 <= le_value l < 256 ^ zlen l)%Z.
Proof.
  induction 1 as [|b l Hb Hl IH]; [by vm_compute|].
  rewrite zlen_cons, Z.add_comm, Z.pow_add_r by (pose proof (zlen_nonneg l); lia).
  cbn [le_value]. unfold is_byte in Hb. lia.
Qed.

Lemma be_bytes_inj n x y :
  (0 <= x < 256 ^ Z.of_nat n)%Z -> (0 <= y < 256 ^ Z.of_nat n)%Z ->
  be_bytes n x = be_bytes n y -> x = y.
Proof. intros Hx Hy E. rewrite <- (be_value_bytes n x), <- (be_value_bytes n y) by done. by rewrite E. Qed.

Lemma le_bytes_inj n x y :
  (0 <= x < 256 ^ Z.of_nat n)%Z -> (0 <= y < 256 ^ Z.of_nat n)%Z ->
  le_bytes n x = le_bytes n y -> x = y.
Proof. intros Hx Hy E. rewrite <- (le_value_bytes n x), <- (le_value_bytes n y) by done. by rewrite E. Qed.

#[export] Hint Rewrite le_bytes_length be_bytes_length : aso_len.
#[export] Hint Resolve le_bytes_bytes be_bytes_bytes : aso.

(** ** Bits of machine words *)

Section Bits.
#[local] Open Scope Z_scope.

Lemma lxor_nonneg x b : 0 <= x -> 0 <= b -> 0 <= Z.lxor x b.
Proof. intros. apply Z.lxor_nonneg. lia. Qed.

Lemma lxor_div x b n : 0 <= n -> 0 <= b < 2 ^ n -> Z.lxor x b / 2 ^ n = x / 2 ^ n.
Proof.
  intros Hn Hb. rewrite <- !Z.shiftr_div_pow2, Z.shiftr_lxor, (Z.shiftr_div_pow2 b) by done.
  rewrite (Z.div_small b) by done. apply Z.lxor_0_r.
Qed.

(** Xor with [n] bits moves a value by less than 2^n. *)
Lemma lxor_near x b n : 0 <= n -> 0 <= b < 2 ^ n -> - 2 ^ n < Z.lxor x b - x < 2 ^ n.
Proof.
  intros Hn Hb. pose proof (lxor_div x b n Hn Hb) as E.
  pose proof (Z.div_mod x (2 ^ n)). pose proof (Z.div_mod (Z.lxor x b) (2 ^ n)).
  pose proof (Z.mod_pos_bound x (2 ^ n)). pose proof (Z.mod_pos_bound (Z.lxor x b) (2 ^ n)).
  rewrite E in *. lia.
Qed.

Lemma lxor_bound x b n : 0 <= n -> 0 <= x < 2 ^ n -> 0 <= b < 2 ^ n -> 0 <= Z.lxor x b < 2 ^ n.
Proof.
  intros Hn Hx Hb. split; [apply lxor_nonneg; lia|].
  pose proof (lxor_div x b n Hn Hb) as E. rewrite (Z.div_small x) in E by done.
  pose proof (Z.div_mod (Z.lxor x b) (2 ^ n)). pose proof (Z.mod_pos_bound (Z.lxor x b) (2 ^ n)). lia.
Qed.

Lemma lxor_cancel x y b : Z.lxor x b = Z.lxor y b -> x = y.
Proof.
  intros E. apply (f_equal (fun z => Z.lxor z b)) in E.
  by rewrite !Z.lxor_assoc, Z.lxor_nilpotent, !Z.lxor_0_r in E.
Qed.

Lemma lor_low x d n : 0 <= n -> 0 <= d < 2 ^ n -> Z.lor (Z.shiftl x n) d = x * 2 ^ n + d.
Proof.
  intros Hn Hd. rewrite Z.shiftl_mul_pow2 by lia.
  rewrite <- Z.lxor_lor, <- Z.add_nocarry_lxor; [done| |].
  all: apply Z.bits_inj'; intros i Hi; rewrite Z.land_spec, Z.bits_0.
  all: destruct (Z.lt_ge_cases i n); [by rewrite Z.mul_pow2_bits_low by lia|].
  all: replace (Z.testbit d i) with false; [apply andb_false_r|].
  all: rewrite <- (Z.mod_small d (2 ^ n)) by lia; by rewrite Z.mod_pow2_bits_high by lia.
Qed.
End Bits.

(** ** Hexadecimal *)

Lemma hex_pair_spec b : is_byte b ->
  hex_pair b = [hex_digit (b / 16); hex_digit (b mod 16)] /\
  (0 <= b / 16 < 16)%Z /\ (0 <= b mod 16 < 16)%Z.
Proof.
  intros [H1 H2]. unfold hex_pair.
  rewrite Z.shiftr_div_pow2 by lia. change 15%Z with (Z.ones 4).
  rewrite Z.land_ones by lia. change (2 ^ 4)%Z with 16%Z.
  split_and!; try done; try apply Z.mod_pos_bound; try lia.
  - apply Z.div_pos; lia.
  - apply Z.div_lt_upper_bound; lia.
Qed.

Lemma hex_digit_inj a b :
  (0 <= a < 16)%Z -> (0 <= b < 16)%Z -> hex_digit a = hex_digit b -> a = b.
Proof. unfold hex_digit. intros. repeat split_if_in H1; lia. Qed.

Lemma hex_pair_inj a b : is_byte a -> is_byte b -> hex_pair a = hex_pair b -> a = b.
Proof.
  intros Ha Hb. destruct (hex_pair_spec a Ha) as (-> & ? & ?).
  destruct (hex_pair_spec b Hb) as (-> & ? & ?). intros [= E1 E2].
  apply hex_digit_inj in E1; [|lia..]. apply hex_digit_inj in E2; [|lia..].
  rewrite (Z.div_mod a 16), (Z.div_mod b 16) by lia. congruence.
Qed.

Lemma hex_of_length l : length (hex_of l) = (2 * length l)%nat.
Proof.
  unfold hex_of. induction l as [|b l IH]; [done|]. cbn [flat_map].
  rewrite length_app, IH. cbn. lia.
Qed.

Lemma hex_of_inj l k :
  Forall is_byte l -> Forall is_byte k -> hex_of l = hex_of k -> l = k.
Proof.
  intros Hl. revert k. induction Hl as [|b l Hb Hl IH]; intros k Hk E.
  - destruct k; [done|]. discriminate E.
  - destruct Hk as [|c k Hc Hk]; [discriminate E|].
    unfold hex_of in E. cbn [flat_map] in E.
    apply app_eq_len in E as [E1 E2]; [|done].
    f_equal; [by apply hex_pair_inj | by apply IH].
Qed.

(** Indexing the table is [hex_digit]. *)
Lemma HEX_lookup n : (0 <= n < 16)%Z -> HEX !! Z.to_nat n = Some (hex_digit n).
Proof.
  intros H.
  assert (Hc : forall m, (m < 16)%nat -> HEX !! m = Some (hex_digit (Z.of_nat m))).
  { intros m Hm. do 16 (destruct m as [|m]; [reflexivity|]). lia. }
  rewrite Hc by lia. by rewrite Z2Nat.id by lia.
Qed.

Lemma hex_digit_class n : (0 <= n < 16)%Z -> is_ascii_hexdigit (hex_digit n) = true.
Proof.
  intros. assert (Hc : forall m, (m < 16)%nat -> is_ascii_hexdigit (hex_digit (Z.of_nat m)) = true).
  { intros m Hm. do 16 (destruct m as [|m]; [reflexivity|]). lia. }
  rewrite <- (Z2Nat.id n) by lia. apply Hc. lia.
Qed.

Lemma hex_of_hexdigits l :
  Forall is_byte l -> forallb is_ascii_hexdigit (hex_of l) = true.
Proof.
  induction 1 as [|b l Hb Hl IH]; [done|]. unfold hex_of in *. cbn [flat_map].
  destruct (hex_pair_spec b Hb) as (-> & ? & ?). cbn [app forallb].
  by rewrite !hex_digit_class, IH by lia.
Qed.

(** ** Decimal *)

Lemma dec_value_aux_app acc l k :
  dec_value_aux acc (l ++ k) = dec_value_aux (dec_value_aux acc l) k.
Proof. revert acc. induction l as [|d l IH]; intros; cbn; [done | apply IH]. Qed.

Lemma dec_aux_spec f n acc :
  (0 <= n < 10 ^ Z.of_nat f)%Z -> (0 < f)%nat ->
  exists ds, dec_aux f n acc = ds ++ acc /\ dec_value ds = n /\
    ds <> [] /\ (length ds <= f)%nat /\ forallb is_ascii_digit ds = true.
Proof.
  revert n acc. induction f as [|f IH]; intros n acc Hn Hf; [lia|]. cbn [dec_aux].
  split_if.
  - exists [(48 + n)%Z]. cbn. unfold dec_value, is_ascii_digit. cbn [dec_value_aux].
    split_and!; try done; try lia.
  - rewrite Nat2Z.inj_succ, Z.pow_succ_r in Hn by lia.
    assert (0 < f)%nat by (destruct f; [cbn in Hn; lia | lia]).
    destruct (IH (n / 10)%Z ((48 + n mod 10)%Z :: acc)) as (ds & E & V & Ne & L & D).
    { split; [apply Z.div_pos; lia | apply Z.div_lt_upper_bound; lia]. }
    { done. }
    pose proof (Z.mod_pos_bound n 10).
    exists (ds ++ [(48 + n mod 10)%Z]). rewrite E, <- app_assoc. split_and!.
    + done.
    + unfold dec_value in *. rewrite dec_value_aux_app, V. cbn.
      pose proof (Z.div_mod n 10). lia.
    + by destruct ds.
    + rewrite length_app. cbn. lia.
    + rewrite forallb_app, D. unfold is_ascii_digit. cbn [forallb andb].
      rewrite andb_true_r, andb_true_iff, !Z.leb_le. lia.
Qed.

Lemma dec_spec n : is_u 64 n ->
  dec_value (dec n) = n /\ dec n <> [] /\ (length (dec n) <= 20)%nat /\
  forallb is_ascii_digit (dec n) = true.
Proof.
  intros [H1 H2]. destruct (dec_aux_spec 20 n []) as (ds & E & V & Ne & L & D).
  - split; [done|]. eapply Z.lt_trans; [done|]. by vm_compute.
  - lia.
  - unfold dec. rewrite E, app_nil_r. done.
Qed.

Lemma dec_inj n m : is_u 64 n -> is_u 64 m -> dec n = dec m -> n = m.
Proof.
  intros Hn Hm E. destruct (dec_spec n Hn) as (<- & _). destruct (dec_spec m Hm) as (<- & _).
  by rewrite E.
Qed.

Lemma digits_no_sep c l :
  is_ascii_digit c = false -> forallb is_ascii_digit l = true -> c ∉ l.
Proof.
  intros Hc Hl Hin. rewrite forallb_forall in Hl.
  apply list_elem_of_In, Hl in Hin. congruence.
Qed.

Lemma ends_with_app p r : ends_with p (r ++ p) = true.
Proof. apply ends_with_spec. by exists r. Qed.
