(* ===== verification/Digest.v ===== *)
(** * The digest interface

    The kernel core hashes with the [sha2] crate, which is not part of the
    repository: [Digest] is what its users rely on (a total function from
    byte strings to 32 bytes; [update] calls concatenate their arguments).
    [Sha256.v] implements it from the boot crate's own SHA-256. *)

From S2P Require Import Prelude.

Class Digest : Type := {
  sha256 : bytes -> bytes;
  sha256_length : forall m, length (sha256 m) = 32%nat;
  sha256_bytes : forall m, Forall is_byte (sha256 m)
}.

#[export] Hint Resolve sha256_bytes : aso.

(** [h.update(a); h.update(b); ...; h.finalize()] *)
Definition sha256_parts `{Digest} (parts : list bytes) : bytes := sha256 (concat parts).

(** The rendering shared by every [sha16] of the core: the first eight
    digest bytes as sixteen lowercase hex characters. *)
Definition sha16 `{Digest} (m : bytes) : bytes := hex_of (take 8 (sha256 m)).

Lemma sha16_length `{Digest} m : length (sha16 m) = 16%nat.
Proof. unfold sha16. rewrite hex_of_length, length_take, sha256_length. done. Qed.

Lemma sha256_take_bytes `{Digest} n m : Forall is_byte (take n (sha256 m)).
Proof. apply Forall_take, sha256_bytes. Qed.

Lemma sha16_hex `{Digest} m : forallb is_ascii_hexdigit (sha16 m) = true.
Proof. apply hex_of_hexdigits, sha256_take_bytes. Qed.

Lemma sha16_inj `{Digest} m k :
  sha16 m = sha16 k -> take 8 (sha256 m) = take 8 (sha256 k).
Proof. intros E. apply hex_of_inj in E; auto using sha256_take_bytes. Qed.
