(* ===== verification/Sha256.v ===== *)
(** * The boot crate's SHA-256 ([kernel/boot/src/hwinv.rs], [sha256])

    Executable translation of the fixed-buffer hash that mints [device_pid]
    and [boot_pid]: truncation to [TUPLE_CAP], padding in the 640-byte
    buffer, message schedule, 64 rounds per block, big-endian output. The
    file also makes it an instance of [Digest], the interface the core uses
    for the [sha2] crate. *)

From S2P Require Import Prelude Digest.

Module BootSha.

Definition TUPLE_CAP : Z := 512.
Definition MSG_CAP : Z := 640.

Definition rotate_right (x n : Z) : Z :=
  Z.lor (Z.shiftr x n) (wrap32 (Z.shiftl x (32 - n))).

Definition not32 (x : Z) : Z := Z.lxor x 4294967295.

(** The constant tables, written as the hexadecimal words of the source. *)
Definition hex_val (c : Z) : Z := if (c <? 58)%Z then (c - 48)%Z else (c - 87)%Z.

Fixpoint hex_words (acc : Z) (l : bytes) : list Z :=
  match l with
  | [] => []
  | c :: l' =>
      if (c =? 32)%Z then acc :: hex_words 0 l'
      else hex_words (16 * acc + hex_val c) l'
  end.

Definition K : list Z :=
  hex_words 0 (lit "428a2f98 71374491 b5c0fbcf e9b5dba5 3956c25b 59f111f1 923f82a4 ab1c5ed5 ") ++
  hex_words 0 (lit "d807aa98 12835b01 243185be 550c7dc3 72be5d74 80deb1fe 9bdc06a7 c19bf174 ") ++
  hex_words 0 (lit "e49b69c1 efbe4786 0fc19dc6 240ca1cc 2de92c6f 4a7484aa 5cb0a9dc 76f988da ") ++
  hex_words 0 (lit "983e5152 a831c66d b00327c8 bf597fc7 c6e00bf3 d5a79147 06ca6351 14292967 ") ++
  hex_words 0 (lit "27b70a85 2e1b2138 4d2c6dfc 53380d13 650a7354 766a0abb 81c2c92e 92722c85 ") ++
  hex_words 0 (lit "a2bfe8a1 a81a664b c24b8b70 c76c51a3 d192e819 d6990624 f40e3585 106aa070 ") ++
  hex_words 0 (lit "19a4c116 1e376c08 2748774c 34b0bcb5 391c0cb3 4ed8aa4a 5b9cca4f 682e6ff3 ") ++
  hex_words 0 (lit "748f82ee 78a5636f 84c87814 8cc70208 90befffa a4506ceb bef9a3f7 c67178f2 ").

Definition H0 : list Z :=
  hex_words 0 (lit "6a09e667 bb67ae85 3c6ef372 a54ff53a 510e527f 9b05688c 1f83d9ab 5be0cd19 ").

Example K_table : length K = 64%nat /\ hd 0%Z K = 0x428a2f98%Z /\ last K = Some 0xc67178f2%Z.
Proof. vm_compute. done. Qed.

(** [while total % 64 != 56 { total += 1 }]; 64 iterations always reach it. *)
Fixpoint pad_loop (fuel : nat) (total : Z) : Z :=
  match fuel with
  | O => total
  | S f => if (total mod 64 =? 56)%Z then total else pad_loop f (total + 1)%Z
  end.

(** The bytes [msg[..total]] after padding. *)
Definition padded (data : bytes) : bytes :=
  let n := if (zlen data >? TUPLE_CAP)%Z then TUPLE_CAP else zlen data in
  let total := pad_loop 64 (n + 1)%Z in
  take (Z.to_nat n) data ++ [128%Z] ++
  replicate (Z.to_nat (total - (n + 1))) 0%Z ++ be_bytes 8 (wrap64 (n * 8)).

(** [w[0..16]]: big-endian words of one 64-byte block. *)
Fixpoint words_be (l : bytes) : list Z :=
  match l with
  | a :: b :: c :: d :: l' =>
      (((a * 256 + b) * 256 + c) * 256 + d)%Z :: words_be l'
  | _ => []
  end.

Fixpoint schedule (n : nat) (w : list Z) : list Z :=
  match n with
  | O => w
  | S n' =>
      let i := length w in
      let w15 := w !!! (i - 15)%nat in
      let w2 := w !!! (i - 2)%nat in
      let s0 := Z.lxor (Z.lxor (rotate_right w15 7) (rotate_right w15 18)) (Z.shiftr w15 3) in
      let s1 := Z.lxor (Z.lxor (rotate_right w2 17) (rotate_right w2 19)) (Z.shiftr w2 10) in
      let wi := wrap32 (wrap32 (wrap32 (w !!! (i - 16)%nat + s0) + w !!! (i - 7)%nat) + s1) in
      schedule n' (w ++ [wi])
  end.

Record regs := Regs { ra : Z; rb : Z; rc : Z; rd : Z; re : Z; rf : Z; rg : Z; rh : Z }.

Definition round (s : regs) (kw : Z * Z) : regs :=
  let '(Regs a b c d e f g hh) := s in
  let s1 := Z.lxor (Z.lxor (rotate_right e 6) (rotate_right e 11)) (rotate_right e 25) in
  let ch := Z.lxor (Z.land e f) (Z.land (not32 e) g) in
  let t1 := wrap32 (wrap32 (wrap32 (wrap32 (hh + s1) + ch) + kw.1) + kw.2) in
  let s0 := Z.lxor (Z.lxor (rotate_right a 2) (rotate_right a 13)) (rotate_right a 22) in
  let maj := Z.lxor (Z.lxor (Z.land a b) (Z.land a c)) (Z.land b c) in
  let t2 := wrap32 (s0 + maj) in
  Regs (wrap32 (t1 + t2)) a b c (wrap32 (d + t1)) e f g.

Definition regs_of (h : list Z) : regs :=
  Regs (h !!! 0%nat) (h !!! 1%nat) (h !!! 2%nat) (h !!! 3%nat)
       (h !!! 4%nat) (h !!! 5%nat) (h !!! 6%nat) (h !!! 7%nat).

Definition compress (h : list Z) (block : bytes) : list Z :=
  let w := schedule 48 (words_be block) in
  let '(Regs a b c d e f g hh) := foldl round (regs_of h) (combine K w) in
  zip_with (fun x y => wrap32 (x + y)) h [a; b; c; d; e; f; g; hh].

(** [while off < total { ...; off += 64 }] *)
Fixpoint blocks (fuel : nat) (h : list Z) (msg : bytes) : list Z :=
  match fuel, msg with
  | S f, _ :: _ => blocks f (compress h (take 64 msg)) (drop 64 msg)
  | _, _ => h
  end.

(** [MSG_CAP / 64] blocks bound the loop. *)
Definition sha256 (data : bytes) : bytes :=
  flat_map (be_bytes 4) (blocks 10 H0 (padded data)).

(** ** Padding *)

Lemma pad_loop_eq d f t :
  ((t + Z.of_nat d) mod 64 = 56)%Z -> (d < 64)%nat -> (d < f)%nat ->
  pad_loop f t = (t + Z.of_nat d)%Z.
Proof.
  revert f t. induction d as [|d IH]; intros [|f] t Hm Hd Hf; try lia; cbn [pad_loop].
  - rewrite Z.add_0_r in Hm. rewrite (proj2 (Z.eqb_eq _ _) Hm). lia.
  - destruct (Z.eqb_spec (t mod 64) 56) as [E|E].
    + exfalso. clear IH. pose proof (Z.div_mod t 64). pose proof (Z.div_mod (t + Z.of_nat (S d)) 64). lia.
    + rewrite IH; [lia | rewrite <- Hm; f_equal; lia | lia | lia].
Qed.

Lemma pad_total n :
  (0 <= n)%Z ->
  (n + 1 <= pad_loop 64 (n + 1) < n + 65)%Z /\ (pad_loop 64 (n + 1) mod 64 = 56)%Z.
Proof.
  intros Hn. pose proof (Z.mod_pos_bound (56 - (n + 1)) 64 eq_refl) as Hb.
  assert (Hm : ((n + 1 + (56 - (n + 1)) mod 64) mod 64 = 56)%Z).
  { rewrite Zplus_mod_idemp_r. by replace (n + 1 + (56 - (n + 1)))%Z with 56%Z by lia. }
  set (k := ((56 - (n + 1)) mod 64)%Z) in *.
  rewrite (pad_loop_eq (Z.to_nat k)); rewrite ?Z2Nat.id by lia; try done; lia.
Qed.

(** ** Widths *)

Lemma compress_length h block :
  length h = 8%nat -> length (compress h block) = 8%nat.
Proof.
  intros Hl. unfold compress. destruct (foldl round _ _) as [a b c d e f g hh].
  rewrite length_zip_with, Hl. done.
Qed.

Lemma blocks_length f h m : length h = 8%nat -> length (blocks f h m) = 8%nat.
Proof.
  revert h m. induction f as [|f IH]; intros h m Hl; [done|].
  destruct m; [done|]. cbn [blocks]. by apply IH, compress_length.
Qed.

Lemma sha256_len data : length (sha256 data) = 32%nat.
Proof.
  unfold sha256.
  assert (E : forall l, length (flat_map (be_bytes 4) l) = (4 * length l)%nat).
  { induction l as [|x l IH]; [done|]. cbn [flat_map].
    rewrite length_app, IH, be_bytes_length. cbn. lia. }
  by rewrite E, blocks_length.
Qed.

Lemma sha256_all_bytes data : Forall is_byte (sha256 data).
Proof.
  unfold sha256. induction (blocks _ _ _) as [|x l IH]; [constructor|].
  cbn [flat_map]. apply Forall_app. split; [apply be_bytes_bytes | done].
Qed.

End BootSha.

(** The boot hash as a [Digest]. *)
Definition boot_digest : Digest := {|
  Digest.sha256 := BootSha.sha256;
  Digest.sha256_length := BootSha.sha256_len;
  Digest.sha256_bytes := BootSha.sha256_all_bytes
|}.

(** ** Properties *)

#[local] Open Scope nat_scope.
Import BootSha.

(** The padding of FIPS 180-4: for an input within the cap, data, 0x80,
    the least number of zeros that makes the length congruent to 56 modulo
    64, and the bit length; a whole number of blocks, inside the buffer. *)
Lemma padded_spec data :
  (zlen data <= TUPLE_CAP)%Z ->
  exists zeros, padded data = data ++ [128%Z] ++ replicate zeros 0%Z ++ be_bytes 8 (8 * zlen data)
    /\ (zeros < 64)%nat
    /\ (zlen (padded data) mod 64 = 0)%Z /\ (zlen (padded data) <= MSG_CAP)%Z.
Proof.
  intros Hd. unfold padded. pose proof (zlen_nonneg data) as Hp.
  destruct (Z.gtb_spec (zlen data) TUPLE_CAP) as [?|_]; [lia|].
  destruct (pad_total (zlen data) Hp) as [Hr Hm].
  set (total := pad_loop 64 (zlen data + 1)) in *.
  exists (Z.to_nat (total - (zlen data + 1))).
  assert (E : take (Z.to_nat (zlen data)) data = data).
  { unfold zlen. rewrite Nat2Z.id. apply take_ge. lia. }
  rewrite E, (Z.mul_comm 8), wrap_id by (unfold is_u, TUPLE_CAP in *; lia).
  split; [done|]. split; [lia|].
  assert (L : zlen (data ++ [128%Z] ++ replicate (Z.to_nat (total - (zlen data + 1))) 0%Z ++
              be_bytes 8 (zlen data * 8)) = (total + 8)%Z).
  { clearbody total. unfold zlen in *.
    rewrite !length_app, length_replicate, be_bytes_length. cbn [length]. lia. }
  rewrite L. split.
  - rewrite <- Zplus_mod_idemp_l, Hm. done.
  - unfold TUPLE_CAP, MSG_CAP in *. pose proof (Z.div_mod total 64).
    assert (total / 64 <= 8)%Z.
    { apply Z.lt_succ_r. apply Z.div_lt_upper_bound; lia. } lia.
Qed.
