(* ===== verification/Access.v ===== *)
(** * Access tiers: [syscall::AccessTier], [tier], [tier_gate]

    The seven access tiers, the per-tier policy table and the path
    classifier ([kernel/core/src/tier/mod.rs]), and the caller/target
    decision matrix ([kernel/core/src/tier_gate/mod.rs]). *)

From S2P Require Import Prelude.

Inductive AccessTier :=
| Public | Restricted | Stealth | Hidden | Shadow | Secret | Sovereignty.

#[export] Instance AccessTier_eq_dec : EqDecision AccessTier.
Proof. solve_decision. Defined.

Definition all_tiers : list AccessTier :=
  [Public; Restricted; Stealth; Hidden; Shadow; Secret; Sovereignty].

Lemma elem_of_all_tiers t : t ∈ all_tiers.
Proof. destruct t; repeat constructor. Qed.

Module Tier.

Inductive EnumerationPolicy :=
| PathsAndMetadataAllowed | HashesAndSummariesOnly | RedactedPathHashOnly
| FullyRedactedMetadataOnly | HashesRetentionWindowsOnly | SealedReferenceOnly.

Inductive AuthorityRequirement :=
| AnyAgentRead | OperatorOrQuintetCosign | OperatorWitnessRequired | OperatorOnly
| AdminPlusSovereignty.

Record TierPolicy := {
  tier : AccessTier;
  enumeration : EnumerationPolicy;
  authority : AuthorityRequirement
}.

Definition TIER_POLICY_TABLE : list TierPolicy := [
  {| tier := Public; enumeration := PathsAndMetadataAllowed; authority := AnyAgentRead |};
  {| tier := Restricted; enumeration := HashesAndSummariesOnly;
     authority := OperatorOrQuintetCosign |};
  {| tier := Stealth; enumeration := RedactedPathHashOnly;
     authority := OperatorWitnessRequired |};
  {| tier := Hidden; enumeration := FullyRedactedMetadataOnly; authority := OperatorOnly |};
  {| tier := Shadow; enumeration := HashesRetentionWindowsOnly;
     authority := AdminPlusSovereignty |};
  {| tier := Secret; enumeration := SealedReferenceOnly;
     authority := OperatorWitnessRequired |};
  {| tier := Sovereignty; enumeration := SealedReferenceOnly;
     authority := AdminPlusSovereignty |}
].

(** [&TIER_POLICY_TABLE[i]]; [None] would be the index panic. *)
Definition policy_for (t : AccessTier) : option TierPolicy :=
  match t with
  | Public => TIER_POLICY_TABLE !! 0%nat
  | Restricted => TIER_POLICY_TABLE !! 1%nat
  | Stealth => TIER_POLICY_TABLE !! 2%nat
  | Hidden => TIER_POLICY_TABLE !! 3%nat
  | Shadow => TIER_POLICY_TABLE !! 4%nat
  | Secret => TIER_POLICY_TABLE !! 5%nat
  | Sovereignty => TIER_POLICY_TABLE !! 6%nat
  end.

Inductive TierClassifierErr := PathMalformed | UnclassifiedDefault.

Definition classify_path `{UnicodeCase} (path : bytes) : result TierClassifierErr AccessTier :=
  if bytes_eqb path [] || contains [0%Z] path then Err PathMalformed
  else
    let lower := to_lowercase path in
    if contains (lit "_big-pickle-quarantine") lower then Ok Hidden
    else if contains (lit "sovlinux") lower then Ok Shadow
    else if starts_with (lit "vault/secret/") lower
         || contains (lit "/vault/secret/") lower then Ok Secret
    else if contains (lit "stealth/") lower then Ok Stealth
    else if contains (lit "restricted/") lower then Ok Restricted
    else Ok Public.

Definition quintuple_auth_covers (t : AccessTier) : bool := true.

(** The policy row of a tier is the row that names it. *)
Lemma policy_for_tier t : tier <$> policy_for t = Some t.
Proof. by destruct t. Qed.

End Tier.

Module TierGate.

Inductive TierGateVerdict := Allow | Deny | Escalate.

#[export] Instance TierGateVerdict_eq_dec : EqDecision TierGateVerdict.
Proof. solve_decision. Defined.

Definition tier_rank (t : AccessTier) : Z :=
  match t with
  | Public => 0 | Restricted => 1 | Stealth => 2 | Hidden => 3
  | Shadow => 4 | Secret => 5 | Sovereignty => 6
  end.

Definition check (caller_tier target_tier : AccessTier) : TierGateVerdict :=
  let caller := tier_rank caller_tier in
  let target := tier_rank target_tier in
  if bool_decide (target_tier = Sovereignty) && negb (bool_decide (caller_tier = Sovereignty))
  then Deny
  else
    match caller_tier with
    | Sovereignty => Allow
    | Public => if (target <=? tier_rank Restricted)%Z then Allow else Deny
    | Restricted => if (target <=? tier_rank Stealth)%Z then Allow else Escalate
    | Stealth | Hidden => if (target <=? caller)%Z then Allow else Escalate
    | Shadow | Secret => if (target <=? caller)%Z then Allow else Deny
    end.

Definition tier_can_access (caller_tier target_tier : AccessTier) : bool :=
  match check caller_tier target_tier with Allow => true | _ => false end.

(** *** Specification: a ceiling per caller, and who may escalate above it *)

Definition ceiling (caller : AccessTier) : Z :=
  match caller with
  | Public => 1 | Restricted => 2 | Stealth => 2 | Hidden => 3
  | Shadow => 4 | Secret => 5 | Sovereignty => 6
  end.

Definition may_escalate (caller : AccessTier) : bool :=
  match caller with Restricted | Stealth | Hidden => true | _ => false end.

Definition gate_spec (caller target : AccessTier) : TierGateVerdict :=
  if (tier_rank target <=? ceiling caller)%Z then Allow
  else if may_escalate caller && negb (bool_decide (target = Sovereignty)) then Escalate
  else Deny.

Lemma tier_rank_inj a b : tier_rank a = tier_rank b -> a = b.
Proof. by destruct a, b. Qed.

End TierGate.
Import TierGate.

Lemma map_to_ascii_lower_idem s :
  map to_ascii_lower (map to_ascii_lower s) = map to_ascii_lower s.
Proof.
  rewrite map_map. apply map_ext. intros b. unfold to_ascii_lower, is_ascii_uppercase.
  repeat split_if; to_prop; try lia.
Qed.

Lemma map_to_ascii_lower_ascii s :
  forallb is_ascii s = true -> forallb is_ascii (map to_ascii_lower s) = true.
Proof.
  rewrite !forallb_forall. intros H b Hb. apply in_map_iff in Hb as (c & <- & Hc).
  specialize (H c Hc). unfold is_ascii, to_ascii_lower, is_ascii_uppercase in *.
  split_if; to_prop; rewrite andb_true_iff, Z.leb_le, Z.ltb_lt; lia.
Qed.

(** The gate matrix is the ceiling specification: a caller is allowed up to
    its ceiling, Restricted/Stealth/Hidden may escalate above it except to
    Sovereignty, everything else is denied. *)
Theorem check_refines_spec caller target :
  check caller target = gate_spec caller target.
Proof. by destruct caller, target. Qed.

(** C8. Allowed access is closed under lower targets, Sovereignty is reached by
    Sovereignty alone and never by escalation, and escalation is not
    monotone in the caller: Restricted may escalate to Secret where the
    higher Shadow is denied. *)
Theorem gate_lattice caller t t' :
  (check caller t = Allow -> (tier_rank t' <= tier_rank t)%Z -> check caller t' = Allow) /\
  (check caller Sovereignty = Allow <-> caller = Sovereignty) /\
  check caller Sovereignty <> Escalate /\
  (tier_can_access caller t = true <-> (tier_rank t <= ceiling caller)%Z) /\
  (check Restricted Secret = Escalate /\ check Shadow Secret = Deny).
Proof.
  assert (S : forall c u, check c u = gate_spec c u) by by intros [] [].
  unfold tier_can_access. rewrite !S. unfold gate_spec.
  split_and!; try by destruct caller.
  - destruct (Z.leb_spec (tier_rank t) (ceiling caller)).
    + intros _ H'. rewrite (proj2 (Z.leb_le _ _)); [done | lia].
    + by destruct may_escalate, bool_decide.
  - destruct (Z.leb_spec (tier_rank t) (ceiling caller)); [split; [lia|done]|].
    destruct may_escalate, bool_decide; split; (done || lia).
Qed.

Lemma gate_lattice_witness :
  check Hidden Public = Allow /\ (check Hidden Sovereignty = Allow <-> Hidden = Sovereignty).
Proof.
  split.
  - apply (proj1 (gate_lattice Hidden Stealth Public)); [reflexivity | vm_compute; discriminate].
  - apply (gate_lattice Hidden Stealth Public).
Defined.

(** Path classification does not depend on ASCII letter case, never yields
    Sovereignty and never reports [UnclassifiedDefault]; a quarantine
    fragment wins over every other rule. *)
Theorem classify_path_spec `{UnicodeCase} path :
  forallb is_ascii path = true -> path <> [] -> contains [0%Z] path = false ->
  Tier.classify_path (map to_ascii_lower path) = Tier.classify_path path /\
  (forall t, Tier.classify_path path = Ok t -> t <> Sovereignty) /\
  is_ok (Tier.classify_path path) = true /\
  (Tier.classify_path path = Ok Hidden <->
     contains (lit "_big-pickle-quarantine") (map to_ascii_lower path) = true).
Proof.
  intros Ha Hne H0. unfold Tier.classify_path.
  assert (Hz : contains [0%Z] (map to_ascii_lower path) = false).
  { apply not_true_iff_false. intros (a & b & E)%contains_spec.
    apply not_true_iff_false in H0. apply H0. apply contains_spec.
    apply map_eq_app in E as (l1 & l2 & -> & <- & E).
    apply map_eq_app in E as (l3 & l4 & -> & E & <-).
    destruct l3 as [|z [|]]; [done| |done]. injection E as E.
    exists l1, l4. unfold to_ascii_lower, is_ascii_uppercase in E.
    split_if_in E; to_prop; [lia|]. by subst. }
  rewrite H0, Hz, !to_lowercase_ascii, map_to_ascii_lower_idem
    by auto using map_to_ascii_lower_ascii.
  assert (E1 : bytes_eqb path [] = false) by by apply bytes_eqb_false.
  assert (E2 : bytes_eqb (map to_ascii_lower path) [] = false).
  { apply bytes_eqb_false. by destruct path. }
  rewrite E1, E2. cbn [orb].
  split_and!; [done | | |]; repeat split_if; naive_solver.
Qed.

Lemma classify_path_spec_witness :
  is_ok (@Tier.classify_path ascii_case (lit "/mnt/SOVLINUX/cold")) = true /\
  @Tier.classify_path ascii_case (lit "/mnt/SOVLINUX/cold") = Ok Shadow.
Proof.
  split; [|vm_compute; reflexivity].
  apply (@classify_path_spec ascii_case (lit "/mnt/SOVLINUX/cold"));
    [vm_compute; reflexivity | discriminate | vm_compute; reflexivity].
Defined.
