(* ===== verification/Transit.v ===== *)
(** * Cross-tier transit: [highway] and [transit]

    [kernel/core/src/highway/mod.rs] decides whether a handle may move
    between two tiers; [kernel/core/src/transit/mod.rs] wraps the decision
    in an executor that also bounds the envelope size and hands out
    transit ids from the static [NEXT_TRANSIT_ID]. *)

From S2P Require Import Prelude Access.

Module Highway.
Import Tier.

Inductive HighwayErr :=
| SameTier | TransitForbidden | NotInQuintupleAuthWindow | CosignFailure | Unimplemented.

Record TransitVerdict := {
  from : AccessTier;
  to : AccessTier;
  authorized : bool;
  deny_reason : option bytes;
  cosign_row : option Z
}.

Definition check_transit (from to : AccessTier) : result HighwayErr TransitVerdict :=
  if bool_decide (from = to) then Err SameTier
  else if negb (quintuple_auth_covers to) then
    Ok {| from := from; to := to; authorized := false;
          deny_reason := Some (lit "destination tier not in current quintuple-auth window");
          cosign_row := None |}
  else
    Ok {| from := from; to := to; authorized := true; deny_reason := None;
          cosign_row := None |}.

(** The chain is borrowed mutably and left as it is. *)
Definition execute_transit {Chain} (chain : Chain) (from to : AccessTier)
    (resource_id : bytes) : result HighwayErr TransitVerdict * Chain :=
  (Err Unimplemented, chain).

End Highway.

Module Transit.
Import Highway.

Definition MAX_TRANSIT_ENVELOPE_BYTES : Z := 64 * 1024.

Record TransitRequest := {
  from_tier : AccessTier;
  to_tier : AccessTier;
  envelope_size : Z
}.

Inductive TransitErr :=
| TierMismatch | OversizedPayload | QuintupleAuthRequired | ChainAppendFailed.

(** [NEXT_TRANSIT_ID] is the state; [fetch_add] wraps at 64 bits. *)
Definition execute (next_transit_id : Z) (req : TransitRequest) : result TransitErr Z * Z :=
  if (envelope_size req >? MAX_TRANSIT_ENVELOPE_BYTES)%Z
  then (Err OversizedPayload, next_transit_id)
  else
    match check_transit (from_tier req) (to_tier req) with
    | Err SameTier => (Err TierMismatch, next_transit_id)
    | Err _ => (Err ChainAppendFailed, next_transit_id)
    | Ok verdict =>
        if negb (authorized verdict) then (Err QuintupleAuthRequired, next_transit_id)
        else (Ok next_transit_id, wrap64 (next_transit_id + 1))
    end.

Definition initial_transit_id : Z := 1.

(** A sequence of requests, and the ids handed out. *)
Fixpoint execute_all (st : Z) (reqs : list TransitRequest) : list (result TransitErr Z) * Z :=
  match reqs with
  | [] => ([], st)
  | r :: rs =>
      let '(v, st1) := execute st r in
      let '(vs, st2) := execute_all st1 rs in
      (v :: vs, st2)
  end.

Definition ids_of (vs : list (result TransitErr Z)) : list Z :=
  omap (fun v => match v with Ok i => Some i | Err _ => None end) vs.

End Transit.
Import Highway Transit TierGate.

Lemma execute_cases st req :
  execute st req =
  if (envelope_size req >? MAX_TRANSIT_ENVELOPE_BYTES)%Z then (Err OversizedPayload, st)
  else if bool_decide (from_tier req = to_tier req) then (Err TierMismatch, st)
  else (Ok st, wrap64 (st + 1)).
Proof. unfold execute, check_transit. repeat split_if; naive_solver. Qed.

Lemma execute_all_spec st reqs vs st' :
  (0 <= st)%Z -> (st + zlen reqs <= U64_MAX)%Z ->
  execute_all st reqs = (vs, st') ->
  ids_of vs = map (fun i => st + Z.of_nat i)%Z (seq 0 (length (ids_of vs))) /\
  st' = (st + zlen (ids_of vs))%Z.
Proof.
  revert st vs st'. induction reqs as [|r rs IH]; intros st vs st' H0 Hb E; cbn in E.
  - injection E as <- <-. split; [done | unfold zlen; cbn; lia].
  - rewrite zlen_cons in Hb. pose proof (zlen_nonneg rs).
    rewrite execute_cases in E.
    destruct (envelope_size r >? MAX_TRANSIT_ENVELOPE_BYTES)%Z;
      [|destruct (bool_decide (from_tier r = to_tier r))];
      destruct (execute_all _ rs) as [ws st2] eqn:E2; injection E as <- <-.
    1,2: apply IH in E2; [exact E2 | lia | lia].
    unfold U64_MAX in *. rewrite wrap_id in E2 by (unfold is_u; lia).
    apply IH in E2 as [E2 ->]; [|lia|lia].
    change (ids_of (Ok st :: ws)) with (st :: ids_of ws).
    cbn [length seq map]. rewrite zlen_cons. split; [|lia].
    f_equal; [lia|]. rewrite E2 at 1. rewrite <- seq_shift, map_map.
    apply map_ext. intros. lia.
Qed.

(** The transit executor accepts exactly the requests within 64 KiB between
    different tiers; the ids it hands out over any run are consecutive, so
    pairwise different, and a rejected request consumes none. *)
Theorem transit_ids_consecutive reqs vs st' :
  (zlen reqs < U64_MAX)%Z ->
  execute_all initial_transit_id reqs = (vs, st') ->
  ids_of vs = map (fun i => 1 + Z.of_nat i)%Z (seq 0 (length (ids_of vs))) /\
  NoDup (ids_of vs) /\ st' = (1 + zlen (ids_of vs))%Z /\
  map is_ok vs = map (fun r => (envelope_size r <=? MAX_TRANSIT_ENVELOPE_BYTES)%Z
                        && negb (bool_decide (from_tier r = to_tier r))) reqs.
Proof.
  intros Hb E. pose proof E as E0.
  apply execute_all_spec in E as [Ei Es]; [|unfold initial_transit_id; lia..].
  split_and!; [done | | done |].
  - rewrite Ei. apply NoDup_fmap; [|apply NoDup_seq]. intros i j ?. lia.
  - clear -E0. unfold initial_transit_id in E0. revert vs st' E0. generalize 1%Z.
    induction reqs as [|r rs IH]; intros st vs st' E; cbn in E; [by injection E as <- <-|].
    rewrite execute_cases in E. rewrite Z.gtb_ltb, Z.ltb_antisym in E. cbn [map].
    destruct (_ <=? _)%Z; cbn [negb andb] in *; [destruct (bool_decide _); cbn [negb]|];
      destruct (execute_all _ rs) as [ws st2] eqn:E2; injection E as <- <-; cbn [map is_ok];
      f_equal; by eapply IH.
Qed.

Lemma transit_ids_consecutive_witness :
  let reqs := [Build_TransitRequest Public Shadow 1024; Build_TransitRequest Public Public 1;
               Build_TransitRequest Hidden Secret 65537; Build_TransitRequest Hidden Public 65536] in
  NoDup (ids_of (execute_all initial_transit_id reqs).1) /\
  ids_of (execute_all initial_transit_id reqs).1 = [1; 2]%Z.
Proof.
  intros reqs. split; [|vm_compute; reflexivity].
  destruct (execute_all initial_transit_id reqs) as [vs st'] eqn:E.
  apply (transit_ids_consecutive reqs vs st'); [vm_compute; reflexivity | exact E].
Defined.

(** Transit does not consult the tier gate: every move between different
    tiers is authorized, although the gate denies all non-Sovereignty
    callers the Sovereignty target (no cosign override). *)
Theorem check_transit_ignores_gate from to :
  from <> to ->
  (exists v, check_transit from to = Ok v /\ authorized v = true /\ deny_reason v = None) /\
  (to = Sovereignty -> check from to = Deny) /\
  (execute initial_transit_id (Build_TransitRequest Public Sovereignty 0)).1 = Ok 1%Z.
Proof.
  intros H. unfold check_transit. rewrite bool_decide_eq_false_2 by done. cbn.
  split_and!; [by eexists | intros ->; by destruct from | done].
Qed.

Lemma check_transit_ignores_gate_witness :
  exists v, check_transit Public Sovereignty = Ok v /\ authorized v = true /\ deny_reason v = None.
Proof. apply (check_transit_ignores_gate Public Sovereignty). discriminate. Defined.
