(* ===== verification/LevelTag.v ===== *)
(** * Corpus level tags ([kernel/core/src/level_tag/mod.rs])

    The classifier that gives a corpus row its access level from the row's
    path and content: the fragment tables, the index loops of the
    case-insensitive search and of the digit-run scan, and [assign_level].
    The loops are shown equal to substring search on the lower-cased text,
    and the levels to a declarative reading of the tables. *)

From S2P Require Import Prelude.

Module LevelTag.

Definition LEVEL_PUBLIC : Z := 0.
Definition LEVEL_FEDERATION : Z := 5.
Definition LEVEL_OWNER_PRIVATE : Z := 9.

Definition PII_PATH_FRAGMENTS : list bytes := map lit
  [ "legal"; "evidence-package"; "evidence"; "google-support-refund"; "support-refund-complaints";
    "refund-complaint"; "refund"; "bank"; "invoice"; "financial"; "paypal"; "zelle"; "passport";
    "cnpj"; "cpf"; "whatsapp-rayssa"; "beast-keys"; "backup-keys"; "decrypted-vault"; "vault";
    "charm_"; "private-key"; "privatekey"; "recall.key"; ".pem"; ".key"; ".pk8"; ".kdbx";
    ".keystore"; ".jks"; "id_rsa"; "id_ed25519"; "wallet.dat"; "seed-phrase"; "seed_phrase";
    "mnemonic"; "credential"; "secret"; "password"; "passwd"; ".asolaria"; "dcim"; "sdcard";
    "falcon-dump"; "phone-dump" ]%string.

Definition PII_CONTENT_FRAGMENTS : list bytes := map lit
  [ "cnpj"; "cpf "; "paypal"; "zelle"; "refund complaint"; "customer care"; "passport no";
    "invoice #" ]%string.

Definition PUBLIC_CANON_FRAGMENTS : list bytes := map lit
  [ "asolaria-multi-cylinder"; "scientific-voxel-atlas"; "asolaria-real-model";
    "agentterms-os-dashboard"; "asolaria-map-index"; "archaeology-and-significance-canon";
    "brown-hilbert"; "what-is-asolaria"; "algorithms-of-asolaria"; "session-update";
    "readme" ]%string.

Definition ascii_lower (b : Z) : Z := if is_ascii_uppercase b then wrap8 (b + 32) else b.

(** The inner loop: [j] advances while the bytes agree. The indices stay in
    range by the loop conditions. *)
Fixpoint match_loop (fuel : nat) (h n : bytes) (i j : nat) : nat :=
  match fuel with
  | O => j
  | S f =>
      if Nat.ltb j (length n) && (ascii_lower (h !!! (i + j)%nat) =? n !!! j)%Z
      then match_loop f h n i (S j) else j
  end.

(** The outer loop over the start positions. *)
Fixpoint search_loop (fuel : nat) (h n : bytes) (i : nat) : bool :=
  match fuel with
  | O => false
  | S f =>
      if Nat.leb (i + length n) (length h)
      then if Nat.eqb (match_loop (length n) h n i 0) (length n) then true
           else search_loop f h n (S i)
      else false
  end.

Definition contains_ci (haystack needle_lower : bytes) : bool :=
  if (zlen needle_lower =? 0)%Z || (zlen needle_lower >? zlen haystack)%Z then false
  else search_loop (S (length haystack)) haystack needle_lower 0.

(** The [for] loop of [has_digit_run], with the run so far. *)
Fixpoint digit_loop (min_len run : Z) (s : bytes) : bool :=
  match s with
  | [] => false
  | b :: s' =>
      if is_ascii_digit b
      then let run := wrap64 (run + 1) in
           if (min_len <=? run)%Z then true else digit_loop min_len run s'
      else digit_loop min_len 0 s'
  end.

Definition has_digit_run (s : bytes) (min_len : Z) : bool := digit_loop min_len 0 s.

Definition is_pii (path content : bytes) : bool :=
  if existsb (contains_ci path) PII_PATH_FRAGMENTS then true
  else if has_digit_run content 14 then true
  else existsb (contains_ci content) PII_CONTENT_FRAGMENTS.

Definition is_public_canon (path : bytes) : bool :=
  existsb (contains_ci path) PUBLIC_CANON_FRAGMENTS.

Definition assign_level (path content : bytes) : Z :=
  if is_pii path content then LEVEL_OWNER_PRIVATE
  else if is_public_canon path then LEVEL_PUBLIC
  else LEVEL_FEDERATION.

End LevelTag.

Import LevelTag.

(** ** The search loops *)

Lemma ascii_lower_eq b : is_byte b -> ascii_lower b = to_ascii_lower b.
Proof.
  unfold is_byte, ascii_lower, to_ascii_lower, is_ascii_uppercase. intros Hb.
  split_if; [|done]. apply wrap_id. unfold is_u. lia.
Qed.

(** How far two byte strings agree, the first lower-cased. *)
Fixpoint agree (h n : bytes) : nat :=
  match h, n with
  | a :: h', b :: n' => if (ascii_lower a =? b)%Z then S (agree h' n') else O
  | _, _ => O
  end.

Lemma match_loop_agree fuel h n i j :
  (i + length n <= length h)%nat -> (j <= length n)%nat -> (length n - j <= fuel)%nat ->
  match_loop fuel h n i j = (j + agree (drop (i + j) h) (drop j n))%nat.
Proof.
  revert j. induction fuel as [|fuel IH]; intros j Hh Hj Hf; cbn [match_loop].
  { rewrite (drop_ge n) by lia. destruct (drop (i + j) h); cbn; lia. }
  destruct (Nat.ltb_spec j (length n)) as [Hlt|]; cbn [andb].
  2:{ rewrite (drop_ge n) by lia. destruct (drop (i + j) h); cbn; lia. }
  destruct (lookup_lt_is_Some_2 h (i + j)) as [a Ha]; [lia|].
  destruct (lookup_lt_is_Some_2 n j) as [b Hb]; [lia|].
  rewrite (drop_S h a) by done. rewrite (drop_S n b) by done. cbn [agree].
  rewrite (list_lookup_total_correct _ _ _ Ha), (list_lookup_total_correct _ _ _ Hb).
  destruct (ascii_lower a =? b)%Z; [|lia].
  rewrite IH, Nat.add_succ_r by lia. lia.
Qed.

Lemma agree_full h n :
  (agree h n =? length n)%nat = starts_with n (map ascii_lower h).
Proof.
  revert n. induction h as [|a h IH]; intros [|b n]; cbn; try done.
  rewrite Z.eqb_sym. destruct (b =? ascii_lower a)%Z; [apply IH | done].
Qed.

Lemma search_loop_contains fuel h n i :
  n <> [] -> (i <= length h)%nat -> (length h - i < fuel)%nat ->
  search_loop fuel h n i = contains n (map ascii_lower (drop i h)).
Proof.
  intros Hn. revert i. induction fuel as [|fuel IH]; intros i Hi Hf; [lia|]. cbn [search_loop].
  destruct (Nat.leb_spec (i + length n) (length h)) as [Hle|Hgt].
  - rewrite match_loop_agree, Nat.add_0_r, Nat.add_0_l, drop_0, agree_full by lia.
    assert (0 < length n)%nat by (destruct n; [done|cbn; lia]).
    destruct (lookup_lt_is_Some_2 h i) as [a Ha]; [lia|].
    rewrite IH by lia. rewrite (drop_S h a i) by done. cbn [map contains].
    by destruct (starts_with n _).
  - symmetry. apply not_true_iff_false. intros Hc%contains_length.
    rewrite length_map, length_drop in Hc. lia.
Qed.

Lemma contains_ci_spec h n :
  n <> [] -> contains_ci h n = contains n (map ascii_lower h).
Proof.
  intros Hn. unfold contains_ci.
  destruct (zlen n =? 0)%Z eqn:E0; to_prop; [by apply zlen_zero_nil in E0|]. cbn [orb].
  destruct (Z.gtb_spec (zlen n) (zlen h)) as [Hgt|Hle].
  - symmetry. apply not_true_iff_false. intros Hc%contains_length.
    rewrite length_map in Hc. unfold zlen in Hgt. lia.
  - by rewrite search_loop_contains, drop_0 by (done || lia).
Qed.

(** ** The digit scan *)

Definition digits (d : bytes) : Prop := forallb is_ascii_digit d = true.

(** [k] digits at the head of [s]; [k] digits somewhere in [s]. *)
Definition leading (k : Z) (s : bytes) : Prop := exists d b, s = d ++ b /\ digits d /\ zlen d = k.
Definition within (k : Z) (s : bytes) : Prop := exists a r, s = a ++ r /\ leading k r.

Lemma leading_zero s : leading 0 s.
Proof. by exists [], s. Qed.

Lemma leading_nil k : leading k [] -> k = 0%Z.
Proof. intros (d & b & [-> _]%eq_sym%app_nil & _ & <-). done. Qed.

Lemma leading_cons k c s :
  (0 < k)%Z -> leading k (c :: s) <-> is_ascii_digit c = true /\ leading (k - 1) s.
Proof.
  intros Hk. split.
  - intros ([|x d] & b & E & Hd & Hl); [unfold zlen in Hl; cbn in Hl; lia|]. injection E as <- ->.
    unfold digits in Hd. cbn [forallb] in Hd. to_prop. split; [done|].
    exists d, b. rewrite zlen_cons in Hl. split_and!; [done..|lia].
  - intros [Hc (d & b & -> & Hd & Hl)]. exists (c :: d), b. unfold digits. cbn [forallb].
    rewrite Hc, zlen_cons. split_and!; [done..|lia].
Qed.

Lemma leading_mono j k s : (0 <= j <= k)%Z -> leading k s -> leading j s.
Proof.
  revert j k. induction s as [|c s IH]; intros j k Hj H.
  - apply leading_nil in H. replace j with 0%Z by lia. apply leading_zero.
  - destruct (Z.eq_dec j 0%Z) as [->|]; [apply leading_zero|].
    apply leading_cons in H as [Hc H]; [|lia]. apply leading_cons; [lia|].
    split; [done|]. apply (IH _ (k - 1)%Z); [lia|done].
Qed.

Lemma within_cons k c s : within k (c :: s) <-> leading k (c :: s) \/ within k s.
Proof.
  split.
  - intros ([|x a] & r & E & H); cbn in E; [left; by subst|]. injection E as <- ->. right. by exists a, r.
  - intros [H|(a & r & -> & H)]; [by exists [], (c :: s)|by exists (c :: a), r].
Qed.

Lemma digit_loop_spec m run s :
  (0 <= run < m)%Z -> (m < 2 ^ 64)%Z ->
  digit_loop m run s = true <-> leading (m - run) s \/ within m s.
Proof.
  intros Hr Hm. revert run Hr. induction s as [|c s IH]; intros run Hr; cbn [digit_loop].
  - split; [done|]. intros [H%leading_nil|(a & r & [-> ->]%eq_sym%app_nil & H%leading_nil)]; lia.
  - rewrite within_cons, !leading_cons by lia. destruct (is_ascii_digit c) eqn:Ec.
    + rewrite wrap_id by (unfold is_u; lia). destruct (Z.leb_spec m (run + 1)) as [Hle|Hgt].
      * split; [intros _|done]. left. split; [done|].
        replace (m - run - 1)%Z with 0%Z by lia. apply leading_zero.
      * rewrite IH by lia. replace (m - (run + 1))%Z with (m - run - 1)%Z by lia.
        pose proof (leading_mono (m - run - 1) (m - 1) s). split; [tauto|].
        intros [[_ ?]|[[_ ?]|?]]; [by left | left; apply H; [lia|done] | by right].
    + rewrite IH, Z.sub_0_r by lia. pose proof (within_cons m c s) as W.
      split; [|intros [[]|[[]|]]; [done..|by right]].
      intros [H|]; [right; right|by right; right]. by exists [], s.
Qed.

Lemma has_digit_run_spec s m :
  (0 < m < 2 ^ 64)%Z -> has_digit_run s m = true <-> within m s.
Proof.
  intros Hm. unfold has_digit_run. rewrite digit_loop_spec, Z.sub_0_r by lia.
  split; [intros [H|]; [by exists [], s | done] | by right].
Qed.

(** ** Theorems *)

(** [text] carries one of the fragments, up to ASCII case. *)
Definition mentions (table : list bytes) (text : bytes) : Prop :=
  exists f a m b, f ∈ table /\ text = a ++ m ++ b /\ map to_ascii_lower m = f.

Lemma map_lower_bytes s : Forall is_byte s -> map ascii_lower s = map to_ascii_lower s.
Proof. induction 1; cbn; f_equal; [by apply ascii_lower_eq | done]. Qed.

Lemma mentions_spec table text :
  [] ∉ table -> Forall is_byte text ->
  existsb (contains_ci text) table = true <-> mentions table text.
Proof.
  intros Hne Hb. rewrite existsb_exists. split.
  - intros (f & Hf & Hc). apply list_elem_of_In in Hf.
    rewrite contains_ci_spec, map_lower_bytes in Hc by (done || by intros ->).
    apply contains_spec in Hc as (a & b & E).
    apply map_eq_app in E as (a' & r & -> & <- & E). apply map_eq_app in E as (m & b' & -> & <- & <-).
    by exists (map to_ascii_lower m), a', m, b'.
  - intros (f & a & m & b & Hf & -> & <-). exists (map to_ascii_lower m).
    split; [by apply list_elem_of_In|].
    rewrite contains_ci_spec, map_lower_bytes by (done || by intros E; rewrite E in Hf).
    rewrite !map_app. apply contains_mid.
Qed.

Definition no_empty (table : list bytes) : bool := forallb (fun f => negb (bytes_eqb f [])) table.

Lemma no_empty_spec table : no_empty table = true -> [] ∉ table.
Proof.
  unfold no_empty. rewrite forallb_forall. intros H Hin%list_elem_of_In. by apply H in Hin.
Qed.

Definition private_row (path content : bytes) : Prop :=
  mentions PII_PATH_FRAGMENTS path \/ within 14 content \/ mentions PII_CONTENT_FRAGMENTS content.

Lemma is_pii_spec path content :
  Forall is_byte path -> Forall is_byte content ->
  is_pii path content = true <-> private_row path content.
Proof.
  intros Hp Hc. unfold is_pii, private_row.
  rewrite <- !mentions_spec, <- has_digit_run_spec by (done || by apply no_empty_spec).
  destruct (existsb _ PII_PATH_FRAGMENTS), (has_digit_run _ _); naive_solver.
Qed.

(** C27. Every row has one of the three levels, and which one is read off the
    tables: owner-private exactly when the path mentions a private
    fragment, or the content one, or the content has 14 consecutive digits;
    otherwise public exactly when the path mentions a public-canon
    fragment, otherwise federation. Mentioning is substring occurrence up
    to ASCII case. In particular a public row is never private, whatever its
    path says. *)
Theorem assign_level_spec path content :
  Forall is_byte path -> Forall is_byte content ->
  let level := assign_level path content in
  (level = LEVEL_OWNER_PRIVATE <-> private_row path content) /\
  (level = LEVEL_PUBLIC <-> ~ private_row path content /\ mentions PUBLIC_CANON_FRAGMENTS path) /\
  (level = LEVEL_FEDERATION <-> ~ private_row path content /\ ~ mentions PUBLIC_CANON_FRAGMENTS path).
Proof.
  intros Hp Hc. unfold assign_level, is_public_canon, LEVEL_OWNER_PRIVATE, LEVEL_PUBLIC, LEVEL_FEDERATION.
  rewrite <- is_pii_spec, <- (mentions_spec PUBLIC_CANON_FRAGMENTS) by (done || by apply no_empty_spec).
  destruct (is_pii path content), (existsb _ _); naive_solver.
Qed.

Lemma assign_level_spec_witness :
  let path := lit "reports/Asolaria-Real-Model.html" in
  assign_level path (lit "geometry") = LEVEL_PUBLIC /\
  ~ private_row path (lit "geometry") /\
  private_row path (lit "CNPJ 11222333000181").
Proof.
  assert (Hb : Forall is_byte (lit "reports/Asolaria-Real-Model.html")) by apply lit_bytes.
  pose proof (assign_level_spec _ _ Hb (lit_bytes "geometry")) as (_ & Hpub & _).
  pose proof (assign_level_spec _ _ Hb (lit_bytes "CNPJ 11222333000181")) as (Hpriv & _).
  split; [by vm_compute|]. split; [apply Hpub; by vm_compute | apply Hpriv; by vm_compute].
Defined.
