(* ===== verification/Crypto.v ===== *)
(** * Signing substrate ([kernel/core/src/crypto/mod.rs])

    The phase-1 signature scheme (two chained digests of public key and
    message), its constant-time comparison, and the canonical bytes of an
    envelope. The digest is the [Digest] interface. *)

From S2P Require Import Prelude Digest Sha256.

Module Crypto.

Definition SIGNATURE_LEN : nat := 64.
Definition PUBLIC_KEY_LEN : nat := 32.
Definition PRIVATE_KEY_LEN : nat := 32.

Inductive CryptoErr :=
| SignatureInvalid | VerificationFailed | KeyMalformed | CanonicalizationFailed | Unimplemented.

Record Signature := mkSignature { sig_bytes : bytes }.
Record PublicKey := mkPublicKey { pub_bytes : bytes }.
Record PrivateKey := mkPrivateKey { priv_bytes : bytes }.

(** The array types: [[u8; N]]. *)
Definition is_array (n : nat) (b : bytes) : Prop := length b = n /\ Forall is_byte b.

Definition canonical_envelope_bytes (from_pid to_pid : Z) (type_tag verb id : bytes)
    (ts_ns : Z) (payload : bytes) : result CryptoErr bytes :=
  if bytes_eqb type_tag [] || bytes_eqb id [] then Err CanonicalizationFailed
  else Ok (be_bytes 8 from_pid ++ lit "|" ++ be_bytes 8 to_pid ++ lit "|" ++ type_tag ++ lit "|"
             ++ verb ++ lit "|" ++ id ++ lit "|" ++ be_bytes 8 ts_ns ++ lit "|" ++ payload).

Section WithDigest.
Context `{Digest}.

Definition expected_sig_bytes (public : PublicKey) (msg : bytes) : bytes :=
  let half_a := sha256_parts [pub_bytes public; lit ":sign:"; msg] in
  let half_b := sha256_parts [half_a] in
  half_a ++ half_b.

(** [acc |= a[i] ^ b[i]] over the 64 positions, tested once at the end. *)
Definition ct_eq (a b : bytes) : bool :=
  (foldl (fun acc p => Z.lor acc (Z.lxor p.1 p.2)) 0 (zip a b) =? 0)%Z.

Definition derive_public (secret : PrivateKey) : result CryptoErr PublicKey :=
  Ok (mkPublicKey (sha256_parts [priv_bytes secret; lit ":derive:"])).

Definition sign (canonical_bytes : bytes) (priv_key : PrivateKey) : result CryptoErr Signature :=
  public ← derive_public priv_key;
  Ok (mkSignature (expected_sig_bytes public canonical_bytes)).

Definition verify (canonical_bytes : bytes) (sig : Signature) (pub_key : PublicKey) :
    result CryptoErr unit :=
  let expected := expected_sig_bytes pub_key canonical_bytes in
  if ct_eq expected (sig_bytes sig) then Ok tt else Err VerificationFailed.

Lemma expected_sig_array p m : is_array SIGNATURE_LEN (expected_sig_bytes p m).
Proof.
  unfold expected_sig_bytes, is_array, sha256_parts. split.
  - by rewrite length_app, !sha256_length.
  - apply Forall_app. split; apply sha256_bytes.
Qed.

End WithDigest.
End Crypto.
Import Crypto.

Lemma lor_zero a b : (0 <= a)%Z -> (0 <= b)%Z -> (Z.lor a b = 0 <-> a = 0 /\ b = 0)%Z.
Proof. intros. rewrite Z.lor_eq_0_iff. done. Qed.

Lemma lor_fold_zero (ps : list (Z * Z)) acc :
  foldl (fun acc p => Z.lor acc (Z.lxor p.1 p.2)) acc ps = 0%Z <->
  acc = 0%Z /\ Forall (fun p => p.1 = p.2) ps.
Proof.
  revert acc. induction ps as [|[x y] ps IH]; intros acc; cbn [foldl].
  - naive_solver.
  - rewrite IH, Z.lor_eq_0_iff, Z.lxor_eq_0_iff, Forall_cons. naive_solver.
Qed.

(** The XOR-fold comparison is equality on arrays of one length. *)
Lemma ct_eq_true a b : length a = length b -> ct_eq a b = true <-> a = b.
Proof.
  intros Hl. unfold ct_eq. rewrite Z.eqb_eq, lor_fold_zero. split.
  - intros [_ Hf]. revert b Hl Hf. induction a as [|x a IH]; intros [|y b] Hl Hf; try done.
    cbn in Hf. apply Forall_cons in Hf as [E Hf]. cbn in E. subst y.
    f_equal. apply IH; [by injection Hl | done].
  - intros <-. split; [done|]. clear Hl. induction a as [|x a IH]; cbn; by constructor.
Qed.

(** C32. A signature made with a private key verifies under the derived public
    key; more precisely a 64-byte signature verifies exactly when it is the
    digest expression of public key and message, which no secret enters. *)
Theorem sign_verify `{Digest} (sk : PrivateKey) (msg : bytes) (sig : Signature) (pk : PublicKey) :
  length (sig_bytes sig) = SIGNATURE_LEN ->
  (verify msg sig pk = Ok tt <-> sig_bytes sig = expected_sig_bytes pk msg) /\
  (sign msg sk = Ok sig -> derive_public sk = Ok pk -> verify msg sig pk = Ok tt).
Proof.
  intros Hl.
  assert (E : verify msg sig pk = Ok tt <-> sig_bytes sig = expected_sig_bytes pk msg).
  { unfold verify. destruct (expected_sig_array pk msg) as [He _].
    destruct (ct_eq _ _) eqn:Ec.
    - apply ct_eq_true in Ec; [by split | congruence].
    - apply not_true_iff_false in Ec. rewrite ct_eq_true in Ec by congruence.
      split; [done | congruence]. }
  split; [exact E|]. intros Hs Hd. apply E. cbn in Hs, Hd.
  injection Hs as <-. injection Hd as <-. done.
Qed.

Lemma sign_verify_witness :
  let _ := boot_digest in
  let sk := mkPrivateKey (replicate 32 7%Z) in
  let pk := mkPublicKey (sha256_parts [priv_bytes sk; lit ":derive:"]) in
  let sig := mkSignature (expected_sig_bytes pk (lit "envelope")) in
  verify (lit "envelope") sig pk = Ok tt.
Proof.
  intros d sk pk sig. destruct (expected_sig_array pk (lit "envelope")) as [Hl _].
  apply (sign_verify sk (lit "envelope") sig pk Hl); reflexivity.
Defined.

(** C31. The canonical bytes determine every field when type tag, verb and id
    hold no separator; with a separator inside a field two different
    envelopes share their canonical bytes. *)
Theorem canonical_envelope_injective f t ty vb i ts p f' t' ty' vb' i' ts' p' c :
  is_u 64 f -> is_u 64 t -> is_u 64 ts -> is_u 64 f' -> is_u 64 t' -> is_u 64 ts' ->
  124%Z ∉ ty -> 124%Z ∉ vb -> 124%Z ∉ i -> 124%Z ∉ ty' -> 124%Z ∉ vb' -> 124%Z ∉ i' ->
  canonical_envelope_bytes f t ty vb i ts p = Ok c ->
  canonical_envelope_bytes f' t' ty' vb' i' ts' p' = Ok c ->
  (f, t, ty, vb, i, ts, p) = (f', t', ty', vb', i', ts', p') /\
  canonical_envelope_bytes 1 2 (lit "A|B") (lit "C") (lit "i") 3 [] =
  canonical_envelope_bytes 1 2 (lit "A") (lit "B|C") (lit "i") 3 [].
Proof.
  intros Hf Ht Hts Hf' Ht' Hts' N1 N2 N3 N1' N2' N3' E E'. split; [|reflexivity].
  unfold canonical_envelope_bytes in E, E'.
  destruct (_ || _); [done|]. destruct (_ || _); [done|].
  assert (E0 := eq_trans E (eq_sym E')). clear E E'. apply Ok_inj in E0 as E.
  apply app_eq_len in E as [E1 E]; [|by rewrite !be_bytes_length].
  apply app_eq_len in E as [_ E]; [|done].
  apply app_eq_len in E as [E2 E]; [|by rewrite !be_bytes_length].
  apply app_eq_len in E as [_ E]; [|done].
  apply (split_first_unique 124) in E as [-> E]; [|done..].
  apply (split_first_unique 124) in E as [-> E]; [|done..].
  apply (split_first_unique 124) in E as [-> E]; [|done..].
  apply app_eq_len in E as [E3 E]; [|by rewrite !be_bytes_length].
  apply app_eq_len in E as [_ ->]; [|done].
  apply be_bytes_inj in E1, E2, E3; by subst.
Qed.

Lemma canonical_envelope_injective_witness :
  let e := be_bytes 8 1 ++ lit "|" ++ be_bytes 8 2 ++ lit "|EVT|PING|id7|" ++ be_bytes 8 9 ++
           lit "|x|y" in
  canonical_envelope_bytes 1 2 (lit "EVT") (lit "PING") (lit "id7") 9 (lit "x|y") = Ok e /\
  (1, 2, lit "EVT", lit "PING", lit "id7", 9, lit "x|y")%Z =
  (1, 2, lit "EVT", lit "PING", lit "id7", 9, lit "x|y")%Z.
Proof.
  intros e. split; [vm_compute; reflexivity|].
  apply (canonical_envelope_injective 1 2 (lit "EVT") (lit "PING") (lit "id7") 9 (lit "x|y")
           1 2 (lit "EVT") (lit "PING") (lit "id7") 9 (lit "x|y") e);
    first [ vm_compute; reflexivity
          | unfold is_u; lia
          | apply (bool_decide_unpack _); vm_compute; exact I ].
Defined.
