(* ===== verification/CosignChain.v ===== *)
(** * Append-only cosign chain ([kernel/core/src/cosign_chain/mod.rs])

    The sha-linked row ledger: canonical bytes of a row, [append],
    [validate_end_to_end], and the module-level [append] entrypoint with
    its static sequence counter. *)

From S2P Require Import Prelude Digest Sha256 Crypto.

Module CosignChain.

Definition GENESIS_PREV_SHA16 : bytes := lit "0000000000000000".

Inductive CosignChainErr :=
| NonMonotonicRow | ChainLinkBroken | SignatureInvalid | KindMalformed | Unimplemented.

Record CosignRow := mkRow {
  row : Z;
  ts_ns : Z;
  prev_sha16 : bytes;
  kind : bytes;
  payload_sha16 : bytes;
  sig : Crypto.Signature
}.

Record CosignChain := mkChain {
  head_sha16 : bytes;
  next_row : Z;
  rows : list CosignRow
}.

Definition new : CosignChain :=
  {| head_sha16 := GENESIS_PREV_SHA16; next_row := 1; rows := [] |}.

Definition depth (c : CosignChain) : Z := zlen (rows c).
Definition head (c : CosignChain) : bytes := head_sha16 c.

Definition canonical_bytes_of_row (r : CosignRow) : bytes :=
  lit "row=" ++ dec (row r) ++ lit "|ts=" ++ dec (ts_ns r) ++ lit "|prev=" ++ prev_sha16 r ++
  lit "|kind=" ++ kind r ++ lit "|payload=" ++ payload_sha16 r.

Section WithDigest.
Context `{Digest}.

(** [char::from_digit(nibble, 16)] is the lowercase hex digit. *)
Definition sha16_of (b : bytes) : bytes :=
  flat_map (fun byte => [hex_digit (Z.shiftr byte 4); hex_digit (Z.land byte 15)])
    (take 8 (sha256 b)).

Definition append (c : CosignChain) (r : CosignRow) : result CosignChainErr unit * CosignChain :=
  if negb (row r =? next_row c)%Z then (Err NonMonotonicRow, c)
  else if negb (bytes_eqb (prev_sha16 r) (head_sha16 c)) then (Err ChainLinkBroken, c)
  else if bytes_eqb (kind r) [] then (Err KindMalformed, c)
  else
    let canon := canonical_bytes_of_row r in
    (Ok tt, {| head_sha16 := sha16_of canon;
               next_row := wrap64 (next_row c + 1);
               rows := rows c ++ [r] |}).

(** The loop of [validate_end_to_end] from index [i] and the expected
    previous hash. *)
Fixpoint validate_from (i : Z) (expected_prev : bytes) (rs : list CosignRow) :
    result CosignChainErr unit :=
  match rs with
  | [] => Ok tt
  | r :: rs' =>
      if negb (row r =? i + 1)%Z then Err NonMonotonicRow
      else if negb (bytes_eqb (prev_sha16 r) expected_prev) then Err ChainLinkBroken
      else if bytes_eqb (kind r) [] then Err KindMalformed
      else validate_from (i + 1) (sha16_of (canonical_bytes_of_row r)) rs'
  end.

Definition validate_end_to_end (c : CosignChain) : result CosignChainErr unit :=
  validate_from 0 GENESIS_PREV_SHA16 (rows c).

(** Module-level [append]: [APPEND_SEQ_COUNTER] is the state. *)
Definition append_bytes (seq_counter : Z) (r : bytes) : result CosignChainErr Z * Z :=
  if bytes_eqb r [] then (Err KindMalformed, seq_counter)
  else (Ok (wrap64 (seq_counter + 1)), wrap64 (seq_counter + 1)).

(** *** Runs and the chain invariant *)

Definition append_all (c : CosignChain) (rs : list CosignRow) : CosignChain :=
  foldl (fun c r => (append c r).2) c rs.

(** Hash of the last row, or the genesis marker. *)
Definition link_of (rs : list CosignRow) : bytes :=
  match last rs with
  | Some r => sha16_of (canonical_bytes_of_row r)
  | None => GENESIS_PREV_SHA16
  end.

Definition chain_ok (c : CosignChain) : Prop :=
  validate_end_to_end c = Ok tt /\ head_sha16 c = link_of (rows c) /\
  next_row c = (depth c + 1)%Z.

Lemma validate_snoc i p rs r :
  validate_from i p (rs ++ [r]) = Ok tt <->
  validate_from i p rs = Ok tt /\ row r = (i + zlen rs + 1)%Z /\
  prev_sha16 r = match last rs with
                 | Some q => sha16_of (canonical_bytes_of_row q) | None => p end /\
  kind r <> [].
Proof.
  revert i p. induction rs as [|q rs IH]; intros i p; cbn [app validate_from].
  - rewrite zlen_nil, Z.add_0_r. cbn [last].
    destruct (Z.eqb_spec (row r) (i + 1)); cbn [negb]; [|naive_solver].
    destruct (bytes_eqb (prev_sha16 r) p) eqn:E1; cbn [negb].
    + apply bytes_eqb_true in E1. destruct (bytes_eqb (kind r) []) eqn:E2.
      * apply bytes_eqb_true in E2. naive_solver.
      * apply bytes_eqb_false in E2. naive_solver.
    + apply bytes_eqb_false in E1. naive_solver.
  - repeat split_if; try naive_solver. rewrite IH, zlen_cons.
    replace (i + 1 + zlen rs + 1)%Z with (i + (1 + zlen rs) + 1)%Z by lia.
    destruct rs as [|q0 rs]; cbn [last]; [reflexivity|].
    destruct (last (q0 :: rs)) eqn:L; [reflexivity | by apply last_None in L].
Qed.

Lemma sha16_of_length b : length (sha16_of b) = 16%nat.
Proof. exact (sha16_length b). Qed.

Lemma append_Ok c r :
  (append c r).1 = Ok tt <->
  row r = next_row c /\ prev_sha16 r = head_sha16 c /\ kind r <> [].
Proof.
  unfold append. destruct (Z.eqb_spec (row r) (next_row c)); cbn; [|naive_solver].
  destruct (bytes_eqb (prev_sha16 r) _) eqn:E; cbn.
  - apply bytes_eqb_true in E. destruct (bytes_eqb (kind r) []) eqn:E'; cbn.
    + apply bytes_eqb_true in E'. naive_solver.
    + apply bytes_eqb_false in E'. naive_solver.
  - apply bytes_eqb_false in E. naive_solver.
Qed.

Lemma append_preserves c r :
  chain_ok c -> (depth c < U64_MAX - 1)%Z -> chain_ok (append c r).2.
Proof.
  intros (Hv & Hh & Hn) Hd. destruct (append c r) as [res c'] eqn:E.
  destruct res as [[]|e].
  - assert (Ha : (append c r).1 = Ok tt) by by rewrite E. apply append_Ok in Ha as (H1 & H2 & H3).
    unfold append in E. repeat split_if_in E; try done. injection E as <-.
    unfold chain_ok, validate_end_to_end, depth, link_of in *. cbn [snd rows head_sha16 next_row].
    rewrite last_snoc, zlen_snoc. unfold U64_MAX in *.
    pose proof (zlen_nonneg (rows c)). rewrite wrap_id by (unfold is_u; lia).
    split_and!; [|done|lia]. apply validate_snoc. split_and!; try done; try lia; congruence.
  - unfold append in E. repeat split_if_in E; by simplify_eq.
Qed.

End WithDigest.
End CosignChain.
Import CosignChain.

Lemma append_depth `{Digest} c r : (depth (append c r).2 <= depth c + 1)%Z.
Proof.
  unfold append, depth. repeat split_if; cbn [snd rows]; try lia.
  rewrite zlen_snoc. lia.
Qed.

Lemma append_all_ok `{Digest} c rs :
  chain_ok c -> (depth c + zlen rs < U64_MAX)%Z -> chain_ok (append_all c rs).
Proof.
  revert c. induction rs as [|r rs IH]; intros c Hc Hb; [done|].
  cbn [append_all foldl]. rewrite zlen_cons in Hb. pose proof (zlen_nonneg rs).
  apply IH; [apply append_preserves; [done|lia] | pose proof (append_depth c r); lia].
Qed.

(** C1. Whatever sequence of rows is offered to a new chain, accepted or
    refused, the chain validates end to end, its head is the hash of its
    last row, the next row number is its depth plus one, and a further row
    is accepted exactly when number, link and kind are right. *)
Theorem append_run_valid `{Digest} rs r :
  (zlen rs < U64_MAX)%Z ->
  let c := append_all new rs in
  validate_end_to_end c = Ok tt /\ head c = link_of (rows c) /\ next_row c = (depth c + 1)%Z /\
  ((append c r).1 = Ok tt <->
     row r = (depth c + 1)%Z /\ prev_sha16 r = link_of (rows c) /\ kind r <> []).
Proof.
  intros Hb c. assert (Hc : chain_ok c).
  { apply append_all_ok; [by split_and!|done]. }
  destruct Hc as (Hv & Hh & Hn). split_and!; try done.
  rewrite append_Ok, Hh, Hn. done.
Qed.

(** Number and time stamp are decimal, so the third separator is where the
    link field starts. *)
Lemma canonical_prev r r' :
  is_u 64 (row r) -> is_u 64 (ts_ns r) -> is_u 64 (row r') -> is_u 64 (ts_ns r') ->
  length (prev_sha16 r) = length (prev_sha16 r') ->
  canonical_bytes_of_row r = canonical_bytes_of_row r' -> prev_sha16 r = prev_sha16 r'.
Proof.
  intros H1 H2 H3 H4 Hl E.
  assert (Hd : forall n, is_u 64 n -> 124%Z ∉ dec n).
  { intros n Hn. by apply digits_no_sep, dec_spec. }
  unfold canonical_bytes_of_row in E.
  apply app_eq_len in E as [_ E]; [|done].
  apply (split_first_unique 124) in E as [_ E]; [|by apply Hd..].
  apply (f_equal (drop 3)) in E. cbn [drop] in E.
  apply (split_first_unique 124) in E as [_ E]; [|by apply Hd..].
  apply (f_equal (drop 5)) in E. cbn [drop] in E.
  by apply app_eq_len in E as [-> _].
Qed.

Definition row_wf (r : CosignRow) : Prop := is_u 64 (row r) /\ is_u 64 (ts_ns r).

Lemma link_of_length `{Digest} rs : length (link_of rs) = 16%nat.
Proof. unfold link_of. destruct (last rs); [apply sha16_of_length | done]. Qed.

(** The chains [rs] and [rs'] differ last at row [k], agree after it, and
    their two rows there are a collision of the 64-bit hash. *)
Definition collide_at `{Digest} (k : nat) (rs rs' : list CosignRow) : Prop :=
  exists r r', rs !! k = Some r /\ rs' !! k = Some r' /\
    canonical_bytes_of_row r <> canonical_bytes_of_row r' /\
    sha16_of (canonical_bytes_of_row r) = sha16_of (canonical_bytes_of_row r') /\
    map canonical_bytes_of_row (drop (S k) rs) = map canonical_bytes_of_row (drop (S k) rs').

Lemma collide_at_last `{Digest} rs rs' r r' : length rs = length rs' ->
  canonical_bytes_of_row r <> canonical_bytes_of_row r' ->
  sha16_of (canonical_bytes_of_row r) = sha16_of (canonical_bytes_of_row r') ->
  collide_at (length rs) (rs ++ [r]) (rs' ++ [r']).
Proof.
  intros Hl Hn He. exists r, r'. split_and!; try done.
  - by apply list_lookup_middle.
  - by apply list_lookup_middle.
  - rewrite !drop_ge by (rewrite length_app; cbn; lia). done.
Qed.

Lemma collide_at_snoc `{Digest} k rs rs' r r' : length rs = length rs' ->
  canonical_bytes_of_row r = canonical_bytes_of_row r' ->
  collide_at k rs rs' -> collide_at k (rs ++ [r]) (rs' ++ [r']).
Proof.
  intros Hl Hr (a & b & Ha & Hb & Hn & He & Hd). exists a, b.
  pose proof (lookup_lt_Some _ _ _ Ha). rewrite !lookup_app_l, !drop_app_le, !map_app by lia.
  cbn [map]. by rewrite Hd, Hr.
Qed.

Lemma validate_heads `{Digest} i rs rs' :
  length rs = length rs' -> link_of rs = link_of rs' ->
  Forall row_wf rs -> Forall row_wf rs' ->
  validate_from i GENESIS_PREV_SHA16 rs = Ok tt ->
  validate_from i GENESIS_PREV_SHA16 rs' = Ok tt ->
  map canonical_bytes_of_row rs = map canonical_bytes_of_row rs' \/ exists k, collide_at k rs rs'.
Proof.
  revert rs'. induction rs as [|r rs IH] using rev_ind; intros rs' Hl Hlk W W' Hv Hv'.
  { destruct rs'; [by left | done]. }
  destruct rs' as [|r' rs' _] using rev_ind; [rewrite length_app in Hl; cbn in Hl; lia|].
  rewrite !length_app in Hl. cbn in Hl. unfold link_of in Hlk. rewrite !last_snoc in Hlk.
  apply validate_snoc in Hv as (Hv & _ & Hp & _), Hv' as (Hv' & _ & Hp' & _).
  change (prev_sha16 r = link_of rs) in Hp. change (prev_sha16 r' = link_of rs') in Hp'.
  apply Forall_app in W as [W [[??] _]%Forall_cons], W' as [W' [[??] _]%Forall_cons].
  destruct (decide (canonical_bytes_of_row r = canonical_bytes_of_row r')) as [Ec|].
  2:{ right. exists (length rs). apply collide_at_last; [lia|done|done]. }
  rewrite !map_app. cbn [map]. rewrite Ec.
  assert (Ep : prev_sha16 r = prev_sha16 r').
  { apply canonical_prev; try done. by rewrite Hp, Hp', !link_of_length. }
  destruct (IH rs') as [E|[k C]]; try done; [lia | congruence | left; by rewrite E |].
  right. exists k. apply collide_at_snoc; [lia|done|done].
Qed.


Definition sample_row (n : Z) (prev payload : bytes) : CosignRow :=
  mkRow n (1000000 + n) prev (lit "TEST") payload (Crypto.mkSignature (replicate 64 0%Z)).

Definition sample_chain `{Digest} : CosignChain :=
  append_all new [sample_row 1 GENESIS_PREV_SHA16 (lit "00")].

Lemma append_run_valid_witness :
  let _ := boot_digest in
  next_row sample_chain = 2%Z /\ next_row sample_chain = (depth sample_chain + 1)%Z.
Proof.
  intros d. split; [vm_compute; reflexivity|].
  apply (append_run_valid [sample_row 1 GENESIS_PREV_SHA16 (lit "00")]
           (sample_row 1 GENESIS_PREV_SHA16 (lit "00"))).
  vm_compute. reflexivity.
Defined.


(** End-to-end validation says nothing about the content of the last row:
    its payload hash, time stamp, kind and signature may be replaced, and
    the chain still validates although its stored head no longer matches. *)
Theorem tail_tamper_unnoticed `{Digest} c r r' :
  validate_end_to_end c = Ok tt -> rows c = removelast (rows c) ++ [r] ->
  row r' = row r -> prev_sha16 r' = prev_sha16 r -> kind r' <> [] ->
  validate_end_to_end (mkChain (head_sha16 c) (next_row c) (removelast (rows c) ++ [r'])) = Ok tt.
Proof.
  unfold validate_end_to_end. cbn [rows]. intros Hv Hr E1 E2 E3. rewrite Hr in Hv.
  apply validate_snoc in Hv as (Hv & Hn & Hp & _). apply validate_snoc.
  split_and!; congruence.
Qed.

Lemma tail_tamper_unnoticed_witness :
  let _ := boot_digest in
  validate_end_to_end (mkChain (head_sha16 sample_chain) (next_row sample_chain)
    [sample_row 1 GENESIS_PREV_SHA16 (lit "forged")]) = Ok tt /\
  head_sha16 sample_chain <> link_of [sample_row 1 GENESIS_PREV_SHA16 (lit "forged")].
Proof.
  intros d. split.
  - apply (tail_tamper_unnoticed sample_chain (sample_row 1 GENESIS_PREV_SHA16 (lit "00"))
             (sample_row 1 GENESIS_PREV_SHA16 (lit "forged"))); try reflexivity; discriminate.
  - apply (bool_decide_unpack _). vm_compute. reflexivity.
Defined.
