(* ===== verification/SyscallTypes.v ===== *)
(** * Types of the syscall surface shared by the kernel modules

    [SyscallErr] and [HookwallVerdict] of [kernel/core/src/syscall/mod.rs];
    [AccessTier] is in [Access.v]. *)

From S2P Require Import Prelude.

Inductive SyscallErr :=
| Unimplemented | Invalid | WouldBlock | PermissionDenied | HookwallBlock | Exhausted
| CosignReject.

#[export] Instance SyscallErr_eq_dec : EqDecision SyscallErr.
Proof. solve_decision. Defined.

Inductive HookwallVerdict := Proceed | Hold | Block.

#[export] Instance HookwallVerdict_eq_dec : EqDecision HookwallVerdict.
Proof. solve_decision. Defined.

Definition KERNEL_VERSION : bytes := lit "0.2.0-phase3-scaffold".

Definition FEDERATION_ANCHOR_PID : bytes :=
  lit "ASOLARIA-FEDERATION-REMAKE-1024-PID-2026-05-11".
