(* ===== verification/Hookwall.v ===== *)
(** * Hookwall gates ([kernel/core/src/hookwall/mod.rs])

    Pre- and post-exec hooks and the 16-byte verdict row that the post hook
    appends to the cosign chain. *)

From S2P Require Import Prelude Digest Access SyscallTypes CosignChain.

Module Hookwall.

Definition HOOKWALL_SLOT_COUNT : Z := 64.

Inductive HookTier := Micro | Cosign | Firmware.

Record HookContext := mkContext {
  slot : Z;
  syscall_no : Z;
  caller_pid : Z;
  tier : HookTier;
  target_tier : AccessTier
}.

Definition hookwall_pre (ctx : HookContext) : result SyscallErr HookwallVerdict :=
  if (HOOKWALL_SLOT_COUNT <=? slot ctx)%Z then Err Invalid
  else Ok match tier ctx with
          | Micro => Proceed
          | Cosign => Hold
          | Firmware => Block
          end.

Definition tier_code (t : HookTier) : Z :=
  match t with Micro => 1 | Cosign => 2 | Firmware => 3 end.

Definition verdict_code (v : HookwallVerdict) : Z :=
  match v with Proceed => 1 | Hold => 2 | Block => 3 end.

Definition target_code (t : AccessTier) : Z :=
  match t with
  | Public => 0 | Restricted => 1 | Stealth => 2 | Hidden => 3
  | Shadow => 4 | Secret => 5 | Sovereignty => 6
  end.

Definition compose_verdict_row (ctx : HookContext) (verdict : HookwallVerdict) : bytes :=
  [slot ctx; syscall_no ctx; tier_code (tier ctx); verdict_code verdict] ++
  le_bytes 8 (caller_pid ctx) ++ [target_code (target_tier ctx)] ++ lit "HVD".

(** The chain's sequence counter is the state threaded through. *)
Definition hookwall_post (seq_counter : Z) (ctx : HookContext) (verdict : HookwallVerdict) :
    result SyscallErr unit * Z :=
  if (HOOKWALL_SLOT_COUNT <=? slot ctx)%Z then (Err Invalid, seq_counter)
  else
    let row := compose_verdict_row ctx verdict in
    match CosignChain.append_bytes seq_counter row with
    | (Ok _, c) => (Ok tt, c)
    | (Err _, c) => (Err CosignReject, c)
    end.

(** *** A reader for verdict rows *)

Definition tier_of_code (c : Z) : option HookTier :=
  if (c =? 1)%Z then Some Micro else if (c =? 2)%Z then Some Cosign
  else if (c =? 3)%Z then Some Firmware else None.

Definition verdict_of_code (c : Z) : option HookwallVerdict :=
  if (c =? 1)%Z then Some Proceed else if (c =? 2)%Z then Some Hold
  else if (c =? 3)%Z then Some Block else None.

Definition target_of_code (c : Z) : option AccessTier :=
  if (0 <=? c)%Z then all_tiers !! Z.to_nat c else None.

Definition read_verdict_row (r : bytes) : option (HookContext * HookwallVerdict) :=
  match r with
  | s :: n :: t :: v :: rest =>
      match drop 8 rest with
      | a :: magic =>
          if bytes_eqb magic (lit "HVD") then
            t' ← tier_of_code t;
            v' ← verdict_of_code v;
            a' ← target_of_code a;
            Some (mkContext s n (le_value (take 8 rest)) t' a', v')
          else None
      | [] => None
      end
  | _ => None
  end.

End Hookwall.
Import Hookwall.

(** The verdict row is 16 bytes long, meets the cosign-row floor, and can
    be read back: it determines slot, syscall number, caller, tiers and
    verdict. *)
Theorem verdict_row_roundtrip ctx v :
  is_byte (slot ctx) -> is_byte (syscall_no ctx) -> is_u 64 (caller_pid ctx) ->
  read_verdict_row (compose_verdict_row ctx v) = Some (ctx, v) /\
  zlen (compose_verdict_row ctx v) = 16%Z /\ Forall is_byte (compose_verdict_row ctx v).
Proof.
  intros Hs Hn Hp. destruct ctx as [s n p t a]. cbn [slot syscall_no caller_pid] in *.
  assert (Ht : tier_of_code (tier_code t) = Some t) by by destruct t.
  assert (Hv : verdict_of_code (verdict_code v) = Some v) by by destruct v.
  assert (Ha : target_of_code (target_code a) = Some a) by by destruct a.
  unfold compose_verdict_row. cbn [slot syscall_no caller_pid tier target_tier].
  split_and!.
  - cbn [app read_verdict_row].
    rewrite drop_app_length' by (by rewrite le_bytes_length).
    rewrite take_app_length' by (by rewrite le_bytes_length). cbn [lit].
    rewrite bytes_eqb_refl, Ht, Hv, Ha, le_value_bytes by (unfold is_u in Hp; lia). done.
  - unfold zlen. rewrite !length_app, le_bytes_length. done.
  - assert (Hc : is_byte (tier_code t) /\ is_byte (verdict_code v) /\ is_byte (target_code a)).
    { unfold is_byte. destruct t, v, a; cbn; lia. }
    destruct Hc as (? & ? & ?). rewrite !Forall_app, !Forall_cons.
    split_and!; auto using le_bytes_bytes, lit_bytes, Forall_nil_2.
Qed.

Lemma verdict_row_roundtrip_witness :
  let ctx := mkContext 63 14 (U64_MAX) Cosign Sovereignty in
  read_verdict_row (compose_verdict_row ctx Hold) = Some (ctx, Hold).
Proof.
  intros ctx. apply (verdict_row_roundtrip ctx Hold); vm_compute; split; (discriminate || reflexivity).
Defined.

(** The post hook appends exactly one row for a slot below 64 and leaves
    the chain alone otherwise. *)
Lemma hookwall_post_cases c ctx v :
  hookwall_post c ctx v =
  if (HOOKWALL_SLOT_COUNT <=? slot ctx)%Z then (Err Invalid, c)
  else (Ok tt, wrap64 (c + 1)).
Proof. unfold hookwall_post. by destruct (_ <=? _)%Z. Qed.
