(* ===== verification/SignGate.v ===== *)
(** * Sign gate ([kernel/core/src/sign_gate/mod.rs])

    Signature check, deny-tag scan and the env-var allow rescue, composed
    into one verdict with its reason. *)

From S2P Require Import Prelude Digest Sha256 Crypto.

Module SignGate.

Definition DEFAULT_DENIES : list bytes :=
  [lit "HD-virus"; lit "drift"; lit "malformed-PID"; lit "unknown-cube"; lit "off-fabric"].

Record GateVerdict := mkVerdict {
  admitted : bool;
  reason : bytes;
  sig_valid : bool;
  deny_clean : bool;
  allow_rescued : bool
}.

Inductive SignGateErr := EnvelopeEmpty | UnsupportedAlg | SigMissing | OwnerMissing.

(** The nested loops with their early [return false]. *)
Fixpoint tag_clean (tag : bytes) (denies : list bytes) : bool :=
  match denies with
  | [] => true
  | d :: ds => if contains d tag then false else tag_clean tag ds
  end.

Fixpoint deny_check (tags denies : list bytes) : bool :=
  match tags with
  | [] => true
  | t :: ts => if tag_clean t denies then deny_check ts denies else false
  end.

Definition envvar_char (b : Z) : bool :=
  ((65 <=? b) && (b <=? 90) || (48 <=? b) && (b <=? 57) || (b =? 95))%Z.

Definition task_39_envvar_virus_allow (name : bytes) : bool :=
  match name with
  | [] => false
  | b0 :: _ =>
      if negb ((65 <=? b0) && (b0 <=? 90))%Z then false
      else if negb (forallb envvar_char name) then false
      else contains (lit "VIRUS") name
  end.

Section WithDigest.
Context `{Digest}.

Definition verify_envelope_signature (canonical_bytes : bytes) (sig : Crypto.Signature)
    (owner_pub_key : Crypto.PublicKey) (alg : bytes) : result SignGateErr unit :=
  if bytes_eqb canonical_bytes [] then Err EnvelopeEmpty
  else if negb (bytes_eqb alg (lit "ed25519")) then Err UnsupportedAlg
  else match Crypto.verify canonical_bytes sig owner_pub_key with
       | Ok _ => Ok tt
       | Err Crypto.SignatureInvalid => Err SigMissing
       | Err _ => Err SigMissing
       end.

Definition gate_envelope (canonical_bytes : bytes) (sig : Crypto.Signature)
    (owner_pub_key : Crypto.PublicKey) (alg : bytes)
    (hookwall_event_tags envvar_names : list bytes) : GateVerdict :=
  let sig_valid := is_ok (verify_envelope_signature canonical_bytes sig owner_pub_key alg) in
  let deny_clean := deny_check hookwall_event_tags DEFAULT_DENIES in
  let allow_rescued := negb deny_clean && existsb task_39_envvar_virus_allow envvar_names in
  let admitted := sig_valid && (deny_clean || allow_rescued) in
  let reason :=
    if negb sig_valid then lit "signature-invalid"
    else if negb deny_clean && negb allow_rescued then lit "deny-tag-matched-no-allow-rescue"
    else if allow_rescued then lit "deny-tag-matched-but-allow-rescued"
    else lit "admitted-clean" in
  mkVerdict admitted reason sig_valid deny_clean allow_rescued.

End WithDigest.

(** *** The documented pattern [^[A-Z][A-Z0-9_]*VIRUS[A-Z0-9_]*$] *)

Definition virus_pattern (name : bytes) : Prop :=
  exists c mid post, name = c :: mid ++ lit "VIRUS" ++ post /\
    is_ascii_uppercase c = true /\
    forallb envvar_char mid = true /\ forallb envvar_char post = true.

(** *** What the gate asks for, written apart from the code *)

(** No tag holds one of the five banned fragments. *)
Definition fragment_free (tags : list bytes) : Prop :=
  forall t d a b, t ∈ tags ->
    d ∈ [lit "HD-virus"; lit "drift"; lit "malformed-PID"; lit "unknown-cube"; lit "off-fabric"] ->
    t <> a ++ d ++ b.

(** An environment name that lifts a deny: it begins with a capital, holds
    capitals, digits and underscores only, and has VIRUS somewhere. *)
Definition rescuing (name : bytes) : Prop :=
  (exists c r, name = c :: r /\ (65 <= c <= 90)%Z) /\
  Forall (fun b => 65 <= b <= 90 \/ 48 <= b <= 57 \/ b = 95)%Z name /\
  exists a b, name = a ++ lit "VIRUS" ++ b.

End SignGate.
Import SignGate.

Lemma tag_clean_spec tag ds :
  tag_clean tag ds = true <-> forall d, d ∈ ds -> contains d tag = false.
Proof.
  induction ds as [|d ds IH]; cbn.
  - split; [intros _ d Hd; by apply not_elem_of_nil in Hd | done].
  - destruct (contains d tag) eqn:E.
    + split; [done|]. intros Hd. rewrite (Hd d) in E; [done | by constructor].
    + rewrite IH. split.
      * intros Hd d' [->|?]%elem_of_cons; auto.
      * intros Hd d' ?. apply Hd. by constructor.
Qed.

Lemma deny_check_spec tags ds :
  deny_check tags ds = true <-> forall t d, t ∈ tags -> d ∈ ds -> contains d t = false.
Proof.
  induction tags as [|t ts IH]; cbn.
  - split; [intros _ t d Ht; by apply not_elem_of_nil in Ht | done].
  - destruct (tag_clean t ds) eqn:E.
    + rewrite IH. rewrite tag_clean_spec in E. split.
      * intros Hd t' d [->|?]%elem_of_cons; eauto.
      * intros Hd t' d ? ?. apply Hd; [by constructor|done].
    + split; [done|]. intros Hd. exfalso. apply not_true_iff_false in E. apply E.
      apply tag_clean_spec. intros d ?. apply Hd; [by constructor | done].
Qed.

Lemma fragment_free_check tags : deny_check tags DEFAULT_DENIES = true <-> fragment_free tags.
Proof.
  rewrite deny_check_spec. unfold fragment_free. split.
  - intros C t d a b Ht Hd ->. specialize (C _ d Ht Hd). apply not_true_iff_false in C. apply C.
    apply contains_spec. by exists a, b.
  - intros C t d Ht Hd. apply not_true_iff_false. intros (a & b & E)%contains_spec.
    by apply (C t d a b).
Qed.

Lemma envvar_char_spec b :
  envvar_char b = true <-> (65 <= b <= 90 \/ 48 <= b <= 57 \/ b = 95)%Z.
Proof. unfold envvar_char. rewrite !orb_true_iff, !andb_true_iff, !Z.leb_le, Z.eqb_eq. lia. Qed.

Lemma task_39_rescuing name : task_39_envvar_virus_allow name = true <-> rescuing name.
Proof.
  unfold rescuing. setoid_rewrite <- envvar_char_spec. unfold task_39_envvar_virus_allow.
  destruct name as [|b0 name].
  { split; [done|]. by intros ((? & ? & ? & _) & _). }
  destruct ((65 <=? b0) && (b0 <=? 90))%Z eqn:E0; cbn [negb].
  2:{ split; [done|]. intros ((c & r & [= <- <-] & Hc) & _). to_prop. lia. }
  destruct (forallb envvar_char (b0 :: name)) eqn:Ef; cbn [negb].
  2:{ split; [done|]. intros (_ & F & _). rewrite <- not_true_iff_false, forallb_forall in Ef.
      rewrite Forall_forall in F. destruct Ef. intros x Hx. apply F. by apply list_elem_of_In. }
  rewrite contains_spec. split; [|by intros (_ & _ & ?)]. intros C. split_and!; [|  |done].
  - exists b0, name. to_prop. split; [done|lia].
  - rewrite forallb_forall in Ef. apply Forall_forall. intros x Hx. apply Ef. by apply list_elem_of_In.
Qed.

(** The allow rule against the pattern it documents: it accepts what the
    pattern accepts, and beyond it exactly the names that begin with VIRUS
    and hold no later VIRUS (the pattern asks for a letter before it). *)
Theorem task_39_vs_pattern name :
  (virus_pattern name -> task_39_envvar_virus_allow name = true) /\
  (task_39_envvar_virus_allow name = true ->
     virus_pattern name \/
     (starts_with (lit "VIRUS") name = true /\ contains (lit "VIRUS") (drop 1 name) = false)) /\
  (task_39_envvar_virus_allow (lit "VIRUS") = true /\ ~ virus_pattern (lit "VIRUS")).
Proof.
  split_and!.
  - intros (c & mid & post & -> & Hc & Hm & Hp). cbn [task_39_envvar_virus_allow].
    unfold is_ascii_uppercase in Hc. rewrite Hc. cbn [negb forallb].
    unfold envvar_char at 1. rewrite Hc, !forallb_app, Hm, Hp. cbn [orb andb negb].
    change (forallb envvar_char (lit "VIRUS")) with true. cbn [negb].
    apply contains_spec. by exists (c :: mid), post.
  - intros Ht. destruct name as [|c name]; [done|]. cbn [task_39_envvar_virus_allow] in Ht.
    destruct ((65 <=? c) && (c <=? 90))%Z eqn:Hc; [|done]. cbn [negb] in Ht.
    destruct (forallb envvar_char (c :: name)) eqn:Hf; [|done]. cbn [negb] in Ht.
    cbn [forallb] in Hf. apply andb_true_iff in Hf as [_ Hf].
    cbn [contains] in Ht. cbn [drop].
    destruct (contains (lit "VIRUS") name) eqn:E.
    + left. apply contains_spec in E as (a & b & ->). exists c, a, b.
      rewrite !forallb_app in Hf. apply andb_true_iff in Hf as [Ha Hf].
      apply andb_true_iff in Hf as [_ Hb]. done.
    + right. rewrite orb_false_r in Ht. done.
  - reflexivity.
  - intros (c & mid & post & E & _). apply (f_equal length) in E.
    cbn [lit length] in E. rewrite !length_app in E. cbn in E. lia.
Qed.

(** The verification, exactly. *)
Lemma verify_envelope_cases `{Digest} cb sig pk alg :
  match verify_envelope_signature cb sig pk alg with
  | Ok _ => cb <> [] /\ alg = lit "ed25519" /\ Crypto.verify cb sig pk = Ok tt
  | Err EnvelopeEmpty => cb = []
  | Err UnsupportedAlg => cb <> [] /\ alg <> lit "ed25519"
  | Err SigMissing => cb <> [] /\ alg = lit "ed25519" /\ Crypto.verify cb sig pk <> Ok tt
  | Err OwnerMissing => False
  end.
Proof.
  unfold verify_envelope_signature.
  destruct (bytes_eqb cb []) eqn:E1; [by apply bytes_eqb_true in E1|].
  apply bytes_eqb_false in E1.
  destruct (bytes_eqb alg (lit "ed25519")) eqn:E2; cbn [negb];
    [apply bytes_eqb_true in E2 | by apply bytes_eqb_false in E2].
  by destruct (Crypto.verify cb sig pk) as [[]|[]].
Qed.

(** C29. The envelope's signature is verified with one error per cause: empty bytes
    first, then an algorithm other than ed25519, then a signature that does
    not verify; the error for a missing owner is never given. The gate
    admits exactly a verified signature with clean tags or with an
    environment name that rescues them; its three flags say which held; and
    its reason is one of four texts, one for each way it can end. *)
Theorem gate_envelope_spec `{Digest} cb sig pk alg tags vars :
  let r := verify_envelope_signature cb sig pk alg in
  let v := gate_envelope cb sig pk alg tags vars in
  let signed := cb <> [] /\ alg = lit "ed25519" /\ Crypto.verify cb sig pk = Ok tt in
  let clean := fragment_free tags in
  let rescue := exists n, n ∈ vars /\ rescuing n in
  ((r = Err EnvelopeEmpty <-> cb = []) /\
   (r = Err UnsupportedAlg <-> cb <> [] /\ alg <> lit "ed25519") /\
   (r = Err SigMissing <-> cb <> [] /\ alg = lit "ed25519" /\ Crypto.verify cb sig pk <> Ok tt) /\
   r <> Err OwnerMissing /\ (r = Ok tt <-> signed)) /\
  (admitted v = true <-> signed /\ (clean \/ rescue)) /\
  (sig_valid v = true <-> signed) /\ (deny_clean v = true <-> clean) /\
  (allow_rescued v = true <-> ~ clean /\ rescue) /\
  (reason v = lit "signature-invalid" <-> ~ signed) /\
  (reason v = lit "deny-tag-matched-no-allow-rescue" <-> signed /\ ~ clean /\ ~ rescue) /\
  (reason v = lit "deny-tag-matched-but-allow-rescued" <-> signed /\ ~ clean /\ rescue) /\
  (reason v = lit "admitted-clean" <-> signed /\ clean).
Proof.
  cbv zeta.
  assert (Hd := fragment_free_check tags).
  assert (Hx : existsb task_39_envvar_virus_allow vars = true <-> exists n, n ∈ vars /\ rescuing n).
  { rewrite existsb_exists. setoid_rewrite task_39_rescuing. by setoid_rewrite list_elem_of_In. }
  rewrite <- Hd, <- Hx. clear Hd Hx.
  pose proof (verify_envelope_cases cb sig pk alg) as C. unfold gate_envelope.
  cbn [admitted reason sig_valid deny_clean allow_rescued].
  split; [destruct (verify_envelope_signature cb sig pk alg) as [[]|[]]; naive_solver|].
  assert (Hs : is_ok (verify_envelope_signature cb sig pk alg) = true <->
               cb <> [] /\ alg = lit "ed25519" /\ Crypto.verify cb sig pk = Ok tt).
  { destruct (verify_envelope_signature cb sig pk alg) as [[]|[]]; cbn; naive_solver. }
  rewrite <- Hs. clear C Hs.
  destruct (is_ok _), (deny_check _ _), (existsb _ _); cbn [negb andb orb];
    split_and!; split; intros; destruct_and?; (done || auto || naive_solver).
Qed.
