(* ===== verification/SpawnGate.v ===== *)
(** * Spawn gate ring ([kernel/core/src/spawn_gate/mod.rs])

    Deny scan, hookwall tier verdict and reverse-gain score composed into
    one verdict, strictest wins; the seal row of a verdict. *)

From S2P Require Import Prelude Digest Access SyscallTypes Hookwall SignGate.

Module SpawnGate.

Definition GATE_GENIUS_THRESHOLD_Q : Z := 720.
Definition GATE_MAX_REVERSE_RISK_Q : Z := 280.

Record SpawnGateInput := mkInput {
  slot : Z;
  syscall_no : Z;
  caller_pid : Z;
  tier : Hookwall.HookTier;
  target_tier : AccessTier;
  event_tags : list bytes;
  forward_score_q : Z;
  reverse_risk_q : Z
}.

(** The [HookContext] both functions build from the input. *)
Definition context_of (input : SpawnGateInput) : Hookwall.HookContext :=
  Hookwall.mkContext (slot input) (syscall_no input) (caller_pid input) (tier input)
    (target_tier input).

Definition spawn_gate_verdict (input : SpawnGateInput) : HookwallVerdict :=
  if negb (SignGate.deny_check (event_tags input) SignGate.DEFAULT_DENIES) then Block
  else
    match Hookwall.hookwall_pre (context_of input) with
    | Err _ => Block
    | Ok tier_verdict =>
        if negb (bool_decide (tier_verdict = Proceed)) then tier_verdict
        else if (GATE_GENIUS_THRESHOLD_Q <=? forward_score_q input)%Z
                && (reverse_risk_q input <=? GATE_MAX_REVERSE_RISK_Q)%Z
        then Proceed else Hold
    end.

Definition seal_row (input : SpawnGateInput) (verdict : HookwallVerdict) : bytes :=
  Hookwall.compose_verdict_row (context_of input) verdict.

(** *** Specification: what a request must satisfy, written apart from the code *)

(** The forward score is at least 0.72 and the reverse risk at most 0.28. *)
Definition gains (input : SpawnGateInput) : Prop :=
  (720 <= forward_score_q input /\ reverse_risk_q input <= 280)%Z.

End SpawnGate.
Import SpawnGate.

(** The verdict as one chain of the four conditions. *)
Lemma spawn_gate_cases input :
  match spawn_gate_verdict input with
  | Block => ~ SignGate.fragment_free (event_tags input) \/ (64 <= slot input)%Z \/ tier input = Hookwall.Firmware
  | Hold => SignGate.fragment_free (event_tags input) /\ (slot input < 64)%Z /\
            (tier input = Hookwall.Cosign \/ tier input = Hookwall.Micro /\ ~ gains input)
  | Proceed => SignGate.fragment_free (event_tags input) /\ (slot input < 64)%Z /\ tier input = Hookwall.Micro /\ gains input
  end.
Proof.
  unfold spawn_gate_verdict, Hookwall.hookwall_pre. pose proof (fragment_free_check (event_tags input)) as T.
  unfold gains.
  cbn [Hookwall.slot Hookwall.tier context_of]. change Hookwall.HOOKWALL_SLOT_COUNT with 64%Z.
  destruct (SignGate.deny_check _ _); cbn [negb]; [|left; intros F; by apply T in F].
  assert (SignGate.fragment_free (event_tags input)) by (by apply T).
  destruct (Z.leb_spec 64 (slot input)); [by right; left|].
  destruct (tier input); [| cbn; split_and!; [done|done|by left] | cbn; by right; right].
  rewrite bool_decide_eq_true_2 by done. cbn [negb].
  unfold GATE_GENIUS_THRESHOLD_Q, GATE_MAX_REVERSE_RISK_Q.
  destruct (Z.leb_spec 720 (forward_score_q input)), (Z.leb_spec (reverse_risk_q input) 280); cbn [andb];
    (split; [done|]); (split; [done|]); try (split; [done|lia]); right; (split; [done|lia]).
Qed.

(** C28. The spawn gate blocks exactly a request with a banned fragment in a tag,
    a slot of 64 or more or the firmware tier; it proceeds exactly for a
    clean request of the micro tier on a slot below 64 whose forward score
    is at least 720 and whose reverse risk is at most 280; it holds every
    other one. The seal row of any verdict reads back as the request's own
    slot, system call, caller, tiers and that verdict. *)
Theorem spawn_gate_proceed input :
  (spawn_gate_verdict input = Block <->
     ~ SignGate.fragment_free (event_tags input) \/ (64 <= slot input)%Z \/ tier input = Hookwall.Firmware) /\
  (spawn_gate_verdict input = Hold <->
     SignGate.fragment_free (event_tags input) /\ (slot input < 64)%Z /\
     (tier input = Hookwall.Cosign \/ tier input = Hookwall.Micro /\ ~ gains input)) /\
  (spawn_gate_verdict input = Proceed <->
     SignGate.fragment_free (event_tags input) /\ (slot input < 64)%Z /\ tier input = Hookwall.Micro /\ gains input) /\
  (forall v, is_byte (slot input) -> is_byte (syscall_no input) -> is_u 64 (caller_pid input) ->
     Hookwall.read_verdict_row (seal_row input v) =
       Some (Hookwall.mkContext (slot input) (syscall_no input) (caller_pid input) (tier input)
               (target_tier input), v)).
Proof.
  pose proof (spawn_gate_cases input) as C.
  split_and!; [| | |intros v Hs Hn Hp; by apply (verdict_row_roundtrip (context_of input) v)];
    destruct (spawn_gate_verdict input); split; intros; destruct_and?; destruct_or?;
    simplify_eq; auto; exfalso; destruct_or?; destruct_and?; try congruence; lia || by auto.
Qed.

Lemma spawn_gate_proceed_witness :
  let i := mkInput 3 14 4242 Hookwall.Micro Secret [lit "clean"] 720 280 in
  spawn_gate_verdict i = Proceed /\
  Hookwall.read_verdict_row (seal_row i Proceed) =
    Some (Hookwall.mkContext 3 14 4242 Hookwall.Micro Secret, Proceed).
Proof.
  intros i. split; [reflexivity|].
  apply (spawn_gate_proceed i); vm_compute; split; (discriminate || reflexivity).
Defined.
