(* ===== verification/Gnn.v ===== *)
(** * GNN inference lane ([kernel/core/src/gnn/mod.rs])

    The unloaded-model fallbacks: routing, ranking and verdict aggregation. *)

From S2P Require Import Prelude.

Module Gnn.

Definition GNN_EDGES_TARGET : Z := 2158671.
Definition GNN_INFER_P99_LATENCY_MS_BUDGET : Z := 100.
Definition GNN_BATCH_TARGET_PER_SEC : Z := 40783.

Inductive GnnErr :=
| ModelNotLoaded | InputShapeInvalid | LatencyBudgetExceeded | ModelSwapUnauthorized
| Unimplemented.

Inductive RoutingDecision :=
| Local | TriadBroadcast | QuadBroadcast | UnicastAcer | UnicastLiris | UnicastFalcon
| UnicastAether.

Record RankedItem := mkRanked { item_id : bytes; score_micro : Z }.

Inductive AggregatedVerdict := ProceedStrong | ProceedWeak | Hold | Block | Investigate.

(** [1_000_000 - (i as u32) * 1_000] in u32 arithmetic (release profile:
    both operations wrap). *)
Definition fallback_score (i : Z) : Z := wrap32 (1000000 - wrap32 (wrap32 i * 1000)).

Fixpoint top_n_from (i : Z) (items : list bytes) (n : nat) : list RankedItem :=
  match n, items with
  | S n', id :: items' => mkRanked id (fallback_score i) :: top_n_from (i + 1) items' n'
  | _, _ => []
  end.

(** [items.iter().take(n).enumerate().map(...)] *)
Definition top_n_deterministic_fallback (items : list bytes) (n : nat) : list RankedItem :=
  top_n_from 0 items n.

Record GnnInference := mkGnn { model_loaded : bool; model_sha16 : option bytes }.

Definition new : GnnInference := mkGnn false None.

Definition is_ready (g : GnnInference) : bool := model_loaded g.

Definition load_onnx_model (g : GnnInference) (model_bytes expected_sha16 : bytes) :
    result GnnErr unit * GnnInference := (Err Unimplemented, g).

Definition predict_route (g : GnnInference) (envelope_bytes : bytes) :
    result GnnErr RoutingDecision :=
  if negb (model_loaded g) then Ok Local else Err Unimplemented.

Definition rank_top_n (g : GnnInference) (items : list bytes) (n : nat) :
    result GnnErr (list RankedItem) :=
  if negb (model_loaded g) then Ok (top_n_deterministic_fallback items n)
  else Err Unimplemented.

Definition aggregate_verdict (g : GnnInference) (votes_in_favor total_votes : Z) :
    result GnnErr AggregatedVerdict :=
  if negb (model_loaded g) then Ok Hold else Err Unimplemented.

End Gnn.
Import Gnn.

Lemma top_n_from_lookup i items n k :
  top_n_from i items n !! k =
  if Nat.ltb k n then (fun id => mkRanked id (fallback_score (i + Z.of_nat k))) <$> items !! k
  else None.
Proof.
  revert i items k. induction n as [|n IH]; intros i [|id items] k; cbn [top_n_from].
  - done.
  - done.
  - rewrite !lookup_nil. by destruct (Nat.ltb _ _).
  - destruct k as [|k]; cbn [lookup list_lookup]; [by rewrite Z.add_0_r|].
    rewrite IH. change (Nat.ltb (S k) (S n)) with (Nat.ltb k n).
    by replace (i + 1 + Z.of_nat k)%Z with (i + Z.of_nat (S k))%Z by lia.
Qed.

(** The ranking fallback returns the first [n] items in order; scores fall
    strictly for the first 1001 items, and the 1002nd wraps around to a
    score above every earlier one. *)
Theorem rank_fallback_scores items n l :
  rank_top_n new items n = Ok l ->
  map item_id l = take n items /\
  (forall j k x y, (j < k <= 1000)%nat -> l !! j = Some x -> l !! k = Some y ->
     (score_micro y < score_micro x)%Z) /\
  (forall x y, l !! 0%nat = Some x -> l !! 1001%nat = Some y ->
     (score_micro x < score_micro y)%Z).
Proof.
  cbn. intros [= <-]. unfold top_n_deterministic_fallback. split_and!.
  - generalize 0%Z as i. revert items. induction n as [|n IH]; intros [|id items] i; try done.
    cbn. f_equal. apply IH.
  - intros j k x y Hjk. rewrite !top_n_from_lookup. repeat split_if; try done.
    intros (a & _ & ->)%fmap_Some (b & _ & ->)%fmap_Some. cbn [score_micro].
    unfold fallback_score, wrap. rewrite !Z.add_0_l.
    rewrite !(Z.mod_small (Z.of_nat _)), !(Z.mod_small (_ * 1000)), !Z.mod_small by lia. lia.
  - intros x y. rewrite !top_n_from_lookup. repeat split_if; try done.
    intros (a & _ & ->)%fmap_Some (b & _ & ->)%fmap_Some. cbn [score_micro].
    vm_compute. reflexivity.
Qed.

Lemma rank_fallback_scores_witness :
  let items := replicate 1002 (lit "id") in
  map item_id (top_n_deterministic_fallback items 2) = take 2 items.
Proof.
  intros items.
  exact (proj1 (rank_fallback_scores items 2 (top_n_deterministic_fallback items 2) eq_refl)).
Defined.
