(* ===== verification/Interleave.v ===== *)
(** * Threads over shared atomic cells

  A thread is a value that performs one atomic operation per step on a
  shared memory and may log events. The statics of the kernel that are
  updated by compare-and-swap or fetch-and-add are verified against every
  interleaving of such threads, with a rely-guarantee rule. Memory is
  sequentially consistent. *)

From S2P Require Import Prelude.

Section Interleave.
Context {M T E : Type} (tstep : M -> T -> option (M * T * list E)).

(** Shared memory, threads, and the events so far with the index of the
    thread that caused them. *)
Record iconf := IConf { imem : M; ipool : list T; ilog : list (nat * E) }.

Inductive istep : iconf -> iconf -> Prop :=
| istep_thread c k t m' t' es :
    ipool c !! k = Some t ->
    tstep (imem c) t = Some (m', t', es) ->
    istep c (IConf m' (<[k := t']> (ipool c)) (ilog c ++ map (pair k) es)).

Inductive ireach (c0 : iconf) : iconf -> Prop :=
| ireach_refl : ireach c0 c0
| ireach_step c c' : ireach c0 c -> istep c c' -> ireach c0 c'.

(** Run a schedule: the indices of the threads that step, in order. *)
Fixpoint irun (sched : list nat) (c : iconf) : option iconf :=
  match sched with
  | [] => Some c
  | k :: sched' =>
      t ← ipool c !! k;
      '(m', t', es) ← tstep (imem c) t;
      irun sched' (IConf m' (<[k := t']> (ipool c)) (ilog c ++ map (pair k) es))
  end.

(** One thread alone. *)
Inductive isolo : M -> T -> M -> T -> Prop :=
| isolo_refl m t : isolo m t m t
| isolo_step m t m1 t1 es m2 t2 :
    tstep m t = Some (m1, t1, es) -> isolo m1 t1 m2 t2 -> isolo m t m2 t2.

(** Rely-guarantee: [S] holds of the shared state, [L] of every thread; a
    step keeps [S], establishes [L] for its thread and keeps the [L] of
    all the others. *)
Lemma ireach_inv_others (S : M -> list (nat * E) -> Prop) (L : M -> list (nat * E) -> nat -> T -> Prop)
    m0 ts :
  S m0 [] -> (forall k t, ts !! k = Some t -> L m0 [] k t) ->
  (forall m l k t m' t' es, S m l -> L m l k t -> tstep m t = Some (m', t', es) ->
     let l' := l ++ map (pair k) es in
     S m' l' /\ L m' l' k t' /\ (forall j u, j <> k -> L m l j u -> L m' l' j u)) ->
  forall c, ireach (IConf m0 ts []) c ->
  S (imem c) (ilog c) /\
  (forall k t, ipool c !! k = Some t -> L (imem c) (ilog c) k t).
Proof.
  intros HS HL Hstep c. induction 1 as [|c c' _ [IHS IHL] Hc]; [done|].
  destruct Hc as [c k t m' t' es Hk Ht]; cbn.
  destruct (Hstep _ _ _ _ _ _ _ IHS (IHL k t Hk) Ht) as (H1 & H2 & H3). split; [done|].
  intros j u Hj. apply list_lookup_insert_Some in Hj as [(-> & -> & _)|[Hne Hj]]; [done|].
  by apply H3, IHL.
Qed.

(** The same when the step keeps the [L] of every thread value. *)
Lemma ireach_inv (S : M -> list (nat * E) -> Prop) (L : M -> list (nat * E) -> nat -> T -> Prop)
    m0 ts :
  S m0 [] -> (forall k t, ts !! k = Some t -> L m0 [] k t) ->
  (forall m l k t m' t' es, S m l -> L m l k t -> tstep m t = Some (m', t', es) ->
     let l' := l ++ map (pair k) es in
     S m' l' /\ L m' l' k t' /\ (forall j u, L m l j u -> L m' l' j u)) ->
  forall c, ireach (IConf m0 ts []) c ->
  S (imem c) (ilog c) /\
  (forall k t, ipool c !! k = Some t -> L (imem c) (ilog c) k t).
Proof.
  intros HS HL Hstep. apply ireach_inv_others; [done..|].
  intros m l k t m' t' es H1 H2 H3. destruct (Hstep m l k t m' t' es H1 H2 H3) as (? & ? & ?).
  split_and!; auto.
Qed.

(** Executions with their number of steps. *)
Inductive isteps (c0 : iconf) : nat -> iconf -> Prop :=
| isteps_O : isteps c0 0 c0
| isteps_S n c c' : isteps c0 n c -> istep c c' -> isteps c0 (S n) c'.

Lemma isteps_length c0 n c : isteps c0 n c -> length (ipool c) = length (ipool c0).
Proof.
  induction 1 as [|n c c' _ IH Hc]; [done|].
  destruct Hc as [c k t m' t' es _ _]; cbn. by rewrite length_insert.
Qed.

Lemma irun_isteps sched c0 n c c' :
  isteps c0 n c -> irun sched c = Some c' -> isteps c0 (n + length sched) c'.
Proof.
  revert n c. induction sched as [|k sched IH]; intros n c Hr Hc; cbn in Hc.
  { simplify_eq. by rewrite Nat.add_0_r. }
  destruct (ipool c !! k) as [t|] eqn:Hk; cbn in Hc; [|done].
  destruct (tstep (imem c) t) as [[[m' t'] es]|] eqn:Ht; cbn in Hc; [|done].
  cbn [length]. rewrite Nat.add_succ_r. eapply (IH (S n)); [|exact Hc].
  eapply isteps_S; [exact Hr|]. by eapply istep_thread.
Qed.

Lemma isteps_reach c0 n c : isteps c0 n c -> ireach c0 c.
Proof. induction 1; [constructor | by econstructor]. Qed.

Lemma irun_reach sched c0 c c' : ireach c0 c -> irun sched c = Some c' -> ireach c0 c'.
Proof.
  intros Hr Hc. pose proof (irun_isteps _ c 0 c c' (isteps_O c) Hc) as H. clear Hc.
  induction H; [done | by econstructor].
Qed.

(** Every execution follows a schedule, and in a schedule a thread whose
    rank drops at its own steps, and is left alone by the others, steps no
    more often than its rank. *)
Lemma irun_app s1 s2 c : irun (s1 ++ s2) c = (c' ← irun s1 c; irun s2 c').
Proof.
  revert c. induction s1 as [|k s1 IH]; intros c; [done|]. cbn [app irun].
  destruct (ipool c !! k) as [t|]; cbn; [|done].
  destruct (tstep (imem c) t) as [[[m' t'] es]|]; cbn; [|done]. apply IH.
Qed.

Lemma isteps_schedule c0 n c : isteps c0 n c -> exists sched, length sched = n /\ irun sched c0 = Some c.
Proof.
  induction 1 as [|n c c' _ (sched & L & R) Hc]; [by exists []|].
  destruct Hc as [c k t m' t' es Hk Ht]. exists (sched ++ [k]). split; [rewrite length_app; cbn; lia|].
  rewrite irun_app, R. cbn. rewrite Hk. cbn. by rewrite Ht.
Qed.

Lemma irun_own_steps (I : iconf -> Prop) (rank : T -> nat) :
  (forall c c', I c -> istep c c' -> I c') ->
  (forall c k t m' t' es, I c -> ipool c !! k = Some t -> tstep (imem c) t = Some (m', t', es) -> rank t' < rank t) ->
  forall sched c0 c k t, I c0 -> irun sched c0 = Some c -> ipool c0 !! k = Some t ->
  exists t', ipool c !! k = Some t' /\ count_occ Nat.eq_dec sched k + rank t' <= rank t.
Proof.
  intros HI Hr. induction sched as [|j sched IH]; intros c0 c k t I0 Hc Hk; cbn in Hc.
  { simplify_eq. exists t. split; [done|]. cbn. lia. }
  destruct (ipool c0 !! j) as [u|] eqn:Hj; cbn in Hc; [|done].
  destruct (tstep (imem c0) u) as [[[m' u'] es]|] eqn:Ht; cbn in Hc; [|done].
  assert (I1 := HI _ _ I0 (istep_thread c0 j u m' u' es Hj Ht)). cbn [count_occ].
  destruct (Nat.eq_dec j k) as [->|Hne].
  - replace u with t in Ht by congruence. pose proof (Hr _ _ _ _ _ _ I0 Hk Ht).
    destruct (IH _ _ k u' I1 Hc) as (t' & Hk' & L); [|exists t'; split; [done|lia]].
    cbn. apply list_lookup_insert_eq. by eapply lookup_lt_Some.
  - apply (IH _ _ k t I1 Hc). cbn. by rewrite list_lookup_insert_ne.
Qed.

(** Lock-freedom: a thread's rank drops at each of its steps; a step that
    changes the shared memory retires its thread and raises the rank of the
    others by one at most. *)
Section Bounded.
Context (rank : M -> T -> nat) (live : T -> nat).
Hypothesis Hstep : forall m t m' t' es, tstep m t = Some (m', t', es) ->
  rank m' t' < rank m t /\
  ((m' = m /\ live t' <= live t) \/
   (live t' < live t /\ forall u, rank m' u <= S (rank m u))).

Definition load (m : M) (ts : list T) : nat :=
  sum_list_with (rank m) ts.
Definition lives (ts : list T) : nat := sum_list_with live ts.

Lemma sum_insert (f : T -> nat) ts k t t' :
  ts !! k = Some t -> sum_list_with f (<[k := t']> ts) + f t = sum_list_with f ts + f t'.
Proof.
  revert k. induction ts as [|u ts IH]; intros [|k] Hk; cbn in *; simplify_eq; [lia|].
  specialize (IH k Hk). unfold insert in *. lia.
Qed.

Lemma load_mono m m' ts :
  (forall u, rank m' u <= S (rank m u)) -> load m' ts <= load m ts + length ts.
Proof. intros H. induction ts as [|u ts IH]; cbn; [lia|]. specialize (H u). unfold load in *. lia. Qed.

Lemma load_mono_but m m' ts k t :
  (forall u, rank m' u <= S (rank m u)) -> ts !! k = Some t ->
  load m' ts + rank m t < load m ts + length ts + rank m' t.
Proof.
  intros H. revert k. induction ts as [|u ts IH]; intros [|k] Hk; cbn in *; simplify_eq.
  - pose proof (load_mono m m' ts H). unfold load in *. lia.
  - specialize (IH k Hk). specialize (H u). unfold load in *. lia.
Qed.

Definition potential (c : iconf) : nat :=
  load (imem c) (ipool c) + length (ipool c) * lives (ipool c).

Lemma istep_potential c c' : istep c c' -> potential c' < potential c.
Proof using Hstep.
  destruct 1 as [c k t m' t' es Hk Ht]. unfold potential; cbn. rewrite length_insert.
  pose proof (sum_insert live _ _ _ t' Hk) as Hl. fold (lives (ipool c)) in Hl.
  fold (lives (<[k:=t']> (ipool c))) in Hl.
  pose proof (sum_insert (rank m') _ _ _ t' Hk) as Hr. fold (load m' (ipool c)) in Hr.
  fold (load m' (<[k:=t']> (ipool c))) in Hr.
  destruct (Hstep _ _ _ _ _ Ht) as [Hrank [[-> Hlive]|[Hlive Hmono]]].
  { pose proof (Nat.mul_le_mono_l (lives (<[k:=t']> (ipool c))) (lives (ipool c)) (length (ipool c))).
    unfold load, lives, insert in *. lia. }
  pose proof (load_mono_but _ _ _ _ _ Hmono Hk). unfold load, lives, insert in *. nia.
Qed.

End Bounded.

(** Termination: a measure that drops at every step of an invariant, and
    threads that can step until they have returned. *)
Section Terminates.
Context (I : iconf -> Prop) (measure : iconf -> nat) (returned : T -> Prop).
Hypothesis Hdrop : forall c c', I c -> istep c c' -> I c' /\ measure c' < measure c.
Hypothesis Hlive : forall m t, returned t \/ is_Some (tstep m t).

Lemma all_returned_or_step c : Forall returned (ipool c) \/ exists c', istep c c'.
Proof using Hlive.
  destruct c as [m ts l].
  assert (H : Forall returned ts \/ exists k t r, ts !! k = Some t /\ tstep m t = Some r).
  { induction ts as [|t ts [IH|(k & u & r & Hk & Hu)]]; [by left| |by right; exists (S k), u, r].
    destruct (Hlive m t) as [Ht|[r Ht]]; [left; by constructor | right; by exists 0, t, r]. }
  destruct H as [|(k & t & [[m' t'] es] & Hk & Ht)]; [by left | right].
  eexists. by eapply (istep_thread (IConf m ts l)).
Qed.

Lemma isteps_bounded c0 n c : I c0 -> isteps c0 n c -> I c /\ n + measure c <= measure c0.
Proof using Hdrop.
  intros H0. induction 1 as [|n c c' _ [IHI IH] Hc]; [by split; [|lia]|].
  apply Hdrop in Hc as [? ?]; [|done]. split; [done | lia].
Qed.

(** Every execution is bounded, stops only when all threads have returned,
    and extends to one that has stopped. *)
Lemma isteps_terminate c0 n c : I c0 -> isteps c0 n c ->
  n <= measure c0 /\ ((forall c', ~ istep c c') -> Forall returned (ipool c)) /\
  exists k c', isteps c0 (n + k) c' /\ length (ipool c') = length (ipool c0) /\
    Forall returned (ipool c').
Proof using Hdrop Hlive.
  intros H0 Hn. destruct (isteps_bounded _ _ _ H0 Hn) as [HI Hb]. split_and!; [lia| |].
  - intros Hstuck. destruct (all_returned_or_step c) as [|[c' Hc]]; [done | by destruct (Hstuck c')].
  - clear Hb. remember (measure c) as p eqn:Hp. revert n c Hn HI Hp.
    induction p as [p IH] using lt_wf_ind. intros n c Hn HI Hp.
    destruct (all_returned_or_step c) as [|[c1 Hc]].
    { exists 0, c. rewrite Nat.add_0_r. split_and!; [done | by eapply isteps_length | done]. }
    destruct (Hdrop _ _ HI Hc) as [HI1 Hlt].
    destruct (IH (measure c1)) with (n := S n) (c := c1) as (j & c' & Hj & ?);
      [lia | by econstructor | done | done|].
    exists (S j), c'. by rewrite Nat.add_succ_r.
Qed.
End Terminates.

(** The measure of threads whose own remaining steps bound them, whatever
    the others do. *)
Lemma istep_sum_rank (rank : T -> nat) c c' :
  (forall k t m' t' es, ipool c !! k = Some t -> tstep (imem c) t = Some (m', t', es) -> rank t' < rank t) ->
  istep c c' -> sum_list_with rank (ipool c') < sum_list_with rank (ipool c).
Proof.
  intros Hr Hc. destruct Hc as [c k t m' t' es Hk Ht]; cbn.
  pose proof (sum_insert rank _ _ _ t' Hk) as H. apply (Hr k) in Ht; [|done].
  unfold insert in *. lia.
Qed.

(** Events bounded by what the threads may still log. *)
Lemma ireach_log_bound (weight : T -> nat) m0 ts c :
  (forall m t m' t' es, tstep m t = Some (m', t', es) -> length es + weight t' <= weight t) ->
  ireach (IConf m0 ts []) c ->
  length (ilog c) + sum_list_with weight (ipool c) <= sum_list_with weight ts.
Proof.
  intros Hw. induction 1 as [|c c' _ IH Hc]; [done|]. destruct Hc as [c k t m' t' es Hk Ht]; cbn.
  pose proof (sum_insert weight _ _ _ t' Hk) as H. apply Hw in Ht.
  rewrite length_app, length_map. unfold insert in *. lia.
Qed.

Lemma sum_const (weight : T -> nat) n ts :
  Forall (fun t => weight t <= n) ts -> sum_list_with weight ts <= n * length ts.
Proof. induction 1; cbn; lia. Qed.
End Interleave.

Arguments IConf {M T E} _ _ _.
Arguments imem {M T E} _.
Arguments ipool {M T E} _.
Arguments ilog {M T E} _.

(** ** Simulation

    A system that runs another one on a part of its memory: each of its
    steps either leaves that part alone or is one step of the other system.
    [R k] relates the [k]-th threads of the two. *)
Section Simulate.
Context {M1 T1 E1 M2 T2 E2 : Type}.
Context (step1 : M1 -> T1 -> option (M1 * T1 * list E1)) (step2 : M2 -> T2 -> option (M2 * T2 * list E2)).
Context (proj : M1 -> M2) (ev : E1 -> option E2) (R : nat -> T1 -> T2 -> Prop).

Definition simulates : Prop := forall k m t m' t' es u,
  R k t u -> step1 m t = Some (m', t', es) ->
  (proj m' = proj m /\ omap ev es = [] /\ R k t' u) \/
  exists u', step2 (proj m) u = Some (proj m', u', omap ev es) /\ R k t' u'.

(** The events of the simulated system, with their threads. *)
Definition ev_log (l : list (nat * E1)) : list (nat * E2) :=
  omap (fun p => pair p.1 <$> ev p.2) l.

Lemma ev_log_app l k es : ev_log (l ++ map (pair k) es) = ev_log l ++ map (pair k) (omap ev es).
Proof.
  unfold ev_log. rewrite omap_app. f_equal. induction es as [|e es IH]; [done|].
  cbn. destruct (ev e); cbn; by rewrite IH.
Qed.

Lemma ireach_simulate m ts us c :
  simulates ->
  (forall k t, ts !! k = Some t -> exists u, us !! k = Some u /\ R k t u) ->
  ireach step1 (IConf m ts []) c ->
  exists c2, ireach step2 (IConf (proj m) us []) c2 /\ imem c2 = proj (imem c) /\
    ilog c2 = ev_log (ilog c) /\
    forall k t, ipool c !! k = Some t -> exists u, ipool c2 !! k = Some u /\ R k t u.
Proof.
  intros Hsim H0. induction 1 as [|c c' _ (c2 & Hr & Hm & Hl & Hp) Hc].
  { eexists. split; [apply ireach_refl|]. by split_and!. }
  destruct Hc as [c k t m' t' es Hk Ht].
  destruct (Hp _ _ Hk) as (u & Hu & HR).
  destruct (Hsim _ _ _ _ _ _ _ HR Ht) as [(E1' & E2' & HR')|(u' & E1' & HR')].
  - exists c2. split; [done|]. cbn. rewrite ev_log_app, E2', app_nil_r, E1'. split_and!; [done..|].
    intros j v Hj. apply list_lookup_insert_Some in Hj as [(<- & <- & _)|[_ Hj]]; [by exists u|by apply Hp].
  - eexists. split; [eapply ireach_step; [exact Hr|]; eapply istep_thread; [exact Hu|]; by rewrite Hm|].
    cbn. rewrite ev_log_app, Hl. split_and!; [done..|].
    intros j v Hj. apply list_lookup_insert_Some in Hj as [(<- & <- & _)|[Hne Hj]].
    + exists u'. split; [|done]. apply list_lookup_insert_eq. by eapply lookup_lt_Some.
    + destruct (Hp _ _ Hj) as (w & Hw & HRw). exists w. by rewrite list_lookup_insert_ne.
Qed.

(** A thread alone, run through the part. *)
Context (inj : M1 -> M2 -> M1) (wrapt : T2 -> T1).

Lemma isolo_lift m u x' u' :
  (forall m, inj m (proj m) = m) -> (forall m x y, inj (inj m x) y = inj m y) ->
  (forall m x, proj (inj m x) = x) ->
  (forall m u x u' es, step2 (proj m) u = Some (x, u', es) ->
     exists es', step1 m (wrapt u) = Some (inj m x, wrapt u', es')) ->
  isolo step2 (proj m) u x' u' -> isolo step1 m (wrapt u) (inj m x') (wrapt u').
Proof.
  intros H1 H2 H3 Hs Hi. remember (proj m) as x eqn:Hx. revert m Hx.
  induction Hi as [x u|x u x1 u1 es x2 u2 E _ IH]; intros m ->.
  - rewrite H1. apply isolo_refl.
  - destruct (Hs _ _ _ _ _ E) as [es' E']. eapply isolo_step; [exact E'|].
    rewrite <- (H2 m x1 x2). apply IH. by rewrite H3.
Qed.
End Simulate.

Lemma isolo_trans {M T E} (st : M -> T -> option (M * T * list E)) m t m1 t1 m2 t2 :
  isolo st m t m1 t1 -> isolo st m1 t1 m2 t2 -> isolo st m t m2 t2.
Proof. induction 1; [done|]. intros. eapply isolo_step; eauto. Qed.
