(* ===== verification/Hardware.v ===== *)
(** * Programs on bare hardware

    A program that talks to ports, firmware and the framebuffer is an
    interaction tree over the events below. Nothing of the machine is
    assumed: an environment answers each event from the whole history of
    accesses. [exec] runs a program in an environment; on top of it, a
    calculus of finished runs, and one of what holds of every access,
    whatever the environment answers.

    The [outb], [inb], [outl], [inl] and [rdtsc] of
    [kernel/boot/src/{main,rtc,hwinv}.rs] are the events of the same name. *)

From S2P Require Import Prelude.
From ITree Require Import Core.ITreeDefinition.

(** One instruction or firmware call: port accesses of one and four bytes,
    [rdtsc] with its two halves (high, low), the console's [OutputString]
    with the buffer it is given, a 32-bit store at a pixel index of the
    framebuffer, and [hlt]. *)
Inductive hwE : Type -> Type :=
| Outb (port val : Z) : hwE unit
| Inb (port : Z) : hwE Z
| Outl (port val : Z) : hwE unit
| Inl (port : Z) : hwE Z
| Rdtsc : hwE (Z * Z)
| OutputString (buf : list Z) : hwE unit
| Poke (index color : Z) : hwE unit
| Hlt : hwE unit.

#[export] Instance itree_mret E : MRet (itree E) := fun A x => Ret x.
#[export] Instance itree_mbind E : MBind (itree E) := fun A B f t => ITree.bind t f.

(** An access with its answer; histories are newest first. *)
Inductive access := Did (X : Type) (e : hwE X) (x : X).
Arguments Did {X} e x.

Definition environment : Type := list access -> forall X, hwE X -> X.

(** At most [n] nodes of a program; the result, if it has one by then. *)
Fixpoint exec {R} (env : environment) (n : nat) (h : list access) (t : itree hwE R) : list access * option R :=
  match n with
  | O => (h, None)
  | S n =>
      match observe t with
      | RetF r => (h, Some r)
      | TauF t => exec env n h t
      | VisF e k => let x := env h _ e in exec env n (Did e x :: h) (k x)
      end
  end.

(** ** Laws of [exec] *)

Section Exec.
Context (env : environment).

Lemma exec_observe {R} n h (t u : itree hwE R) : observe t = observe u -> exec env n h t = exec env n h u.
Proof. destruct n; cbn; [done|]. by intros ->. Qed.

Lemma observe_bind {A B} (t : itree hwE A) (k : A -> itree hwE B) :
  observe (ITree.bind t k) =
  match observe t with
  | RetF a => observe (k a)
  | TauF t' => TauF (ITree.bind t' k)
  | VisF e f => VisF e (fun x => ITree.bind (f x) k)
  end.
Proof. unfold observe at 1. cbn. fold (observe t). by destruct (observe t). Qed.

Lemma observe_iter {I R} (f : I -> itree hwE (I + R)) i :
  observe (ITree.iter f i) =
  observe (ITree.bind (f i) (fun r => match r with inl j => Tau (ITree.iter f j) | inr r => Ret r end)).
Proof. done. Qed.

(** A bind is its first part, then the rest with the fuel that is left. *)
Lemma exec_bind {A B} n h (t : itree hwE A) (k : A -> itree hwE B) :
  match exec env n h t with
  | (h', None) => exec env n h (ITree.bind t k) = (h', None)
  | (h', Some a) => exists m, m <= n /\ forall j, exec env (m + j) h (ITree.bind t k) = exec env j h' (k a)
  end.
Proof.
  revert h t. induction n as [|n IH]; intros h t; cbn [exec]; [done|]. rewrite observe_bind.
  destruct (observe t) as [a|t'|X e f] eqn:E.
  - exists 0. split; [lia|]. intros j. cbn [Nat.add]. apply exec_observe. by rewrite observe_bind, E.
  - specialize (IH h t'). destruct (exec env n h t') as [h' [a|]]; [|done].
    destruct IH as (m & Hm & IH). exists (S m). split; [lia|]. intros j. cbn [Nat.add exec]. by rewrite observe_bind, E.
  - specialize (IH (Did e (env h X e) :: h) (f (env h X e))).
    destruct (exec env n _ (f _)) as [h' [a|]]; [|done].
    destruct IH as (m & Hm & IH). exists (S m). split; [lia|]. intros j. cbn [Nat.add exec]. by rewrite observe_bind, E.
Qed.

(** *** Finished runs *)

Definition does {A} (h : list access) (t : itree hwE A) (h' : list access) (a : A) : Prop :=
  exists n, exec env n h t = (h', Some a).

Lemma does_ret {A} h (a : A) : does h (mret a) h a.
Proof. by exists 1. Qed.

Lemma does_trigger {X} h (e : hwE X) : does h (ITree.trigger e) (Did e (env h X e) :: h) (env h X e).
Proof. by exists 2. Qed.

Lemma does_bind {A B} h (t : itree hwE A) (k : A -> itree hwE B) h1 a h2 b :
  does h t h1 a -> does h1 (k a) h2 b -> does h (t ≫= k) h2 b.
Proof.
  intros [n Hn] [j Hj]. pose proof (exec_bind n h t k) as Hb. rewrite Hn in Hb. destruct Hb as (m & _ & Hb).
  exists (m + j). unfold mbind, itree_mbind. by rewrite Hb.
Qed.

Lemma does_iter {I R} h (f : I -> itree hwE (I + R)) i h1 r h2 b :
  does h (f i) h1 r ->
  match r with inl j => does h1 (ITree.iter f j) h2 b | inr r => h2 = h1 /\ b = r end ->
  does h (ITree.iter f i) h2 b.
Proof.
  intros Hf Hr.
  assert (D : does h (f i ≫= (fun r => match r with inl j => Tau (ITree.iter f j) | inr r => Ret r end)) h2 b).
  { eapply does_bind; [exact Hf|]. destruct r as [j|r].
    - destruct Hr as [n Hn]. by exists (S n).
    - destruct Hr as [-> ->]. by exists 1. }
  destruct D as [n Hn]. exists n. rewrite <- Hn. apply exec_observe, observe_iter.
Qed.

(** A program that goes on without ever touching the hardware. *)
Definition silent {A} (t : itree hwE A) : Prop := forall n h, exec env n h t = (h, None).

(** ... after a part that finishes: the history is final. *)
Lemma does_silent {A B} h (t : itree hwE A) (k : A -> itree hwE B) h' a :
  does h t h' a -> silent (k a) -> exists n, forall m, exec env (n + m) h (t ≫= k) = (h', None).
Proof.
  intros [n Hn] Hs. pose proof (exec_bind n h t k) as Hb. rewrite Hn in Hb. destruct Hb as (m & _ & Hb).
  exists m. intros j. unfold mbind, itree_mbind. rewrite Hb. apply Hs.
Qed.

(** *** What holds of every access *)

(** [ok h e]: the access [e] may follow the history [h]. *)
Context (ok : list access -> access -> Prop).

Fixpoint trace_ok (h : list access) : Prop :=
  match h with
  | [] => True
  | e :: h' => ok h' e /\ trace_ok h'
  end.

Definition safe {A} (P : list access -> Prop) (t : itree hwE A) (Q : A -> list access -> Prop) : Prop :=
  forall n h, trace_ok h -> P h ->
    trace_ok (exec env n h t).1 /\ forall a, (exec env n h t).2 = Some a -> Q a (exec env n h t).1.

Lemma safe_ret {A} P (a : A) (Q : A -> list access -> Prop) : (forall h, P h -> Q a h) -> safe P (mret a) Q.
Proof. intros HQ [|n] h Hh Hp; cbn; [done|]. split; [done|]. intros ? [= <-]. by apply HQ. Qed.

Lemma safe_trigger {X} P (e : hwE X) (Q : X -> list access -> Prop) :
  (forall h, P h -> let x := env h X e in ok h (Did e x) /\ Q x (Did e x :: h)) -> safe P (ITree.trigger e) Q.
Proof.
  intros HQ n h Hh Hp. destruct (HQ h Hp) as [Ho Hq].
  destruct n as [|[|n]]; cbn; [done|split; [done|done]|]. split; [done|]. by intros ? [= <-].
Qed.

Lemma safe_bind {A B} P (t : itree hwE A) (k : A -> itree hwE B) R Q :
  safe P t R -> (forall a, safe (R a) (k a) Q) -> safe P (t ≫= k) Q.
Proof.
  intros Ht Hk n h Hh Hp. pose proof (exec_bind n h t k) as Hb. unfold mbind, itree_mbind.
  destruct (Ht n h Hh Hp) as [Ho Hr]. destruct (exec env n h t) as [h' [a|]]; cbn in Ho, Hr; [|by rewrite Hb].
  destruct Hb as (m & Hm & Hb). replace n with (m + (n - m)) by lia. rewrite Hb. apply Hk; [done|]. by apply Hr.
Qed.

Lemma safe_weaken {A} (P P' : list access -> Prop) (t : itree hwE A) (Q Q' : A -> list access -> Prop) :
  safe P t Q -> (forall h, P' h -> P h) -> (forall a h, Q a h -> Q' a h) -> safe P' t Q'.
Proof.
  intros Ht HP HQ n h Hh Hp. destruct (Ht n h Hh (HP _ Hp)) as [Ho Hr]. split; [done|].
  intros a Ha. by apply HQ, Hr.
Qed.

(** What cannot be reached is safe. *)
Lemma safe_never {A} (t : itree hwE A) Q : safe (fun _ => False) t Q.
Proof. by intros n h _ []. Qed.

(** A loop with an invariant. *)
Lemma safe_iter {I R} (J : I -> list access -> Prop) (f : I -> itree hwE (I + R)) Q i :
  (forall i, safe (J i) (f i) (fun r h => match r with inl j => J j h | inr r => Q r h end)) ->
  safe (J i) (ITree.iter f i) Q.
Proof.
  intros Hf n. revert i. induction (lt_wf n) as [n _ IH]. intros i h Hh Hp.
  destruct n as [|n]; [done|].
  rewrite (exec_observe (S n) h _ _ (observe_iter f i)).
  set (k := fun r => match r with inl j => Tau (ITree.iter f j) | inr r => Ret r end).
  pose proof (exec_bind (S n) h (f i) k) as Hb. destruct (Hf i (S n) h Hh Hp) as [Ho Hr].
  destruct (exec env (S n) h (f i)) as [h' [r|]]; cbn in Ho, Hr; [|by rewrite Hb].
  destruct Hb as (m & Hm & Hb). replace (S n) with (m + (S n - m)) by lia. rewrite Hb. specialize (Hr r eq_refl).
  destruct (S n - m) as [|j] eqn:Ej; [done|]. destruct r as [i'|r]; cbn.
  - apply IH; [lia | done | done].
  - split; [done|]. by intros ? [= <-].
Qed.

Lemma safe_silent {A} P (t : itree hwE A) Q : silent t -> safe P t Q.
Proof. intros Ht n h Hh _. split; [by rewrite Ht|]. intros a. by rewrite Ht. Qed.

End Exec.

(** A loop that does nothing, and what follows it. *)
Lemma silent_loop {I R A} env (f : I -> itree hwE (I + R)) (k : R -> itree hwE A) :
  (forall i, (exists j, f i = mret (inl j)) \/ exists r, f i = mret (inr r)) -> (forall r, silent env (k r)) ->
  forall i, silent env (ITree.iter f i ≫= k).
Proof.
  intros Hf Hk i n. revert i. induction n as [|n IH]; intros i h; [done|].
  cbn [exec]. unfold mbind, itree_mbind. rewrite observe_bind, observe_iter.
  destruct (Hf i) as [[j ->]|[r ->]]; cbn; [apply IH|]. specialize (Hk r (S n) h). cbn in Hk. exact Hk.
Qed.

Lemma silent_iter {I R} env (f : I -> itree hwE (I + R)) :
  (forall i, exists j, f i = mret (inl j)) -> forall i, silent env (ITree.iter f i).
Proof.
  intros Hf i n. revert i. induction n as [|n IH]; intros i h; [done|]. cbn [exec]. rewrite observe_iter.
  destruct (Hf i) as [j ->]. cbn. apply IH.
Qed.
