(* ===== verification/Envelope.v ===== *)
(** * Envelope byte queue ([kernel/core/src/envelope/mod.rs])

    The single-slot byte queue behind [sys_envelope_send] and
    [sys_envelope_recv]: the two operations as functions on the static
    cells, and as threads whose steps are the individual atomic operations
    (any interleaving; sequentially consistent memory). *)

From S2P Require Import Prelude Interleave.

Module Envelope.

Definition ENVELOPE_QUEUE_CAPACITY : Z := 16384.
Definition ENVELOPE_GC_TRIGGER_PCT : Z := 75.
Definition ENVELOPE_SLOT_BYTES : Z := 1024.
Definition MIN_ENVELOPE_BYTES : Z := 32.

Inductive EnvelopeErr :=
| QueueFull | QueueEmpty | PayloadOversize | SignatureInvalid | RouteUnknown | Unimplemented.

Record EnvelopeHeader := mkHeader {
  from_pid : Z; to_pid : Z; type_tag : bytes; verb : bytes; id : bytes;
  ts_ns : Z; payload : bytes; sig : bytes
}.

Record RouteHint := mkRoute { route_value : Z }.
Definition LOCAL : RouteHint := mkRoute 0.
Definition QUAD_BROADCAST : RouteHint := mkRoute 1.
Definition TRIAD_BROADCAST : RouteHint := mkRoute 2.

Definition dispatch_enqueue (header : EnvelopeHeader) (route : RouteHint) :
    result EnvelopeErr unit := Err Unimplemented.
Definition dispatch_dequeue (buf : bytes) : result EnvelopeErr Z := Err Unimplemented.

Definition STATE_EMPTY : Z := 0.
Definition STATE_WRITING : Z := 1.
Definition STATE_FULL : Z := 2.
Definition STATE_READING : Z := 3.

(** The statics [SLOT_STATE], [SLOT_LEN], [SLOT_ROUTE], [SLOT_BYTES] and
    [SLOT_DEPTH]. *)
Record Slot := mkSlot {
  slot_state : Z;
  slot_len : Z;
  slot_route : Z;
  slot_bytes : bytes;
  slot_depth : Z
}.

Definition initial : Slot :=
  mkSlot STATE_EMPTY 0 0 (replicate 1024 0%Z) 0.

Definition dispatch_enqueue_bytes (s : Slot) (env : bytes) (route_hint : Z) :
    result EnvelopeErr unit * Slot :=
  if (zlen env >? ENVELOPE_SLOT_BYTES)%Z then (Err PayloadOversize, s)
  else if negb (slot_state s =? STATE_EMPTY)%Z then (Err QueueFull, s)
  else
    (Ok tt, mkSlot STATE_FULL (zlen env) route_hint
              (env ++ drop (length env) (slot_bytes s)) 1).

(** The branch taken once FULL was swapped for READING. *)
Definition take_slot (s : Slot) (buf : bytes) : result EnvelopeErr Z * Slot * bytes :=
  let n := slot_len s in
  if (n >? zlen buf)%Z then (Err PayloadOversize, s, buf)
  else
    (Ok n, mkSlot STATE_EMPTY 0 (slot_route s) (slot_bytes s) 0,
     take (Z.to_nat n) (slot_bytes s) ++ drop (Z.to_nat n) buf).

(** The poll loop; [fuel] bounds the iterations, [spin_budget] ends it. *)
Fixpoint poll (fuel : nat) (tries spin_budget : Z) (s : Slot) (buf : bytes) :
    result EnvelopeErr Z * Slot * bytes :=
  match fuel with
  | O => (Err QueueEmpty, s, buf)
  | S f =>
      if (slot_state s =? STATE_FULL)%Z then take_slot s buf
      else if (spin_budget <=? tries + 1)%Z then (Err QueueEmpty, s, buf)
      else poll f (tries + 1) spin_budget s buf
  end.

Definition spin_budget_of (max_wait_ns : Z) : Z :=
  if (max_wait_ns =? 0)%Z then 1 else Z.min max_wait_ns 1000000.

Definition dispatch_dequeue_bytes (s : Slot) (buf : bytes) (max_wait_ns : Z) :
    result EnvelopeErr Z * Slot * bytes :=
  let spin_budget := spin_budget_of max_wait_ns in
  poll (Z.to_nat spin_budget) 0 spin_budget s buf.

Definition reset_slot_for_tests (s : Slot) : Slot :=
  mkSlot STATE_EMPTY 0 0 (slot_bytes s) 0.

Definition queue_depth (s : Slot) : Z := slot_depth s.

Definition should_trigger_gc (s : Slot) : bool :=
  let threshold := ((ENVELOPE_QUEUE_CAPACITY * ENVELOPE_GC_TRIGGER_PCT) / 100)%Z in
  (threshold <=? queue_depth s)%Z.

(** *** Abstract view: a one-place buffer *)

Definition contents (s : Slot) : option bytes :=
  if (slot_state s =? STATE_FULL)%Z
  then Some (take (Z.to_nat (slot_len s)) (slot_bytes s)) else None.

(** Quiescent slots: what holds between calls. *)
Definition slot_ok (s : Slot) : Prop :=
  zlen (slot_bytes s) = ENVELOPE_SLOT_BYTES /\
  (0 <= slot_len s <= ENVELOPE_SLOT_BYTES)%Z /\
  ((slot_state s = STATE_EMPTY /\ slot_len s = 0%Z /\ slot_depth s = 0%Z) \/
   (slot_state s = STATE_FULL /\ slot_depth s = 1%Z)).

(** *** Threads: one atomic operation per step *)

Inductive thread :=
| EStart (env : bytes) (route : Z)
| EWrite (env : bytes) (route : Z) (i : nat)
| ELen (env : bytes) (route : Z)
| ERoute (env : bytes) (route : Z)
| EDepth (env : bytes)
| EPublish (env : bytes)
| EDone (r : result EnvelopeErr unit)
| DStart (cap tries spin_budget : Z)
| DLen (cap : Z)
| DRestore
| DRead (n i : nat) (acc : bytes)
| DClearLen (acc : bytes)
| DClearDepth (acc : bytes)
| DRelease (acc : bytes)
| DDone (r : result EnvelopeErr bytes).

Inductive event := Published (m : bytes) | Consumed (m : bytes).

Definition set_state (x : Z) (s : Slot) : Slot :=
  mkSlot x (slot_len s) (slot_route s) (slot_bytes s) (slot_depth s).
Definition set_len (x : Z) (s : Slot) : Slot :=
  mkSlot (slot_state s) x (slot_route s) (slot_bytes s) (slot_depth s).
Definition set_route (x : Z) (s : Slot) : Slot :=
  mkSlot (slot_state s) (slot_len s) x (slot_bytes s) (slot_depth s).
Definition set_bytes (x : bytes) (s : Slot) : Slot :=
  mkSlot (slot_state s) (slot_len s) (slot_route s) x (slot_depth s).
Definition set_depth (x : Z) (s : Slot) : Slot :=
  mkSlot (slot_state s) (slot_len s) (slot_route s) (slot_bytes s) x.

(** One step of a thread; [None] when it has returned. *)
Definition tstep (s : Slot) (t : thread) : option (Slot * thread * list event) :=
  match t with
  | EStart env route =>
      if (zlen env >? ENVELOPE_SLOT_BYTES)%Z then Some (s, EDone (Err PayloadOversize), [])
      else if (slot_state s =? STATE_EMPTY)%Z
      then Some (set_state STATE_WRITING s, EWrite env route 0, [])
      else Some (s, EDone (Err QueueFull), [])
  | EWrite env route i =>
      match env !! i with
      | Some b => Some (set_bytes (<[i := b]> (slot_bytes s)) s, EWrite env route (S i), [])
      | None => Some (s, ELen env route, [])
      end
  | ELen env route => Some (set_len (zlen env) s, ERoute env route, [])
  | ERoute env route => Some (set_route route s, EDepth env, [])
  | EDepth env => Some (set_depth 1 s, EPublish env, [])
  | EPublish env => Some (set_state STATE_FULL s, EDone (Ok tt), [Published env])
  | EDone _ => None
  | DStart cap tries budget =>
      if (slot_state s =? STATE_FULL)%Z then Some (set_state STATE_READING s, DLen cap, [])
      else if (budget <=? tries + 1)%Z then Some (s, DDone (Err QueueEmpty), [])
      else Some (s, DStart cap (tries + 1) budget, [])
  | DLen cap =>
      if (slot_len s >? cap)%Z then Some (s, DRestore, [])
      else Some (s, DRead (Z.to_nat (slot_len s)) 0 [], [])
  | DRestore => Some (set_state STATE_FULL s, DDone (Err PayloadOversize), [])
  | DRead n i acc =>
      if Nat.ltb i n
      then Some (s, DRead n (S i) (acc ++ [slot_bytes s !!! i]), [])
      else Some (s, DClearLen acc, [])
  | DClearLen acc => Some (set_len 0 s, DClearDepth acc, [])
  | DClearDepth acc => Some (set_depth 0 s, DRelease acc, [])
  | DRelease acc => Some (set_state STATE_EMPTY s, DDone (Ok acc), [Consumed acc])
  | DDone _ => None
  end.

(** What the queue promises is said of the shared cells, the threads, and
    the messages published and consumed so far. *)
Record conf := mkConf {
  mem : Slot;
  pool : list thread;
  sent : list bytes;
  received : list bytes
}.

Definition log_sent (es : list event) : list bytes :=
  omap (fun e => match e with Published m => Some m | _ => None end) es.
Definition log_received (es : list event) : list bytes :=
  omap (fun e => match e with Consumed m => Some m | _ => None end) es.

Definition view (c : iconf) : conf :=
  mkConf (imem c) (ipool c) (log_sent (map snd (ilog c))) (log_received (map snd (ilog c))).

Definition starting (t : thread) : Prop :=
  match t with EStart _ _ | DStart _ _ _ => True | _ => False end.

Definition start (ts : list thread) : iconf (E := event) := IConf initial ts [].

(** The thread is between a successful compare-exchange and its release. *)
Definition writing (t : thread) : bool :=
  match t with
  | EWrite _ _ _ | ELen _ _ | ERoute _ _ | EDepth _ | EPublish _ => true
  | _ => false
  end.
Definition reading (t : thread) : bool :=
  match t with
  | DLen _ | DRestore | DRead _ _ _ | DClearLen _ | DClearDepth _ | DRelease _ => true
  | _ => false
  end.
Definition critical (t : thread) : bool := writing t || reading t.

End Envelope.
Import Envelope.

(** ** The invariant of the interleaved queue *)

(** The bytes a FULL or READING slot holds. *)
Definition message (s : Slot) : bytes := take (Z.to_nat (slot_len s)) (slot_bytes s).

Definition len_ok (s : Slot) : Prop := (0 <= slot_len s <= ENVELOPE_SLOT_BYTES)%Z.

(** What the owner of the slot knows, at each of its program points. *)
Definition owner_ok (s : Slot) (t : thread) (snt rcv : list bytes) : Prop :=
  match t with
  | EWrite env _ i =>
      slot_state s = STATE_WRITING /\ snt = rcv /\ (zlen env <= ENVELOPE_SLOT_BYTES)%Z /\
      (i <= length env)%nat /\ take i (slot_bytes s) = take i env
  | ELen env _ =>
      slot_state s = STATE_WRITING /\ snt = rcv /\ (zlen env <= ENVELOPE_SLOT_BYTES)%Z /\
      take (length env) (slot_bytes s) = env
  | ERoute env _ | EDepth env | EPublish env =>
      slot_state s = STATE_WRITING /\ snt = rcv /\ (zlen env <= ENVELOPE_SLOT_BYTES)%Z /\
      take (length env) (slot_bytes s) = env /\ slot_len s = zlen env
  | DLen _ | DRestore => slot_state s = STATE_READING /\ snt = rcv ++ [message s] /\ len_ok s
  | DRead n i acc =>
      slot_state s = STATE_READING /\ snt = rcv ++ [message s] /\ len_ok s /\
      n = Z.to_nat (slot_len s) /\ (i <= n)%nat /\ acc = take i (slot_bytes s)
  | DClearLen acc | DClearDepth acc | DRelease acc =>
      slot_state s = STATE_READING /\ snt = rcv ++ [acc]
  | _ => False
  end.

Definition quiet (s : Slot) (snt rcv : list bytes) : Prop :=
  (slot_state s = STATE_EMPTY /\ snt = rcv) \/
  (slot_state s = STATE_FULL /\ snt = rcv ++ [message s] /\ len_ok s).

Record queue_inv (c : conf) : Prop := {
  inv_bytes : length (slot_bytes (mem c)) = 1024%nat;
  inv_owner : forall k t, pool c !! k = Some t -> critical t = true ->
    owner_ok (mem c) t (sent c) (received c);
  inv_unique : forall j k t u, pool c !! j = Some t -> pool c !! k = Some u ->
    critical t = true -> critical u = true -> j = k;
  inv_quiet : (exists k t, pool c !! k = Some t /\ critical t = true) \/
    quiet (mem c) (sent c) (received c);
  inv_done : forall k acc, pool c !! k = Some (DDone (Ok acc)) -> acc ∈ received c
}.

Lemma owner_state s t a b :
  owner_ok s t a b -> slot_state s = STATE_WRITING \/ slot_state s = STATE_READING.
Proof. destruct t; cbn; naive_solver. Qed.

Lemma inv_no_owner c :
  queue_inv c -> slot_state (mem c) = STATE_EMPTY \/ slot_state (mem c) = STATE_FULL ->
  forall k t, pool c !! k = Some t -> critical t = false.
Proof.
  intros I Hs k t Hk. destruct (critical t) eqn:E; [|done].
  apply (inv_owner _ I) in Hk; [|done]. apply owner_state in Hk.
  unfold STATE_EMPTY, STATE_FULL, STATE_WRITING, STATE_READING in *. lia.
Qed.

(** A step that does not touch memory and stays outside the critical region. *)
Lemma inv_idle c k t t' :
  queue_inv c -> pool c !! k = Some t -> critical t = false -> critical t' = false ->
  (forall acc, t' <> DDone (Ok acc)) ->
  queue_inv (mkConf (mem c) (<[k := t']> (pool c)) (sent c) (received c)).
Proof.
  intros I Hk Hc Hc' Hd. destruct I as [I1 I2 I3 I4 I5]. split; cbn; [done| | | |].
  - intros j u. rewrite list_lookup_insert_Some. intros [(-> & -> & _)|[? Hj]] ?; [congruence | eauto].
  - intros j l u v. rewrite !list_lookup_insert_Some.
    intros [(-> & -> & _)|[? Hj]] [(-> & -> & _)|[? Hl]] ??; try congruence. eauto.
  - destruct I4 as [(j & u & Hj & Hu)|?]; [left | by right].
    exists j, u. split; [|done]. rewrite list_lookup_insert_ne; [done|]. intros ->. congruence.
  - intros j acc. rewrite list_lookup_insert_Some. intros [(-> & E & _)|[? Hj]]; [naive_solver | eauto].
Qed.

(** A step of the owner, or of a thread that takes the free slot. *)
Lemma inv_owned c k t s' t' snt rcv :
  queue_inv c -> pool c !! k = Some t ->
  (critical t = true \/ slot_state (mem c) = STATE_EMPTY \/ slot_state (mem c) = STATE_FULL) ->
  length (slot_bytes s') = 1024%nat -> (exists l, rcv = received c ++ l) ->
  (if critical t' then owner_ok s' t' snt rcv else quiet s' snt rcv) ->
  (forall acc, t' = DDone (Ok acc) -> acc ∈ rcv) ->
  queue_inv (mkConf s' (<[k := t']> (pool c)) snt rcv).
Proof.
  intros I Hk Hown Hl [l ->] Ht Hd.
  assert (Ho : forall j u, j <> k -> pool c !! j = Some u -> critical u = false).
  { intros j u Hjk Hj. destruct Hown as [Hc|Hs]; [|by eapply inv_no_owner].
    destruct (critical u) eqn:E; [|done]. by destruct Hjk; eapply (inv_unique _ I). }
  assert (Hlt := lookup_lt_Some _ _ _ Hk). split; cbn; [done| | | |].
  - intros j u. rewrite list_lookup_insert_Some. intros [(<- & <- & _)|[? Hj]] Hu.
    + by rewrite Hu in Ht.
    + rewrite (Ho j u) in Hu; done.
  - intros j m u v. rewrite !list_lookup_insert_Some.
    intros [(<- & <- & _)|[? Hj]] [(<- & <- & _)|[? Hm]] Hu Hv; try done.
    + rewrite (Ho m v) in Hv; done.
    + rewrite (Ho j u) in Hu; done.
    + rewrite (Ho j u) in Hu; done.
  - destruct (critical t') eqn:E; [left|by right].
    exists k, t'. by rewrite list_lookup_insert_eq.
  - intros j acc. rewrite list_lookup_insert_Some. intros [(_ & E & _)|[? Hj]]; [by apply Hd|].
    apply elem_of_app. left. by eapply (inv_done _ I).
Qed.

Lemma take_insert_next (l m : bytes) i b :
  (i < length l)%nat -> take i l = take i m -> m !! i = Some b ->
  take (S i) (<[i := b]> l) = take (S i) m.
Proof.
  intros Hi Ht Hm.
  rewrite (take_S_r m i b) by done.
  rewrite (take_S_r _ i b) by (by apply list_lookup_insert_eq).
  by rewrite take_insert_ge, Ht by lia.
Qed.

(** Leaves the owner (or quiescence) obligation of [inv_owned]. *)
Ltac owned_by I Hk Hc :=
  refine (inv_owned _ _ _ _ _ _ _ I Hk Hc _ _ _ _); cbn;
  [by rewrite ?length_insert | by eexists | rewrite ?app_nil_r | try by intros ? [=]].

Lemma step_writer c k t s' t' es :
  queue_inv c -> pool c !! k = Some t -> writing t = true ->
  tstep (mem c) t = Some (s', t', es) ->
  queue_inv (mkConf s' (<[k := t']> (pool c)) (sent c ++ log_sent es) (received c ++ log_received es)).
Proof.
  intros I Hk Hw E. assert (Hc : critical t = true) by (unfold critical; by rewrite Hw).
  assert (Hown : critical t = true \/ slot_state (mem c) = STATE_EMPTY \/
                 slot_state (mem c) = STATE_FULL) by by left.
  assert (Ho := inv_owner _ I k t Hk Hc). assert (Hb := inv_bytes _ I).
  destruct t as [|env r i|env r|env r|env|env| | | | | | | | |]; try done; cbn [tstep owner_ok] in E, Ho.
  - destruct Ho as (H1 & H2 & H3 & H4 & H5). destruct (env !! i) as [b|] eqn:Eb; simplify_eq.
    + owned_by I Hk Hown.
      apply lookup_lt_Some in Eb as Hlt. rewrite H2. split_and!; try done.
      apply take_insert_next; try done. unfold zlen, ENVELOPE_SLOT_BYTES in *. lia.
    + owned_by I Hk Hown. rewrite H2. split_and!; try done.
      apply lookup_ge_None in Eb. assert (i = length env) as -> by lia. by rewrite H5, take_ge.
  - simplify_eq. owned_by I Hk Hown. naive_solver.
  - simplify_eq. owned_by I Hk Hown. naive_solver.
  - simplify_eq. owned_by I Hk Hown. naive_solver.
  - simplify_eq. owned_by I Hk Hown.
    destruct Ho as (_ & H2 & H3 & H4 & H5). right. unfold message, len_ok. cbn.
    rewrite H2, H5. unfold zlen in *. rewrite Nat2Z.id, H4.
    split_and!; try done; lia.
Qed.

Lemma step_reader c k t s' t' es :
  queue_inv c -> pool c !! k = Some t -> reading t = true ->
  tstep (mem c) t = Some (s', t', es) ->
  queue_inv (mkConf s' (<[k := t']> (pool c)) (sent c ++ log_sent es) (received c ++ log_received es)).
Proof.
  intros I Hk Hr E. assert (Hc : critical t = true) by (unfold critical; by rewrite Hr, orb_true_r).
  assert (Hown : critical t = true \/ slot_state (mem c) = STATE_EMPTY \/
                 slot_state (mem c) = STATE_FULL) by by left.
  assert (Ho := inv_owner _ I k t Hk Hc). assert (Hb := inv_bytes _ I).
  destruct t as [| | | | | | | |cap| |n i acc|acc|acc|acc|]; try done; cbn [tstep owner_ok] in E, Ho.
  - destruct Ho as (H1 & H2 & H3). destruct (slot_len (mem c) >? cap)%Z; simplify_eq.
    + owned_by I Hk Hown. done.
    + owned_by I Hk Hown. split_and!; try done; lia.
  - simplify_eq. destruct Ho as (H1 & H2 & H3). owned_by I Hk Hown.
    by right.
  - destruct Ho as (H1 & H2 & H3 & H4 & H5 & H6). destruct (Nat.ltb_spec i n); simplify_eq.
    + owned_by I Hk Hown.
      split_and!; try done.
      symmetry. apply take_S_r. apply list_lookup_lookup_total_lt.
      unfold len_ok, ENVELOPE_SLOT_BYTES in *. lia.
    + assert (i = Z.to_nat (slot_len (mem c))) as -> by lia.
      owned_by I Hk Hown.
      done.
  - simplify_eq. owned_by I Hk Hown. done.
  - simplify_eq. owned_by I Hk Hown. done.
  - simplify_eq. destruct Ho as (H1 & H2). owned_by I Hk Hown.
    + by left.
    + intros a [= ->]. apply elem_of_app. right. by constructor.
Qed.

Lemma step_outside c k t s' t' es :
  queue_inv c -> pool c !! k = Some t -> critical t = false ->
  tstep (mem c) t = Some (s', t', es) ->
  queue_inv (mkConf s' (<[k := t']> (pool c)) (sent c ++ log_sent es) (received c ++ log_received es)).
Proof.
  intros I Hk Hc E. assert (Hb := inv_bytes _ I).
  destruct t as [env r| | | | | | |cap tr bu| | | | | | |]; try done; cbn in E.
  - destruct (zlen env >? ENVELOPE_SLOT_BYTES)%Z eqn:Ez;
      [|destruct (Z.eqb_spec (slot_state (mem c)) STATE_EMPTY) as [Es|Es]]; simplify_eq;
      cbn [log_sent log_received]; try (rewrite !app_nil_r; eapply inv_idle; [done|done|done|done|by intros ? [=]]).
    rewrite Z.gtb_ltb in Ez. apply Z.ltb_ge in Ez. 
    assert (Hown : critical (EStart env r) = true \/ slot_state (mem c) = STATE_EMPTY \/
                   slot_state (mem c) = STATE_FULL) by tauto.
    owned_by I Hk Hown. split_and!; try done; [|lia].
    destruct (inv_quiet _ I) as [(j & u & Hj & Hu)|[[_ ?]|[Hf _]]]; [| done |].
    + rewrite (inv_no_owner _ I (or_introl Es) j u) in Hu; done.
    + rewrite Es in Hf. done.
  - destruct (Z.eqb_spec (slot_state (mem c)) STATE_FULL) as [Es|Es];
      [|destruct (bu <=? tr + 1)%Z]; simplify_eq;
      cbn [log_sent log_received]; try (rewrite !app_nil_r; eapply inv_idle; [done|done|done|done|by intros ? [=]]).
    assert (Hown : critical (DStart cap tr bu) = true \/ slot_state (mem c) = STATE_EMPTY \/
                   slot_state (mem c) = STATE_FULL) by tauto.
    owned_by I Hk Hown.
    destruct (inv_quiet _ I) as [(j & u & Hj & Hu)|[[Hf ?]|(_ & ? & ?)]]; [| |done].
    + rewrite (inv_no_owner _ I (or_intror Es) j u) in Hu; done.
    + rewrite Es in Hf. done.
Qed.

Lemma queue_inv_step c k t s' t' es :
  queue_inv (view c) -> ipool c !! k = Some t -> tstep (imem c) t = Some (s', t', es) ->
  queue_inv (view (IConf s' (<[k := t']> (ipool c)) (ilog c ++ map (pair k) es))).
Proof.
  intros I Hk E.
  assert (H : queue_inv (mkConf s' (<[k := t']> (ipool c)) (sent (view c) ++ log_sent es)
                           (received (view c) ++ log_received es))).
  { destruct (critical t) eqn:Hc.
    - unfold critical in Hc. apply orb_true_iff in Hc as [Hw|Hr].
      + by eapply (step_writer (view c)).
      + by eapply (step_reader (view c)).
    - by eapply (step_outside (view c)). }
  unfold view, log_sent, log_received in *; cbn in *.
  by rewrite map_app, map_map, map_id, !omap_app.
Qed.

Lemma queue_inv_start ts : Forall starting ts -> queue_inv (view (start ts)).
Proof.
  intros Hs. rewrite Forall_lookup in Hs.
  split; cbn [start view mem pool sent received imem ipool ilog].
  - reflexivity.
  - intros k t Hk. specialize (Hs k t Hk). by destruct t.
  - intros j k t u Hj _. specialize (Hs j t Hj). by destruct t.
  - right. by left.
  - intros k acc Hk. by specialize (Hs k _ Hk).
Qed.

Lemma queue_inv_istep c c' : queue_inv (view c) -> istep tstep c c' -> queue_inv (view c').
Proof. intros I Hs. destruct Hs. by eapply queue_inv_step. Qed.

Lemma queue_inv_reach ts c :
  Forall starting ts -> ireach tstep (start ts) c -> queue_inv (view c).
Proof.
  intros Hs. induction 1; [by apply queue_inv_start | by eapply queue_inv_istep].
Qed.

(** ** Whose messages they are *)

(** The threads that published, in order. *)
Definition publishers (l : list (nat * event)) : list nat :=
  omap (fun p => match p.2 with Published _ => Some p.1 | Consumed _ => None end) l.

Lemma publishers_app l m : publishers (l ++ m) = publishers l ++ publishers m.
Proof. apply omap_app. Qed.

(** The envelope a thread in the middle of an enqueue carries. *)
Definition carries (t : thread) : option bytes :=
  match t with
  | EStart env _ | EWrite env _ _ | ELen env _ | ERoute env _ | EDepth env | EPublish env => Some env
  | _ => None
  end.

Section Attribution.
Context (ts : list thread).

Definition origin (k : nat) (env : bytes) : Prop := exists route, ts !! k = Some (EStart env route).

Definition log_ok (l : list (nat * event)) : Prop :=
  (forall k m, (k, Published m) ∈ l -> origin k m) /\ NoDup (publishers l).

Definition thread_ok (l : list (nat * event)) (k : nat) (t : thread) : Prop :=
  match carries t with
  | Some env => origin k env /\ k ∉ publishers l
  | None =>
      match t with
      | EDone (Ok _) => exists env, origin k env /\ (k, Published env) ∈ l
      | DDone (Ok acc) => (k, Consumed acc) ∈ l
      | _ => True
      end
  end.

Lemma thread_ok_others l k es j u :
  j <> k -> thread_ok l j u -> thread_ok (l ++ map (pair k) es) j u.
Proof.
  intros Hne H. unfold thread_ok in *.
  assert (Hin : forall x, x ∈ l -> x ∈ l ++ map (pair k) es) by (intros; apply elem_of_app; by left).
  destruct (carries u).
  - destruct H as [Ho Hn]. split; [done|]. rewrite publishers_app. intros [?|Hj]%elem_of_app; [done|].
    apply list_elem_of_omap in Hj as ([i e] & Hi & He). apply list_elem_of_fmap in Hi as (e' & [= -> ->] & _).
    cbn in He. destruct e'; congruence.
  - destruct u as [| | | | | |[|]| | | | | | | |[|]]; try done; [|by apply Hin].
    destruct H as (env & ? & ?). exists env. split; [done | by apply Hin].
Qed.

Lemma attribution_step m l k t m' t' es :
  log_ok l -> thread_ok l k t -> tstep m t = Some (m', t', es) ->
  let l' := l ++ map (pair k) es in
  log_ok l' /\ thread_ok l' k t' /\ (forall j u, j <> k -> thread_ok l j u -> thread_ok l' j u).
Proof.
  intros [Hpub Hnd] HL E l'. split_and!; [| |intros j u Hne; by apply thread_ok_others].
  - destruct t; cbn in E; repeat case_match; simplify_eq;
      subst l'; cbn; rewrite ?app_nil_r; try done; unfold thread_ok in HL; cbn in HL.
    + destruct HL as [Ho Hn]. split.
      * intros j x [Hj|[= -> ->]%list_elem_of_singleton]%elem_of_app; [by apply Hpub | done].
      * rewrite publishers_app. apply NoDup_app. split_and!; [done | |apply NoDup_singleton].
        intros j Hj ->%list_elem_of_singleton. done.
    + split.
      * intros j x [Hj|[=]%list_elem_of_singleton]%elem_of_app. by apply Hpub.
      * rewrite publishers_app. cbn. by rewrite app_nil_r.
  - destruct t; cbn in E; repeat case_match; simplify_eq;
      subst l'; cbn; rewrite ?app_nil_r; try done; unfold thread_ok in HL |- *; cbn in HL |- *; try done.
    + exists env. split; [by destruct HL|]. apply elem_of_app. right. by left.
    + apply elem_of_app. right. by left.
Qed.

(** The published messages are those of the enqueue calls, one per call at
    most; a call that returns success has published its envelope, or has
    consumed the message it returns. *)
Lemma attribution c :
  Forall starting ts -> ireach tstep (start ts) c ->
  log_ok (ilog c) /\ (forall k t, ipool c !! k = Some t -> thread_ok (ilog c) k t).
Proof.
  intros Hs. apply (ireach_inv_others tstep (fun _ l => log_ok l) (fun _ l k t => thread_ok l k t)).
  - split; [by intros k m ?%elem_of_nil | apply NoDup_nil_2].
  - intros k t Hk. rewrite Forall_lookup in Hs. specialize (Hs k t Hk). unfold thread_ok.
    destruct t; try done; cbn. split; [by eexists | by intros ?%elem_of_nil].
  - intros m l k t m' t' es. apply attribution_step.
Qed.
End Attribution.

(** ** The calls as sequences of steps *)

Lemma solo_write s env r i :
  slot_state s = STATE_WRITING -> (length env <= length (slot_bytes s))%nat ->
  (i <= length env)%nat -> take i (slot_bytes s) = take i env ->
  isolo tstep s (EWrite env r i)
    (mkSlot STATE_FULL (zlen env) r (env ++ drop (length env) (slot_bytes s)) 1)
    (EDone (Ok tt)).
Proof.
  intros Hst Hl Hi Ht. remember (length env - i)%nat as d eqn:Hd.
  revert s i Hst Hl Hi Ht Hd. induction d as [|d IH]; intros s i Hst Hl Hi Ht Hd.
  - assert (i = length env) as -> by lia. rewrite (take_ge env) in Ht by lia.
    destruct s as [st le ro by' de]. cbn in *.
    assert (E : by' = env ++ drop (length env) by').
    { rewrite <- (take_drop (length env) by') at 1. by rewrite Ht. }
    eapply isolo_step; [cbn [tstep]; by rewrite lookup_ge_None_2 by lia|].
    do 4 (eapply isolo_step; [reflexivity|]). cbn. rewrite <- E. apply isolo_refl.
  - destruct (lookup_lt_is_Some_2 env i) as [b Hb]; [lia|].
    eapply isolo_step; [cbn [tstep]; by rewrite Hb|].
    replace (drop (length env) (slot_bytes s))
      with (drop (length env) (slot_bytes (set_bytes (<[i:=b]> (slot_bytes s)) s)))
      by (cbn; rewrite drop_insert_lt by lia; done).
    apply IH; cbn; [done | by rewrite length_insert | lia | | lia].
    apply take_insert_next; [lia|done|done].
Qed.

Lemma solo_read s n i acc :
  slot_state s = STATE_READING -> (n <= length (slot_bytes s))%nat -> (i <= n)%nat ->
  acc = take i (slot_bytes s) ->
  isolo tstep s (DRead n i acc) (mkSlot STATE_EMPTY 0 (slot_route s) (slot_bytes s) 0)
    (DDone (Ok (take n (slot_bytes s)))).
Proof.
  intros Hst Hn Hi ->. remember (n - i)%nat as d eqn:Hd. revert i Hi Hd.
  induction d as [|d IH]; intros i Hi Hd.
  - assert (i = n) as -> by lia.
    eapply isolo_step; [cbn [tstep]; by rewrite (proj2 (Nat.ltb_ge n n)) by lia|].
    do 3 (eapply isolo_step; [reflexivity|]). apply isolo_refl.
  - eapply isolo_step.
    { cbn [tstep]. rewrite (proj2 (Nat.ltb_lt i n)) by lia. reflexivity. }
    rewrite <- (take_S_r (slot_bytes s) i) by (apply list_lookup_lookup_total_lt; lia).
    apply IH; lia.
Qed.

Lemma poll_idle fuel tries budget s buf :
  (slot_state s =? STATE_FULL)%Z = false ->
  poll fuel tries budget s buf = (Err QueueEmpty, s, buf).
Proof.
  intros E. revert tries. induction fuel as [|f IH]; intros tries; cbn; [done|].
  rewrite E, IH. by destruct (_ <=? _)%Z.
Qed.

Lemma spin_budget_pos w : (0 <= w)%Z -> (1 <= spin_budget_of w)%Z.
Proof. intros. unfold spin_budget_of. split_if; lia. Qed.

(** The poll loop in closed form: the budget is only spent waiting. *)
Lemma dispatch_dequeue_eq s buf w :
  (0 <= w)%Z ->
  dispatch_dequeue_bytes s buf w =
  if (slot_state s =? STATE_FULL)%Z then take_slot s buf else (Err QueueEmpty, s, buf).
Proof.
  intros Hw. unfold dispatch_dequeue_bytes.
  destruct (slot_state s =? STATE_FULL)%Z eqn:E; [|by apply poll_idle].
  pose proof (spin_budget_pos w Hw).
  destruct (Z.to_nat (spin_budget_of w)) eqn:En; [lia|]. cbn [poll]. by rewrite E.
Qed.

Lemma solo_wait s cap tries budget :
  slot_state s <> STATE_FULL -> (tries < budget)%Z ->
  isolo tstep s (DStart cap tries budget) s (DDone (Err QueueEmpty)).
Proof.
  intros Hs Hlt. remember (Z.to_nat (budget - tries)) as d eqn:Hd.
  revert tries Hlt Hd. induction d as [|d IH]; intros tries Hlt Hd; [lia|].
  destruct (Z.leb_spec budget (tries + 1)).
  - eapply isolo_step; [|apply isolo_refl]. cbn [tstep].
    rewrite (proj2 (Z.eqb_neq _ _) Hs). by rewrite (proj2 (Z.leb_le _ _)).
  - eapply isolo_step; [|apply (IH (tries + 1)%Z); lia]. cbn [tstep].
    rewrite (proj2 (Z.eqb_neq _ _) Hs). by rewrite (proj2 (Z.leb_gt _ _)).
Qed.

(** ** Wait-freedom *)

(** Atomic steps a call may still take, whatever the other threads do. *)
Definition steps_left (t : thread) : nat :=
  match t with
  | EStart env _ => length env + 6
  | EWrite env _ i => (length env - i) + 5
  | ELen _ _ => 4
  | ERoute _ _ => 3
  | EDepth _ => 2
  | EPublish _ => 1
  | EDone _ => 0
  | DStart _ tries budget => 1029 + Z.to_nat (Z.max 1 (budget - tries))
  | DLen _ => 1029
  | DRestore => 1
  | DRead n i _ => (n - i) + 4
  | DClearLen _ => 3
  | DClearDepth _ => 2
  | DRelease _ => 1
  | DDone _ => 0
  end.

Definition returned (t : thread) : Prop :=
  match t with EDone _ | DDone _ => True | _ => False end.

Lemma queue_live s t : returned t \/ is_Some (tstep s t).
Proof.
  destruct t; cbn; try (by left); right; repeat split_if; try case_match; eauto.
Qed.

Lemma tstep_steps_left c k t s' t' es :
  queue_inv c -> pool c !! k = Some t -> tstep (mem c) t = Some (s', t', es) ->
  (steps_left t' < steps_left t)%nat.
Proof.
  intros I Hk E.
  assert (Hl : forall cap, t = DLen cap -> len_ok (mem c)).
  { intros cap ->. apply (inv_owner _ I k (DLen cap)); done. }
  destruct t; cbn in E; repeat case_match; simplify_eq; cbn; to_prop; try lia.
  - match goal with H : _ !! _ = Some _ |- _ => apply lookup_lt_Some in H end. lia.
  - destruct (Hl cap eq_refl). unfold ENVELOPE_SLOT_BYTES in *. lia.
  - match goal with H : Nat.leb _ _ = true |- _ => apply Nat.leb_le in H end. lia.
Qed.

Lemma enqueue_solo s env route :
  slot_ok s ->
  let '(r, s') := dispatch_enqueue_bytes s env route in
  isolo tstep s (EStart env route) s' (EDone r).
Proof.
  intros (Hb & Hl & Hst).
  unfold dispatch_enqueue_bytes. destruct (zlen env >? ENVELOPE_SLOT_BYTES)%Z eqn:E1.
  { eapply isolo_step; [cbn [tstep]; by rewrite E1 | apply isolo_refl]. }
  destruct (slot_state s =? STATE_EMPTY)%Z eqn:E2; cbn [negb].
  - eapply isolo_step; [cbn [tstep]; rewrite E1, E2; reflexivity|].
    rewrite Z.gtb_ltb in E1. to_prop.
    apply (solo_write (set_state STATE_WRITING s)); cbn; [done | | lia | done].
    unfold zlen in *. lia.
  - eapply isolo_step; [cbn [tstep]; rewrite E1, E2; reflexivity | apply isolo_refl].
Qed.

Lemma dequeue_solo s buf w :
  slot_ok s -> (0 <= w)%Z ->
  let '(r, s', buf') := dispatch_dequeue_bytes s buf w in
  exists r', isolo tstep s (DStart (zlen buf) 0 (spin_budget_of w)) s' (DDone r') /\
  match r, r' with
  | Ok n, Ok acc => n = zlen acc /\ buf' = acc ++ drop (length acc) buf
  | Err e, Err e' => e = e' /\ buf' = buf
  | _, _ => False
  end.
Proof.
  intros (Hb & Hl & Hst) Hw. rewrite dispatch_dequeue_eq by done.
  destruct (slot_state s =? STATE_FULL)%Z eqn:E.
  - unfold take_slot. destruct (slot_len s >? zlen buf)%Z eqn:E1.
    + exists (Err PayloadOversize). split; [|done].
      eapply isolo_step; [cbn [tstep]; rewrite E; reflexivity|].
      eapply isolo_step; [cbn [tstep]; cbn; rewrite E1; reflexivity|].
      eapply isolo_step; [reflexivity|]. cbn. apply Z.eqb_eq in E. destruct s; cbn in *; subst.
      apply isolo_refl.
    + exists (Ok (take (Z.to_nat (slot_len s)) (slot_bytes s))).
      assert (Hn : length (take (Z.to_nat (slot_len s)) (slot_bytes s)) = Z.to_nat (slot_len s)).
      { rewrite length_take. unfold zlen in *. lia. }
      split; [|split; [unfold zlen; lia | by rewrite Hn]].
      eapply isolo_step; [cbn [tstep]; rewrite E; reflexivity|].
      eapply isolo_step; [cbn [tstep]; cbn; rewrite E1; reflexivity|].
      apply (solo_read (set_state STATE_READING s)); cbn; [done | | lia | done].
      unfold zlen in *. lia.
  - exists (Err QueueEmpty). split; [|done]. apply solo_wait; [by apply Z.eqb_neq|].
    pose proof (spin_budget_pos w Hw). lia.
Qed.

(** ** Theorems *)

(** At most one published message is not consumed yet. *)
Lemma one_pending c : queue_inv c ->
  exists pending, sent c = received c ++ pending /\ (length pending <= 1)%nat.
Proof.
  intros I. destruct (inv_quiet _ I) as [(k & t & Hk & Ht)|[[_ ->]|(_ & -> & _)]].
  - assert (Hg : sent c = received c \/ exists m, sent c = received c ++ [m]).
    { apply (inv_owner _ I) in Hk; [|done]. destruct t; cbn in Hk; naive_solver. }
    destruct Hg as [->|[m ->]]; [exists []; rewrite app_nil_r | exists [m]]; (split; [done | cbn; lia]).
  - exists []. rewrite app_nil_r. split; [done | cbn; lia].
  - eexists [_]. split; [done | cbn; lia].
Qed.

(** Any number of threads enqueueing and dequeueing in any interleaving:
    the messages consumed are, in order and intact, those published, except
    for at most one still in the slot; every successful dequeue returned a
    published message whole; at most one thread owns the slot. *)
Theorem queue_exactly_once ts c :
  Forall starting ts -> ireach tstep (start ts) c ->
  let '(mkConf mem pool sent received) := view c in
  (exists pending, sent = received ++ pending /\ (length pending <= 1)%nat) /\
  (forall k acc, pool !! k = Some (DDone (Ok acc)) -> acc ∈ received /\ acc ∈ sent) /\
  (forall j k t u, pool !! j = Some t -> pool !! k = Some u ->
     critical t = true -> critical u = true -> j = k) /\
  (forall m, contents mem = Some m -> sent = received ++ [m]).
Proof.
  intros Hs Hr. assert (I := queue_inv_reach ts c Hs Hr).
  destruct (view c) as [mem pool snt rcv] eqn:Ev; clear Ev c Hr.
  assert (Iq := inv_quiet _ I). cbn in Iq.
  assert (Hp := one_pending _ I). cbn in Hp.
  split_and!; [done | | apply (inv_unique _ I) |].
  - intros k acc Hk. apply (inv_done _ I) in Hk. split; [done|].
    destruct Hp as (p & -> & _). apply elem_of_app. by left.
  - intros m. unfold contents. destruct (Z.eqb_spec (slot_state mem) STATE_FULL) as [E|]; [|done].
    intros [= <-]. destruct Iq as [(k & t & Hk & Ht)|[[E' _]|(_ & ? & _)]]; [| |done].
    + rewrite (inv_no_owner _ I (or_intror E) k t Hk) in Ht. done.
    + rewrite E in E'. done.
Qed.

Lemma queue_exactly_once_witness :
  let ts := [EStart (lit "a") 0; DStart 8 0 1] in
  exists c, ireach tstep (start ts) c /\ contents (imem c) = Some (lit "a") /\
    sent (view c) = received (view c) ++ [lit "a"].
Proof.
  intros ts.
  assert (R : exists c, ireach tstep (start ts) c /\ contents (imem c) = Some (lit "a")).
  { destruct (irun tstep (replicate 7 0%nat) (start ts)) as [c|] eqn:E; [|by vm_compute in E].
    exists c. split; [eapply irun_reach; [apply ireach_refl | exact E]|].
    vm_compute in E. injection E as <-. vm_compute. reflexivity. }
  destruct R as (c & R & Hc). exists c. split_and!; [exact R | exact Hc|].
  assert (Hs : Forall starting ts) by repeat constructor.
  exact (proj2 (proj2 (proj2 (queue_exactly_once ts c Hs R))) (lit "a") Hc).
Defined.

(** C11. The queue is wait-free: in any interleaving, given by the schedule of
    the steps, an enqueue of [env] takes at most [length env + 6] atomic
    steps of its own and a dequeue at most 1029 more than the polls left of
    its spin budget (one at least), whatever the other calls do; so an execution has at most
    the sum of these, stops only when every call has returned, and always
    extends to one that has. *)
Theorem queue_wait_free ts n c :
  Forall starting ts -> isteps tstep (start ts) n c ->
  (forall sched k, irun tstep sched (start ts) = Some c ->
     (forall env route, ts !! k = Some (EStart env route) ->
        (count_occ Nat.eq_dec sched k <= length env + 6)%nat) /\
     (forall cap tries budget, ts !! k = Some (DStart cap tries budget) ->
        (count_occ Nat.eq_dec sched k <= 1029 + Z.to_nat (Z.max 1 (budget - tries)))%nat)) /\
  (exists sched, length sched = n /\ irun tstep sched (start ts) = Some c) /\
  (n <= sum_list_with steps_left ts)%nat /\
  ((forall c', ~ istep tstep c c') -> Forall returned (ipool c)) /\
  exists k c', isteps tstep (start ts) (n + k) c' /\ length (ipool c') = length ts /\
    Forall returned (ipool c').
Proof.
  intros Hs Hn. split; [|split; [by apply isteps_schedule|]].
  - intros sched k Hr.
    assert (B : forall t, ts !! k = Some t -> (count_occ Nat.eq_dec sched k <= steps_left t)%nat).
    { intros t Hk. destruct (irun_own_steps tstep (fun c => queue_inv (view c)) steps_left) with
        (sched := sched) (c0 := start ts) (c := c) (k := k) (t := t) as (t' & _ & L); [| |by apply queue_inv_start|done|done|lia].
      - intros c1 c2 I Hc. by eapply queue_inv_istep.
      - intros. by eapply (tstep_steps_left (view c0)). }
    split; [intros env route Hk; by apply B in Hk|].
    intros cap tries budget Hk. by apply B in Hk.
  - revert Hn. apply (isteps_terminate tstep (fun c => queue_inv (view c))
      (fun c => sum_list_with steps_left (ipool c))); [|apply queue_live | by apply queue_inv_start].
    intros c1 c2 I Hc. split; [by eapply queue_inv_istep|].
    apply (istep_sum_rank tstep); [|done]. intros. by eapply (tstep_steps_left (view c1)).
Qed.

Lemma queue_wait_free_witness :
  exists c, isteps tstep (start [EStart (lit "a") 0; DStart 8 0 1]) 14 c /\
    ipool c = [EDone (Ok tt); DDone (Ok (lit "a"))] /\ (14 <= 7 + 1030)%nat.
Proof.
  assert (Hs : Forall starting [EStart (lit "a") 0; DStart 8 0 1]) by repeat constructor.
  assert (R : exists c, irun tstep (replicate 7 0 ++ replicate 7 1)%nat (start [EStart (lit "a") 0; DStart 8 0 1]) = Some c
      /\ ipool c = [EDone (Ok tt); DDone (Ok (lit "a"))]).
  { eexists. split; vm_compute; reflexivity. }
  destruct R as (c & R & L). exists c.
  assert (R' := irun_isteps tstep _ _ _ _ _ (isteps_O tstep _) R).
  split; [exact R'|]. split; [exact L|].
  exact (proj1 (proj2 (proj2 (queue_wait_free _ _ _ Hs R')))).
Defined.

(** The two functions are their threads run without interference: the
    function result is the state and outcome the atomic steps reach. *)
Theorem dispatch_refines_steps s env route buf w :
  slot_ok s -> (0 <= w)%Z ->
  (let '(r, s') := dispatch_enqueue_bytes s env route in
   isolo tstep s (EStart env route) s' (EDone r)) /\
  (let '(r, s', buf') := dispatch_dequeue_bytes s buf w in
   exists r', isolo tstep s (DStart (zlen buf) 0 (spin_budget_of w)) s' (DDone r') /\
   match r, r' with
   | Ok n, Ok acc => n = zlen acc /\ buf' = acc ++ drop (length acc) buf
   | Err e, Err e' => e = e' /\ buf' = buf
   | _, _ => False
   end).
Proof. intros Hok Hw. split; [by apply enqueue_solo | by apply dequeue_solo]. Qed.

Lemma slot_ok_initial : slot_ok initial.
Proof. unfold slot_ok. vm_compute. naive_solver. Qed.

Lemma dispatch_refines_steps_witness :
  isolo tstep initial (EStart (lit "hi") 0) (dispatch_enqueue_bytes initial (lit "hi") 0).2 (EDone (Ok tt)).
Proof.
  assert (Hw : (0 <= 0)%Z) by lia.
  exact (proj1 (dispatch_refines_steps initial (lit "hi") 0 [] 0 slot_ok_initial Hw)).
Defined.

Lemma enqueue_slot_ok s env route :
  slot_ok s -> slot_ok (dispatch_enqueue_bytes s env route).2.
Proof.
  intros (Hb & Hl & Hst). unfold dispatch_enqueue_bytes.
  destruct (zlen env >? ENVELOPE_SLOT_BYTES)%Z eqn:E1; [done|].
  destruct (slot_state s =? STATE_EMPTY)%Z eqn:E2; [|done].
  rewrite Z.gtb_ltb in E1. to_prop. pose proof (zlen_nonneg env).
  unfold slot_ok. cbn. split_and!; [|lia|lia|by right].
  rewrite zlen_app. unfold zlen in *. rewrite length_drop. lia.
Qed.

Lemma dequeue_slot_ok s buf w :
  slot_ok s -> (0 <= w)%Z -> slot_ok (dispatch_dequeue_bytes s buf w).1.2.
Proof.
  intros (Hb & Hl & Hst) Hw. rewrite dispatch_dequeue_eq by done.
  destruct (slot_state s =? STATE_FULL)%Z; [|done]. unfold take_slot.
  destruct (slot_len s >? zlen buf)%Z; [done|].
  unfold slot_ok. cbn. unfold ENVELOPE_SLOT_BYTES in *. split_and!; try done; lia.
Qed.

(** An accepted envelope is delivered byte for byte: the next dequeue with
    a large enough buffer returns its length, its bytes in front of the
    untouched rest of the buffer, and an empty slot; a small buffer is
    refused and leaves the envelope in place; a second enqueue is refused. *)
Theorem enqueue_dequeue_roundtrip s env route buf w :
  slot_ok s -> slot_state s = STATE_EMPTY -> (zlen env <= ENVELOPE_SLOT_BYTES)%Z -> (0 <= w)%Z ->
  let '(r, s1) := dispatch_enqueue_bytes s env route in
  r = Ok tt /\ contents s1 = Some env /\ slot_route s1 = route /\
  (dispatch_enqueue_bytes s1 env route).1 = Err QueueFull /\
  let '(r2, s2, buf') := dispatch_dequeue_bytes s1 buf w in
  (if (zlen env <=? zlen buf)%Z
   then r2 = Ok (zlen env) /\ buf' = env ++ drop (length env) buf /\ contents s2 = None /\
        slot_ok s2
   else r2 = Err PayloadOversize /\ buf' = buf /\ s2 = s1).
Proof.
  intros Hok Hs Hl Hw. assert (Hok1 := enqueue_slot_ok s env route Hok). revert Hok1.
  unfold dispatch_enqueue_bytes at 1 2. rewrite Hs.
  rewrite Z.gtb_ltb, (proj2 (Z.ltb_ge _ _)) by done. cbn [negb Z.eqb STATE_EMPTY snd].
  set (s1 := mkSlot _ _ _ _ _). intros Hok1. split_and!; [done | | done | |].
  - unfold contents, s1, zlen. cbn. by rewrite Nat2Z.id, take_app_length.
  - unfold dispatch_enqueue_bytes. rewrite Z.gtb_ltb, (proj2 (Z.ltb_ge _ _)) by done. done.
  - assert (Hok2 := dequeue_slot_ok s1 buf w Hok1 Hw). revert Hok2.
    rewrite dispatch_dequeue_eq by done. cbn [s1 slot_state].
    change (STATE_FULL =? STATE_FULL)%Z with true. cbn iota. unfold take_slot. cbn [slot_len s1].
    rewrite Z.gtb_ltb, Z.ltb_antisym. destruct (zlen env <=? zlen buf)%Z; cbn [negb]; [|done].
    cbn [fst snd]. intros Hok2. split_and!; try done.
    unfold zlen. cbn. by rewrite !Nat2Z.id, take_app_length.
Qed.

Lemma enqueue_dequeue_roundtrip_witness :
  (dispatch_dequeue_bytes (dispatch_enqueue_bytes initial (lit "PING") 7).2 (replicate 6 0%Z) 0).2
  = lit "PING" ++ [0; 0]%Z /\
  (dispatch_enqueue_bytes initial (lit "PING") 7).1 = Ok tt.
Proof.
  split; [vm_compute; reflexivity|].
  assert (Hw : (0 <= 0)%Z) by lia. assert (Hl : (zlen (lit "PING") <= ENVELOPE_SLOT_BYTES)%Z) by by vm_compute.
  exact (proj1 (enqueue_dequeue_roundtrip initial (lit "PING") 7 (replicate 6 0%Z) 0
                  slot_ok_initial eq_refl Hl Hw)).
Defined.

(** The garbage-collection trigger never fires: the slot holds at most one
    envelope while the threshold is 12288, 75 percent of the capacity
    constant. *)
Theorem gc_never_triggers s :
  slot_ok s -> (queue_depth s <= 1)%Z /\ should_trigger_gc s = false.
Proof.
  intros (_ & _ & Hs). unfold should_trigger_gc, queue_depth.
  assert (slot_depth s <= 1)%Z by naive_solver lia. split; [done|].
  apply Z.leb_gt. change (ENVELOPE_QUEUE_CAPACITY * ENVELOPE_GC_TRIGGER_PCT / 100)%Z with 12288%Z. lia.
Qed.

Lemma gc_never_triggers_witness :
  should_trigger_gc (dispatch_enqueue_bytes initial (lit "x") 0).2 = false.
Proof. apply gc_never_triggers. apply enqueue_slot_ok. exact slot_ok_initial. Defined.
