(* ===== verification/WeakQueue.v ===== *)
(** * The memory orderings of the envelope queue ([kernel/core/src/envelope/mod.rs])

    The two calls of the queue on a weak memory: every location keeps the
    messages written to it, a thread has a view of each location, a relaxed
    load may read any message not older than its view, and a release store
    hands its writer's view to the acquiring reader. The orderings are those
    the code asks for. Every execution is an execution on plain memory in
    which, besides, a compare-and-swap may fail on a stale value; so the
    queue is exactly-once under the orderings as well.

    The model is that of views and timestamped messages, without load
    buffering: a store is not visible before the loads that precede it. *)

From S2P Require Import Prelude Interleave Envelope.

Module WeakQueue.

Import Envelope.

(** The statics, one location per atomic cell. *)
Inductive loc := LState | LLen | LRoute | LByte (i : nat) | LDepth.

#[export] Instance loc_eq_dec : EqDecision loc.
Proof. solve_decision. Defined.

(** The newest message of each location that a thread is aware of. *)
Definition tview : Type := loc -> nat.
Definition vbot : tview := fun _ => 0.
Definition vset (v : tview) (l : loc) (t : nat) : tview := fun l' => if decide (l' = l) then t else v l'.
Definition vjoin (v w : tview) : tview := fun l => v l `max` w l.

(** A message holds the interval of its location between the message it
    follows and its own timestamp. *)
Record msg := Msg { m_from : nat; m_to : nat; m_val : Z; m_view : tview }.

Definition wmem : Type := loc -> list msg.
Definition init_msg : msg := Msg 0 0 0 vbot.
Definition winit : wmem := fun _ => [init_msg].

Definition apart (a b : msg) : Prop := m_to a <= m_from b \/ m_to b <= m_from a.
Definition wset (m : wmem) (l : loc) (x : msg) : wmem := fun l' => if decide (l' = l) then x :: m l else m l'.

(** A message may be added where its interval is free. *)
Definition addable (m : wmem) (l : loc) (x : msg) : Prop := m_from x < m_to x /\ Forall (apart x) (m l).

(** *** The atomic operations *)

(** [load(Relaxed)]. *)
Definition load_rlx (m : wmem) (v : tview) (l : loc) (x : Z) (v' : tview) : Prop :=
  exists r, r ∈ m l /\ v l <= m_to r /\ x = m_val r /\ v' = vset v l (m_to r).

(** [store(Release)] and [store(Relaxed)]. *)
Definition store (release : bool) (m : wmem) (v : tview) (l : loc) (x : Z) (m' : wmem) (v' : tview) : Prop :=
  exists r, addable m l r /\ v l < m_to r /\ m_val r = x /\ v' = vset v l (m_to r) /\
    m_view r = (if release then v' else vset vbot l (m_to r)) /\ m' = wset m l r.

(** [compare_exchange(old, new, AcqRel, Acquire)] that succeeds. *)
Definition cas_ok (m : wmem) (v : tview) (l : loc) (old new : Z) (m' : wmem) (v' : tview) : Prop :=
  exists r x, r ∈ m l /\ v l <= m_to r /\ m_val r = old /\
    addable m l x /\ m_from x = m_to r /\ m_val x = new /\
    v' = vset (vjoin v (m_view r)) l (m_to x) /\ m_view x = v' /\ m' = wset m l x.

(** The same when it fails: an acquire load of another value. *)
Definition cas_fail (m : wmem) (v : tview) (l : loc) (old : Z) (v' : tview) : Prop :=
  exists r, r ∈ m l /\ v l <= m_to r /\ m_val r <> old /\ v' = vset (vjoin v (m_view r)) l (m_to r).

(** *** The calls, one atomic operation per step *)

Inductive wtstep (m : wmem) (v : tview) : thread -> wmem -> tview -> thread -> list event -> Prop :=
| w_oversize env route : (zlen env >? ENVELOPE_SLOT_BYTES)%Z = true ->
    wtstep m v (EStart env route) m v (EDone (Err PayloadOversize)) []
| w_claim env route m' v' : (zlen env >? ENVELOPE_SLOT_BYTES)%Z = false ->
    cas_ok m v LState STATE_EMPTY STATE_WRITING m' v' ->
    wtstep m v (EStart env route) m' v' (EWrite env route 0) []
| w_full env route v' : (zlen env >? ENVELOPE_SLOT_BYTES)%Z = false ->
    cas_fail m v LState STATE_EMPTY v' ->
    wtstep m v (EStart env route) m v' (EDone (Err QueueFull)) []
| w_byte env route i b m' v' : env !! i = Some b -> store false m v (LByte i) b m' v' ->
    wtstep m v (EWrite env route i) m' v' (EWrite env route (S i)) []
| w_bytes_done env route i : env !! i = None -> wtstep m v (EWrite env route i) m v (ELen env route) []
| w_len env route m' v' : store false m v LLen (zlen env) m' v' ->
    wtstep m v (ELen env route) m' v' (ERoute env route) []
| w_route env route m' v' : store false m v LRoute route m' v' ->
    wtstep m v (ERoute env route) m' v' (EDepth env) []
| w_depth env m' v' : store false m v LDepth 1 m' v' -> wtstep m v (EDepth env) m' v' (EPublish env) []
| w_publish env m' v' : store true m v LState STATE_FULL m' v' ->
    wtstep m v (EPublish env) m' v' (EDone (Ok tt)) [Published env]
| r_claim cap tries budget m' v' : cas_ok m v LState STATE_FULL STATE_READING m' v' ->
    wtstep m v (DStart cap tries budget) m' v' (DLen cap) []
| r_empty cap tries budget v' : cas_fail m v LState STATE_FULL v' -> (budget <=? tries + 1)%Z = true ->
    wtstep m v (DStart cap tries budget) m v' (DDone (Err QueueEmpty)) []
| r_again cap tries budget v' : cas_fail m v LState STATE_FULL v' -> (budget <=? tries + 1)%Z = false ->
    wtstep m v (DStart cap tries budget) m v' (DStart cap (tries + 1) budget) []
| r_len cap n v' : load_rlx m v LLen n v' -> (n >? cap)%Z = false ->
    wtstep m v (DLen cap) m v' (DRead (Z.to_nat n) 0 []) []
| r_small cap n v' : load_rlx m v LLen n v' -> (n >? cap)%Z = true -> wtstep m v (DLen cap) m v' DRestore []
| r_restore m' v' : store true m v LState STATE_FULL m' v' ->
    wtstep m v DRestore m' v' (DDone (Err PayloadOversize)) []
| r_byte n i acc b v' : Nat.ltb i n = true -> load_rlx m v (LByte i) b v' ->
    wtstep m v (DRead n i acc) m v' (DRead n (S i) (acc ++ [b])) []
| r_bytes_done n i acc : Nat.ltb i n = false -> wtstep m v (DRead n i acc) m v (DClearLen acc) []
| r_clear_len acc m' v' : store false m v LLen 0 m' v' -> wtstep m v (DClearLen acc) m' v' (DClearDepth acc) []
| r_clear_depth acc m' v' : store false m v LDepth 0 m' v' ->
    wtstep m v (DClearDepth acc) m' v' (DRelease acc) []
| r_release acc m' v' : store true m v LState STATE_EMPTY m' v' ->
    wtstep m v (DRelease acc) m' v' (DDone (Ok acc)) [Consumed acc].

(** Memory, threads with their views, events. *)
Record wconf := WConf { w_mem : wmem; w_pool : list (thread * tview); w_log : list (nat * event) }.

Definition wstart (ts : list thread) : wconf := WConf winit (map (fun t => (t, vbot)) ts) [].

Inductive wstep : wconf -> wconf -> Prop :=
| wstep_thread c k t v m' v' t' es :
    w_pool c !! k = Some (t, v) -> wtstep (w_mem c) v t m' v' t' es ->
    wstep c (WConf m' (<[k := (t', v')]> (w_pool c)) (w_log c ++ map (pair k) es)).

Inductive wreach (c0 : wconf) : wconf -> Prop :=
| wreach_refl : wreach c0 c0
| wreach_step c c' : wreach c0 c -> wstep c c' -> wreach c0 c'.

(** *** Plain memory with stale failures *)

Inductive stale : thread -> thread -> Prop :=
| stale_full env route : stale (EStart env route) (EDone (Err QueueFull))
| stale_empty cap tries budget : (budget <=? tries + 1)%Z = true ->
    stale (DStart cap tries budget) (DDone (Err QueueEmpty))
| stale_again cap tries budget : (budget <=? tries + 1)%Z = false ->
    stale (DStart cap tries budget) (DStart cap (tries + 1) budget).

Inductive pstep : iconf (M := Slot) (T := thread) (E := event) -> iconf -> Prop :=
| pstep_plain c c' : istep tstep c c' -> pstep c c'
| pstep_stale c k t t' : ipool c !! k = Some t -> stale t t' ->
    pstep c (IConf (imem c) (<[k := t']> (ipool c)) (ilog c)).

Inductive preach (c0 : iconf) : iconf (M := Slot) (T := thread) (E := event) -> Prop :=
| preach_refl : preach c0 c0
| preach_step c c' : preach c0 c -> pstep c c' -> preach c0 c'.

(** The newest values, as plain memory. *)
Definition newest (m : wmem) (l : loc) : msg := hd init_msg (m l).
Definition latest (m : wmem) (l : loc) : Z := m_val (newest m l).

Definition plain_mem (m : wmem) : Slot :=
  mkSlot (latest m LState) (latest m LLen) (latest m LRoute)
    (map (fun i => latest m (LByte i)) (seq 0 1024)) (latest m LDepth).

Definition plain (c : wconf) : iconf := IConf (plain_mem (w_mem c)) (map fst (w_pool c)) (w_log c).

End WeakQueue.

Import Envelope WeakQueue.

(** ** Histories *)

(** A location's messages, newest first: intervals in order, down to the
    initial message. *)
Fixpoint chain (h : list msg) : Prop :=
  match h with
  | [] => False
  | x :: t =>
      match t with
      | [] => x = init_msg
      | y :: _ => m_from x < m_to x /\ m_to y <= m_from x /\ chain t
      end
  end.

(** Nothing fits behind a message of the state that a compare-and-swap has
    read: those whose value one may expect are followed without a gap. *)
Fixpoint gapless (h : list msg) : Prop :=
  match h with
  | [] => True
  | x :: t =>
      match t with
      | [] => True
      | y :: _ => (m_val y = STATE_EMPTY \/ m_val y = STATE_FULL -> m_from x = m_to y) /\ gapless t
      end
  end.

Lemma chain_from x h : chain (x :: h) -> m_from x <= m_to x.
Proof. destruct h; cbn; [intros ->; done | lia]. Qed.

Lemma chain_newest h r : chain h -> r ∈ h -> m_to r <= m_to (hd init_msg h).
Proof.
  induction h as [|x [|y h] IH]; [done| |].
  - by intros _ ->%list_elem_of_singleton.
  - intros (? & ? & Hc) [->|Hr]%elem_of_cons; [done|]. specialize (IH Hc Hr). cbn in *. lia.
Qed.

Lemma chain_newest_eq h r : chain h -> r ∈ h -> m_to (hd init_msg h) <= m_to r -> r = hd init_msg h.
Proof.
  destruct h as [|x [|y h]]; [done| |].
  - by intros _ ->%list_elem_of_singleton.
  - intros (? & ? & Hc) [->|Hr]%elem_of_cons Hle; [done|].
    apply (chain_newest _ _ Hc) in Hr. cbn in *. lia.
Qed.

Lemma chain_add h x : chain h -> m_from x < m_to x -> Forall (apart x) h -> m_to (hd init_msg h) < m_to x ->
  chain (x :: h).
Proof.
  intros Hc Hx Ha Hlt. destruct h as [|y h]; [done|]. cbn. split_and!; [done| |done].
  apply Forall_cons in Ha as [[Ha|Ha] _]; [|done]. apply chain_from in Hc. cbn in *. lia.
Qed.

Lemma claim_newest h r x : chain h -> gapless h -> r ∈ h -> m_val r = STATE_EMPTY \/ m_val r = STATE_FULL ->
  m_from x < m_to x -> Forall (apart x) h -> m_from x = m_to r -> r = hd init_msg h.
Proof.
  intros Hc Hg Hr Hv Hx Ha Hf. revert Hc Hg Hr Ha.
  induction h as [|a [|b h] IH]; [done| |]; intros Hc Hg Hr Ha.
  - by apply list_elem_of_singleton in Hr.
  - apply elem_of_cons in Hr as [->|Hr]; [done|]. destruct Hc as (Hl & Hba & Hc), Hg as [Hg1 Hg].
    apply Forall_cons in Ha as [Hxa Ha]. rewrite (IH Hc Hg Hr Ha) in *. cbn in *. specialize (Hg1 Hv).
    unfold apart in Hxa. lia.
Qed.

(** ** Memories and views *)

Definition view_le (v : tview) (m : wmem) : Prop := forall l, v l <= m_to (newest m l).
Definition covers (v : tview) (m : wmem) : Prop := forall l, v l = m_to (newest m l).

Record mem_ok (m : wmem) : Prop := {
  ok_chain : forall l, chain (m l);
  ok_gapless : gapless (m LState);
  ok_views : forall l r, r ∈ m l -> view_le (m_view r) m
}.

(** The newest state message tells its reader of everything else. *)
Definition hands_over (m : wmem) : Prop :=
  forall l, l <> LState -> m_to (newest m l) <= m_view (newest m LState) l.

Lemma newest_in m l : mem_ok m -> newest m l ∈ m l.
Proof. intros Hm. pose proof (ok_chain _ Hm l). unfold newest. destruct (m l); [done | by left]. Qed.

Lemma newest_set m l x l' : newest (wset m l x) l' = if decide (l' = l) then x else newest m l'.
Proof. unfold newest, wset. by case_decide. Qed.

Lemma covers_le v m : covers v m -> view_le v m.
Proof. intros H l. by rewrite H. Qed.

(** A message newer than all the others, whose view the memory bears. *)
Lemma add_ok m l x : mem_ok m -> addable m l x -> m_to (newest m l) < m_to x ->
  (l = LState -> latest m LState = STATE_EMPTY \/ latest m LState = STATE_FULL -> m_from x = m_to (newest m LState)) ->
  view_le (m_view x) (wset m l x) ->
  mem_ok (wset m l x) /\ (forall w, view_le w m -> view_le w (wset m l x)).
Proof.
  intros Hm [Hx Ha] Hlt Hg Hv.
  assert (Hmono : forall w, view_le w m -> view_le w (wset m l x)).
  { intros w Hw l'. rewrite newest_set. specialize (Hw l'). case_decide; [subst; lia | done]. }
  split; [|exact Hmono]. destruct Hm as [H1 H2 H3]. split.
  - intros l'. unfold wset. case_decide; [|done]. by apply chain_add.
  - unfold wset. case_decide as E; [|done]. subst l. unfold latest, newest in Hg.
    destruct (m LState) as [|y h] eqn:Eh; [done|]. cbn. split; [|done]. by apply Hg.
  - intros l' r. unfold wset at 1. case_decide as E; [|intros Hr; by apply Hmono, (H3 l')].
    intros [->|Hr]%elem_of_cons; [done | by apply Hmono, (H3 l)].
Qed.

Lemma vset_le m v l t : view_le v m -> t <= m_to (newest m l) -> view_le (vset v l t) m.
Proof. intros Hv Ht l'. unfold vset. case_decide; [by subst | apply Hv]. Qed.

Lemma vjoin_le m v w : view_le v m -> view_le w m -> view_le (vjoin v w) m.
Proof. intros Hv Hw l. unfold vjoin. specialize (Hv l). specialize (Hw l). lia. Qed.

(** *** The operations of the slot's owner *)

Lemma load_owner m v l x v' : mem_ok m -> covers v m -> load_rlx m v l x v' -> x = latest m l /\ covers v' m.
Proof.
  intros Hm Hv (r & Hr & Hle & -> & ->). rewrite Hv in Hle.
  rewrite (chain_newest_eq _ _ (ok_chain _ Hm l) Hr Hle). split; [done|].
  intros l'. unfold vset. case_decide; [by subst | apply Hv].
Qed.

Lemma store_owner rel m v l x m' v' : mem_ok m -> covers v m ->
  (l = LState -> latest m LState <> STATE_EMPTY /\ latest m LState <> STATE_FULL) ->
  store rel m v l x m' v' ->
  mem_ok m' /\ covers v' m' /\ latest m' l = x /\ (forall l', l' <> l -> latest m' l' = latest m l') /\
  (forall w, view_le w m -> view_le w m') /\ (rel = true -> l = LState -> hands_over m').
Proof.
  intros Hm Hv Hst (r & Ha & Hlt & Hx & -> & Hview & ->). rewrite Hv in Hlt.
  assert (Hc : covers (vset v l (m_to r)) (wset m l r)).
  { intros l'. rewrite newest_set. unfold vset. case_decide; [done | apply Hv]. }
  destruct (add_ok m l r Hm Ha Hlt) as [Hok Hmono].
  { intros -> Hl. specialize (Hst eq_refl). naive_solver. }
  { rewrite Hview. destruct rel; [by apply covers_le|]. apply vset_le; [intros l'; cbn; unfold vbot; lia|].
    rewrite newest_set. by rewrite decide_True. }
  split_and!; try done.
  - unfold latest. rewrite newest_set. by rewrite decide_True.
  - intros l' Hne. unfold latest. rewrite newest_set. by rewrite decide_False.
  - intros -> -> l' Hne. rewrite !newest_set, decide_False, decide_True, Hview by done.
    unfold vset. by rewrite decide_False, Hv by done.
Qed.

(** A successful claim read the newest state. *)
Lemma claim_owner m v old new m' v' : mem_ok m -> view_le v m -> old = STATE_EMPTY \/ old = STATE_FULL ->
  cas_ok m v LState old new m' v' ->
  latest m LState = old /\ mem_ok m' /\ (hands_over m -> covers v' m') /\
  latest m' LState = new /\ (forall l', l' <> LState -> latest m' l' = latest m l') /\
  (forall w, view_le w m -> view_le w m').
Proof.
  intros Hm Hv Hold (r & x & Hr & Hle & Hval & Ha & Hf & Hx & -> & Hview & ->).
  assert (E : r = newest m LState).
  { destruct Ha as [Hlt Ha]. apply (claim_newest _ r x); try done; [apply Hm | apply Hm | by rewrite Hval]. }
  assert (Hlt : m_to (newest m LState) < m_to x) by (destruct Ha; rewrite <- E; lia).
  destruct (add_ok m LState x Hm Ha Hlt) as [Hok Hmono].
  { intros _ _. by rewrite Hf, E. }
  { rewrite Hview. apply vset_le; [|rewrite newest_set; by rewrite decide_True].
    assert (Hj : view_le (vjoin v (m_view r)) m) by (apply vjoin_le; [done | by apply (ok_views _ Hm LState)]).
    intros l. rewrite newest_set. specialize (Hj l). case_decide; [subst; lia | done]. }
  split_and!; try done.
  - unfold latest. by rewrite <- E.
  - intros Hh l. rewrite newest_set. unfold vset, vjoin. case_decide as El; [done|].
    specialize (Hh l El). specialize (Hv l). pose proof (ok_views _ Hm LState r Hr l) as Hr'. rewrite <- E in Hh. lia.
  - intros l' Hne. unfold latest. rewrite newest_set. by rewrite decide_False.
Qed.

Lemma fail_le m v l old v' : mem_ok m -> view_le v m -> cas_fail m v l old v' -> view_le v' m.
Proof.
  intros Hm Hv (r & Hr & _ & _ & ->). apply vset_le; [apply vjoin_le; [done | by apply (ok_views _ Hm l)]|].
  by apply chain_newest; [apply Hm|].
Qed.

(** ** Plain memory follows *)

Lemma newest_eq_le m m' : (forall l, newest m' l = newest m l) -> forall w, view_le w m -> view_le w m'.
Proof. intros E w Hw l. by rewrite E. Qed.

Lemma plain_state m m' x : latest m' LState = x -> (forall l, l <> LState -> latest m' l = latest m l) ->
  plain_mem m' = set_state x (plain_mem m).
Proof.
  intros <- E. unfold plain_mem, set_state; cbn [slot_len slot_route slot_bytes slot_depth]. f_equal; try by apply E.
  apply map_ext. intros i. by apply E.
Qed.

Lemma plain_len m m' x : latest m' LLen = x -> (forall l, l <> LLen -> latest m' l = latest m l) ->
  plain_mem m' = set_len x (plain_mem m).
Proof.
  intros <- E. unfold plain_mem, set_len; cbn [slot_state slot_route slot_bytes slot_depth]. f_equal; try by apply E.
  apply map_ext. intros i. by apply E.
Qed.

Lemma plain_route m m' x : latest m' LRoute = x -> (forall l, l <> LRoute -> latest m' l = latest m l) ->
  plain_mem m' = set_route x (plain_mem m).
Proof.
  intros <- E. unfold plain_mem, set_route; cbn [slot_state slot_len slot_bytes slot_depth]. f_equal; try by apply E.
  apply map_ext. intros i. by apply E.
Qed.

Lemma plain_depth m m' x : latest m' LDepth = x -> (forall l, l <> LDepth -> latest m' l = latest m l) ->
  plain_mem m' = set_depth x (plain_mem m).
Proof.
  intros <- E. unfold plain_mem, set_depth; cbn [slot_state slot_len slot_bytes slot_route]. f_equal; try by apply E.
  apply map_ext. intros i. by apply E.
Qed.

Lemma plain_byte m m' i x : latest m' (LByte i) = x -> (forall l, l <> LByte i -> latest m' l = latest m l) ->
  plain_mem m' = set_bytes (<[i := x]> (slot_bytes (plain_mem m))) (plain_mem m).
Proof.
  intros <- E. unfold plain_mem, set_bytes; cbn [slot_state slot_len slot_bytes slot_route slot_depth].
  f_equal; try by apply E. apply list_eq. intros j. rewrite list_lookup_fmap.
  destruct (decide (j = i)) as [->|Hne].
  - destruct (decide (i < 1024)).
    + rewrite list_lookup_insert_eq by (by rewrite length_map, length_seq). by rewrite lookup_seq_lt.
    + rewrite lookup_seq_ge by lia. symmetry. apply lookup_ge_None. rewrite length_insert, length_map, length_seq. lia.
  - rewrite list_lookup_insert_ne, list_lookup_fmap by done. destruct (seq 0 1024 !! j) as [n|] eqn:En; [|done].
    apply lookup_seq in En as [-> _]. cbn. rewrite E; [done|]. intros [=]. lia.
Qed.

Lemma plain_byte_at m i : i < 1024 -> slot_bytes (plain_mem m) !!! i = latest m (LByte i).
Proof.
  intros Hi. apply list_lookup_total_correct. cbn [plain_mem slot_bytes].
  rewrite list_lookup_fmap, lookup_seq_lt by done. done.
Qed.

(** ** The simulation *)

Record weak_inv (c : wconf) : Prop := {
  wi_mem : mem_ok (w_mem c);
  wi_queue : queue_inv (view (plain c));
  wi_views : forall k t v, w_pool c !! k = Some (t, v) -> view_le v (w_mem c);
  wi_owner : forall k t v, w_pool c !! k = Some (t, v) -> critical t = true -> covers v (w_mem c);
  wi_free : (forall k t v, w_pool c !! k = Some (t, v) -> critical t = false) -> hands_over (w_mem c)
}.

Lemma plain_pool c k t v : w_pool c !! k = Some (t, v) -> ipool (plain c) !! k = Some t.
Proof. intros H. cbn. by rewrite list_lookup_fmap, H. Qed.

Lemma plain_set c k t v m l :
  plain (WConf m (<[k := (t, v)]> (w_pool c)) l) = IConf (plain_mem m) (<[k := t]> (ipool (plain c))) l.
Proof. unfold plain; cbn. f_equal. apply list_fmap_insert. Qed.

(** What a step must leave behind. *)
Definition leaves (c : wconf) (k : nat) (t : thread) (m' : wmem) (v' : tview) (t' : thread) : Prop :=
  mem_ok m' /\ (forall w, view_le w (w_mem c) -> view_le w m') /\ view_le v' m' /\
  (critical t' = true -> covers v' m') /\
  (m' = w_mem c \/ forall j u w, j <> k -> w_pool c !! j = Some (u, w) -> critical u = false) /\
  (critical t' = false -> m' = w_mem c /\ critical t = false \/ hands_over m').

Lemma weak_inv_next c k t v m' v' t' l :
  weak_inv c -> w_pool c !! k = Some (t, v) -> leaves c k t m' v' t' ->
  queue_inv (view (plain (WConf m' (<[k := (t', v')]> (w_pool c)) l))) ->
  weak_inv (WConf m' (<[k := (t', v')]> (w_pool c)) l).
Proof.
  intros [I1 I2 I3 I4 I5] Hk (Hm & Hmono & Hv & Hc & Ho & Hf) HQ. split; [done | done | | |]; cbn.
  - intros j u w. rewrite list_lookup_insert_Some. intros [(<- & [= <- <-] & _)|[_ Hj]]; [done | eauto].
  - intros j u w. rewrite list_lookup_insert_Some. intros [(<- & [= <- <-] & _)|[Hne Hj]] Hu; [by apply Hc|].
    destruct Ho as [->|Ho]; [by eapply I4|]. by rewrite (Ho j u w) in Hu.
  - intros Hnone. assert (Hlt := lookup_lt_Some _ _ _ Hk).
    assert (Ht' : critical t' = false) by (apply (Hnone k t' v'); by apply list_lookup_insert_eq).
    destruct (Hf Ht') as [[-> Ht]|]; [|done]. apply I5. intros j u w Hj.
    destruct (decide (j = k)) as [->|Hne]; [congruence|].
    apply (Hnone j u w). by rewrite list_lookup_insert_ne.
Qed.

(** The step as one of plain memory. *)
Lemma weak_step_plain c k t v m' v' t' es :
  weak_inv c -> w_pool c !! k = Some (t, v) -> leaves c k t m' v' t' ->
  tstep (plain_mem (w_mem c)) t = Some (plain_mem m', t', es) ->
  let c' := WConf m' (<[k := (t', v')]> (w_pool c)) (w_log c ++ map (pair k) es) in
  weak_inv c' /\ pstep (plain c) (plain c').
Proof.
  intros I Hk Hl E c'. assert (Hp := plain_pool c k t v Hk).
  assert (Hs : pstep (plain c) (plain c')).
  { subst c'. rewrite plain_set. apply pstep_plain. by apply (istep_thread _ (plain c) k t). }
  split; [|exact Hs]. apply (weak_inv_next c k t v); [done..|]. rewrite plain_set.
  by apply (queue_inv_step (plain c) k t); [apply I|..].
Qed.

(** The step as a failure on a stale value. *)
Lemma weak_step_stale c k t v v' t' :
  weak_inv c -> w_pool c !! k = Some (t, v) -> view_le v' (w_mem c) -> stale t t' ->
  let c' := WConf (w_mem c) (<[k := (t', v')]> (w_pool c)) (w_log c ++ []) in
  weak_inv c' /\ pstep (plain c) (plain c').
Proof.
  intros I Hk Hv E c'. assert (Hp := plain_pool c k t v Hk). subst c'. rewrite app_nil_r.
  assert (Hcr : critical t = false /\ critical t' = false /\ forall acc, t' <> DDone (Ok acc)) by by destruct E.
  destruct Hcr as (Ht & Ht' & Hd). split.
  - apply (weak_inv_next c k t v); [done | done | |].
    + split_and!; try done; [apply I | by rewrite Ht' | by left | by left].
    + rewrite plain_set. by apply (inv_idle (view (plain c)) k t); [apply I|..].
  - rewrite plain_set. by apply (pstep_stale (plain c) k t).
Qed.

(** *** What each operation leaves behind *)

Section Leaves.
Context (c : wconf) (k : nat) (t : thread) (v : tview).
Context (I : weak_inv c) (Hk : w_pool c !! k = Some (t, v)).

Lemma owner_alone : critical t = true -> forall j u w, j <> k -> w_pool c !! j = Some (u, w) -> critical u = false.
Proof using I Hk.
  intros Ht j u w Hne Hj. destruct (critical u) eqn:Eu; [|done]. destruct Hne.
  by apply (inv_unique _ (wi_queue _ I) j k u t); [eapply plain_pool | eapply plain_pool | |].
Qed.

Lemma owner_knows : critical t = true ->
  owner_ok (plain_mem (w_mem c)) t (sent (view (plain c))) (received (view (plain c))).
Proof using I Hk. intros Ht. apply (inv_owner _ (wi_queue _ I) k t); [by eapply plain_pool | done]. Qed.

Lemma owner_busy : critical t = true -> latest (w_mem c) LState <> STATE_EMPTY /\ latest (w_mem c) LState <> STATE_FULL.
Proof using I Hk.
  intros Ht. apply owner_knows, owner_state in Ht. cbn in Ht. by destruct Ht as [-> | ->].
Qed.

Lemma store_leaves rel l x m' v' t' :
  critical t = true -> store rel (w_mem c) v l x m' v' -> critical t' = true \/ rel = true /\ l = LState ->
  leaves c k t m' v' t' /\ latest m' l = x /\ forall l', l' <> l -> latest m' l' = latest (w_mem c) l'.
Proof using I Hk.
  intros Ht Hs Hrel. assert (Hc := wi_owner _ I k t v Hk Ht).
  destruct (store_owner rel (w_mem c) v l x m' v' (wi_mem _ I) Hc) as (? & ? & ? & ? & ? & Hh);
    [intros _; by apply owner_busy | done|].
  split; [|done]. split_and!; try done; [by apply covers_le | right; by apply owner_alone|].
  intros Ht'. right. destruct Hrel as [Hrel|[-> ->]]; [congruence|]. by apply Hh.
Qed.

Lemma load_leaves l x v' t' : critical t = true -> critical t' = true -> load_rlx (w_mem c) v l x v' ->
  leaves c k t (w_mem c) v' t' /\ x = latest (w_mem c) l.
Proof using I Hk.
  intros Ht Ht' Hl. assert (Hc := wi_owner _ I k t v Hk Ht).
  destruct (load_owner (w_mem c) v l x v' (wi_mem _ I) Hc Hl) as [-> Hc']. split; [|done].
  split_and!; try done; [apply I | by apply covers_le | by left | by intros; congruence].
Qed.

Lemma same_leaves t' : critical t = critical t' -> leaves c k t (w_mem c) v t'.
Proof using I Hk.
  intros Ht. split_and!; try done; [apply I | by eapply wi_views | | by left | intros; left; by rewrite Ht].
  intros Ht'. eapply wi_owner; [done..|]. by rewrite Ht.
Qed.

Lemma claim_leaves old new m' v' t' : critical t = false -> critical t' = true ->
  old = STATE_EMPTY \/ old = STATE_FULL -> cas_ok (w_mem c) v LState old new m' v' ->
  leaves c k t m' v' t' /\ latest (w_mem c) LState = old /\ latest m' LState = new /\
  forall l', l' <> LState -> latest m' l' = latest (w_mem c) l'.
Proof using I Hk.
  intros Ht Ht' Hold Hcas.
  destruct (claim_owner (w_mem c) v old new m' v' (wi_mem _ I) (wi_views _ I k t v Hk) Hold Hcas)
    as (El & Hm & Hcov & Hnew & Hoth & Hmono).
  assert (Hnone : forall j u w, w_pool c !! j = Some (u, w) -> critical u = false).
  { intros j u w Hj. apply (inv_no_owner _ (wi_queue _ I)) with (k := j); [|by eapply plain_pool].
    cbn. rewrite El. done. }
  assert (Hc' := Hcov (wi_free _ I Hnone)).
  split; [|done]. split_and!; try done; [by apply covers_le | right; by eauto | by intros; congruence].
Qed.
End Leaves.

(** The step of plain memory that corresponds, where a store or a claim is
    made. *)
Ltac plain_store c k v I Hk Hst lem :=
  match type of Hst with store ?rel _ _ ?l ?x _ _ =>
    match goal with |- context [<[_ := (?t', _)]> _] =>
      destruct (store_leaves c k _ v I Hk rel l x _ _ t' eq_refl Hst ltac:(first [by left | by right])) as (Hl & E1 & E2);
      eapply (weak_step_plain c k _ v _ _ _ _ I Hk Hl); cbn [tstep]; by rewrite (lem _ _ _ E1 E2)
    end
  end.

Lemma weak_step c c' : weak_inv c -> wstep c c' -> weak_inv c' /\ pstep (plain c) (plain c').
Proof.
  intros I Hs. destruct Hs as [c k t v m' v' t' es Hk Hs].
  assert (Hbytes : forall n i acc, t = DRead n i acc -> n <= 1024).
  { intros n i acc ->. pose proof (owner_knows c k _ v I Hk eq_refl) as (_ & _ & Hl & -> & _).
    unfold len_ok, ENVELOPE_SLOT_BYTES in Hl. lia. }
  destruct Hs as [env route Hz|env route m' v' Hz Hc|env route v' Hz Hc|env route i b m' v' Hb Hc|env route i Hb
    |env route m' v' Hc|env route m' v' Hc|env m' v' Hc|env m' v' Hc|cap tries bu m' v' Hc|cap tries bu v' Hc Hbu
    |cap tries bu v' Hc Hbu|cap n v' Hc Hn|cap n v' Hc Hn|m' v' Hc|n i acc b v' Hn Hc|n i acc Hn|acc m' v' Hc
    |acc m' v' Hc|acc m' v' Hc].
  - eapply (weak_step_plain c k _ v); [done | done | by apply same_leaves|]. cbn. by rewrite Hz.
  - destruct (claim_leaves c k _ v I Hk _ _ m' v' (EWrite env route 0) eq_refl eq_refl (or_introl eq_refl) Hc)
      as (Hl & El & E1 & E2).
    apply (weak_step_plain c k _ v _ _ _ _ I Hk Hl). cbn. by rewrite Hz, El, (plain_state _ _ _ E1 E2).
  - apply (weak_step_stale c k _ v _ _ I Hk); [|constructor]. eapply fail_le; [apply I | by eapply wi_views | done].
  - destruct (store_leaves c k _ v I Hk false (LByte i) b m' v' (EWrite env route (S i)) eq_refl Hc (or_introl eq_refl))
      as (Hl & E1 & E2).
    eapply (weak_step_plain c k _ v _ _ _ _ I Hk Hl). cbn [tstep]. by rewrite Hb, (plain_byte _ _ _ _ E1 E2).
  - eapply (weak_step_plain c k _ v); [done | done | by apply same_leaves|]. cbn. by rewrite Hb.
  - plain_store c k v I Hk Hc plain_len.
  - plain_store c k v I Hk Hc plain_route.
  - plain_store c k v I Hk Hc plain_depth.
  - plain_store c k v I Hk Hc plain_state.
  - destruct (claim_leaves c k _ v I Hk _ _ m' v' (DLen cap) eq_refl eq_refl (or_intror eq_refl) Hc)
      as (Hl & El & E1 & E2).
    apply (weak_step_plain c k _ v _ _ _ _ I Hk Hl). cbn. by rewrite El, (plain_state _ _ _ E1 E2).
  - apply (weak_step_stale c k _ v _ _ I Hk); [|by constructor]. eapply fail_le; [apply I | by eapply wi_views | done].
  - apply (weak_step_stale c k _ v _ _ I Hk); [|by constructor]. eapply fail_le; [apply I | by eapply wi_views | done].
  - destruct (load_leaves c k _ v I Hk LLen n v' (DRead (Z.to_nat n) 0 []) eq_refl eq_refl Hc) as [Hl ->].
    apply (weak_step_plain c k _ v _ _ _ _ I Hk Hl). cbn. by rewrite Hn.
  - destruct (load_leaves c k _ v I Hk LLen n v' DRestore eq_refl eq_refl Hc) as [Hl ->].
    apply (weak_step_plain c k _ v _ _ _ _ I Hk Hl). cbn. by rewrite Hn.
  - plain_store c k v I Hk Hc plain_state.
  - destruct (load_leaves c k _ v I Hk (LByte i) b v' (DRead n (S i) (acc ++ [b])) eq_refl eq_refl Hc) as [Hl ->].
    apply (weak_step_plain c k _ v _ _ _ _ I Hk Hl). cbn [tstep]. rewrite Hn.
    apply Nat.ltb_lt in Hn. specialize (Hbytes n i acc eq_refl). by rewrite plain_byte_at by lia.
  - eapply (weak_step_plain c k _ v); [done | done | by apply same_leaves|]. cbn [tstep]. by rewrite Hn.
  - plain_store c k v I Hk Hc plain_len.
  - plain_store c k v I Hk Hc plain_depth.
  - plain_store c k v I Hk Hc plain_state.
Qed.

Lemma plain_start ts : plain (wstart ts) = start ts.
Proof.
  unfold plain, wstart, start. cbn [w_mem w_pool w_log]. rewrite map_map, map_id. done.
Qed.

Lemma weak_start ts : Forall starting ts -> weak_inv (wstart ts).
Proof.
  intros Hs. assert (Hp : forall k t v, w_pool (wstart ts) !! k = Some (t, v) -> starting t /\ v = vbot).
  { intros k t v Hk. cbn in Hk. rewrite list_lookup_fmap in Hk. destruct (ts !! k) eqn:E; [|done].
    cbn in Hk. simplify_eq. split; [|done]. rewrite Forall_lookup in Hs. by apply (Hs k). }
  split.
  - split; [by intros l | done |]. intros l r Hr. change (r ∈ [init_msg]) in Hr.
    apply list_elem_of_singleton in Hr as ->. by intros l'.
  - rewrite plain_start. by apply queue_inv_start.
  - intros k t v Hk. destruct (Hp k t v Hk) as [_ ->]. intros l. apply Nat.le_0_l.
  - intros k t v Hk. destruct (Hp k t v Hk) as [Ht _]. by destruct t.
  - by intros _ l.
Qed.

(** ** Theorems *)

(** C5. Any number of enqueues and dequeues, in any execution of the weak memory
    with the orderings the code asks for: the execution is one of plain
    memory in which a call may also fail on a stale state; so messages are
    consumed in the order published, whole and once, with at most one
    pending, a successful dequeue returns a published message, and at most
    one call owns the slot. *)
Theorem weak_queue_exactly_once ts c :
  Forall starting ts -> wreach (wstart ts) c ->
  preach (start ts) (plain c) /\
  (exists pending, log_sent (w_log c).*2 = log_received (w_log c).*2 ++ pending /\ length pending <= 1) /\
  (forall k acc v, w_pool c !! k = Some (DDone (Ok acc), v) ->
     acc ∈ log_received (w_log c).*2 /\ acc ∈ log_sent (w_log c).*2) /\
  (forall j k t u v w, w_pool c !! j = Some (t, v) -> w_pool c !! k = Some (u, w) ->
     critical t = true -> critical u = true -> j = k).
Proof.
  intros Hs Hr.
  assert (H : weak_inv c /\ preach (start ts) (plain c)).
  { induction Hr as [|c c' _ [I Hp] Hc].
    - split; [by apply weak_start|]. rewrite plain_start. apply preach_refl.
    - destruct (weak_step c c' I Hc). split; [done|]. by eapply preach_step. }
  destruct H as [I Hp]. split; [done|]. assert (IQ := wi_queue _ I).
  destruct (one_pending _ IQ) as (pending & E & Hl). split; [by exists pending|]. split.
  - intros k acc v Hk. apply (plain_pool c), (inv_done _ IQ) in Hk. split; [exact Hk|].
    change (log_sent (w_log c).*2) with (sent (view (plain c))). rewrite E. apply elem_of_app. by left.
  - intros j k t u v w Hj Hk. apply (inv_unique _ IQ); by eapply plain_pool.
Qed.

(** ** An execution with a stale read *)

(** Store into a location whose only message is the initial one. *)
Lemma store_first rel m v l x : m l = [init_msg] -> v l = 0 ->
  let v' := vset v l 1 in
  store rel m v l x (wset m l (Msg 0 1 x (if rel then v' else vset vbot l 1))) v'.
Proof.
  intros Hm Hv v'. exists (Msg 0 1 x (if rel then v' else vset vbot l 1)). split_and!; try done.
  - split; [cbn; lia|]. rewrite Hm. by repeat (constructor; [right; cbn; lia|]).
  - rewrite Hv. cbn. lia.
Qed.

Lemma wstep_to c0 c k t v m' v' t' es : wreach c0 c ->
  w_pool c !! k = Some (t, v) -> wtstep (w_mem c) v t m' v' t' es ->
  wreach c0 (WConf m' (<[k := (t', v')]> (w_pool c)) (w_log c ++ map (pair k) es)).
Proof. intros Hr Hk Ht. eapply wreach_step; [exact Hr|]. by apply (wstep_thread c k t v). Qed.

(** The empty envelope is published; the other call still sees the slot
    empty and gives up. *)
Lemma weak_queue_exactly_once_witness :
  exists c, wreach (wstart [EStart [] 7; DStart 8 0 1]) c /\
    map fst (w_pool c) = [EDone (Ok tt); DDone (Err QueueEmpty)] /\ latest (w_mem c) LState = STATE_FULL /\
    exists pending, log_sent (w_log c).*2 = log_received (w_log c).*2 ++ pending /\ length pending <= 1.
Proof.
  set (c0 := wstart [EStart [] 7; DStart 8 0 1]).
  pose (v1 := vset (vjoin vbot vbot) LState 1). pose (v2 := vset v1 LLen 1). pose (v3 := vset v2 LRoute 1).
  pose (v4 := vset v3 LDepth 1). pose (v5 := vset v4 LState 2).
  pose (m1 := wset winit LState (Msg 0 1 STATE_WRITING v1)).
  pose (m2 := wset m1 LLen (Msg 0 1 0 (vset vbot LLen 1))).
  pose (m3 := wset m2 LRoute (Msg 0 1 7 (vset vbot LRoute 1))).
  pose (m4 := wset m3 LDepth (Msg 0 1 1 (vset vbot LDepth 1))).
  pose (m5 := wset m4 LState (Msg 1 2 STATE_FULL v5)).
  assert (R1 : wreach c0 (WConf m1 [(EWrite [] 7 0, v1); (DStart 8 0 1, vbot)] [])).
  { refine (wstep_to _ _ 0 _ _ _ _ _ [] (wreach_refl c0) eq_refl _). apply w_claim; [done|].
    exists init_msg, (Msg 0 1 STATE_WRITING v1). split_and!; try done; [by left|]. split; [cbn; lia|]. by repeat (constructor; [right; cbn; lia|]). }
  assert (R2 : wreach c0 (WConf m1 [(ELen [] 7, v1); (DStart 8 0 1, vbot)] [])).
  { refine (wstep_to _ _ 0 _ _ _ _ _ [] R1 eq_refl _). by apply w_bytes_done. }
  assert (R3 : wreach c0 (WConf m2 [(ERoute [] 7, v2); (DStart 8 0 1, vbot)] [])).
  { refine (wstep_to _ _ 0 _ _ _ _ _ [] R2 eq_refl _). by apply w_len, (store_first false). }
  assert (R4 : wreach c0 (WConf m3 [(EDepth [], v3); (DStart 8 0 1, vbot)] [])).
  { refine (wstep_to _ _ 0 _ _ _ _ _ [] R3 eq_refl _). by apply w_route, (store_first false). }
  assert (R5 : wreach c0 (WConf m4 [(EPublish [], v4); (DStart 8 0 1, vbot)] [])).
  { refine (wstep_to _ _ 0 _ _ _ _ _ [] R4 eq_refl _). by apply w_depth, (store_first false). }
  assert (R6 : wreach c0 (WConf m5 [(EDone (Ok tt), v5); (DStart 8 0 1, vbot)] [(0, Published [])])).
  { refine (wstep_to _ _ 0 _ _ _ _ _ [Published []] R5 eq_refl _). apply w_publish. exists (Msg 1 2 STATE_FULL v5).
    split_and!; try done; [|vm_compute; lia]. split; [cbn; lia|]. by repeat (constructor; [right; cbn; lia|]). }
  assert (R : exists c, wreach c0 c /\ map fst (w_pool c) = [EDone (Ok tt); DDone (Err QueueEmpty)] /\
    latest (w_mem c) LState = STATE_FULL).
  { exists (WConf m5 [(EDone (Ok tt), v5); (DDone (Err QueueEmpty), vset (vjoin vbot vbot) LState 0)] [(0, Published [])]).
    split; [|done]. refine (wstep_to _ _ 1 _ _ _ _ _ [] R6 eq_refl _). apply r_empty; [|done].
    exists init_msg. split_and!; try done. right; right; left. }
  destruct R as (c & R & P & F). exists c. split; [exact R|]. split; [exact P|]. split; [exact F|].
  assert (Hs : Forall starting [EStart [] 7; DStart 8 0 1]) by repeat constructor.
  exact (proj1 (proj2 (weak_queue_exactly_once _ c Hs R))).
Defined.
