(* ===== verification/FrameAlloc.v ===== *)
(** * Frame allocator ([kernel/core/src/frame_alloc/mod.rs])

    The bump allocator behind [sys_mmap] and [sys_munmap]: the operations
    on the watermark as functions, and [alloc_pages] as a thread whose steps
    are the load and the compare-and-swaps of its loop. *)

From S2P Require Import Prelude Interleave.

Module FrameAlloc.

Definition PAGE_BYTES : Z := 4096.
Definition POOL_PAGES : Z := 16384.
Definition POOL_BYTES : Z := POOL_PAGES * PAGE_BYTES.
Definition VIRTUAL_BASE_START : Z := 4096.
Definition VIRTUAL_BASE_END : Z := VIRTUAL_BASE_START + POOL_BYTES.

Inductive FrameErr := PoolExhausted | InvalidLen | InvalidPointer | NotPageAligned | Unimplemented.

#[export] Instance FrameErr_eq_dec : EqDecision FrameErr.
Proof. solve_decision. Defined.

(** [NEXT_VIRTUAL_BASE] at start-up. *)
Definition initial : Z := VIRTUAL_BASE_START.

Definition pages_needed (len : Z) : Z :=
  (wrap64 (wrap64 (len + PAGE_BYTES) - 1) / PAGE_BYTES)%Z.

Definition bytes_needed (len : Z) : Z := wrap64 (pages_needed len * PAGE_BYTES).

(** [alloc_pages] run without interference: the first compare-and-swap
    succeeds. *)
Definition alloc_pages (next len : Z) : result FrameErr Z * Z :=
  if (len =? 0)%Z then (Err InvalidLen, next)
  else
    let new_next := sat_add 64 next (bytes_needed len) in
    if (VIRTUAL_BASE_END <? new_next)%Z then (Err PoolExhausted, next)
    else (Ok next, new_next).

Definition free_pages (ptr len : Z) : result FrameErr unit :=
  if (ptr =? 0)%Z then Err InvalidPointer
  else if (len =? 0)%Z then Err InvalidLen
  else if (ptr <? VIRTUAL_BASE_START)%Z || (VIRTUAL_BASE_END <=? ptr)%Z then Err InvalidPointer
  else if negb (ptr mod PAGE_BYTES =? 0)%Z then Err NotPageAligned
  else Ok tt.

Definition used_bytes (next : Z) : Z := wrap64 (next - VIRTUAL_BASE_START).
Definition free_bytes (next : Z) : Z := wrap64 (VIRTUAL_BASE_END - next).

(** *** [alloc_pages] as a thread *)

Inductive thread :=
| AStart (len : Z)
| ALoop (len current : Z)
| ADone (r : result FrameErr Z).

(** A granted range: pointer, requested length, bytes reserved. *)
Record grant := Grant { g_ptr : Z; g_len : Z; g_bytes : Z }.

Definition tstep (next : Z) (t : thread) : option (Z * thread * list grant) :=
  match t with
  | AStart len =>
      if (len =? 0)%Z then Some (next, ADone (Err InvalidLen), [])
      else Some (next, ALoop len next, [])
  | ALoop len current =>
      let new_next := sat_add 64 current (bytes_needed len) in
      if (VIRTUAL_BASE_END <? new_next)%Z then Some (next, ADone (Err PoolExhausted), [])
      else if (next =? current)%Z
      then Some (new_next, ADone (Ok current), [Grant current len (bytes_needed len)])
      else Some (next, ALoop len next, [])
  | ADone _ => None
  end.

Definition starting (t : thread) : Prop :=
  match t with AStart len => is_u 64 len | _ => False end.

End FrameAlloc.

Import FrameAlloc.

#[local] Open Scope Z_scope.

(** ** The rounding *)

Lemma bytes_needed_spec len :
  0 < len <= 2 ^ 64 - PAGE_BYTES ->
  len <= bytes_needed len < len + PAGE_BYTES /\ bytes_needed len mod PAGE_BYTES = 0.
Proof.
  unfold bytes_needed, pages_needed, PAGE_BYTES. intros [H0 H].
  destruct (Z.eq_dec len (2 ^ 64 - 4096)) as [->|Hne]; [by vm_compute|].
  rewrite (wrap_id 64 (len + 4096)), (wrap_id 64 (len + 4096 - 1)) by (unfold is_u; lia).
  pose proof (Z.div_mod (len + 4096 - 1) 4096). pose proof (Z.mod_pos_bound (len + 4096 - 1) 4096).
  rewrite wrap_id by (unfold is_u; lia).
  split; [lia | apply Z.mod_mul; lia].
Qed.

Lemma bytes_needed_wraps len :
  2 ^ 64 - PAGE_BYTES < len < 2 ^ 64 -> bytes_needed len = 0.
Proof.
  unfold bytes_needed, pages_needed, PAGE_BYTES, wrap. intros H.
  rewrite <- Zminus_mod_idemp_l, Z.mod_mod, Zminus_mod_idemp_l by lia.
  replace (len + 4096 - 1) with (len - 2 ^ 64 + 4095 + 1 * 2 ^ 64) by lia.
  rewrite Z.mod_add, (Z.mod_small (len - 2 ^ 64 + 4095)) by lia.
  rewrite Z.div_small by lia. done.
Qed.

Lemma bytes_needed_any len : 0 < len < 2 ^ 64 ->
  0 <= bytes_needed len /\ bytes_needed len mod PAGE_BYTES = 0.
Proof.
  intros H. destruct (Z.le_gt_cases len (2 ^ 64 - PAGE_BYTES)) as [Hl|Hl].
  - pose proof (bytes_needed_spec len). lia.
  - rewrite bytes_needed_wraps by lia. by vm_compute.
Qed.

(** ** The watermark invariant *)

Definition watermark_ok (next : Z) : Prop :=
  VIRTUAL_BASE_START <= next <= VIRTUAL_BASE_END /\ next mod PAGE_BYTES = 0.

(** The granted ranges tile the pool from its start, in order. *)
Fixpoint tiles (a : Z) (l : list grant) (b : Z) : Prop :=
  match l with
  | [] => a = b
  | g :: l' => g_ptr g = a /\ 0 <= g_bytes g /\ tiles (a + g_bytes g) l' b
  end.

Lemma tiles_snoc a l b g :
  tiles a l b -> g_ptr g = b -> 0 <= g_bytes g -> tiles a (l ++ [g]) (b + g_bytes g).
Proof.
  revert a. induction l as [|h l IH]; cbn.
  - intros a -> -> H. done.
  - intros a (? & ? & ?) ? ?. split_and!; auto.
Qed.

Lemma tiles_le a l b : tiles a l b -> a <= b.
Proof.
  revert a. induction l as [|g l IH]; cbn; intros a; [lia|].
  intros (_ & ? & ?%IH). lia.
Qed.

Lemma tiles_lookup a l b j g :
  tiles a l b -> l !! j = Some g -> a <= g_ptr g /\ g_ptr g + g_bytes g <= b.
Proof.
  revert a j. induction l as [|h l IH]; intros a j Ht Hj; [done|].
  destruct Ht as (E & ? & Ht). destruct j as [|j]; cbn in Hj.
  - injection Hj as ->. apply tiles_le in Ht. lia.
  - destruct (IH _ _ Ht Hj). lia.
Qed.

Lemma tiles_bytes a l b j g : tiles a l b -> l !! j = Some g -> 0 <= g_bytes g.
Proof.
  revert a j. induction l as [|h l IH]; intros a j Ht Hj; [done|]. destruct Ht as (_ & ? & Ht).
  destruct j as [|j]; cbn in Hj; [by simplify_eq | by eapply IH].
Qed.

Lemma tiles_disjoint a l b i j g h :
  tiles a l b -> (i < j)%nat -> l !! i = Some g -> l !! j = Some h ->
  g_ptr g + g_bytes g <= g_ptr h.
Proof.
  revert a i j. induction l as [|x l IH]; intros a i j Ht Hij Hi Hj; [done|].
  destruct Ht as (E & ? & Ht). destruct i as [|i], j as [|j]; cbn in Hi, Hj; try lia.
  - injection Hi as ->. destruct (tiles_lookup _ _ _ _ _ Ht Hj). lia.
  - eapply (IH _ i j); eauto; lia.
Qed.

Definition grant_ok (g : grant) : Prop :=
  g_ptr g mod PAGE_BYTES = 0 /\ (0 < g_len g <= 2 ^ 64 - PAGE_BYTES -> g_len g <= g_bytes g).

Definition shared_inv (next : Z) (l : list (nat * grant)) : Prop :=
  watermark_ok next /\ tiles VIRTUAL_BASE_START l.*2 next /\ Forall grant_ok l.*2.

Definition thread_inv (next : Z) (l : list (nat * grant)) (k : nat) (t : thread) : Prop :=
  match t with
  | AStart len => is_u 64 len
  | ALoop len current => 0 < len < 2 ^ 64 /\ watermark_ok current
  | ADone (Ok p) => exists g, (k, g) ∈ l /\ g_ptr g = p
  | ADone (Err _) => True
  end.

Lemma alloc_inv_mono next l next' es k t :
  thread_inv next l k t -> thread_inv next' (l ++ es) k t.
Proof.
  destruct t as [| |[p|]]; cbn; [done..| |done].
  intros (g & Hg & E). exists g. split; [|done]. apply elem_of_app. by left.
Qed.

Lemma sat_add_pool current n :
  watermark_ok current -> 0 <= n -> sat_add 64 current n <= VIRTUAL_BASE_END ->
  sat_add 64 current n = current + n.
Proof. unfold watermark_ok, sat_add, VIRTUAL_BASE_END, POOL_BYTES, POOL_PAGES, PAGE_BYTES, VIRTUAL_BASE_START. lia. Qed.

Lemma watermark_bump next n :
  watermark_ok next -> 0 <= n -> n mod PAGE_BYTES = 0 -> next + n <= VIRTUAL_BASE_END ->
  watermark_ok (next + n).
Proof.
  intros [? E] ? En ?. split; [lia|]. rewrite Zplus_mod, E, En. done.
Qed.

Lemma alloc_step_inv next l k t next' t' es :
  shared_inv next l -> thread_inv next l k t -> tstep next t = Some (next', t', es) ->
  let l' := l ++ map (pair k) es in
  shared_inv next' l' /\ thread_inv next' l' k t' /\
  (forall j u, thread_inv next l j u -> thread_inv next' l' j u).
Proof.
  intros (Hw & Ht & Hg) HL E l'. subst l'. split; [|split; [|intros j u; apply alloc_inv_mono]].
  all: destruct t as [len|len current|]; cbn in E; [| |done].
  - destruct (len =? 0); simplify_eq; by rewrite app_nil_r.
  - destruct HL as [Hlen Hc]. destruct (VIRTUAL_BASE_END <? _) eqn:E1; to_prop.
    { simplify_eq. by rewrite app_nil_r. }
    destruct (Z.eqb_spec next current) as [->|]; simplify_eq; [|by rewrite app_nil_r].
    destruct (bytes_needed_any len Hlen) as [Hb Hm].
    rewrite sat_add_pool in * by done. unfold shared_inv. rewrite fmap_app. cbn. split_and!.
    + by apply watermark_bump.
    + by apply (tiles_snoc _ _ _ (Grant current len _)).
    + apply Forall_app. split; [done|]. constructor; [|done].
      split; [apply Hw|]. cbn. intros Hl. by apply bytes_needed_spec.
  - destruct (len =? 0) eqn:E0; simplify_eq; [done|]; unfold thread_inv at 1. to_prop. unfold thread_inv, is_u in HL.
    split; [lia|done].
  - destruct HL as [Hlen Hc]. destruct (VIRTUAL_BASE_END <? _); simplify_eq; [done|].
    destruct (Z.eqb_spec next current) as [->|]; simplify_eq; [|done].
    eexists (Grant _ _ _). split; [|reflexivity]. apply elem_of_app. right. by left.
Qed.

Lemma alloc_reach_inv ts c :
  Forall starting ts -> ireach tstep (IConf initial ts []) c ->
  shared_inv (imem c) (ilog c) /\
  (forall k t, ipool c !! k = Some t -> thread_inv (imem c) (ilog c) k t).
Proof.
  intros Hs. apply (ireach_inv tstep shared_inv thread_inv).
  - split; [|done]. by vm_compute.
  - intros k t Hk. rewrite Forall_lookup in Hs. specialize (Hs k t Hk). by destruct t.
  - apply alloc_step_inv.
Qed.

(** A reservation is of the length its thread was called with. *)
Lemma grant_origin ts c :
  Forall starting ts -> ireach tstep (IConf initial ts []) c ->
  forall k g, (k, g) ∈ ilog c -> ts !! k = Some (AStart (g_len g)).
Proof.
  intros Hs Hr.
  destruct (ireach_inv tstep (fun _ l => forall k g, (k, g) ∈ l -> ts !! k = Some (AStart (g_len g)))
    (fun _ _ k t => match t with AStart len | ALoop len _ => ts !! k = Some (AStart len) | ADone _ => True end)
    initial ts) with (c := c) as [HS _]; [| | |exact Hr|exact HS].
  - by intros k g ?%elem_of_nil.
  - intros k t Hk. rewrite Forall_lookup in Hs. specialize (Hs k t Hk). by destruct t.
  - intros m l k t m' t' es HS HL E l'. subst l'.
    destruct t as [len|len current|]; cbn in E; repeat case_match; simplify_eq;
      rewrite ?app_nil_r; split_and!; try done.
    intros j h [?|[= -> ->]%list_elem_of_singleton]%elem_of_app; [by apply HS | done].
Qed.

(** What the invariant says of the reservations. *)
Lemma grant_facts next l : shared_inv next l ->
  (forall k g, (k, g) ∈ l ->
     g_ptr g mod PAGE_BYTES = 0 /\ VIRTUAL_BASE_START <= g_ptr g /\
     g_ptr g + g_bytes g <= VIRTUAL_BASE_END /\
     (0 < g_len g <= 2 ^ 64 - PAGE_BYTES -> g_len g <= g_bytes g)) /\
  (forall j k g h, (j, g) ∈ l -> (k, h) ∈ l -> j <> k ->
     g_ptr g + g_bytes g <= g_ptr h \/ g_ptr h + g_bytes h <= g_ptr g).
Proof.
  intros (Hw & Ht & Hg).
  assert (Hlk : forall k g, (k, g) ∈ l -> exists i, l !! i = Some (k, g) /\ l.*2 !! i = Some g).
  { intros k g (i & Hi)%list_elem_of_lookup. exists i. by rewrite list_lookup_fmap, Hi. }
  split.
  - intros k g (i & _ & Hi)%Hlk. rewrite Forall_lookup in Hg. destruct (Hg i g Hi) as [Hm Hc].
    pose proof (tiles_lookup _ _ _ _ _ Ht Hi). destruct Hw as [? _].
    split_and!; [done | lia | lia | done].
  - intros j k g h (i & Hi & Hi')%Hlk (n & Hn & Hn')%Hlk Hne.
    destruct (Nat.lt_trichotomy i n) as [Hlt|[->|Hlt]]; [left | congruence | right];
      by eapply tiles_disjoint; eauto.
Qed.

(** ** Theorems *)

(** C9. Any number of concurrent [alloc_pages] calls, in any interleaving: a
    returned pointer is page-aligned and is the start of a reservation made
    by the caller, inside the pool; the reservations of different calls do
    not overlap; a request of at most [usize::MAX - 4095] bytes is covered
    by its reservation. *)
Theorem alloc_pages_disjoint ts c :
  Forall starting ts -> ireach tstep (IConf initial ts []) c ->
  (forall k p, ipool c !! k = Some (ADone (Ok p)) -> exists g, (k, g) ∈ ilog c /\ g_ptr g = p) /\
  (forall k g, (k, g) ∈ ilog c ->
     g_ptr g mod PAGE_BYTES = 0 /\ VIRTUAL_BASE_START <= g_ptr g /\
     g_ptr g + g_bytes g <= VIRTUAL_BASE_END /\
     (0 < g_len g <= 2 ^ 64 - PAGE_BYTES -> g_len g <= g_bytes g)) /\
  (forall j k g h, (j, g) ∈ ilog c -> (k, h) ∈ ilog c -> j <> k ->
     g_ptr g + g_bytes g <= g_ptr h \/ g_ptr h + g_bytes h <= g_ptr g).
Proof.
  intros Hs Hr. destruct (alloc_reach_inv ts c Hs Hr) as (HS & HL).
  split; [|by eapply grant_facts]. intros k p Hk. apply (HL k _ Hk).
Qed.

Lemma alloc_pages_disjoint_witness :
  exists c, ireach tstep (IConf initial [AStart 1; AStart 5000] []) c /\
    ilog c = [(1%nat, Grant 4096 5000 8192); (0%nat, Grant 12288 1 4096)] /\
    (4096 + 8192 <= 12288 \/ 12288 + 4096 <= 4096).
Proof.
  assert (Hs : Forall starting [AStart 1; AStart 5000]) by (repeat constructor; by vm_compute).
  assert (R : exists c, irun tstep [0; 1; 1; 0; 0]%nat (IConf initial [AStart 1; AStart 5000] []) = Some c
      /\ ilog c = [(1%nat, Grant 4096 5000 8192); (0%nat, Grant 12288 1 4096)]).
  { eexists. split; vm_compute; reflexivity. }
  destruct R as (c & R & L). exists c.
  assert (R' := irun_reach tstep _ _ _ _ (ireach_refl tstep _) R).
  split; [exact R'|]. split; [exact L|].
  assert (H1 : (1%nat, Grant 4096 5000 8192) ∈ ilog c) by (rewrite L; by left).
  assert (H2 : (0%nat, Grant 12288 1 4096) ∈ ilog c) by (rewrite L; right; by left).
  exact (proj2 (proj2 (alloc_pages_disjoint _ c Hs R')) 1%nat 0%nat _ _ H1 H2 ltac:(done)).
Defined.

(** [alloc_pages] on every branch: zero is refused; a request that fits is
    granted at the watermark, which advances by the rounded length and the
    grant can be released; one that does not fit leaves the state alone; a
    request within a page of [usize::MAX] overflows the rounding and is
    granted without reserving anything, so the next grant aliases it. *)
Theorem alloc_pages_spec next len :
  watermark_ok next -> is_u 64 len ->
  let '(r, next') := alloc_pages next len in
  watermark_ok next' /\
  match r with
  | Err InvalidLen => len = 0 /\ next' = next
  | Err PoolExhausted => VIRTUAL_BASE_END < next + bytes_needed len /\ next' = next
  | Err _ => False
  | Ok p =>
      p = next /\ 0 < len /\ next' = next + bytes_needed len /\
      (if len <=? 2 ^ 64 - PAGE_BYTES
       then len <= next' - p < len + PAGE_BYTES /\ free_pages p len = Ok tt
       else next' = next /\ forall len2 p2 n2, alloc_pages next' len2 = (Ok p2, n2) -> p2 = p)
  end.
Proof.
  intros Hw Hu. unfold alloc_pages at 1. destruct (Z.eqb_spec len 0) as [->|Hn]; [done|].
  unfold is_u in Hu. destruct (bytes_needed_any len) as [Hb Hm]; [lia|].
  destruct (VIRTUAL_BASE_END <? _) eqn:E; to_prop.
  { split; [done|]. split; [|done]. unfold sat_add in E. lia. }
  rewrite sat_add_pool in * by done. split; [by apply watermark_bump|].
  split_and!; [done | lia | done |]. destruct (Z.leb_spec len (2 ^ 64 - PAGE_BYTES)).
  - pose proof (bytes_needed_spec len). split; [lia|].
    destruct Hw as [? Hz]. unfold free_pages. rewrite Hz.
    repeat split_if; to_prop; try done; unfold VIRTUAL_BASE_START in *; lia.
  - rewrite bytes_needed_wraps, Z.add_0_r by lia. split; [done|].
    intros len2 p2 n2. unfold alloc_pages. by repeat split_if; intros; simplify_eq.
Qed.

Lemma alloc_pages_spec_witness :
  watermark_ok (alloc_pages initial (2 ^ 64 - 1)).2 /\
  alloc_pages initial (2 ^ 64 - 1) = (Ok 4096, 4096).
Proof.
  assert (Hw : watermark_ok initial) by by vm_compute.
  assert (Hu : is_u 64 (2 ^ 64 - 1)) by by vm_compute.
  split; [|by vm_compute]. exact (proj1 (alloc_pages_spec initial (2 ^ 64 - 1) Hw Hu)).
Defined.

(** The function is the thread run alone. *)
Lemma alloc_solo next len :
  let '(r, next') := alloc_pages next len in isolo tstep next (AStart len) next' (ADone r).
Proof.
  unfold alloc_pages. destruct (len =? 0) eqn:E0.
  { eapply isolo_step; [cbn [tstep]; by rewrite E0 | apply isolo_refl]. }
  destruct (VIRTUAL_BASE_END <? _) eqn:E1; (eapply isolo_step; [cbn [tstep]; by rewrite E0|]);
    (eapply isolo_step; [cbn [tstep]; rewrite E1, ?Z.eqb_refl; reflexivity | apply isolo_refl]).
Qed.

(** ** Lock-freedom of [alloc_pages] *)

Definition tlive (t : thread) : nat := match t with ADone _ => 0 | _ => 1 end.

(** Steps a call still needs if no other call interferes. *)
Definition trank (next : Z) (t : thread) : nat :=
  match t with
  | AStart _ => 3
  | ALoop _ current => if next =? current then 1 else 2
  | ADone _ => 0
  end.

Lemma tstep_rank next t next' t' es :
  tstep next t = Some (next', t', es) ->
  (trank next' t' < trank next t)%nat /\
  ((next' = next /\ (tlive t' <= tlive t)%nat) \/
   ((tlive t' < tlive t)%nat /\ forall u, (trank next' u <= S (trank next u))%nat)).
Proof.
  destruct t as [len|len current|]; cbn; [| |done].
  - destruct (len =? 0); intros; simplify_eq; cbn; rewrite ?Z.eqb_refl; lia.
  - destruct (VIRTUAL_BASE_END <? _); [intros; simplify_eq; cbn; destruct (next' =? current); lia|].
    destruct (Z.eqb_spec next current) as [->|]; intros; simplify_eq; cbn.
    + rewrite ?Z.eqb_refl. split; [lia|]. right. split; [lia|]. intros [| |]; cbn; repeat split_if; lia.
    + rewrite Z.eqb_refl. lia.
Qed.

Lemma starting_potential ts : Forall starting ts ->
  potential trank tlive (IConf (E := grant) initial ts []) = (length ts * (length ts + 3))%nat.
Proof.
  intros Hs. unfold potential, load, lives; cbn [imem ipool].
  assert (sum_list_with (trank initial) ts = 3 * length ts /\ sum_list_with tlive ts = length ts)%nat
    as [-> ->]; [|lia].
  induction Hs as [|t ts Ht _ [IH1 IH2]]; [done|]. destruct t; try done. cbn. lia.
Qed.

Definition returned (t : thread) : Prop := match t with ADone _ => True | _ => False end.

Lemma tstep_live next t : returned t \/ is_Some (tstep next t).
Proof. destruct t; cbn; [right..|by left]; repeat split_if; eauto. Qed.

(** C10. [alloc_pages] is lock-free and terminates: however [n] concurrent
    calls are scheduled, they take [n * (n + 3)] atomic steps at most; as
    long as one of them has not returned some step is possible, so every
    execution extends to one in which all the calls have returned. *)
Theorem alloc_pages_terminates ts n c :
  Forall starting ts -> isteps tstep (IConf initial ts []) n c ->
  (n <= length ts * (length ts + 3))%nat /\
  ((forall c', ~ istep tstep c c') -> Forall returned (ipool c)) /\
  exists k c', isteps tstep (IConf initial ts []) (n + k) c' /\
    length (ipool c') = length ts /\ Forall returned (ipool c').
Proof.
  intros Hs Hn. rewrite <- (starting_potential ts Hs).
  eapply (isteps_terminate tstep (fun _ => True)); [|apply tstep_live | done | done].
  intros c1 c2 _ Hc. split; [done|]. by apply (istep_potential tstep trank tlive tstep_rank).
Qed.

Lemma alloc_pages_terminates_witness :
  exists c, isteps tstep (IConf initial [AStart 1; AStart 5000] []) 5 c /\
    ipool c = [ADone (Ok 12288); ADone (Ok 4096)] /\ (5 <= 2 * (2 + 3))%nat.
Proof.
  assert (Hs : Forall starting [AStart 1; AStart 5000]) by (repeat constructor; by vm_compute).
  assert (R : exists c, irun tstep [0; 1; 1; 0; 0]%nat (IConf initial [AStart 1; AStart 5000] []) = Some c
      /\ ipool c = [ADone (Ok 12288); ADone (Ok 4096)]).
  { eexists. split; vm_compute; reflexivity. }
  destruct R as (c & R & L). exists c.
  assert (R' := irun_isteps tstep _ _ _ _ _ (isteps_O tstep _) R).
  split; [exact R'|]. split; [exact L|].
  exact (proj1 (alloc_pages_terminates _ _ _ Hs R')).
Defined.
