(* ===== verification/Queue.v ===== *)
(** * The byte-queue interface

    What [envelope::dispatch_enqueue_bytes] and [dispatch_dequeue_bytes]
    promise their callers (vfs, syscall, init), as a class with laws; the
    callers are verified against the class and the static slot of the
    envelope module is its instance. *)

From S2P Require Import Prelude Envelope.

(** A one-place queue of byte strings. *)
Class ByteQueue (Q : Type) := {
  q_ok : Q -> Prop;
  q_contents : Q -> option bytes;
  enqueue : Q -> bytes -> Z -> result Envelope.EnvelopeErr unit * Q;
  dequeue : Q -> bytes -> Z -> result Envelope.EnvelopeErr Z * Q * bytes;
  enqueue_spec q env route : q_ok q ->
    let '(r, q') := enqueue q env route in
    q_ok q' /\
    if (zlen env >? Envelope.ENVELOPE_SLOT_BYTES)%Z
    then r = Err Envelope.PayloadOversize /\ q' = q
    else match q_contents q with
         | None => r = Ok tt /\ q_contents q' = Some env
         | Some _ => r = Err Envelope.QueueFull /\ q' = q
         end;
  dequeue_spec q buf w : q_ok q -> (0 <= w)%Z ->
    let '(r, q', buf') := dequeue q buf w in
    q_ok q' /\
    match q_contents q with
    | None => r = Err Envelope.QueueEmpty /\ q' = q /\ buf' = buf
    | Some m =>
        if (zlen m <=? zlen buf)%Z
        then r = Ok (zlen m) /\ buf' = m ++ drop (length m) buf /\ q_contents q' = None
        else r = Err Envelope.PayloadOversize /\ q' = q /\ buf' = buf
    end
}.

(** ** The static slot implements the interface *)

Lemma slot_enqueue_spec s env route : Envelope.slot_ok s ->
  let '(r, s') := Envelope.dispatch_enqueue_bytes s env route in
  Envelope.slot_ok s' /\
  if (zlen env >? Envelope.ENVELOPE_SLOT_BYTES)%Z
  then r = Err Envelope.PayloadOversize /\ s' = s
  else match Envelope.contents s with
       | None => r = Ok tt /\ Envelope.contents s' = Some env
       | Some _ => r = Err Envelope.QueueFull /\ s' = s
       end.
Proof.
  intros Hok. assert (H := enqueue_slot_ok s env route Hok). revert H.
  unfold Envelope.dispatch_enqueue_bytes. destruct (zlen env >? _)%Z; [done|].
  destruct Hok as (Hb & Hl & [(E & E1 & E2)|(E & E1)]); unfold Envelope.contents; rewrite E; cbn.
  - intros Hok'. split; [done|]. split; [done|]. unfold zlen. by rewrite Nat2Z.id, take_app_length.
  - done.
Qed.

Lemma slot_dequeue_spec s buf w : Envelope.slot_ok s -> (0 <= w)%Z ->
  let '(r, s', buf') := Envelope.dispatch_dequeue_bytes s buf w in
  Envelope.slot_ok s' /\
  match Envelope.contents s with
  | None => r = Err Envelope.QueueEmpty /\ s' = s /\ buf' = buf
  | Some m =>
      if (zlen m <=? zlen buf)%Z
      then r = Ok (zlen m) /\ buf' = m ++ drop (length m) buf /\ Envelope.contents s' = None
      else r = Err Envelope.PayloadOversize /\ s' = s /\ buf' = buf
  end.
Proof.
  intros Hok Hw. assert (H := dequeue_slot_ok s buf w Hok Hw). revert H.
  rewrite dispatch_dequeue_eq by done. unfold Envelope.contents.
  destruct Hok as (Hb & Hl & [(E & E1 & E2)|(E & E1)]); rewrite E; cbn; [done|].
  assert (L : length (take (Z.to_nat (Envelope.slot_len s)) (Envelope.slot_bytes s)) = Z.to_nat (Envelope.slot_len s)).
  { rewrite length_take. unfold zlen in *. lia. }
  assert (Lz : zlen (take (Z.to_nat (Envelope.slot_len s)) (Envelope.slot_bytes s)) = Envelope.slot_len s)
    by (unfold zlen; lia).
  rewrite Lz, L. unfold Envelope.take_slot. rewrite Z.gtb_ltb, Z.ltb_antisym.
  by destruct (_ <=? zlen buf)%Z.
Qed.

#[export] Instance slot_queue : ByteQueue Envelope.Slot := {|
  q_ok := Envelope.slot_ok;
  q_contents := Envelope.contents;
  enqueue := Envelope.dispatch_enqueue_bytes;
  dequeue := Envelope.dispatch_dequeue_bytes;
  enqueue_spec := slot_enqueue_spec;
  dequeue_spec := slot_dequeue_spec
|}.

#[export] Hint Resolve slot_ok_initial : aso.
