(* ===== verification/Vfs.v ===== *)
(** * File descriptors ([kernel/core/src/vfs/mod.rs])

    The 256-slot descriptor table: open, close, read and write as functions
    on the table and on a byte queue, and open and close as threads of
    compare-and-swaps and swaps. *)

From S2P Require Import Prelude Interleave Envelope Queue.

Module Vfs.

Definition STDIN_FD : Z := 0.
Definition STDOUT_FD : Z := 1.
Definition STDERR_FD : Z := 2.
Definition RESERVED_FD_MAX : Z := STDERR_FD.

Inductive VfsErr :=
| InvalidFd | InvalidOpForFd | InvalidBuf | LenExceedsBuf | TableFull | InvalidPath
| InvalidMode | PayloadOversize | WouldBlock | Unimplemented.

#[export] Instance VfsErr_eq_dec : EqDecision VfsErr.
Proof. solve_decision. Defined.

Definition FD_TABLE_SIZE : Z := 256.
Definition FD_STATE_FREE : Z := 0.
Definition FD_STATE_OPEN : Z := 1.
Definition FD_BIND_UNBACKED : Z := 1.
Definition FD_BIND_DEVNULL : Z := 2.
Definition FD_BIND_BUSENVELOPE : Z := 3.

Definition O_RDONLY : Z := 1.
Definition O_WRONLY : Z := 2.
Definition O_RDWR : Z := 3.
Definition MODE_MASK : Z := Z.lor O_RDONLY (Z.lor O_WRONLY O_RDWR).

(** [FD_STATE]. *)
Abbreviation table := (list Z).

Definition initial : table := replicate 256 FD_STATE_FREE.

(** [!m] on [u32]. *)
Definition not32 (m : Z) : Z := (2 ^ 32 - 1 - m)%Z.

Definition vfs_is_open (t : table) (fd : Z) : bool :=
  if (fd <=? RESERVED_FD_MAX)%Z then true
  else if (FD_TABLE_SIZE <=? fd)%Z then false
  else negb (t !!! Z.to_nat fd =? FD_STATE_FREE)%Z.

Definition binding_kind_for_path (path : bytes) : Z :=
  if bytes_eqb path (lit "/dev/null") then FD_BIND_DEVNULL
  else if bytes_eqb path (lit "/dev/bus/envelope") then FD_BIND_BUSENVELOPE
  else FD_BIND_UNBACKED.

(** The scan over [fd .. fd + n]. *)
Fixpoint open_scan (t : table) (kind : Z) (n fd : nat) : result VfsErr Z * table :=
  match n with
  | O => (Err TableFull, t)
  | S n' =>
      if (t !!! fd =? FD_STATE_FREE)%Z
      then (Ok (Z.of_nat fd), <[fd := kind]> t)
      else open_scan t kind n' (S fd)
  end.

Definition bad_mode (mode : Z) : bool :=
  (mode =? 0)%Z || negb (Z.land mode (not32 MODE_MASK) =? 0)%Z.

Definition vfs_open (t : table) (path : bytes) (mode : Z) : result VfsErr Z * table :=
  if (zlen path =? 0)%Z then (Err InvalidPath, t)
  else if bad_mode mode then (Err InvalidMode, t)
  else
    let start := (RESERVED_FD_MAX + 1)%Z in
    open_scan t (binding_kind_for_path path) (Z.to_nat (FD_TABLE_SIZE - start)) (Z.to_nat start).

Definition vfs_close (t : table) (fd : Z) : result VfsErr unit * table :=
  if (fd <=? RESERVED_FD_MAX)%Z then (Err InvalidOpForFd, t)
  else if (FD_TABLE_SIZE <=? fd)%Z then (Err InvalidFd, t)
  else
    let old := t !!! Z.to_nat fd in
    let t' := <[Z.to_nat fd := FD_STATE_FREE]> t in
    if (old =? FD_STATE_FREE)%Z then (Err InvalidFd, t') else (Ok tt, t').

(** [for fd in 0..FD_TABLE_SIZE], store [FD_STATE_FREE]. *)
Definition reset_for_tests (t : table) : table :=
  fold_left (fun t fd => <[fd := FD_STATE_FREE]> t) (seq 0 (Z.to_nat FD_TABLE_SIZE)) t.

Section Io.
Context {Q : Type} `{ByteQueue Q}.

Definition vfs_read (t : table) (q : Q) (fd : Z) (buf : bytes) (len : Z) :
    result VfsErr Z * Q * bytes :=
  if (zlen buf <? len)%Z then (Err LenExceedsBuf, q, buf)
  else if (fd =? STDIN_FD)%Z then (Ok 0%Z, q, buf)
  else if (fd =? STDOUT_FD)%Z || (fd =? STDERR_FD)%Z then (Err InvalidOpForFd, q, buf)
  else if (FD_TABLE_SIZE <=? fd)%Z then (Err InvalidFd, q, buf)
  else
    let kind := t !!! Z.to_nat fd in
    if (kind =? FD_STATE_FREE)%Z then (Err InvalidFd, q, buf)
    else if (kind =? FD_BIND_UNBACKED)%Z then (Err InvalidFd, q, buf)
    else if (kind =? FD_BIND_DEVNULL)%Z then (Ok 0%Z, q, buf)
    else if (kind =? FD_BIND_BUSENVELOPE)%Z then
      let '(r, q', window) := dequeue q (take (Z.to_nat len) buf) 0 in
      (match r with
       | Ok n => Ok n
       | Err Envelope.QueueEmpty => Err WouldBlock
       | Err Envelope.PayloadOversize => Err PayloadOversize
       | Err _ => Err InvalidFd
       end, q', window ++ drop (Z.to_nat len) buf)
    else (Err InvalidFd, q, buf).

Definition vfs_write (t : table) (q : Q) (fd : Z) (buf : bytes) : result VfsErr Z * Q :=
  if (zlen buf =? 0)%Z then (Err InvalidBuf, q)
  else if (fd =? STDOUT_FD)%Z || (fd =? STDERR_FD)%Z then (Ok (zlen buf), q)
  else if (fd =? STDIN_FD)%Z then (Err InvalidOpForFd, q)
  else if (FD_TABLE_SIZE <=? fd)%Z then (Err InvalidFd, q)
  else
    let kind := t !!! Z.to_nat fd in
    if (kind =? FD_STATE_FREE)%Z then (Err InvalidFd, q)
    else if (kind =? FD_BIND_UNBACKED)%Z then (Err InvalidFd, q)
    else if (kind =? FD_BIND_DEVNULL)%Z then (Ok (zlen buf), q)
    else if (kind =? FD_BIND_BUSENVELOPE)%Z then
      let '(r, q') := enqueue q buf 0 in
      (match r with
       | Ok _ => Ok (zlen buf)
       | Err Envelope.QueueFull => Err WouldBlock
       | Err Envelope.PayloadOversize => Err PayloadOversize
       | Err _ => Err InvalidFd
       end, q')
    else (Err InvalidFd, q).

End Io.

(** *** Open and close as threads *)

Inductive thread :=
| OStart (path : bytes) (mode : Z)
| OScan (kind : Z) (fd : nat)
| ODone (r : result VfsErr Z)
| CStart (fd : Z)
| CDone (r : result VfsErr unit).

Inductive event := Opened (fd : nat) | Closed (fd : nat).

Definition tstep (t : table) (th : thread) : option (table * thread * list event) :=
  match th with
  | OStart path mode =>
      if (zlen path =? 0)%Z then Some (t, ODone (Err InvalidPath), [])
      else if bad_mode mode then Some (t, ODone (Err InvalidMode), [])
      else Some (t, OScan (binding_kind_for_path path) (Z.to_nat (RESERVED_FD_MAX + 1)), [])
  | OScan kind fd =>
      if (FD_TABLE_SIZE <=? Z.of_nat fd)%Z then Some (t, ODone (Err TableFull), [])
      else if (t !!! fd =? FD_STATE_FREE)%Z
      then Some (<[fd := kind]> t, ODone (Ok (Z.of_nat fd)), [Opened fd])
      else Some (t, OScan kind (S fd), [])
  | CStart fd =>
      if (fd <=? RESERVED_FD_MAX)%Z then Some (t, CDone (Err InvalidOpForFd), [])
      else if (FD_TABLE_SIZE <=? fd)%Z then Some (t, CDone (Err InvalidFd), [])
      else
        let t' := <[Z.to_nat fd := FD_STATE_FREE]> t in
        if (t !!! Z.to_nat fd =? FD_STATE_FREE)%Z then Some (t', CDone (Err InvalidFd), [])
        else Some (t', CDone (Ok tt), [Closed (Z.to_nat fd)])
  | ODone _ | CDone _ => None
  end.

Definition starting (th : thread) : Prop :=
  match th with OStart _ _ | CStart _ => True | _ => False end.

(** The specification of one descriptor: opened only while closed, closed
    only while open. [None] when the log breaks the rule. *)
Fixpoint replay (fd : nat) (is_open : bool) (l : list event) : option bool :=
  match l with
  | [] => Some is_open
  | Opened k :: l' =>
      if Nat.eqb k fd then (if is_open then None else replay fd true l') else replay fd is_open l'
  | Closed k :: l' =>
      if Nat.eqb k fd then (if is_open then replay fd false l' else None) else replay fd is_open l'
  end.

(** The table has its fixed size and holds binding kinds. *)
Definition table_ok (t : table) : Prop :=
  length t = 256%nat /\ Forall (fun k => 0 <= k <= 3)%Z t.

End Vfs.

Import Vfs.

#[local] Open Scope Z_scope.

(** ** The table *)

Lemma binding_kind_range path : 1 <= binding_kind_for_path path <= 3.
Proof. unfold binding_kind_for_path. repeat split_if; cbv; intuition congruence. Qed.

Lemma table_ok_insert t i k : table_ok t -> 0 <= k <= 3 -> table_ok (<[i := k]> t).
Proof.
  intros [Hl Hf] Hk. split; [by rewrite length_insert|]. by apply Forall_insert.
Qed.

Lemma table_ok_initial : table_ok initial.
Proof. split; [done|]. apply Forall_replicate. cbv. intuition congruence. Qed.

#[export] Hint Resolve table_ok_initial table_ok_insert binding_kind_range : aso.

Lemma table_lookup t i : table_ok t -> (i < 256)%nat -> t !! i = Some (t !!! i).
Proof. intros [Hl _] Hi. apply list_lookup_lookup_total_lt. lia. Qed.

Lemma insert_total_eq (t : table) i k : (i < length t)%nat -> <[i := k]> t !!! i = k.
Proof. intros. by apply list_lookup_total_insert_eq. Qed.

(** What the scan returns: the first free slot of its range. *)
Lemma open_scan_spec t kind n fd :
  table_ok t -> (fd + n = 256)%nat ->
  match open_scan t kind n fd with
  | (Ok r, t') =>
      exists k, r = Z.of_nat k /\ (fd <= k < 256)%nat /\ t !!! k = FD_STATE_FREE /\
        t' = <[k := kind]> t /\ forall j, (fd <= j < k)%nat -> t !!! j <> FD_STATE_FREE
  | (Err e, t') =>
      e = TableFull /\ t' = t /\ forall j, (fd <= j < 256)%nat -> t !!! j <> FD_STATE_FREE
  end.
Proof.
  intros Hok. revert fd. induction n as [|n IH]; intros fd Hn; cbn [open_scan].
  { split_and!; [done..|]. intros j ?. lia. }
  destruct (Z.eqb_spec (t !!! fd) FD_STATE_FREE) as [E|E].
  - exists fd. split_and!; [done | lia | lia | done | done |]. intros j ?. lia.
  - specialize (IH (S fd) ltac:(lia)). destruct (open_scan t kind n (S fd)) as [[r|e] t'].
    + destruct IH as (k & -> & Hk & Ef & -> & Hj). exists k. split_and!; [done | lia | lia | done | done |].
      intros j Hj'. destruct (decide (j = fd)) as [->|]; [done | apply Hj; lia].
    + destruct IH as (-> & -> & Hj). split_and!; [done..|].
      intros j Hj'. destruct (decide (j = fd)) as [->|]; [done | apply Hj; lia].
Qed.

(** ** Theorems *)

(** [vfs_open] on every branch: an empty path or a mode other than 1, 2, 3
    is refused; otherwise the lowest free slot from 3 gets the binding kind
    of the path, no other slot changes, and [TableFull] means that every
    slot from 3 is taken. *)
Theorem vfs_open_spec t path mode :
  table_ok t -> is_u 32 mode ->
  let '(r, t') := vfs_open t path mode in
  table_ok t' /\
  match r with
  | Ok fd =>
      3 <= fd < 256 /\ path <> [] /\ (1 <= mode <= 3) /\
      vfs_is_open t fd = false /\ vfs_is_open t' fd = true /\
      t' = <[Z.to_nat fd := binding_kind_for_path path]> t /\
      (forall fd', 3 <= fd' < fd -> vfs_is_open t fd' = true)
  | Err e =>
      t' = t /\
      match e with
      | InvalidPath => path = []
      | InvalidMode => path <> [] /\ ~ 1 <= mode <= 3
      | TableFull => path <> [] /\ (1 <= mode <= 3) /\ forall fd, 3 <= fd < 256 -> vfs_is_open t fd = true
      | _ => False
      end
  end.
Proof.
  intros Hok Hm. unfold vfs_open.
  assert (Hbad : bad_mode mode = false <-> 1 <= mode <= 3).
  { unfold is_u in Hm. unfold bad_mode. change (not32 MODE_MASK) with (Z.shiftl (Z.ones 30) 2).
    assert (El : Z.land mode (Z.shiftl (Z.ones 30) 2) = Z.shiftl (Z.shiftr mode 2) 2).
    { apply Z.bits_inj'. intros n Hn. rewrite Z.land_spec, !Z.shiftl_spec by lia.
      destruct (Z.lt_ge_cases n 2); [rewrite !(Z.testbit_neg_r _ (n - 2)) by lia; by rewrite andb_false_r|].
      rewrite Z.shiftr_spec by lia. replace (n - 2 + 2) with n by lia.
      destruct (Z.lt_ge_cases n 32); [rewrite Z.ones_spec_low by lia; apply andb_true_r|].
      rewrite (Z.bits_above_log2 mode n); [done | lia |].
      destruct (Z.eq_dec mode 0) as [->|]; [cbn; lia|]. apply Z.log2_lt_pow2; [lia|].
      pose proof (Z.pow_le_mono_r 2 32 n). lia. }
    rewrite El, Z.shiftl_mul_pow2, Z.shiftr_div_pow2 by lia. rewrite orb_false_iff, negb_false_iff, Z.eqb_eq, Z.eqb_neq.
    pose proof (Z.div_mod mode (2 ^ 2)). pose proof (Z.mod_pos_bound mode (2 ^ 2)). lia. }
  destruct (Z.eqb_spec (zlen path) 0) as [Ep|Ep].
  { apply zlen_zero_nil in Ep. done. }
  assert (path <> []) by (intros ->; done).
  destruct (bad_mode mode) eqn:Eb.
  { split; [done|]. split; [done|]. split; [done|]. intros Hc. by apply Hbad in Hc. }
  assert (Hm' : 1 <= mode <= 3) by by apply Hbad.
  pose proof (open_scan_spec t (binding_kind_for_path path) 253 3 Hok eq_refl) as Hs.
  change (Z.to_nat (FD_TABLE_SIZE - (RESERVED_FD_MAX + 1))) with 253%nat.
  change (Z.to_nat (RESERVED_FD_MAX + 1)) with 3%nat.
  pose proof (binding_kind_range path) as Hk.
  destruct (open_scan _ _ 253 3) as [[r|e] t'].
  - destruct Hs as (k & -> & Hr & Ef & -> & Hj). split; [apply table_ok_insert; [done | lia]|].
    split_and!; [lia | lia | done | lia | lia | | | by rewrite Nat2Z.id |];
      unfold vfs_is_open, RESERVED_FD_MAX, STDERR_FD, FD_TABLE_SIZE.
    + rewrite Nat2Z.id, Ef. repeat split_if; by try lia.
    + rewrite Nat2Z.id, insert_total_eq by (destruct Hok; lia). unfold FD_STATE_FREE.
      repeat split_if; lia.
    + intros fd' Hfd. repeat split_if; try done; try lia; apply negb_true_iff, Z.eqb_neq, Hj; lia.
  - destruct Hs as (-> & -> & Hj). split_and!; [done.. | lia | lia |]. intros fd Hfd.
    unfold vfs_is_open, RESERVED_FD_MAX, STDERR_FD, FD_TABLE_SIZE.
    repeat split_if; try done; try lia; apply negb_true_iff, Z.eqb_neq, Hj; lia.
Qed.

Lemma vfs_open_spec_witness :
  vfs_open initial (lit "/dev/null") O_RDONLY = (Ok 3, <[3%nat := FD_BIND_DEVNULL]> initial) /\
  table_ok (vfs_open initial (lit "/dev/null") O_RDONLY).2.
Proof.
  split; [vm_compute; reflexivity|].
  assert (Hm : is_u 32 O_RDONLY) by by vm_compute.
  exact (proj1 (vfs_open_spec initial (lit "/dev/null") O_RDONLY table_ok_initial Hm)).
Defined.

Lemma replay_app fd b l k : replay fd b (l ++ k) = replay fd b l ≫= fun b' => replay fd b' k.
Proof.
  revert b. induction l as [|[j|j] l IH]; intros b; cbn; [done | |];
    destruct (Nat.eqb j fd); try destruct b; cbn; auto.
Qed.

Definition shared_inv (t : table) (l : list (nat * event)) : Prop :=
  table_ok t /\
  forall fd, (fd < 256)%nat -> replay fd false l.*2 = Some (negb (t !!! fd =? FD_STATE_FREE)).

Definition thread_inv (t : table) (l : list (nat * event)) (j : nat) (th : thread) : Prop :=
  match th with
  | OScan kind fd => 1 <= kind <= 3 /\ (3 <= fd)%nat
  | ODone (Ok fd) => 3 <= fd < 256 /\ (j, Opened (Z.to_nat fd)) ∈ l
  | _ => True
  end.

Lemma vfs_inv_mono t l t' es j th : thread_inv t l j th -> thread_inv t' (l ++ es) j th.
Proof.
  destruct th as [| |[fd|]| |]; cbn; [done..| |done|done|done].
  intros [? Hin]. split; [done|]. apply elem_of_app. by left.
Qed.

(** Setting slot [k] and logging the matching event keeps the relation. *)
Lemma shared_inv_set t l j k v e :
  shared_inv t l -> (k < 256)%nat -> 0 <= v <= 3 ->
  (e = Opened k /\ (t !!! k =? FD_STATE_FREE) = true /\ (v =? FD_STATE_FREE) = false) \/
  (e = Closed k /\ (t !!! k =? FD_STATE_FREE) = false /\ (v =? FD_STATE_FREE) = true) ->
  shared_inv (<[k := v]> t) (l ++ [(j, e)]).
Proof.
  intros [Hok Hr] Hk Hv He. split; [by apply table_ok_insert|]. intros fd Hfd.
  rewrite fmap_app, replay_app, Hr by done. cbn [mbind option_bind].
  destruct (decide (fd = k)) as [->|Hne].
  - rewrite insert_total_eq by (destruct Hok; lia).
    destruct He as [(-> & -> & ->)|(-> & -> & ->)]; cbn; by rewrite Nat.eqb_refl.
  - rewrite list_lookup_total_insert_ne by done. apply Nat.eqb_neq in Hne. rewrite Nat.eqb_sym in Hne.
    destruct He as [(-> & _)|(-> & _)]; cbn; by rewrite Hne.
Qed.

Lemma shared_inv_free t l k :
  shared_inv t l -> (k < 256)%nat -> (t !!! k =? FD_STATE_FREE) = true ->
  shared_inv (<[k := FD_STATE_FREE]> t) (l ++ []).
Proof.
  intros Hs Hk Ef. rewrite list_insert_id; [by rewrite app_nil_r|].
  rewrite (table_lookup t k) by (done || apply Hs). apply Z.eqb_eq in Ef. by rewrite Ef.
Qed.

Lemma vfs_step_inv t l j th t' th' es :
  shared_inv t l -> thread_inv t l j th -> tstep t th = Some (t', th', es) ->
  let l' := l ++ map (pair j) es in
  shared_inv t' l' /\ thread_inv t' l' j th' /\
  (forall k u, thread_inv t l k u -> thread_inv t' l' k u).
Proof.
  intros Hs HL E l'. subst l'. split; [|split; [|intros k u; apply vfs_inv_mono]].
  all: destruct th as [path mode|kind fd| |fd|]; cbn in E; [| |done| |done].
  - repeat case_match; simplify_eq; by rewrite app_nil_r.
  - destruct (FD_TABLE_SIZE <=? _) eqn:E1; [simplify_eq; by rewrite app_nil_r|].
    destruct (t !!! fd =? FD_STATE_FREE) eqn:E2; simplify_eq; [|by rewrite app_nil_r].
    unfold FD_TABLE_SIZE in E1. to_prop. destruct HL.
    apply shared_inv_set; [done | lia | lia |]. left. split; [done|].
    split; apply Z.eqb_eq || apply Z.eqb_neq; [exact E2 | unfold FD_STATE_FREE; lia].
  - destruct (fd <=? RESERVED_FD_MAX) eqn:E0; [simplify_eq; by rewrite app_nil_r|].
    destruct (FD_TABLE_SIZE <=? fd) eqn:E1; [simplify_eq; by rewrite app_nil_r|].
    unfold FD_TABLE_SIZE, RESERVED_FD_MAX, STDERR_FD in *. to_prop.
    destruct (t !!! _ =? FD_STATE_FREE) eqn:E2; simplify_eq.
    + apply shared_inv_free; [done | lia | done].
    + apply shared_inv_set; [done | lia | by vm_compute |]. right. done.
  - repeat case_match; simplify_eq; try done. split; [apply binding_kind_range | by vm_compute; lia].
  - destruct (FD_TABLE_SIZE <=? _) eqn:E1; [by simplify_eq|].
    unfold FD_TABLE_SIZE in E1. to_prop. destruct HL.
    destruct (t !!! fd =? FD_STATE_FREE); simplify_eq; cbn; [|split; lia].
    split; [lia|]. rewrite Nat2Z.id. apply elem_of_app. right. by left.
  - repeat case_match; by simplify_eq.
Qed.

Lemma vfs_reach_inv ts c :
  Forall starting ts -> ireach tstep (IConf initial ts []) c ->
  shared_inv (imem c) (ilog c) /\
  (forall k th, ipool c !! k = Some th -> thread_inv (imem c) (ilog c) k th).
Proof.
  intros Hs. apply (ireach_inv tstep shared_inv thread_inv initial ts).
  - split; [apply table_ok_initial|]. intros fd Hfd. unfold initial.
    by rewrite lookup_total_replicate_2 by done.
  - intros k th Hk. rewrite Forall_lookup in Hs. specialize (Hs k th Hk). by destruct th.
  - apply vfs_step_inv.
Qed.

(** C15. Any number of concurrent opens and closes, in any interleaving: the
    history of every descriptor alternates between a successful open and a
    successful close, the table shows its current side, and a successful
    open returned a descriptor in 3..=255. *)
Theorem fd_exclusive ts c :
  Forall starting ts -> ireach tstep (IConf initial ts []) c ->
  table_ok (imem c) /\
  (forall fd, (fd < 256)%nat ->
     replay fd false (ilog c).*2 = Some (negb (imem c !!! fd =? FD_STATE_FREE))) /\
  (forall k fd, ipool c !! k = Some (ODone (Ok fd)) ->
     3 <= fd < 256 /\ (k, Opened (Z.to_nat fd)) ∈ ilog c).
Proof.
  intros Hs Hr. destruct (vfs_reach_inv ts c Hs Hr) as [[H1 H2] HL].
  split_and!; [done | done |]. intros k fd Hk. apply (HL k _ Hk).
Qed.

Lemma fd_exclusive_witness :
  exists c, ireach tstep (IConf initial [OStart [97] 1; OStart [98] 2; CStart 3] []) c /\
    (ilog c).*2 = [Opened 3; Closed 3; Opened 3] /\ replay 3 false (ilog c).*2 = Some true.
Proof.
  assert (R : exists c, irun tstep [0; 1; 0; 2; 1]%nat
      (IConf initial [OStart [97] 1; OStart [98] 2; CStart 3] []) = Some c /\
      (ilog c).*2 = [Opened 3; Closed 3; Opened 3] /\ imem c !!! 3%nat = 1).
  { eexists. split; vm_compute; split; reflexivity || reflexivity. }
  destruct R as (c & R & L & M). exists c.
  assert (R' := irun_reach tstep _ _ _ _ (ireach_refl tstep _) R).
  assert (Hs : Forall starting [OStart [97] 1; OStart [98] 2; CStart 3]) by by repeat constructor.
  split; [exact R'|]. split; [exact L|].
  rewrite (proj1 (proj2 (fd_exclusive _ c Hs R')) 3%nat) by lia. by rewrite M.
Defined.

(** ** Input and output *)

Section IoSpec.
Context {Q : Type} `{ByteQueue Q}.

Lemma vfs_write_bus t (q : Q) fd m :
  3 <= fd < 256 -> t !!! Z.to_nat fd = FD_BIND_BUSENVELOPE -> m <> [] ->
  vfs_write t q fd m =
  let '(r, q') := enqueue q m 0 in
  (match r with
   | Ok _ => Ok (zlen m)
   | Err Envelope.QueueFull => Err WouldBlock
   | Err Envelope.PayloadOversize => Err PayloadOversize
   | Err _ => Err InvalidFd
   end, q').
Proof.
  intros Hfd Hk Hm. unfold vfs_write, STDOUT_FD, STDERR_FD, STDIN_FD, FD_TABLE_SIZE. rewrite Hk.
  destruct (Z.eqb_spec (zlen m) 0) as [E|_]; [by apply zlen_zero_nil in E|].
  repeat (rewrite (proj2 (Z.eqb_neq fd _)) by lia). rewrite (proj2 (Z.leb_gt _ fd)) by lia. done.
Qed.

Lemma vfs_read_bus t (q : Q) fd buf len :
  3 <= fd < 256 -> t !!! Z.to_nat fd = FD_BIND_BUSENVELOPE -> 0 <= len <= zlen buf ->
  vfs_read t q fd buf len =
  let '(r, q', window) := dequeue q (take (Z.to_nat len) buf) 0 in
  (match r with
   | Ok n => Ok n
   | Err Envelope.QueueEmpty => Err WouldBlock
   | Err Envelope.PayloadOversize => Err PayloadOversize
   | Err _ => Err InvalidFd
   end, q', window ++ drop (Z.to_nat len) buf).
Proof.
  intros Hfd Hk Hl. unfold vfs_read, STDOUT_FD, STDERR_FD, STDIN_FD, FD_TABLE_SIZE. rewrite Hk.
  rewrite (proj2 (Z.ltb_ge _ _)) by lia.
  repeat (rewrite (proj2 (Z.eqb_neq fd _)) by lia). rewrite (proj2 (Z.leb_gt _ fd)) by lia. done.
Qed.

(** Reads and writes leave an acceptable queue. *)
Lemma vfs_write_ok t (q : Q) fd m : q_ok q -> q_ok (vfs_write t q fd m).2.
Proof.
  intros Hq. pose proof (enqueue_spec q m 0 Hq) as Hs. unfold vfs_write.
  destruct (enqueue q m 0) as [r q']. repeat case_match; cbn; tauto.
Qed.

Lemma vfs_read_ok t (q : Q) fd buf len : q_ok q -> q_ok (vfs_read t q fd buf len).1.2.
Proof.
  intros Hq. pose proof (dequeue_spec q (take (Z.to_nat len) buf) 0 Hq (Z.le_refl 0)) as Hs.
  unfold vfs_read. destruct (dequeue q _ 0) as [[r q'] w]. repeat case_match; cbn; tauto.
Qed.

(** A descriptor bound to [/dev/bus/envelope] over any queue that meets the
    interface: the bytes of one write are returned by one read of at least
    that length, into the front of the buffer; in between a second write
    would block and a too short read is refused; after it a read would
    block. No step looks at the mode the descriptor was opened with. *)
Theorem bus_fd_roundtrip t (q : Q) fd m buf len :
  q_ok q -> q_contents q = None ->
  3 <= fd < 256 -> t !!! Z.to_nat fd = FD_BIND_BUSENVELOPE ->
  0 < zlen m <= Envelope.ENVELOPE_SLOT_BYTES -> 0 <= len <= zlen buf ->
  let '(r1, q1) := vfs_write t q fd m in
  r1 = Ok (zlen m) /\ q_contents q1 = Some m /\
  vfs_write t q1 fd m = (Err WouldBlock, q1) /\
  (let '(r2, q2, buf2) := vfs_read t q1 fd buf len in
   if zlen m <=? len
   then r2 = Ok (zlen m) /\ buf2 = m ++ drop (length m) buf /\ q_contents q2 = None /\
        vfs_read t q2 fd buf2 len = (Err WouldBlock, q2, buf2)
   else r2 = Err PayloadOversize /\ q2 = q1 /\ buf2 = buf).
Proof.
  intros Hq Hc Hfd Hk Hm Hlen.
  assert (m <> []) as Hne by (intros ->; change (zlen []) with 0 in Hm; lia).
  rewrite vfs_write_bus by done. pose proof (enqueue_spec q m 0 Hq) as Hs. rewrite Hc in Hs.
  assert (Eg : (zlen m >? Envelope.ENVELOPE_SLOT_BYTES) = false) by (rewrite Z.gtb_ltb; apply Z.ltb_ge; lia).
  rewrite Eg in Hs. destruct (enqueue q m 0) as [r1 q1]. destruct Hs as (Hq1 & -> & Hc1).
  split; [done|]. split; [done|]. split.
  { rewrite vfs_write_bus by done. pose proof (enqueue_spec q1 m 0 Hq1) as Hs.
    rewrite Eg, Hc1 in Hs. destruct (enqueue q1 m 0). by destruct Hs as (_ & -> & ->). }
  rewrite vfs_read_bus by done.
  pose proof (dequeue_spec q1 (take (Z.to_nat len) buf) 0 Hq1 (Z.le_refl 0)) as Hs. rewrite Hc1 in Hs.
  assert (El : zlen (take (Z.to_nat len) buf) = len) by (unfold zlen in *; rewrite length_take; lia).
  rewrite El in Hs. destruct (dequeue q1 _ 0) as [[r2 q2] w].
  destruct (Z.leb_spec (zlen m) len) as [Hle|Hgt].
  - destruct Hs as (Hq2 & -> & -> & Hc2). split_and!; [done | | done |].
    + rewrite <- app_assoc. f_equal. rewrite <- (take_drop (Z.to_nat len) buf) at 3.
      rewrite drop_app_le; [done|]. unfold zlen in *. rewrite length_take. lia.
    + rewrite vfs_read_bus; [| done | done |].
      * match goal with |- context [dequeue q2 ?b 0] =>
          pose proof (dequeue_spec q2 b 0 Hq2 (Z.le_refl 0)) as Hs; rewrite Hc2 in Hs;
          destruct (dequeue q2 b 0) as [[r3 q3] w3] end.
        destruct Hs as (_ & -> & -> & ->). by rewrite take_drop.
      * unfold zlen in *. rewrite !length_app, !length_drop, length_take. lia.
  - destruct Hs as (_ & -> & -> & ->). split_and!; [done..|]. by rewrite take_drop.
Qed.

End IoSpec.

Lemma bus_fd_roundtrip_witness :
  let t := (vfs_open initial (lit "/dev/bus/envelope") O_RDONLY).2 in
  (vfs_write t Envelope.initial 3 (lit "short")).1 = Ok 5 /\
  (vfs_read t (vfs_write t Envelope.initial 3 (lit "short")).2 3 (replicate 8 0) 8).2
    = lit "short" ++ [0; 0; 0].
Proof.
  intros t. assert (Hk : t !!! Z.to_nat 3 = FD_BIND_BUSENVELOPE) by by vm_compute.
  assert (Hf : 3 <= 3 < 256) by lia.
  assert (Hm : 0 < zlen (lit "short") <= Envelope.ENVELOPE_SLOT_BYTES) by by vm_compute.
  assert (Hl : 0 <= 8 <= zlen (replicate 8 0)) by by vm_compute.
  split; [|by vm_compute].
  exact (proj1 (bus_fd_roundtrip t Envelope.initial 3 (lit "short") (replicate 8 0) 8
                  slot_ok_initial eq_refl Hf Hk Hm Hl)).
Defined.

(** Open followed by close restores the table; a second close is refused;
    the three standard descriptors cannot be closed. *)
Theorem open_close_roundtrip t path mode fd t' :
  table_ok t -> vfs_open t path mode = (Ok fd, t') ->
  vfs_close t' fd = (Ok tt, t) /\ (vfs_close t fd).1 = Err InvalidFd /\
  forall r, 0 <= r <= RESERVED_FD_MAX -> vfs_close t' r = (Err InvalidOpForFd, t').
Proof.
  intros Hok. unfold vfs_open. repeat split_if; [done..|].
  pose proof (open_scan_spec t (binding_kind_for_path path) 253 3 Hok eq_refl) as Hs.
  change (Z.to_nat (FD_TABLE_SIZE - (RESERVED_FD_MAX + 1))) with 253%nat.
  change (Z.to_nat (RESERVED_FD_MAX + 1)) with 3%nat. intros E. rewrite E in Hs.
  destruct Hs as (k & -> & Hk & Ef & -> & _). pose proof (binding_kind_range path).
  assert (HC : forall t0, vfs_close t0 (Z.of_nat k) =
     if t0 !!! k =? FD_STATE_FREE then (Err InvalidFd, <[k:=FD_STATE_FREE]> t0)
     else (Ok tt, <[k:=FD_STATE_FREE]> t0)).
  { intros t0. unfold vfs_close, RESERVED_FD_MAX, STDERR_FD, FD_TABLE_SIZE. rewrite Nat2Z.id.
    repeat split_if; done || lia. }
  rewrite !HC, insert_total_eq, Ef by (destruct Hok; lia). split_and!.
  - rewrite (proj2 (Z.eqb_neq _ _)) by (unfold FD_STATE_FREE; lia).
    rewrite list_insert_insert_eq, list_insert_id; [done|]. rewrite <- Ef. by apply table_lookup; [|lia].
  - done.
  - intros r Hr. unfold vfs_close. by rewrite (proj2 (Z.leb_le _ _)) by lia.
Qed.

Lemma open_close_roundtrip_witness :
  vfs_close (<[3%nat := FD_BIND_DEVNULL]> initial) 3 = (Ok tt, initial).
Proof.
  exact (proj1 (open_close_roundtrip initial (lit "/dev/null") O_RDWR 3 (<[3%nat := FD_BIND_DEVNULL]> initial)
           table_ok_initial eq_refl)).
Defined.
