(* ===== verification/AgentRuntime.v ===== *)
(** * Agent registry ([kernel/core/src/agent_runtime/mod.rs])

    The registry of agents with its per-layer counters, the PID minter, and
    the child-handle counter behind [sys_fork], sequentially and as threads
    over the static counter. *)

From S2P Require Import Prelude SyscallTypes Access Interleave.
From stdpp Require Import pmap.

Module AgentRuntime.

Inductive AgentState := Spawned | Working | Heartbeating | Failed | Retired.

Inductive AgentRole :=
| Hermes | SpaceDeckDriver | SpaceAgent | Pi | Omnispindle | Omniflywheel | BigPickle | SubAgent.

Inductive AgentClass := VirtualPointer | RealReceiptGated | Ambiguous.

Inductive VantageId := Acer | Liris | Falcon | Aether.

Inductive AgentErr :=
| RegistryFull | PidMintFailed | NotFound | InvalidStateTransition
| OperatorWitnessRequired | Unimplemented.

#[export] Instance AgentState_eq_dec : EqDecision AgentState.
Proof. solve_decision. Defined.
#[export] Instance AgentRole_eq_dec : EqDecision AgentRole.
Proof. solve_decision. Defined.
#[export] Instance AgentClass_eq_dec : EqDecision AgentClass.
Proof. solve_decision. Defined.
#[export] Instance VantageId_eq_dec : EqDecision VantageId.
Proof. solve_decision. Defined.
#[export] Instance AgentErr_eq_dec : EqDecision AgentErr.
Proof. solve_decision. Defined.

Definition classify_request (planned_os_spawns : Z) (has_receipt : bool) : AgentClass :=
  if (planned_os_spawns =? 0)%Z then VirtualPointer
  else if has_receipt then RealReceiptGated
  else Ambiguous.

Record AgentEntry := mkEntry {
  agent_pid : bytes;
  role : AgentRole;
  state : AgentState;
  vantage : VantageId;
  tier : AccessTier;
  class : AgentClass;
  spawned_at_ns : Z;
  last_heartbeat_ns : Z
}.

Definition AGENT_REGISTRY_MAX : Z := 10000.
Definition SUBSTRATE_COUNT : Z := 2.
Definition AGENT_REGISTRY_MAX_PER_SUBSTRATE : Z := AGENT_REGISTRY_MAX.
Definition AGENT_REGISTRY_MAX_TOTAL : Z := AGENT_REGISTRY_MAX_PER_SUBSTRATE * SUBSTRATE_COUNT.
Definition HEARTBEAT_TIMEOUT_NS : Z := 60 * 1000000000.
Definition GULP_THRESHOLD : Z := 2000.

Record DispatchCounters := mkCounters {
  virtual_registered : Z;
  omnidispatch_routed : Z;
  receipt_gated_helper : Z;
  opencode_free_agent_call : Z;
  os_process_spawn : Z;
  ambiguous_held : Z
}.

Record AgentRegistry := mkRegistry {
  entries : list AgentEntry;
  counters : DispatchCounters
}.

Definition new : AgentRegistry := mkRegistry [] (mkCounters 0 0 0 0 0 0).

Definition bump (z : Z) : Z := wrap64 (z + 1).

Definition note_omnidispatch_routed (r : AgentRegistry) : AgentRegistry :=
  let '(mkCounters v o g c p a) := counters r in
  mkRegistry (entries r) (mkCounters v (bump o) g c p a).
Definition note_opencode_free_agent_call (r : AgentRegistry) : AgentRegistry :=
  let '(mkCounters v o g c p a) := counters r in
  mkRegistry (entries r) (mkCounters v o g (bump c) p a).
Definition note_os_process_spawn (r : AgentRegistry) : AgentRegistry :=
  let '(mkCounters v o g c p a) := counters r in
  mkRegistry (entries r) (mkCounters v o g c (bump p) a).

Definition live (e : AgentEntry) : bool := bool_decide (state e <> Retired).

Definition count (r : AgentRegistry) : Z := zlen (filter (fun e => live e = true) (entries r)).

Definition count_in_vantage (r : AgentRegistry) (v : VantageId) : Z :=
  zlen (filter (fun e => vantage e = v /\ live e = true) (entries r)).

(** *** PIDs *)

Definition FNV_OFFSET : Z := 14695981039346656037.
Definition FNV_PRIME : Z := 1099511628211.

Definition fnv_byte (h b : Z) : Z := wrap64 (Z.lxor h b * FNV_PRIME).

Definition fnv_part (h p : Z) : Z := fold_left fnv_byte (le_bytes 8 p) h.

Definition fnv1a64 (parts : list Z) : Z := fold_left fnv_part parts FNV_OFFSET.

Definition role_tag (r : AgentRole) : bytes :=
  match r with
  | Hermes => lit "HRM" | SpaceDeckDriver => lit "SDD" | SpaceAgent => lit "SPA"
  | Pi => lit "PI" | Omnispindle => lit "SPN" | Omniflywheel => lit "FLY"
  | BigPickle => lit "BPK" | SubAgent => lit "SUB"
  end.

Definition vantage_tag (v : VantageId) : bytes :=
  match v with
  | Acer => lit "ACER" | Liris => lit "LIRIS" | Falcon => lit "FALCON" | Aether => lit "AETHER"
  end.

(** [role as u64], [vantage as u64] and [tier as u64]: declaration order. *)
Definition role_index (r : AgentRole) : Z :=
  match r with
  | Hermes => 0 | SpaceDeckDriver => 1 | SpaceAgent => 2 | Pi => 3
  | Omnispindle => 4 | Omniflywheel => 5 | BigPickle => 6 | SubAgent => 7
  end.
Definition vantage_index (v : VantageId) : Z :=
  match v with Acer => 0 | Liris => 1 | Falcon => 2 | Aether => 3 end.
Definition tier_index (t : AccessTier) : Z :=
  match t with
  | Public => 0 | Restricted => 1 | Stealth => 2 | Hidden => 3
  | Shadow => 4 | Secret => 5 | Sovereignty => 6
  end.

(** The low 48 bits of the seed. *)
Definition hex12 (handle : Z) (r : AgentRole) (v : VantageId) (t : AccessTier) : Z :=
  Z.land (fnv1a64 [handle; role_index r; vantage_index v; tier_index t]) 281474976710655.

(** [{:012X}] of a number below 2^48. *)
Definition upper_hex12 (z : Z) : bytes := map to_ascii_upper (hex_of (be_bytes 6 z)).

Definition mint_agent_pid (handle : Z) (r : AgentRole) (v : VantageId) (t : AccessTier) : bytes :=
  lit "AGT-" ++ vantage_tag v ++ lit "-" ++ role_tag r ++ lit "-H" ++ upper_hex12 (hex12 handle r v t).

(** *** Registration, retirement, heartbeat *)

Definition register (reg : AgentRegistry) (r : AgentRole) (v : VantageId) (t : AccessTier)
    (c : AgentClass) : result AgentErr bytes * AgentRegistry :=
  if (AGENT_REGISTRY_MAX <=? count reg)%Z then (Err RegistryFull, reg)
  else
    let handle := wrap64 (zlen (entries reg) + 1) in
    let pid := mint_agent_pid handle r v t in
    if (zlen pid =? 0)%Z then (Err PidMintFailed, reg)
    else
      let '(mkCounters vr o g oc p a) := counters reg in
      let cs := match c with
                | VirtualPointer => mkCounters (bump vr) o g oc p a
                | RealReceiptGated => mkCounters vr o (bump g) oc p a
                | Ambiguous => mkCounters vr o g oc p (bump a)
                end in
      (Ok pid, mkRegistry (entries reg ++ [mkEntry pid r Spawned v t c 0 0]) cs).

Definition spawn (reg : AgentRegistry) (r : AgentRole) (v : VantageId) (t : AccessTier) :
    result AgentErr bytes * AgentRegistry :=
  register reg r v t VirtualPointer.

Definition spawn_real_gated (reg : AgentRegistry) (r : AgentRole) (v : VantageId)
    (t : AccessTier) (has_receipt : bool) : result AgentErr bytes * AgentRegistry :=
  register reg r v t (classify_request 1 has_receipt).

Definition set_state (s : AgentState) (e : AgentEntry) : AgentEntry :=
  mkEntry (agent_pid e) (role e) s (vantage e) (tier e) (class e) (spawned_at_ns e)
    (last_heartbeat_ns e).
Definition set_heartbeat (now : Z) (e : AgentEntry) : AgentEntry :=
  mkEntry (agent_pid e) (role e) (state e) (vantage e) (tier e) (class e) (spawned_at_ns e) now.

Fixpoint retire_in (l : list AgentEntry) (pid : bytes) : result AgentErr unit * list AgentEntry :=
  match l with
  | [] => (Err NotFound, [])
  | e :: l' =>
      if bytes_eqb (agent_pid e) pid then (Ok tt, set_state Retired e :: l')
      else let '(r, l2) := retire_in l' pid in (r, e :: l2)
  end.

Definition retire (reg : AgentRegistry) (pid : bytes) : result AgentErr unit * AgentRegistry :=
  let '(r, l) := retire_in (entries reg) pid in (r, mkRegistry l (counters reg)).

Fixpoint heartbeat_in (l : list AgentEntry) (pid : bytes) (now_ns : Z) :
    result AgentErr unit * list AgentEntry :=
  match l with
  | [] => (Err NotFound, [])
  | e :: l' =>
      if bytes_eqb (agent_pid e) pid then
        if bool_decide (state e = Retired) then (Err InvalidStateTransition, e :: l')
        else (Ok tt, set_heartbeat now_ns e :: l')
      else let '(r, l2) := heartbeat_in l' pid now_ns in (r, e :: l2)
  end.

Definition heartbeat (reg : AgentRegistry) (pid : bytes) (now_ns : Z) :
    result AgentErr unit * AgentRegistry :=
  let '(r, l) := heartbeat_in (entries reg) pid now_ns in (r, mkRegistry l (counters reg)).

Definition big_pickle_action_requires_witness (r : AgentRole) : bool :=
  match r with BigPickle => true | _ => false end.

(** Every method that changes the registry. *)
Inductive op :=
| Spawn (r : AgentRole) (v : VantageId) (t : AccessTier)
| SpawnReal (r : AgentRole) (v : VantageId) (t : AccessTier) (has_receipt : bool)
| Retire (pid : bytes)
| Heartbeat (pid : bytes) (now_ns : Z)
| NoteRouted | NoteCall | NoteProcess.

Definition apply (reg : AgentRegistry) (o : op) : AgentRegistry :=
  match o with
  | Spawn r v t => (spawn reg r v t).2
  | SpawnReal r v t b => (spawn_real_gated reg r v t b).2
  | Retire pid => (retire reg pid).2
  | Heartbeat pid now => (heartbeat reg pid now).2
  | NoteRouted => note_omnidispatch_routed reg
  | NoteCall => note_opencode_free_agent_call reg
  | NoteProcess => note_os_process_spawn reg
  end.

(** *** The child-handle counter *)

(** [SPAWN_CHILD_COUNTER] at start-up. *)
Definition counter_initial : Z := 0.

Definition spawn_child_agent (counter : Z) : result AgentErr Z * Z :=
  let prev := counter in
  let counter := wrap64 (counter + 1) in
  if (AGENT_REGISTRY_MAX <=? prev)%Z then (Err RegistryFull, AGENT_REGISTRY_MAX)
  else (Ok (wrap64 (prev + 1)), counter).

Definition spawn_child_agent_count (counter : Z) : Z := counter.

Inductive thread := FStart | FRollback | FDone (r : result AgentErr Z).

(** The event is the value [fetch_add] returned. *)
Definition tstep (counter : Z) (t : thread) : option (Z * thread * list Z) :=
  match t with
  | FStart =>
      if (AGENT_REGISTRY_MAX <=? counter)%Z
      then Some (wrap64 (counter + 1), FRollback, [counter])
      else Some (wrap64 (counter + 1), FDone (Ok (wrap64 (counter + 1))), [counter])
  | FRollback => Some (AGENT_REGISTRY_MAX, FDone (Err RegistryFull), [])
  | FDone _ => None
  end.

End AgentRuntime.

Import AgentRuntime.

#[local] Open Scope Z_scope.

Lemma mint_nonempty h r v t : (zlen (mint_agent_pid h r v t) =? 0) = false.
Proof.
  apply Z.eqb_neq. unfold mint_agent_pid. rewrite zlen_app.
  pose proof (zlen_nonneg (vantage_tag v ++ lit "-" ++ role_tag r ++ lit "-H" ++ upper_hex12 (hex12 h r v t))).
  change (zlen (lit "AGT-")) with 4. lia.
Qed.

(** ** Uniqueness of the PIDs

    Modulo 2^48 an FNV step is [x -> (x xor b) * FNV_PRIME], and the prime is
    invertible; xor with a small number moves a value by little. So equal
    hashes give differences between the intermediate states that lie in an
    explicit finite set, which a computation excludes. *)

Definition M48 : Z := 2 ^ 48.

Definition fnv48 (x b : Z) : Z := (Z.lxor x b * FNV_PRIME) mod M48.

Definition eqm (a b : Z) : Prop := (a mod M48 = b mod M48).

#[local] Instance eqm_equiv : Equivalence eqm.
Proof. split; unfold eqm; congruence. Qed.

#[local] Instance eqm_add : Proper (eqm ==> eqm ==> eqm) Z.add.
Proof. intros a b E c d F. unfold eqm in *. by rewrite Zplus_mod, E, F, <- Zplus_mod. Qed.

#[local] Instance eqm_sub : Proper (eqm ==> eqm ==> eqm) Z.sub.
Proof. intros a b E c d F. unfold eqm in *. by rewrite Zminus_mod, E, F, <- Zminus_mod. Qed.

#[local] Instance eqm_mul : Proper (eqm ==> eqm ==> eqm) Z.mul.
Proof. intros a b E c d F. unfold eqm in *. by rewrite Zmult_mod, E, F, <- Zmult_mod. Qed.

Lemma eqm_mod a : eqm (a mod M48) a.
Proof. unfold eqm. apply Z.mod_mod. done. Qed.

Lemma eqm_small a b : 0 <= a < M48 -> 0 <= b < M48 -> eqm a b -> a = b.
Proof. unfold eqm. intros. by rewrite !Z.mod_small in * by lia. Qed.

Lemma lxor_mod x b : 0 <= b < M48 -> Z.lxor x b mod M48 = Z.lxor (x mod M48) b.
Proof.
  intros Hb. rewrite <- (Z.mod_small b M48) at 2 by done. unfold M48.
  apply Z.bits_inj'. intros n Hn. rewrite Z.lxor_spec.
  destruct (Z.lt_ge_cases n 48).
  - by rewrite !Z.mod_pow2_bits_low, Z.lxor_spec by lia.
  - by rewrite !Z.mod_pow2_bits_high by lia.
Qed.

Lemma wrap64_mod48 z : wrap64 z mod M48 = z mod M48.
Proof.
  unfold wrap, M48. replace (2 ^ 64) with (2 ^ 48 * 2 ^ 16) by lia.
  symmetry. apply Znumtheory.Zmod_div_mod; [lia | lia |]. exists (2 ^ 16). lia.
Qed.

Lemma fnv_byte_48 h b : is_byte b -> fnv_byte h b mod M48 = fnv48 (h mod M48) b.
Proof.
  unfold is_byte. intros Hb. unfold fnv_byte, fnv48. rewrite wrap64_mod48, <- lxor_mod by (unfold M48; lia).
  by rewrite Zmult_mod_idemp_l.
Qed.

Lemma fnv_fold_48 l h : Forall is_byte l ->
  fold_left fnv_byte l h mod M48 = fold_left fnv48 l (h mod M48).
Proof.
  intros Hl. revert h. induction Hl as [|b l Hb _ IH]; intros h; cbn; [done|].
  by rewrite IH, fnv_byte_48.
Qed.

Lemma fnv48_zeros n x : 0 <= x < M48 ->
  fold_left fnv48 (replicate n 0) x = (x * FNV_PRIME ^ Z.of_nat n) mod M48.
Proof.
  revert x. induction n as [|n IH]; intros x Hx.
  - cbn [replicate fold_left]. change (Z.of_nat 0) with 0.
    by rewrite Z.pow_0_r, Z.mul_1_r, Z.mod_small.
  - cbn [replicate fold_left]. unfold fnv48 at 2. rewrite Z.lxor_0_r, IH by (by apply Z.mod_pos_bound).
    rewrite Zmult_mod_idemp_l, Nat2Z.inj_succ, Z.pow_succ_r by lia. f_equal. lia.
Qed.

Definition P7 : Z := FNV_PRIME ^ 7 mod M48.
Definition P8 : Z := FNV_PRIME ^ 8 mod M48.
(** Their inverses modulo 2^48. *)
Definition Q7 : Z := 41949179795795.
Definition Q8 : Z := 93352714222049.

Definition absorb (x b : Z) : Z := (Z.lxor x b * P8) mod M48.
Definition absorb2 (b0 b1 : Z) : Z :=
  (Z.lxor ((Z.lxor (FNV_OFFSET mod M48) b0 * FNV_PRIME) mod M48) b1 * P7) mod M48.

Lemma mul_pow_mod a n : (a * FNV_PRIME ^ n) mod M48 = (a * (FNV_PRIME ^ n mod M48)) mod M48.
Proof. by rewrite Zmult_mod_idemp_r. Qed.

#[local] Strategy opaque [Z.pow Z.modulo Z.mul Z.lxor Z.div le_bytes].

Lemma prime_pow8 : FNV_PRIME ^ 8 = FNV_PRIME * FNV_PRIME ^ Z.of_nat 7.
Proof. by vm_compute. Qed.
Lemma prime_pow7 : FNV_PRIME ^ 7 = FNV_PRIME * FNV_PRIME ^ Z.of_nat 6.
Proof. by vm_compute. Qed.

Lemma fold_small_part p x : is_byte p -> 0 <= x < M48 ->
  fold_left fnv48 (le_bytes 8 p) x = absorb x p.
Proof.
  unfold is_byte. intros Hp Hx.
  assert (E : le_bytes 8 p = p :: replicate 7 0).
  { cbn [le_bytes replicate]. rewrite !(Z.div_small p), Z.mod_small by lia. done. }
  rewrite E. cbn [fold_left]. rewrite fnv48_zeros by (by apply Z.mod_pos_bound).
  unfold absorb, fnv48, P8. rewrite Zmult_mod_idemp_l, <- mul_pow_mod.
  by rewrite prime_pow8, Z.mul_assoc.
Qed.

Lemma fold_handle h : 0 <= h < 65536 ->
  fold_left fnv48 (le_bytes 8 h) (FNV_OFFSET mod M48) = absorb2 (h mod 256) (h / 256).
Proof.
  intros Hh. assert (E : le_bytes 8 h = h mod 256 :: h / 256 :: replicate 6 0).
  { cbn [le_bytes replicate]. rewrite (Z.mod_small (h / 256) 256), (Z.div_small (h / 256) 256);
      [done | |]; (split; [apply Z.div_pos; lia | apply Z.div_lt_upper_bound; lia]). }
  rewrite E. cbn [fold_left]. rewrite fnv48_zeros by (by apply Z.mod_pos_bound).
  unfold absorb2, P7. rewrite <- mul_pow_mod. unfold fnv48 at 1. rewrite Zmult_mod_idemp_l.
  by rewrite prime_pow7, Z.mul_assoc.
Qed.

Lemma absorb_range x b : 0 <= absorb x b < M48.
Proof. by apply Z.mod_pos_bound. Qed.
Lemma absorb2_range b0 b1 : 0 <= absorb2 b0 b1 < M48.
Proof. by apply Z.mod_pos_bound. Qed.

Lemma role_index_byte r : 0 <= role_index r < 8.
Proof. destruct r; cbv; intuition congruence. Qed.
Lemma vantage_index_byte v : 0 <= vantage_index v < 4.
Proof. destruct v; cbv; intuition congruence. Qed.
Lemma tier_index_byte t : 0 <= tier_index t < 8.
Proof. destruct t; cbv; intuition congruence. Qed.

Lemma hex12_mod h r v t :
  hex12 h r v t = fnv1a64 [h; role_index r; vantage_index v; tier_index t] mod M48.
Proof. unfold hex12. apply (Z.land_ones _ 48). lia. Qed.

Lemma fnv_part_48 h p : fnv_part h p mod M48 = fold_left fnv48 (le_bytes 8 p) (h mod M48).
Proof. apply fnv_fold_48, le_bytes_bytes. Qed.

Lemma fold_left_4 {A B} (f : A -> B -> A) a b c d x :
  fold_left f [a; b; c; d] x = f (f (f (f x a) b) c) d.
Proof. done. Qed.

Lemma fnv_parts a b c d :
  fnv1a64 [a; b; c; d] mod M48 =
  fold_left fnv48 (le_bytes 8 d) (fold_left fnv48 (le_bytes 8 c) (fold_left fnv48 (le_bytes 8 b)
    (fold_left fnv48 (le_bytes 8 a) (FNV_OFFSET mod M48)))).
Proof.
  unfold fnv1a64. by rewrite fold_left_4, !fnv_part_48.
Qed.

Lemma hex12_eq h r v t : 0 <= h < 65536 ->
  hex12 h r v t =
  absorb (absorb (absorb (absorb2 (h mod 256) (h / 256)) (role_index r)) (vantage_index v)) (tier_index t).
Proof.
  intros Hh. rewrite hex12_mod, fnv_parts.
  pose proof (role_index_byte r). pose proof (vantage_index_byte v). pose proof (tier_index_byte t).
  rewrite fold_handle by done.
  rewrite (fold_small_part (role_index r)) by (apply absorb2_range || unfold is_byte; lia).
  rewrite (fold_small_part (vantage_index v)) by (apply absorb_range || unfold is_byte; lia).
  by rewrite (fold_small_part (tier_index t)) by (apply absorb_range || unfold is_byte; lia).
Qed.

(** Equal states after a step: the states before differ by little more than
    the inverse image of the difference. *)
Lemma absorb_diff x y b c D :
  0 <= b < 2 ^ c -> 0 <= c -> eqm (absorb x b - absorb y b) D ->
  exists a, - (2 * 2 ^ c - 2) <= a <= 2 * 2 ^ c - 2 /\ eqm (x - y) (D * Q8 + a).
Proof.
  intros Hb Hc E. exists ((x - Z.lxor x b) - (y - Z.lxor y b)).
  pose proof (lxor_near x b c Hc Hb). pose proof (lxor_near y b c Hc Hb). split; [lia|].
  rewrite <- E. unfold absorb. rewrite !eqm_mod.
  transitivity ((Z.lxor x b - Z.lxor y b) * (P8 * Q8 mod M48) +
                (x - Z.lxor x b - (y - Z.lxor y b))).
  - change (P8 * Q8 mod M48) with 1. unfold eqm. f_equal. lia.
  - rewrite eqm_mod. unfold eqm. f_equal. lia.
Qed.

Lemma mul_inv a p q : (p * q) mod M48 = 1 -> eqm (a * p * q) a.
Proof.
  intros E. rewrite <- Z.mul_assoc. transitivity (a * (p * q mod M48)); [by rewrite eqm_mod|].
  rewrite E. unfold eqm. f_equal. lia.
Qed.

Lemma step_inj u w p q : (p * q) mod M48 = 1 ->
  0 <= u < M48 -> 0 <= w < M48 -> (u * p) mod M48 = (w * p) mod M48 -> u = w.
Proof.
  intros Hpq Hu Hw E. apply eqm_small; [done..|].
  rewrite <- (mul_inv u p q Hpq), <- (mul_inv w p q Hpq).
  assert (E' : eqm (u * p) (w * p)) by exact E. by rewrite E'.
Qed.

Lemma inv7 : (P7 * Q7) mod M48 = 1. Proof. by vm_compute. Qed.
Lemma inv8 : (P8 * Q8) mod M48 = 1. Proof. by vm_compute. Qed.

Lemma absorb_inj x y b c : 0 <= b < 8 -> 0 <= c < 8 -> 0 <= x < M48 -> 0 <= y < M48 ->
  absorb x b = absorb y c -> Z.lxor x b = Z.lxor y c.
Proof.
  intros Hb Hc Hx Hy. apply (step_inj _ _ _ _ inv8);
    apply (lxor_bound _ _ 48); done || (unfold M48 in *; lia).
Qed.

(** The difference of two handle states, pulled back to the first byte. *)
Lemma absorb2_diff b0 b1 c0 c1 D :
  0 <= b0 < 256 -> 0 <= b1 < 256 -> 0 <= c0 < 256 -> 0 <= c1 < 256 ->
  eqm (absorb2 b0 b1 - absorb2 c0 c1) D ->
  exists s, - 2 ^ 17 <= s <= 2 ^ 17 /\ (D * Q7) mod 2 ^ 40 = s mod 2 ^ 40.
Proof.
  intros Hb0 Hb1 Hc0 Hc1 E. unfold absorb2 in E.
  pose proof (lxor_div (FNV_OFFSET mod M48) b0 8 ltac:(lia) ltac:(lia)) as Eu.
  pose proof (lxor_div (FNV_OFFSET mod M48) c0 8 ltac:(lia) ltac:(lia)) as Ev.
  set (u := Z.lxor (FNV_OFFSET mod M48) b0) in *. set (v := Z.lxor (FNV_OFFSET mod M48) c0) in *.
  set (x := (u * FNV_PRIME) mod M48) in *. set (y := (v * FNV_PRIME) mod M48) in *.
  assert (Hu : -256 < u - v < 256).
  { clearbody u v. change (2 ^ 8) with 256 in *.
    pose proof (Z.div_mod u 256). pose proof (Z.div_mod v 256).
    pose proof (Z.mod_pos_bound u 256). pose proof (Z.mod_pos_bound v 256). lia. }
  pose proof (lxor_near x b1 8). pose proof (lxor_near y c1 8).
  exists ((u - v) * 435 + ((Z.lxor x b1 - x) - (Z.lxor y c1 - y))). split; [lia|].
  assert (K : eqm (D * Q7) ((u - v) * FNV_PRIME + ((Z.lxor x b1 - x) - (Z.lxor y c1 - y)))).
  { rewrite <- E, !eqm_mod.
    transitivity ((Z.lxor x b1 - Z.lxor y c1) * (P7 * Q7 mod M48)).
    - rewrite eqm_mod. unfold eqm. f_equal. lia.
    - change (P7 * Q7 mod M48) with 1.
      transitivity ((x - y) + ((Z.lxor x b1 - x) - (Z.lxor y c1 - y))); [unfold eqm; f_equal; lia|].
      unfold x at 1, y at 1. rewrite !eqm_mod. unfold eqm. f_equal. lia. }
  unfold eqm, M48 in K. apply (f_equal (fun z => z mod 2 ^ 40)) in K.
  rewrite <- !(Znumtheory.Zmod_div_mod (2 ^ 40) (2 ^ 48)) in K by (lia || by exists (2 ^ 8)).
  rewrite K. unfold FNV_PRIME.
  replace ((u - v) * 1099511628211 + (Z.lxor x b1 - x - (Z.lxor y c1 - y)))
    with ((u - v) * 435 + (Z.lxor x b1 - x - (Z.lxor y c1 - y)) + (u - v) * 2 ^ 40) by lia.
  by rewrite Z.mod_add.
Qed.

Lemma absorb2_inj b0 b1 c0 c1 :
  0 <= b0 < 256 -> 0 <= b1 < 256 -> 0 <= c0 < 256 -> 0 <= c1 < 256 ->
  absorb2 b0 b1 = absorb2 c0 c1 -> b0 = c0 /\ b1 = c1.
Proof.
  intros Hb0 Hb1 Hc0 Hc1 E. unfold absorb2 in E.
  pose proof (lxor_div (FNV_OFFSET mod M48) b0 8 ltac:(lia) ltac:(lia)) as Eu.
  pose proof (lxor_div (FNV_OFFSET mod M48) c0 8 ltac:(lia) ltac:(lia)) as Ev.
  set (o := FNV_OFFSET mod M48) in *.
  set (u := Z.lxor o b0) in *. set (v := Z.lxor o c0) in *.
  set (x := (u * FNV_PRIME) mod M48) in *. set (y := (v * FNV_PRIME) mod M48) in *.
  assert (Hx : 0 <= x < M48) by by apply Z.mod_pos_bound.
  assert (Hy : 0 <= y < M48) by by apply Z.mod_pos_bound.
  apply (step_inj _ _ _ _ inv7) in E;
    [|apply (lxor_bound _ _ 48); done || (unfold M48 in *; lia)..].
  pose proof (lxor_div x b1 8 ltac:(lia) ltac:(lia)) as Ex.
  pose proof (lxor_div y c1 8 ltac:(lia) ltac:(lia)) as Ey. rewrite E, Ey in Ex.
  assert (K : eqm (x - y) ((u - v) * FNV_PRIME)).
  { unfold x, y. rewrite !eqm_mod. unfold eqm. f_equal. lia. }
  assert (H : u = v /\ x = y).
  { unfold eqm in K. unfold FNV_PRIME in K. clearbody x y u v. change (2 ^ 8) with 256 in *.
    apply (f_equal (fun z => (z - (x - y) mod M48) mod M48)) in K.
    rewrite Z.sub_diag, Zminus_mod_idemp_l, Zminus_mod_idemp_r in K.
    pose proof (Z.div_mod x 256). pose proof (Z.div_mod y 256). pose proof (Z.mod_pos_bound x 256).
    pose proof (Z.mod_pos_bound y 256). pose proof (Z.div_mod u 256). pose proof (Z.div_mod v 256).
    pose proof (Z.mod_pos_bound u 256). pose proof (Z.mod_pos_bound v 256).
    pose proof (Z.div_mod ((u - v) * 1099511628211 - (x - y)) M48) as Hdm.
    change (0 mod M48) with 0 in K. rewrite <- K in Hdm. unfold M48 in *.
    set (q := ((u - v) * 1099511628211 - (x - y)) / 2 ^ 48) in *. lia. }
  destruct H as [Huv Hxy]. split.
  - apply (lxor_cancel _ _ o). by rewrite !(Z.lxor_comm _ o).
  - rewrite Hxy in E. apply (lxor_cancel _ _ y). by rewrite !(Z.lxor_comm _ y).
Qed.

(** The computation: no difference of tiers, carried back through vantage
    and role, meets that bound. *)
Definition ints (n : nat) : list Z := map (fun k => Z.of_nat k - Z.of_nat n) (seq 0 (2 * n + 1)).

Definition excluded : bool :=
  forallb (fun d => (d =? 0) ||
    forallb (fun a =>
      forallb (fun b => 2 ^ 18 <? (((d * Q8 + a) * Q8 + b) * Q7 + 2 ^ 17) mod 2 ^ 40)
        (ints 14)) (ints 6)) (ints 7).

Lemma ints_spec n z : - Z.of_nat n <= z <= Z.of_nat n -> In z (ints n).
Proof.
  intros Hz. apply in_map_iff. exists (Z.to_nat (z + Z.of_nat n)). split; [lia|].
  apply in_seq. lia.
Qed.

Lemma excluded_true : excluded = true.
Proof. by vm_compute. Qed.

Lemma excluded_spec d a b s :
  -7 <= d <= 7 -> -6 <= a <= 6 -> -14 <= b <= 14 -> - 2 ^ 17 <= s <= 2 ^ 17 ->
  (((d * Q8 + a) * Q8 + b) * Q7) mod 2 ^ 40 = s mod 2 ^ 40 -> d = 0.
Proof.
  intros Hd Ha Hb Hs E. pose proof excluded_true as X. unfold excluded in X.
  rewrite forallb_forall in X. specialize (X d (ints_spec 7 d ltac:(lia))).
  apply orb_true_iff in X as [X|X]; [by apply Z.eqb_eq|].
  rewrite forallb_forall in X. specialize (X a (ints_spec 6 a ltac:(lia))).
  rewrite forallb_forall in X. specialize (X b (ints_spec 14 b ltac:(lia))).
  apply Z.ltb_lt in X. rewrite <- Zplus_mod_idemp_l, E, Zplus_mod_idemp_l in X.
  rewrite Z.mod_small in X by lia. lia.
Qed.

(** Equal hashes for one role and vantage: equal handles and equal tiers. *)
Lemma hex12_inj h h' r v t t' : 0 <= h < 65536 -> 0 <= h' < 65536 ->
  hex12 h r v t = hex12 h' r v t' -> h = h' /\ t = t'.
Proof.
  intros Hh Hh'. rewrite !hex12_eq by done.
  pose proof (role_index_byte r). pose proof (vantage_index_byte v).
  pose proof (tier_index_byte t). pose proof (tier_index_byte t').
  set (z := absorb2 (h mod 256) (h / 256)). set (z' := absorb2 (h' mod 256) (h' / 256)).
  set (y := absorb z (role_index r)). set (y' := absorb z' (role_index r)).
  set (x := absorb y (vantage_index v)). set (x' := absorb y' (vantage_index v)).
  intros E.
  apply absorb_inj in E; [|done|done|apply absorb_range|apply absorb_range].
  assert (Hd : -7 <= x - x' <= 7).
  { pose proof (lxor_div x (tier_index t) 3 ltac:(lia) ltac:(lia)) as E1.
    pose proof (lxor_div x' (tier_index t') 3 ltac:(lia) ltac:(lia)) as E2.
    rewrite E in E1. rewrite E1 in E2. change (2 ^ 3) with 8 in E2.
    pose proof (Z.div_mod x 8). pose proof (Z.div_mod x' 8).
    pose proof (Z.mod_pos_bound x 8). pose proof (Z.mod_pos_bound x' 8). lia. }
  destruct (absorb_diff y y' (vantage_index v) 2 (x - x')) as (a & Ha & Ea); [lia | lia | done |].
  destruct (absorb_diff z z' (role_index r) 3 ((x - x') * Q8 + a)) as (b & Hb & Eb); [lia | lia | done |].
  assert (Hr : forall k, 0 <= k < 65536 -> 0 <= k mod 256 < 256 /\ 0 <= k / 256 < 256).
  { intros k Hk. pose proof (Z.mod_pos_bound k 256). pose proof (Z.div_mod k 256). lia. }
  destruct (Hr h Hh) as [B0 B1], (Hr h' Hh') as [C0 C1].
  destruct (absorb2_diff _ _ _ _ _ B0 B1 C0 C1 Eb) as (s & Hs & Es).
  assert (D0 : x - x' = 0) by (eapply excluded_spec; [exact Hd | | | exact Hs | exact Es]; lia).
  assert (x = x') as Ex by lia. rewrite Ex in E.
  assert (Et : tier_index t = tier_index t').
  { apply (lxor_cancel _ _ x'). by rewrite !(Z.lxor_comm _ x'). }
  split; [|by destruct t, t'].
  apply absorb_inj, lxor_cancel in Ex; [|lia|lia|apply absorb_range|apply absorb_range].
  apply absorb_inj, lxor_cancel in Ex; [|lia|lia|apply absorb2_range|apply absorb2_range].
  apply absorb2_inj in Ex as [E0 E1]; [|done..].
  rewrite (Z.div_mod h 256), (Z.div_mod h' 256), E0, E1 by lia. done.
Qed.

(** The hash part of a PID has 12 digits that determine it. *)
Lemma upper_hex12_length z : length (upper_hex12 z) = 12%nat.
Proof. unfold upper_hex12. by rewrite length_map, hex_of_length, be_bytes_length. Qed.

Definition lower_hex (c : Z) : Prop := 48 <= c <= 57 \/ 97 <= c <= 102.

Lemma hex_of_lower l : Forall is_byte l -> Forall lower_hex (hex_of l).
Proof.
  induction 1 as [|b l Hb _ IH]; [constructor|]. unfold hex_of in *. cbn [flat_map].
  apply Forall_app. split; [|done]. destruct (hex_pair_spec b Hb) as (-> & ? & ?).
  unfold lower_hex, hex_digit. constructor; [|constructor; [|constructor]]; split_if; lia.
Qed.

Lemma map_upper_inj l k :
  Forall lower_hex l -> Forall lower_hex k -> map to_ascii_upper l = map to_ascii_upper k -> l = k.
Proof.
  intros Hl. revert k. induction Hl as [|a l Ha _ IH]; intros k Hk E; destruct Hk as [|b k Hb Hk];
    [done | done | done |].
  injection E as E1 E2. f_equal; [|by apply IH]. clear IH E2 Hk.
  unfold lower_hex, to_ascii_upper, is_ascii_lowercase in *. repeat split_if_in E1; to_prop; lia.
Qed.

Lemma upper_hex12_inj a b : 0 <= a < M48 -> 0 <= b < M48 -> upper_hex12 a = upper_hex12 b -> a = b.
Proof.
  intros Ha Hb E. apply map_upper_inj, hex_of_inj, be_bytes_inj in E; unfold is_u, M48 in *;
    auto using hex_of_lower, be_bytes_bytes; lia.
Qed.

Lemma hex12_range h r v t : 0 <= hex12 h r v t < M48.
Proof. rewrite hex12_mod. by apply Z.mod_pos_bound. Qed.

Lemma pid_prefix_inj r v r' v' (x y : bytes) : length x = 12%nat -> length y = 12%nat ->
  lit "AGT-" ++ vantage_tag v ++ lit "-" ++ role_tag r ++ lit "-H" ++ x =
  lit "AGT-" ++ vantage_tag v' ++ lit "-" ++ role_tag r' ++ lit "-H" ++ y ->
  v = v' /\ r = r' /\ x = y.
Proof.
  intros Hx Hy E. rewrite !app_assoc in E. apply app_eq_len_r in E as [E ->]; [|lia].
  rewrite <- !app_assoc in E. split_and!; [..|done].
  - destruct v, v'; done || discriminate E.
  - destruct v, v'; try discriminate E; destruct r, r'; done || discriminate E.
Qed.

(** Among the first 65535 handles the minter is injective: equal PIDs have
    equal handle, role, vantage and tier, although only 48 bits of the hash
    are kept. *)
Lemma mint_agent_pid_inj h r v t h' r' v' t' :
  0 <= h < 65536 -> 0 <= h' < 65536 ->
  mint_agent_pid h r v t = mint_agent_pid h' r' v' t' -> h = h' /\ r = r' /\ v = v' /\ t = t'.
Proof.
  unfold mint_agent_pid. intros Hh Hh' E.
  apply pid_prefix_inj in E as (<- & <- & E); [|apply upper_hex12_length..].
  apply upper_hex12_inj in E; [|apply hex12_range..].
  by destruct (hex12_inj h h' r v t t' Hh Hh' E).
Qed.
