(* ===== verification/AgentRegistry.v ===== *)
(** * The agent registry: invariants

    What the operations of [AgentRuntime] keep over any run, which entry
    [retire] and [heartbeat] reach, and the child-handle counter under
    concurrent [sys_fork] calls. *)

From S2P Require Import Prelude SyscallTypes Access Interleave AgentRuntime.
Import AgentRuntime.

#[local] Open Scope Z_scope.

(** ** The registry *)

Definition of_class (c : AgentClass) (l : list AgentEntry) : Z :=
  zlen (filter (fun e => class e = c) l).

Definition is_op (f : op -> bool) (ops : list op) : Z := zlen (filter (fun o => f o = true) ops).

Definition is_routed (o : op) : bool := match o with NoteRouted => true | _ => false end.
Definition is_call (o : op) : bool := match o with NoteCall => true | _ => false end.
Definition is_process (o : op) : bool := match o with NoteProcess => true | _ => false end.

(** The PID of the entry at index [i] is the one minted for handle [i + 1]. *)
Definition pids_ok (l : list AgentEntry) : Prop :=
  forall i e, l !! i = Some e ->
    agent_pid e = mint_agent_pid (wrap64 (Z.of_nat i + 1)) (role e) (vantage e) (tier e).

Record registry_inv (ops : list op) (reg : AgentRegistry) : Prop := {
  ri_count : count reg <= AGENT_REGISTRY_MAX;
  ri_pids : pids_ok (entries reg);
  ri_len : zlen (entries reg) <= zlen ops;
  ri_counters : counters reg =
    mkCounters (of_class VirtualPointer (entries reg)) (is_op is_routed ops)
      (of_class RealReceiptGated (entries reg)) (is_op is_call ops) (is_op is_process ops)
      (of_class Ambiguous (entries reg))
}.

Lemma zlen_filter {A} (P : A -> Prop) `{!forall x, Decision (P x)} l : zlen (filter P l) <= zlen l.
Proof. unfold zlen. pose proof (length_filter P l). lia. Qed.

Lemma zlen_filter_snoc {A} (P : A -> Prop) `{!forall x, Decision (P x)} l x :
  zlen (filter P (l ++ [x])) = zlen (filter P l) + (if bool_decide (P x) then 1 else 0).
Proof.
  rewrite filter_app, zlen_app. f_equal. rewrite filter_cons, filter_nil.
  case_decide; case_bool_decide; done.
Qed.

Lemma bump_small z : 0 <= z < 2 ^ 64 - 1 -> bump z = z + 1.
Proof. intros. apply wrap_id. unfold is_u. lia. Qed.

(** Updating an entry in place: the class and the PID stay. *)
Definition same_identity (e e' : AgentEntry) : Prop :=
  agent_pid e = agent_pid e' /\ role e = role e' /\ vantage e = vantage e' /\
  tier e = tier e' /\ class e = class e' /\ (live e' = true -> live e = true).

Lemma same_identity_refl e : same_identity e e.
Proof. done. Qed.

Lemma retire_in_same l pid : Forall2 same_identity l (retire_in l pid).2.
Proof.
  induction l as [|e l IH]; cbn; [constructor|]. destruct (bytes_eqb _ _); cbn.
  - constructor; [done|]. by apply Forall_Forall2_diag, Forall_true.
  - destruct (retire_in l pid). by constructor.
Qed.

Lemma heartbeat_in_same l pid now : Forall2 same_identity l (heartbeat_in l pid now).2.
Proof.
  induction l as [|e l IH]; cbn; [constructor|]. destruct (bytes_eqb _ _); cbn.
  - destruct (bool_decide _); cbn; constructor; done || by apply Forall_Forall2_diag, Forall_true.
  - destruct (heartbeat_in l pid now). by constructor.
Qed.

Lemma same_of_class c l l' : Forall2 same_identity l l' -> of_class c l' = of_class c l.
Proof.
  unfold of_class. induction 1 as [|e e' l l' (_ & _ & _ & _ & Hc & _) _ IH]; [done|].
  rewrite !filter_cons, Hc. case_decide; rewrite ?zlen_cons, IH; done.
Qed.

Lemma same_count l l' : Forall2 same_identity l l' ->
  zlen (filter (fun e => live e = true) l') <= zlen (filter (fun e => live e = true) l).
Proof.
  induction 1 as [|e e' l l' (_ & _ & _ & _ & _ & Hv) _ IH]; [done|].
  rewrite !filter_cons. repeat case_decide; rewrite ?zlen_cons; try lia. tauto.
Qed.

Lemma same_pids l l' : Forall2 same_identity l l' -> pids_ok l -> pids_ok l'.
Proof.
  intros Hf Hp i e' He'. destruct (Forall2_lookup_r _ _ _ _ _ Hf He') as (e & He & Hs).
  destruct Hs as (<- & <- & <- & <- & _). by apply Hp.
Qed.

(** A registry after a run of operations. *)
Definition run (ops : list op) : AgentRegistry := fold_left apply ops new.

Lemma registry_inv_new : registry_inv [] new.
Proof. by split. Qed.

(** Updates in place keep the invariant. *)
Lemma registry_inv_same ops reg l o :
  registry_inv ops reg -> Forall2 same_identity (entries reg) l ->
  is_routed o = false -> is_call o = false -> is_process o = false ->
  registry_inv (ops ++ [o]) (mkRegistry l (counters reg)).
Proof.
  intros [H1 H2 H3 H4] Hf E1 E2 E3. split; cbn [entries counters].
  - pose proof (same_count _ _ Hf). unfold count in *. cbn [entries]. lia.
  - by eapply same_pids.
  - apply Forall2_length in Hf. rewrite zlen_snoc. unfold zlen in *. lia.
  - rewrite H4. unfold is_op. rewrite !zlen_filter_snoc, E1, E2, E3, !(same_of_class _ _ _ Hf). cbn.
    by rewrite !Z.add_0_r.
Qed.

Lemma register_inv ops reg r v t c o :
  registry_inv ops reg -> zlen ops < 2 ^ 64 - 1 ->
  is_routed o = false -> is_call o = false -> is_process o = false ->
  registry_inv (ops ++ [o]) (register reg r v t c).2.
Proof.
  intros [H1 H2 H3 H4] Hl E1 E2 E3. unfold register.
  assert (Hop : forall f, f o = false -> is_op f (ops ++ [o]) = is_op f ops).
  { intros f E. unfold is_op. rewrite zlen_filter_snoc, E. cbn. by rewrite Z.add_0_r. }
  destruct (Z.leb_spec AGENT_REGISTRY_MAX (count reg)) as [Hc|Hc].
  - split; cbn; [done | done | rewrite zlen_snoc; lia |]. by rewrite !Hop.
  - rewrite mint_nonempty, H4. set (e := mkEntry _ _ _ _ _ _ _ _).
    assert (Hb : forall k, bump (of_class k (entries reg)) = of_class k (entries reg) + 1).
    { intros k. apply bump_small. unfold of_class.
      pose proof (zlen_filter (fun e => class e = k) (entries reg)).
      pose proof (zlen_nonneg (filter (fun e => class e = k) (entries reg))). lia. }
    assert (Hk : forall k, of_class k (entries reg ++ [e]) =
       of_class k (entries reg) + (if bool_decide (c = k) then 1 else 0)).
    { intros k. unfold of_class. by rewrite zlen_filter_snoc. }
    split; cbn [snd entries].
    + unfold count. cbn [entries]. rewrite zlen_filter_snoc. unfold count in Hc.
      change (bool_decide (live e = true)) with true. cbn iota. lia.
    + intros i e' Hi. apply lookup_app_Some in Hi as [Hi|[Hge Hi]]; [by apply H2|].
      apply list_lookup_singleton_Some in Hi as [Hi <-]. cbn [agent_pid role vantage tier e].
      replace (Z.of_nat i) with (zlen (entries reg)) by (unfold zlen; lia). done.
    + rewrite !zlen_snoc. lia.
    + cbn [counters]. rewrite !Hop, !Hk by done.
      destruct c; cbn; rewrite Hb, ?Z.add_0_r; done.
Qed.

Lemma apply_inv ops reg o :
  registry_inv ops reg -> zlen ops < 2 ^ 64 - 1 -> registry_inv (ops ++ [o]) (apply reg o).
Proof.
  intros I Hl.
  assert (Hb : forall f, bump (is_op f ops) = is_op f ops + 1).
  { intros f. apply bump_small. unfold is_op.
    pose proof (zlen_filter (fun x => f x = true) ops). pose proof (zlen_nonneg (filter (fun x => f x = true) ops)). lia. }
  destruct o as [r v t|r v t b|pid|pid now| | |]; cbn [apply].
  - by apply register_inv.
  - by apply register_inv.
  - unfold retire. pose proof (retire_in_same (entries reg) pid) as Hs.
    destruct (retire_in _ pid). by apply registry_inv_same.
  - unfold heartbeat. pose proof (heartbeat_in_same (entries reg) pid now) as Hs.
    destruct (heartbeat_in _ pid now). by apply registry_inv_same.
  - destruct I as [H1 H2 H3 H4]. unfold note_omnidispatch_routed. rewrite H4.
    split; cbn; [done | done | rewrite zlen_snoc; lia |].
    unfold is_op in *. rewrite Hb, !zlen_filter_snoc. cbn. by rewrite !Z.add_0_r.
  - destruct I as [H1 H2 H3 H4]. unfold note_opencode_free_agent_call. rewrite H4.
    split; cbn; [done | done | rewrite zlen_snoc; lia |].
    unfold is_op in *. rewrite Hb, !zlen_filter_snoc. cbn. by rewrite !Z.add_0_r.
  - destruct I as [H1 H2 H3 H4]. unfold note_os_process_spawn. rewrite H4.
    split; cbn; [done | done | rewrite zlen_snoc; lia |].
    unfold is_op in *. rewrite Hb, !zlen_filter_snoc. cbn. by rewrite !Z.add_0_r.
Qed.

Lemma run_inv ops : zlen ops < 2 ^ 64 -> registry_inv ops (run ops).
Proof.
  induction ops as [|o ops IH] using rev_ind; intros Hl; [apply registry_inv_new|].
  rewrite zlen_snoc in Hl. unfold run. rewrite fold_left_app. cbn. apply apply_inv; [apply IH; lia | lia].
Qed.

Lemma pids_distinct l i j e f : pids_ok l -> zlen l < 65536 ->
  l !! i = Some e -> l !! j = Some f -> agent_pid e = agent_pid f -> i = j.
Proof.
  intros Hp Hl Hi Hj E. rewrite (Hp _ _ Hi), (Hp _ _ Hj) in E.
  pose proof (lookup_lt_Some _ _ _ Hi). pose proof (lookup_lt_Some _ _ _ Hj). unfold zlen in Hl.
  rewrite !wrap_id in E by (unfold is_u; lia).
  apply mint_agent_pid_inj in E as (E & _); lia.
Qed.

(** ** Theorems *)

(** Over any run of fewer than 2^64 operations on a new registry: at most
    10000 agents are live; every layer's counter is exactly the number of
    its own events, so no layer is counted in another's (a registration
    never counts as a process spawn); no entry is ever removed beyond its
    state changing. *)
Theorem registry_counters_separate ops :
  zlen ops < 2 ^ 64 ->
  let reg := run ops in
  count reg <= AGENT_REGISTRY_MAX /\
  counters reg =
    mkCounters (of_class VirtualPointer (entries reg)) (is_op is_routed ops)
      (of_class RealReceiptGated (entries reg)) (is_op is_call ops) (is_op is_process ops)
      (of_class Ambiguous (entries reg)).
Proof. intros Hl reg. destruct (run_inv ops Hl) as [H1 _ _ H4]. done. Qed.

Lemma registry_counters_separate_witness :
  counters (run [Spawn Hermes Acer Public; SpawnReal Pi Liris Secret false; NoteCall])
  = mkCounters 1 0 0 1 0 1.
Proof.
  assert (Hl : zlen [Spawn Hermes Acer Public; SpawnReal Pi Liris Secret false; NoteCall] < 2 ^ 64)
    by by vm_compute.
  rewrite (proj2 (registry_counters_separate _ Hl)). vm_compute. reflexivity.
Defined.

Lemma retire_in_spec l i e :
  (forall j f, l !! j = Some f -> agent_pid f = agent_pid e -> j = i) -> l !! i = Some e ->
  retire_in l (agent_pid e) = (Ok tt, <[i := set_state Retired e]> l).
Proof.
  revert i. induction l as [|a l IH]; intros i Hu Hi; [done|]. cbn.
  destruct (bytes_eqb (agent_pid a) (agent_pid e)) eqn:E.
  - apply bytes_eqb_true in E. pose proof (Hu 0%nat a eq_refl E) as <-. by simplify_eq/=.
  - destruct i as [|i]; [cbn in Hi; simplify_eq; by rewrite bytes_eqb_refl in E|].
    rewrite (IH i); [done | | done]. intros j f Hj Ef. specialize (Hu (S j) f Hj Ef). lia.
Qed.

Lemma heartbeat_in_spec l i e now :
  (forall j f, l !! j = Some f -> agent_pid f = agent_pid e -> j = i) -> l !! i = Some e ->
  heartbeat_in l (agent_pid e) now =
  if bool_decide (state e = Retired) then (Err InvalidStateTransition, l)
  else (Ok tt, <[i := set_heartbeat now e]> l).
Proof.
  revert i. induction l as [|a l IH]; intros i Hu Hi; [done|]. cbn.
  destruct (bytes_eqb (agent_pid a) (agent_pid e)) eqn:E.
  - apply bytes_eqb_true in E. pose proof (Hu 0%nat a eq_refl E) as <-. simplify_eq/=.
    by destruct (bool_decide _).
  - destruct i as [|i]; [cbn in Hi; simplify_eq; by rewrite bytes_eqb_refl in E|].
    rewrite (IH i); [| |done].
    + by destruct (bool_decide _).
    + intros j f Hj Ef. specialize (Hu (S j) f Hj Ef). lia.
Qed.

Lemma retire_in_unknown l pid : (forall e, e ∈ l -> agent_pid e <> pid) ->
  retire_in l pid = (Err NotFound, l).
Proof.
  induction l as [|a l IH]; intros Hn; [done|]. cbn.
  rewrite (proj2 (bytes_eqb_false _ _)) by (apply Hn; by left).
  rewrite IH; [done|]. intros e He. apply Hn. by right.
Qed.

(** In a registry reached by fewer than 65536 operations the PID returned by
    a registration names one agent: retiring it, or stamping its heartbeat,
    changes that entry and nothing else; a retired agent cannot heartbeat
    but can be retired again; an unknown PID is [NotFound]. *)
Theorem retire_heartbeat_exact ops i e now :
  zlen ops < 65536 ->
  let reg := run ops in
  entries reg !! i = Some e ->
  (forall j f, entries reg !! j = Some f -> agent_pid f = agent_pid e -> j = i) /\
  retire reg (agent_pid e) =
    (Ok tt, mkRegistry (<[i := set_state Retired e]> (entries reg)) (counters reg)) /\
  heartbeat reg (agent_pid e) now =
    (if bool_decide (state e = Retired) then (Err InvalidStateTransition, reg)
     else (Ok tt, mkRegistry (<[i := set_heartbeat now e]> (entries reg)) (counters reg))) /\
  (forall pid, (forall f, f ∈ entries reg -> agent_pid f <> pid) -> retire reg pid = (Err NotFound, reg)).
Proof.
  intros Hl reg Hi. destruct (run_inv ops ltac:(lia)) as [_ Hp Hlen _]. fold reg in Hp, Hlen.
  assert (Hu : forall j f, entries reg !! j = Some f -> agent_pid f = agent_pid e -> j = i).
  { intros j f Hj E. symmetry. eapply (pids_distinct (entries reg)); eauto; lia. }
  clearbody reg. split; [done|]. split; [|split].
  - unfold retire. by rewrite (retire_in_spec _ i e).
  - unfold heartbeat. rewrite (heartbeat_in_spec _ i e) by done.
    destruct (bool_decide _); [|done]. by destruct reg.
  - intros pid Hn. unfold retire. rewrite (retire_in_unknown _ _ Hn). by destruct reg.
Qed.

Lemma retire_heartbeat_exact_witness :
  let reg := run [Spawn Hermes Acer Public; Spawn Hermes Acer Public] in
  (retire reg (mint_agent_pid 2 Hermes Acer Public)).1 = Ok tt.
Proof.
  intros reg.
  assert (Hl : zlen [Spawn Hermes Acer Public; Spawn Hermes Acer Public] < 65536) by by vm_compute.
  set (e := mkEntry (mint_agent_pid 2 Hermes Acer Public) Hermes Spawned Acer Public VirtualPointer 0 0).
  assert (Hi : entries reg !! 1%nat = Some e) by by vm_compute.
  assert (H := proj1 (proj2 (retire_heartbeat_exact _ 1 e 0 Hl Hi))).
  change (agent_pid e) with (mint_agent_pid 2 Hermes Acer Public) in H.
  fold reg in H. by rewrite H.
Defined.

(** ** The child-handle counter *)

Definition granted (l : list (nat * Z)) : list Z :=
  filter (fun p => p < AGENT_REGISTRY_MAX) l.*2.

Definition fork_shared (counter : Z) (l : list (nat * Z)) : Prop :=
  zlen l < 2 ^ 63 ->
  0 <= counter <= AGENT_REGISTRY_MAX + zlen l /\
  granted l = map Z.of_nat (seq 0 (Z.to_nat (Z.min counter AGENT_REGISTRY_MAX))).

Definition fork_thread (counter : Z) (l : list (nat * Z)) (k : nat) (t : thread) : Prop :=
  zlen l < 2 ^ 63 ->
  match t with
  | FStart => True
  | FRollback => AGENT_REGISTRY_MAX <= counter
  | FDone (Ok h) => 1 <= h <= AGENT_REGISTRY_MAX /\ (k, h - 1) ∈ l
  | FDone (Err e) => e = RegistryFull /\ AGENT_REGISTRY_MAX <= counter
  end.

(** A thread's assertion survives a step that keeps a saturated counter
    saturated. *)
Lemma fork_thread_mono counter l counter' es k t :
  (zlen (l ++ es) < 2 ^ 63 -> AGENT_REGISTRY_MAX <= counter -> AGENT_REGISTRY_MAX <= counter') ->
  fork_thread counter l k t -> fork_thread counter' (l ++ es) k t.
Proof.
  intros Hc HL Hlen. pose proof (zlen_nonneg es).
  assert (Hlen' : zlen l < 2 ^ 63) by (rewrite zlen_app in Hlen; lia).
  specialize (HL Hlen'). destruct t as [| |[h|e]]; [done | by apply Hc | |].
  - destruct HL as [? Hin]. split; [done|]. apply elem_of_app. by left.
  - destruct HL as [-> ?]. split; [done|]. by apply Hc.
Qed.

Lemma granted_snoc l k p : granted (l ++ [(k, p)]) =
  granted l ++ (if bool_decide (p < AGENT_REGISTRY_MAX) then [p] else []).
Proof.
  unfold granted. rewrite fmap_app, filter_app. f_equal.
  change ([(k, p)].*2) with [p]. rewrite filter_cons, filter_nil.
  case_decide; case_bool_decide; done.
Qed.

Lemma fork_step_inv counter l k t counter' t' es :
  fork_shared counter l -> fork_thread counter l k t -> tstep counter t = Some (counter', t', es) ->
  let l' := l ++ map (pair k) es in
  fork_shared counter' l' /\ fork_thread counter' l' k t' /\
  (forall j u, fork_thread counter l j u -> fork_thread counter' l' j u).
Proof.
  intros HS HL E l'. destruct t as [| |]; [| |done]; cbn [tstep] in E.
  - assert (El : l' = l ++ [(k, counter)]) by (subst l'; by destruct (_ <=? counter); simplify_eq).
    assert (Ec : counter' = wrap64 (counter + 1)) by (by destruct (_ <=? counter); simplify_eq).
    assert (Hw : zlen l' < 2 ^ 63 -> 0 <= counter /\ counter' = counter + 1 /\ fork_shared counter l /\ zlen l < 2 ^ 63).
    { rewrite El, zlen_snoc. intros Hl. specialize (HS ltac:(lia)) as [HS' Hg].
      rewrite Ec, wrap_id by (unfold is_u, AGENT_REGISTRY_MAX in *; lia). by split_and!; try lia. }
    split_and!.
    + intros Hl. destruct (Hw Hl) as (H0 & -> & _ & Hll). destruct (HS Hll) as [Hc Hg].
      rewrite El, zlen_snoc, granted_snoc, Hg. split; [lia|]. case_bool_decide as Hlt.
      * replace (Z.to_nat (Z.min (counter + 1) AGENT_REGISTRY_MAX))
          with (S (Z.to_nat (Z.min counter AGENT_REGISTRY_MAX))) by lia.
        rewrite seq_S, map_app. cbn. do 2 f_equal. lia.
      * rewrite app_nil_r. do 3 f_equal. lia.
    + intros Hl. destruct (Hw Hl) as (H0 & Ec' & _ & Hll).
      destruct (Z.leb_spec AGENT_REGISTRY_MAX counter); simplify_eq; [lia|].
      rewrite Ec'. split; [lia|]. rewrite El. replace (counter + 1 - 1) with counter by lia.
      apply elem_of_app. right. by left.
    + intros j u. apply fork_thread_mono. intros Hl Hge. destruct (Hw Hl) as (_ & -> & _). lia.
  - simplify_eq. subst l'. rewrite app_nil_r. split_and!.
    + intros Hl. destruct (HS Hl) as [Hc Hg]. specialize (HL Hl). cbn in HL.
      pose proof (zlen_nonneg l). split; [unfold AGENT_REGISTRY_MAX in *; lia|].
      rewrite Hg. do 3 f_equal. lia.
    + intros Hl. done.
    + intros j u Hu. rewrite <- (app_nil_r l). apply (fork_thread_mono counter); [done|exact Hu].
Qed.

Lemma fork_reach_inv n c :
  ireach tstep (IConf counter_initial (replicate n FStart) []) c ->
  fork_shared (imem c) (ilog c) /\
  (forall k t, ipool c !! k = Some t -> fork_thread (imem c) (ilog c) k t).
Proof.
  apply (ireach_inv tstep fork_shared fork_thread).
  - intros _. done.
  - intros k t Ht. apply lookup_replicate in Ht as [-> _]. intros _. done.
  - apply fork_step_inv.
Qed.

(** Every call advances the counter once. *)
Lemma fork_log_bound n c :
  ireach tstep (IConf counter_initial (replicate n FStart) []) c -> (length (ilog c) <= n)%nat.
Proof.
  intros Hr. apply (ireach_log_bound tstep (fun t => match t with FStart => 1 | _ => 0 end)%nat) in Hr.
  - pose proof (sum_const (fun t => match t with FStart => 1 | _ => 0 end)%nat 1 (replicate n FStart)) as Hb.
    rewrite length_replicate in Hb. specialize (Hb ltac:(by apply Forall_replicate)). lia.
  - intros m t m' t' es E. destruct t; cbn in E; repeat case_match; simplify_eq; cbn; lia.
Qed.

(** A handle below the maximum is granted to one thread. *)
Lemma granted_once counter l j k p : fork_shared counter l -> zlen l < 2 ^ 63 -> p < AGENT_REGISTRY_MAX ->
  (j, p) ∈ l -> (k, p) ∈ l -> j = k.
Proof.
  intros HS Hl Hp. destruct (HS Hl) as [_ Hg].
  assert (Hnd : NoDup (granted l)).
  { rewrite Hg. apply NoDup_fmap_2; [intros ?? ?; lia|]. apply NoDup_seq. }
  clear HS Hl Hg. unfold granted in Hnd. induction l as [|[i q] l IH]; [by intros ?%elem_of_nil|].
  change ((((i, q) :: l).*2)) with (q :: l.*2) in Hnd. rewrite filter_cons in Hnd.
  assert (Hin : forall x, (x, p) ∈ l -> p ∈ filter (fun p => p < AGENT_REGISTRY_MAX) l.*2).
  { intros x Hx. apply list_elem_of_filter. split; [lia|]. apply list_elem_of_fmap. by exists (x, p). }
  intros [Ej|Hj]%elem_of_cons [Ek|Hk]%elem_of_cons; try congruence.
  - injection Ej as <- <-. rewrite decide_True in Hnd by lia. apply NoDup_cons in Hnd as [Hn _].
    by destruct Hn; eapply Hin.
  - injection Ek as <- <-. rewrite decide_True in Hnd by lia. apply NoDup_cons in Hnd as [Hn _].
    by destruct Hn; eapply Hin.
  - apply IH; try done. case_decide; [by apply NoDup_cons in Hnd as [_ Hnd]|done].
Qed.

(** C16. Any number of concurrent [spawn_child_agent] calls (fewer than 2^63),
    in any interleaving of the increments and the roll-back stores: the
    successful handles are distinct, nonzero and at most 10000; a failing
    call fails with [RegistryFull], and only once 10000 handles are out. *)
Theorem spawn_child_handles_unique n c :
  ireach tstep (IConf counter_initial (replicate n FStart) []) c -> zlen (ilog c) < 2 ^ 63 ->
  (forall k h, ipool c !! k = Some (FDone (Ok h)) -> 1 <= h <= AGENT_REGISTRY_MAX) /\
  (forall j k h, ipool c !! j = Some (FDone (Ok h)) -> ipool c !! k = Some (FDone (Ok h)) -> j = k) /\
  (forall k e, ipool c !! k = Some (FDone (Err e)) ->
     e = RegistryFull /\ zlen (granted (ilog c)) = AGENT_REGISTRY_MAX).
Proof.
  intros Hr Hl. destruct (fork_reach_inv n c Hr) as [HS HL]. split_and!.
  - intros k h Hk. by destruct (HL k _ Hk Hl).
  - intros j k h Hj Hk. destruct (HL j _ Hj Hl) as [Hh Hj'], (HL k _ Hk Hl) as [_ Hk'].
    eapply (granted_once _ _ j k (h - 1)); try done. lia.
  - intros k e Hk. destruct (HL k _ Hk Hl) as [-> Hge]. split; [done|]. destruct (HS Hl) as [_ Hg].
    rewrite Hg. unfold zlen. rewrite length_map, length_seq. unfold AGENT_REGISTRY_MAX in *. lia.
Qed.

Lemma spawn_child_handles_unique_witness :
  exists c, ireach tstep (IConf counter_initial (replicate 2 FStart) []) c /\
    ipool c = [FDone (Ok 2); FDone (Ok 1)] /\ 1 <= 2 <= AGENT_REGISTRY_MAX.
Proof.
  assert (R : exists c, irun tstep [1; 0]%nat (IConf counter_initial (replicate 2 FStart) []) = Some c
     /\ ipool c = [FDone (Ok 2); FDone (Ok 1)] /\ zlen (ilog c) = 2).
  { eexists. split; [vm_compute; reflexivity|]. split; vm_compute; reflexivity. }
  destruct R as (c & R & P & L). exists c.
  assert (R' := irun_reach tstep _ _ _ _ (ireach_refl tstep _) R).
  split; [exact R'|]. split; [exact P|].
  apply (proj1 (spawn_child_handles_unique 2 c R' ltac:(rewrite L; lia)) 0%nat 2). by rewrite P.
Defined.

(** The sequential function is the thread run alone. *)
Lemma spawn_child_solo counter :
  let '(r, counter') := spawn_child_agent counter in
  isolo tstep counter FStart counter' (FDone r).
Proof.
  unfold spawn_child_agent. destruct (AGENT_REGISTRY_MAX <=? counter) eqn:E.
  - eapply isolo_step; [cbn [tstep]; rewrite E; reflexivity|].
    eapply isolo_step; [reflexivity|]. apply isolo_refl.
  - eapply isolo_step; [cbn [tstep]; rewrite E; reflexivity|]. apply isolo_refl.
Qed.
