(* ===== verification/Utf8.v ===== *)
(** * UTF-8 validation

    [core::str::from_utf8] accepts exactly the well-formed sequences of the
    Unicode standard (table 3-7): no overlong forms, no surrogates, nothing
    above U+10FFFF. *)

From S2P Require Import Prelude.

#[local] Open Scope Z_scope.

Definition between (lo hi b : Z) : bool := (lo <=? b) && (b <=? hi).

Fixpoint utf8_valid (s : bytes) : bool :=
  match s with
  | [] => true
  | b :: s1 =>
      if between 0 127 b then utf8_valid s1
      else match s1 with
           | [] => false
           | c :: s2 =>
               if between 194 223 b then between 128 191 c && utf8_valid s2
               else match s2 with
                    | [] => false
                    | d :: s3 =>
                        if between 224 239 b then
                          (if b =? 224 then between 160 191 c
                           else if b =? 237 then between 128 159 c
                           else between 128 191 c)
                          && between 128 191 d && utf8_valid s3
                        else match s3 with
                             | [] => false
                             | e :: s4 =>
                                 between 240 244 b &&
                                 (if b =? 240 then between 144 191 c
                                  else if b =? 244 then between 128 143 c
                                  else between 128 191 c)
                                 && between 128 191 d && between 128 191 e && utf8_valid s4
                             end
                    end
           end
  end.

Lemma utf8_valid_ascii s : forallb is_ascii s = true -> utf8_valid s = true.
Proof.
  induction s as [|b s IH]; [done|]. cbn. intros H. to_prop.
  unfold is_ascii in *. to_prop. unfold between.
  rewrite (proj2 (Z.leb_le 0 b)), (proj2 (Z.leb_le b 127)) by lia. by apply IH.
Qed.

(** After an ASCII byte a character starts. *)
Definition starts_after_ascii (s : bytes) : Prop :=
  forall i b c, s !! i = Some b -> is_ascii b = true -> s !! S i = Some c -> is_continuation c = false.

Lemma starts_after_ascii_infix a s b : starts_after_ascii (a ++ s ++ b) -> starts_after_ascii s.
Proof.
  intros H i x y Hx Ax Hy. apply (H (length a + i)%nat x y); [|done|].
  - rewrite lookup_app_r by lia. replace (length a + i - length a)%nat with i by lia.
    by apply lookup_app_l_Some.
  - rewrite lookup_app_r by lia. replace (S (length a + i) - length a)%nat with (S i) by lia.
    by apply lookup_app_l_Some.
Qed.

Lemma starts_after_ascii_skip pre s :
  Forall (fun x => is_ascii x = false) pre -> starts_after_ascii s -> starts_after_ascii (pre ++ s).
Proof.
  intros Hp H i b c Hb Ab Hc. destruct (decide (i < length pre)%nat) as [Hi|Hi].
  - rewrite lookup_app_l in Hb by done. rewrite Forall_lookup in Hp. by rewrite (Hp i b Hb) in Ab.
  - rewrite lookup_app_r in Hb, Hc by lia. apply (H (i - length pre)%nat b c); [done..|].
    by replace (S (i - length pre)) with (S i - length pre)%nat by lia.
Qed.

Lemma starts_after_ascii_boundary s i b :
  starts_after_ascii s -> s !! i = Some b -> is_ascii b = true -> is_char_boundary s (S i) = true.
Proof.
  intros H Hb Ab. unfold is_char_boundary. destruct (s !! S i) as [c|] eqn:Ec.
  - by rewrite (H i b c Hb Ab Ec).
  - apply lookup_ge_None_1 in Ec. apply lookup_lt_Some in Hb.
    replace (length s) with (S i) by lia. by rewrite Nat.eqb_refl, orb_true_r.
Qed.

Lemma between_true lo hi b : between lo hi b = true <-> lo <= b <= hi.
Proof. unfold between. rewrite andb_true_iff, !Z.leb_le. done. Qed.

Lemma between_high lo hi b : 128 <= lo -> between lo hi b = true -> is_ascii b = false.
Proof.
  intros Hl [? ?]%between_true. unfold is_ascii. apply andb_false_iff. right. apply Z.ltb_ge. lia.
Qed.

Ltac high_byte :=
  match goal with H : between ?lo ?hi ?x = true |- is_ascii ?x = false =>
    apply (between_high lo hi x); [lia | exact H] end.

Lemma utf8_head b s : utf8_valid (b :: s) = true -> is_continuation b = false.
Proof.
  intros H. destruct (is_continuation b) eqn:E; [|done]. exfalso. unfold is_continuation in E. to_prop.
  assert (N : forall lo hi, (hi < 128 \/ 192 <= lo) -> between lo hi b = false).
  { intros lo hi Hr. apply not_true_is_false. intros [? ?]%between_true. lia. }
  cbn [utf8_valid] in H. rewrite !N in H by lia. by destruct s as [|? [|? [|? ?]]].
Qed.

Lemma utf8_starts_after_ascii s : utf8_valid s = true -> starts_after_ascii s.
Proof.
  remember (length s) as n eqn:Hn. revert s Hn.
  induction n as [n IH] using (well_founded_induction lt_wf). intros s -> H.
  destruct s as [|b s1]; [intros i ? ? Hi; by rewrite lookup_nil in Hi|].
  cbn [utf8_valid] in H. destruct (between 0 127 b) eqn:E0.
  { intros [|i] x y Hx Ax Hy.
    - destruct s1 as [|c s1]; [done|]. injection Hy as ->. by eapply utf8_head.
    - exact (IH (length s1) ltac:(cbn; lia) s1 eq_refl H i x y Hx Ax Hy). }
  destruct s1 as [|c s2]; [done|]. destruct (between 194 223 b) eqn:E1.
  { to_prop. apply (starts_after_ascii_skip [b; c] s2).
    - repeat constructor; [high_byte | high_byte].
    - apply (IH (length s2)); [cbn; lia | done | done]. }
  destruct s2 as [|d s3]; [done|]. destruct (between 224 239 b) eqn:E2.
  { to_prop. apply (starts_after_ascii_skip [b; c; d] s3).
    - repeat constructor; [high_byte | | high_byte].
      repeat case_match; high_byte.
    - apply (IH (length s3)); [cbn; lia | done | done]. }
  destruct s3 as [|e s4]; [done|]. to_prop. apply (starts_after_ascii_skip [b; c; d; e] s4).
  - repeat constructor; try high_byte.
    repeat case_match; high_byte.
  - apply (IH (length s4)); [cbn; lia | done | done].
Qed.
