(* ===== verification/Syscall.v ===== *)
(** * The sixteen system calls ([kernel/core/src/syscall/mod.rs])

    The kernel statics as one record, every call as a function on it, and
    the calls together as the transition function of the kernel. The byte
    queue is any implementation of the [ByteQueue] interface. *)

From S2P Require Import Prelude Digest Sha256 Access CosignChain SyscallTypes Hookwall Gnn Envelope Queue FrameAlloc Vfs AgentRuntime AgentRegistry Utf8.

Module Syscall.

#[local] Open Scope Z_scope.

Section Calls.
Context `{Digest} `{UnicodeCase} {Q : Type} `{ByteQueue Q}.

(** Every static the calls reach: the descriptor table, the envelope slot,
    the frame watermark, the cosign sequence counter, the child counter,
    [EXEC_HANDLE_NEXT] and [MONOTONIC_COUNTER]. *)
Record Kernel := mkKernel {
  fd_table : list Z;
  queue : Q;
  next_virtual_base : Z;
  append_seq : Z;
  spawn_counter : Z;
  exec_handle_next : Z;
  monotonic_counter : Z
}.

Definition set_queue (k : Kernel) (q : Q) : Kernel :=
  mkKernel (fd_table k) q (next_virtual_base k) (append_seq k) (spawn_counter k)
    (exec_handle_next k) (monotonic_counter k).
Definition set_base (k : Kernel) (b : Z) : Kernel :=
  mkKernel (fd_table k) (queue k) b (append_seq k) (spawn_counter k)
    (exec_handle_next k) (monotonic_counter k).
Definition set_seq (k : Kernel) (s : Z) : Kernel :=
  mkKernel (fd_table k) (queue k) (next_virtual_base k) s (spawn_counter k)
    (exec_handle_next k) (monotonic_counter k).
Definition set_spawn (k : Kernel) (c : Z) : Kernel :=
  mkKernel (fd_table k) (queue k) (next_virtual_base k) (append_seq k) c
    (exec_handle_next k) (monotonic_counter k).
Definition set_exec (k : Kernel) (q : Q) (h : Z) : Kernel :=
  mkKernel (fd_table k) q (next_virtual_base k) (append_seq k) (spawn_counter k)
    h (monotonic_counter k).
Definition set_time (k : Kernel) (t : Z) : Kernel :=
  mkKernel (fd_table k) (queue k) (next_virtual_base k) (append_seq k) (spawn_counter k)
    (exec_handle_next k) t.

Definition sys_read (k : Kernel) (fd : Z) (buf : bytes) (len : Z) :
    result SyscallErr Z * Kernel * bytes :=
  if (zlen buf <? len) then (Err Invalid, k, buf)
  else
    let '(r, q, buf') := Vfs.vfs_read (fd_table k) (queue k) fd buf len in
    (match r with Ok n => Ok n | Err _ => Err Invalid end, set_queue k q, buf').

Definition sys_write (k : Kernel) (fd : Z) (buf : bytes) : result SyscallErr Z * Kernel :=
  if (zlen buf =? 0) then (Err Invalid, k)
  else
    let '(r, q) := Vfs.vfs_write (fd_table k) (queue k) fd buf in
    (match r with Ok n => Ok n | Err _ => Err Invalid end, set_queue k q).

(** The error mapping of the enqueueing calls. *)
Definition enqueue_err (e : Envelope.EnvelopeErr) : SyscallErr :=
  match e with
  | Envelope.QueueFull => Exhausted
  | Envelope.PayloadOversize => Invalid
  | _ => Invalid
  end.

Definition sys_exec (k : Kernel) (envelope_bytes : bytes) : result SyscallErr Z * Kernel :=
  if (zlen envelope_bytes <? Envelope.MIN_ENVELOPE_BYTES) then (Err Invalid, k)
  else
    let '(r, q) := enqueue (queue k) envelope_bytes 0 in
    match r with
    | Ok _ => (Ok (exec_handle_next k), set_exec k q (wrap64 (exec_handle_next k + 1)))
    | Err e => (Err (enqueue_err e), set_queue k q)
    end.

Definition sys_fork (k : Kernel) : result SyscallErr Z * Kernel :=
  let '(r, c) := AgentRuntime.spawn_child_agent (spawn_counter k) in
  (match r with
   | Ok child_handle => Ok child_handle
   | Err AgentRuntime.RegistryFull => Err Exhausted
   | Err _ => Err Invalid
   end, set_spawn k c).

Definition sys_mmap (k : Kernel) (len prot : Z) : result SyscallErr Z * Kernel :=
  if (len =? 0) then (Err Invalid, k)
  else if (prot =? 0) then (Err Invalid, k)
  else
    let '(r, b) := FrameAlloc.alloc_pages (next_virtual_base k) len in
    (match r with
     | Ok p => Ok p
     | Err FrameAlloc.PoolExhausted => Err Exhausted
     | Err _ => Err Invalid
     end, set_base k b).

Definition sys_munmap (k : Kernel) (addr len : Z) : result SyscallErr unit * Kernel :=
  if (addr =? 0) then (Err Invalid, k)
  else if (len =? 0) then (Err Invalid, k)
  else
    (match FrameAlloc.free_pages addr len with
     | Ok _ => Ok tt
     | Err _ => Err Invalid
     end, k).

Definition sys_time (k : Kernel) : result SyscallErr Z * Kernel :=
  let v := monotonic_counter k in
  (Ok v, set_time k (wrap64 (v + 1))).

(** The loop [v = (v << 8) | digest[i]] over the first eight bytes. *)
Definition sys_pid_current : result SyscallErr Z :=
  let digest := sha256 FEDERATION_ANCHOR_PID in
  Ok (fold_left (fun v b => Z.lor (wrap64 (Z.shiftl v 8)) b) (take 8 digest) 0).

Definition sys_envelope_send (k : Kernel) (env : bytes) (route_hint : Z) :
    result SyscallErr unit * Kernel :=
  if (zlen env <? Envelope.MIN_ENVELOPE_BYTES) then (Err Invalid, k)
  else
    let '(r, q) := enqueue (queue k) env route_hint in
    (match r with Ok _ => Ok tt | Err e => Err (enqueue_err e) end, set_queue k q).

Definition sys_envelope_recv (k : Kernel) (buf : bytes) (max_wait_ns : Z) :
    result SyscallErr Z * Kernel * bytes :=
  if (zlen buf =? 0) then (Err Invalid, k, buf)
  else
    let '(r, q, buf') := dequeue (queue k) buf max_wait_ns in
    (match r with
     | Ok n => Ok n
     | Err Envelope.QueueEmpty => Err WouldBlock
     | Err Envelope.PayloadOversize => Err Invalid
     | Err _ => Err Invalid
     end, set_queue k q, buf').

(** The context both hook calls synthesise from the envelope prefix. *)
Definition hook_context (env : bytes) : Hookwall.HookContext :=
  Hookwall.mkContext (env !!! 0%nat) (env !!! 1%nat) 0 Hookwall.Micro Public.

Definition sys_hookwall_pre (env : bytes) : result SyscallErr HookwallVerdict :=
  if (zlen env <? 2) then Err Invalid
  else Hookwall.hookwall_pre (hook_context env).

Definition sys_hookwall_post (k : Kernel) (env : bytes) (verdict : HookwallVerdict) :
    result SyscallErr unit * Kernel :=
  if (zlen env <? 2) then (Err Invalid, k)
  else
    let '(r, c) := Hookwall.hookwall_post (append_seq k) (hook_context env) verdict in
    (r, set_seq k c).

Definition MIN_COSIGN_ROW_BYTES : Z := 16.

Definition sys_cosign_append (k : Kernel) (row : bytes) : result SyscallErr Z * Kernel :=
  if (zlen row <? MIN_COSIGN_ROW_BYTES) then (Err Invalid, k)
  else
    let '(r, c) := CosignChain.append_bytes (append_seq k) row in
    (map_err (fun _ => CosignReject) r, set_seq k c).

Definition sys_tier_query (path : bytes) : result SyscallErr AccessTier :=
  if negb (utf8_valid path) then Err Invalid
  else match Tier.classify_path path with
       | Ok t => Ok t
       | Err Tier.PathMalformed => Err Invalid
       | Err Tier.UnclassifiedDefault => Ok Public
       end.

Definition decision_code (d : Gnn.RoutingDecision) : Z :=
  match d with
  | Gnn.Local => 0 | Gnn.TriadBroadcast => 1 | Gnn.QuadBroadcast => 2 | Gnn.UnicastAcer => 3
  | Gnn.UnicastLiris => 4 | Gnn.UnicastFalcon => 5 | Gnn.UnicastAether => 6
  end.

Definition sys_gnn_infer (input out : bytes) : result SyscallErr Z * bytes :=
  if (zlen out =? 0) then (Err Invalid, out)
  else match Gnn.predict_route Gnn.new input with
       | Err _ => (Err Invalid, out)
       | Ok decision => (Ok 1, <[0%nat := decision_code decision]> out)
       end.

Definition CANONICAL_SYSCALLS : list bytes :=
  [lit "read"; lit "write"; lit "exec"; lit "fork"; lit "exit"; lit "mmap"; lit "munmap";
   lit "time"; lit "pid_current"; lit "envelope_send"; lit "envelope_recv"; lit "hookwall_pre";
   lit "hookwall_post"; lit "cosign_append"; lit "tier_query"; lit "gnn_infer"].

(** *** The calls as one transition function *)

Inductive call :=
| Read (fd : Z) (buf : bytes) (len : Z)
| Write (fd : Z) (buf : bytes)
| Exec (env : bytes)
| Fork
| Exit (status : Z)
| Mmap (len prot : Z)
| Munmap (addr len : Z)
| Time
| PidCurrent
| EnvelopeSend (env : bytes) (route_hint : Z)
| EnvelopeRecv (buf : bytes) (max_wait_ns : Z)
| HookwallPre (env : bytes)
| HookwallPost (env : bytes) (verdict : HookwallVerdict)
| CosignAppend (row : bytes)
| TierQuery (path : bytes)
| GnnInfer (input out : bytes).

(** What a call hands back: a number, a number and the caller's buffer,
    nothing, a verdict, a tier, or (exit) no return at all. *)
Inductive reply :=
| RNum (r : result SyscallErr Z)
| RBuf (r : result SyscallErr Z) (buf : bytes)
| RUnit (r : result SyscallErr unit)
| RVerdict (r : result SyscallErr HookwallVerdict)
| RTier (r : result SyscallErr AccessTier)
| RNever.

Definition invoke (k : Kernel) (c : call) : reply * Kernel :=
  match c with
  | Read fd buf len => let '(r, k', b) := sys_read k fd buf len in (RBuf r b, k')
  | Write fd buf => let '(r, k') := sys_write k fd buf in (RNum r, k')
  | Exec env => let '(r, k') := sys_exec k env in (RNum r, k')
  | Fork => let '(r, k') := sys_fork k in (RNum r, k')
  | Exit _ => (RNever, k)
  | Mmap len prot => let '(r, k') := sys_mmap k len prot in (RNum r, k')
  | Munmap addr len => let '(r, k') := sys_munmap k addr len in (RUnit r, k')
  | Time => let '(r, k') := sys_time k in (RNum r, k')
  | PidCurrent => (RNum sys_pid_current, k)
  | EnvelopeSend env h => let '(r, k') := sys_envelope_send k env h in (RUnit r, k')
  | EnvelopeRecv buf w => let '(r, k', b) := sys_envelope_recv k buf w in (RBuf r b, k')
  | HookwallPre env => (RVerdict (sys_hookwall_pre env), k)
  | HookwallPost env v => let '(r, k') := sys_hookwall_post k env v in (RUnit r, k')
  | CosignAppend row => let '(r, k') := sys_cosign_append k row in (RNum r, k')
  | TierQuery path => (RTier (sys_tier_query path), k)
  | GnnInfer input out => let '(r, b) := sys_gnn_infer input out in (RBuf r b, k)
  end.

Definition error_of (r : reply) : option SyscallErr :=
  match r with
  | RNum (Err e) | RBuf (Err e) _ | RUnit (Err e) | RVerdict (Err e) | RTier (Err e) => Some e
  | _ => None
  end.

(** Argument types: machine words and bytes. *)
Definition call_ok (c : call) : Prop :=
  match c with
  | Read fd _ len => is_u 64 fd /\ is_u 64 len
  | Write fd _ => is_u 64 fd
  | Mmap len prot => is_u 64 len /\ is_u 32 prot
  | Munmap addr len => is_u 64 addr /\ is_u 64 len
  | EnvelopeRecv _ w => is_u 64 w
  | HookwallPre env | HookwallPost env _ => Forall is_byte env
  | _ => True
  end.

Definition kernel_ok (k : Kernel) : Prop :=
  Vfs.table_ok (fd_table k) /\ q_ok (queue k) /\ watermark_ok (next_virtual_base k) /\
  is_u 64 (append_seq k) /\ 0 <= spawn_counter k <= AgentRuntime.AGENT_REGISTRY_MAX /\
  is_u 64 (exec_handle_next k) /\ is_u 64 (monotonic_counter k).

End Calls.

Arguments Kernel Q : clear implicits.

(** The statics at start-up. *)
Definition boot_kernel : Kernel Envelope.Slot :=
  mkKernel Vfs.initial Envelope.initial FrameAlloc.initial 0 AgentRuntime.counter_initial 1 0.

End Syscall.

Import Syscall.

#[local] Open Scope Z_scope.

(** ** Each call against the interface *)

Section Facts.
Context `{Digest} `{UnicodeCase} {Q : Type} `{ByteQueue Q}.

Lemma set_queue_same (k : Kernel Q) : set_queue k (queue k) = k.
Proof. by destruct k. Qed.

Lemma spawn_child_cases c : 0 <= c <= AgentRuntime.AGENT_REGISTRY_MAX ->
  AgentRuntime.spawn_child_agent c =
  if c =? AgentRuntime.AGENT_REGISTRY_MAX then (Err AgentRuntime.RegistryFull, c) else (Ok (c + 1), c + 1).
Proof.
  intros Hc. unfold AgentRuntime.spawn_child_agent.
  destruct (Z.eqb_spec c AgentRuntime.AGENT_REGISTRY_MAX) as [->|Hne].
  - by rewrite Z.leb_refl.
  - rewrite (proj2 (Z.leb_gt _ _)), wrap_id by (unfold is_u, AgentRuntime.AGENT_REGISTRY_MAX in *; lia). done.
Qed.

Lemma alloc_cases b len : watermark_ok b -> is_u 64 len ->
  let '(r, b') := FrameAlloc.alloc_pages b len in
  watermark_ok b' /\
  match r with
  | Ok p => p = b /\ 0 < len
  | Err e => b' = b /\ (e = FrameAlloc.InvalidLen /\ len = 0 \/ e = FrameAlloc.PoolExhausted)
  end.
Proof.
  intros Hw Hu. unfold FrameAlloc.alloc_pages. destruct (Z.eqb_spec len 0) as [->|Hn]; [by auto|].
  unfold is_u in Hu. destruct (bytes_needed_any len) as [Hb Hm]; [lia|].
  destruct (FrameAlloc.VIRTUAL_BASE_END <? _) eqn:E; to_prop; [by auto|].
  rewrite sat_add_pool in * by done. split; [by apply watermark_bump|]. split; [done|lia].
Qed.

Lemma hook_slot_byte env : Forall is_byte env -> 2 <= zlen env -> is_byte (env !!! 0%nat).
Proof.
  intros Hf Hl. rewrite Forall_lookup in Hf. apply (Hf 0%nat).
  apply list_lookup_lookup_total_lt. unfold zlen in Hl. lia.
Qed.

(** Every call keeps the kernel well formed. *)
Lemma invoke_ok k c : kernel_ok k -> call_ok c -> kernel_ok (invoke k c).2.
Proof.
  intros (Ht & Hq & Hb & Hs & Hc & He & Hm) Hcall.
  assert (W : forall z, is_u 64 (wrap64 z)) by (intros z; by apply wrap_range).
  destruct c; cbn [invoke]; unfold kernel_ok.
  - unfold sys_read. split_if; [done|].
    pose proof (vfs_read_ok (fd_table k) (queue k) fd buf len Hq) as Hv.
    destruct (Vfs.vfs_read _ _ _ _ _) as [[r q] b]. done.
  - unfold sys_write. split_if; [done|].
    pose proof (vfs_write_ok (fd_table k) (queue k) fd buf Hq) as Hv.
    destruct (Vfs.vfs_write _ _ _ _) as [r q]. done.
  - unfold sys_exec. split_if; [done|]. pose proof (enqueue_spec (queue k) env 0 Hq) as Hv.
    destruct (enqueue _ _ _) as [[r|e] q]; destruct Hv as [Hv _]; cbn; split_and!; try done; try apply W; lia.
  - unfold sys_fork. rewrite spawn_child_cases by done.
    destruct (Z.eqb_spec (spawn_counter k) AgentRuntime.AGENT_REGISTRY_MAX); cbn; split_and!; try done; lia.
  - done.
  - destruct Hcall as [Hl _]. unfold sys_mmap. repeat (split_if; [done|]).
    pose proof (alloc_cases (next_virtual_base k) len Hb Hl) as Ha.
    destruct (FrameAlloc.alloc_pages _ _). destruct Ha as [Ha _]. done.
  - unfold sys_munmap. by repeat split_if.
  - unfold sys_time. cbn. split_and!; try done; try apply W; lia.
  - done.
  - unfold sys_envelope_send. split_if; [done|]. pose proof (enqueue_spec (queue k) env route_hint Hq) as Hv.
    destruct (enqueue _ _ _) as [r q]. destruct Hv as [Hv _]. done.
  - unfold sys_envelope_recv. split_if; [done|].
    destruct Hcall as [Hw _]. pose proof (dequeue_spec (queue k) buf max_wait_ns Hq Hw) as Hv.
    destruct (dequeue _ _ _) as [[r q] b]. destruct Hv as [Hv _]. done.
  - done.
  - unfold sys_hookwall_post. split_if; [done|]. rewrite hookwall_post_cases.
    split_if; cbn; split_and!; try done; try apply W; lia.
  - unfold sys_cosign_append, CosignChain.append_bytes. split_if; [done|].
    split_if; cbn; split_and!; try done; try apply W; lia.
  - done.
  - unfold sys_gnn_infer. by split_if.
Qed.

(** Which errors each call can return. *)
Definition may_fail_with (c : call) (e : SyscallErr) : Prop :=
  match e with
  | Invalid => True
  | Exhausted => match c with Exec _ | Fork | Mmap _ _ | EnvelopeSend _ _ => True | _ => False end
  | WouldBlock => match c with EnvelopeRecv _ _ => True | _ => False end
  | _ => False
  end.

Lemma invoke_errors k c e : kernel_ok k -> error_of (invoke k c).1 = Some e -> may_fail_with c e.
Proof.
  intros (Ht & Hq & Hb & Hs & Hc & He & Hm). destruct c; cbn [invoke].
  - unfold sys_read. split_if; [by intros [= <-]|]. destruct (Vfs.vfs_read _ _ _ _ _) as [[[r|x] q] b];
      cbn; by intros; simplify_eq.
  - unfold sys_write. split_if; [by intros [= <-]|]. destruct (Vfs.vfs_write _ _ _ _) as [[r|x] q];
      cbn; by intros; simplify_eq.
  - unfold sys_exec. split_if; [by intros [= <-]|].
    destruct (enqueue _ _ _) as [[r|x] q]; cbn; [done|]. by destruct x; intros [= <-].
  - unfold sys_fork. destruct (AgentRuntime.spawn_child_agent _) as [[r|x] b]; cbn; [done|].
    by destruct x; intros [= <-].
  - done.
  - unfold sys_mmap. repeat (split_if; [by intros [= <-]|]).
    destruct (FrameAlloc.alloc_pages _ _) as [[r|x] b]; cbn; [done|]. by destruct x; intros [= <-].
  - unfold sys_munmap. repeat (split_if; [by intros [= <-]|]).
    destruct (FrameAlloc.free_pages _ _); cbn; by intros; simplify_eq.
  - done.
  - done.
  - unfold sys_envelope_send. split_if; [by intros [= <-]|].
    destruct (enqueue _ _ _) as [[r|x] q]; cbn; [done|]. by destruct x; intros [= <-].
  - unfold sys_envelope_recv. split_if; [by intros [= <-]|].
    destruct (dequeue _ _ _) as [[[r|x] q] b]; cbn; [done|]. by destruct x; intros [= <-].
  - unfold sys_hookwall_pre, Hookwall.hookwall_pre. repeat split_if; by intros [= <-].
  - unfold sys_hookwall_post. split_if; [by intros [= <-]|]. rewrite hookwall_post_cases.
    split_if; by intros [= <-].
  - unfold sys_cosign_append. split_if; [by intros [= <-]|]. unfold CosignChain.append_bytes.
    rewrite (proj2 (bytes_eqb_false row [])); [done|]. intros ->. by change (zlen []) with 0 in *.
  - unfold sys_tier_query. split_if; [by intros [= <-]|].
    destruct (Tier.classify_path path) as [t|[]]; cbn; by intros; simplify_eq.
  - unfold sys_gnn_infer. split_if; [by intros [= <-]|]. done.
Qed.

(** The descriptor table is out of reach of the calls. *)
Lemma invoke_table k c : fd_table (invoke k c).2 = fd_table k.
Proof.
  destruct c; cbn [invoke]; try done;
    unfold sys_read, sys_write, sys_exec, sys_fork, sys_mmap, sys_munmap, sys_envelope_send,
      sys_envelope_recv, sys_hookwall_post, sys_cosign_append, sys_gnn_infer;
    repeat case_match; by simplify_eq/=.
Qed.

Lemma run_ok cs k : kernel_ok k -> Forall call_ok cs ->
  kernel_ok (fold_left (fun k c => (invoke k c).2) cs k) /\
  fd_table (fold_left (fun k c => (invoke k c).2) cs k) = fd_table k.
Proof.
  intros Hk Hcs. revert k Hk. induction Hcs as [|c cs Hc _ IH]; intros k Hk; cbn; [done|].
  destruct (IH (invoke k c).2 (invoke_ok k c Hk Hc)) as [Hok Htab]. split; [done|].
  by rewrite Htab, invoke_table.
Qed.

(** ** Theorems *)

(** C18. Over any sequence of calls: the kernel stays well formed, a failing call
    fails only with the errors of its own list (no call ever returns
    [Unimplemented], [PermissionDenied], [HookwallBlock] or
    [CosignReject]; only the receive call returns [WouldBlock]; only exec,
    fork, mmap and send return [Exhausted]), and the descriptor table never
    changes: no call opens or closes a descriptor. *)
Theorem syscall_surface k cs c :
  kernel_ok k -> Forall call_ok cs -> call_ok c ->
  let k' := fold_left (fun k c => (invoke k c).2) cs k in
  kernel_ok (invoke k' c).2 /\ fd_table (invoke k' c).2 = fd_table k /\
  (forall e, error_of (invoke k' c).1 = Some e -> may_fail_with c e).
Proof.
  intros Hk Hcs Hc k'. destruct (run_ok cs k Hk Hcs) as [Hk' Ht]. fold k' in Hk', Ht.
  split_and!; [by apply invoke_ok | by rewrite invoke_table | intros e; by apply invoke_errors].
Qed.

(** The message path: an envelope of 32 to 1024 bytes sent on an idle bus is
    received whole by a large enough buffer; a second send meanwhile is
    [Exhausted]; shorter or longer ones are [Invalid] and change nothing; a
    receive on the idle bus is [WouldBlock], on a short buffer [Invalid]
    with the envelope kept. *)
Theorem envelope_send_recv k env route buf w :
  kernel_ok k -> q_contents (queue k) = None -> 0 <= w -> 0 < zlen buf ->
  sys_envelope_recv k buf w = (Err WouldBlock, k, buf) /\
  let '(r1, k1) := sys_envelope_send k env route in
  if (Envelope.MIN_ENVELOPE_BYTES <=? zlen env) && (zlen env <=? Envelope.ENVELOPE_SLOT_BYTES)
  then
    r1 = Ok tt /\ (sys_envelope_send k1 env route).1 = Err Exhausted /\
    let '(r2, k2, buf2) := sys_envelope_recv k1 buf w in
    if zlen env <=? zlen buf
    then r2 = Ok (zlen env) /\ buf2 = env ++ drop (length env) buf /\ q_contents (queue k2) = None
    else r2 = Err Invalid /\ k2 = k1 /\ buf2 = buf
  else r1 = Err Invalid /\ k1 = k.
Proof.
  intros (_ & Hq & _) Hc Hw Hb. unfold sys_envelope_recv.
  rewrite (proj2 (Z.eqb_neq _ _)) by lia.
  assert (Hset : forall k0 : Kernel Q, set_queue k0 (queue k0) = k0) by by intros [].
  pose proof (dequeue_spec (queue k) buf w Hq Hw) as Hd. rewrite Hc in Hd.
  destruct (dequeue (queue k) buf w) as [[rd qd] bd]. destruct Hd as (_ & -> & -> & ->).
  split; [by rewrite Hset|]. unfold sys_envelope_send.
  pose proof (enqueue_spec (queue k) env route Hq) as Hs. rewrite Hc, Z.gtb_ltb in Hs.
  destruct (Z.ltb_spec (zlen env) Envelope.MIN_ENVELOPE_BYTES) as [Hlo|Hlo].
  { by rewrite (proj2 (Z.leb_gt _ _)). }
  rewrite (proj2 (Z.leb_le Envelope.MIN_ENVELOPE_BYTES _)) by done. cbn [andb].
  destruct (enqueue (queue k) env route) as [r1 q1]. rewrite Z.leb_antisym.
  destruct (Z.ltb_spec Envelope.ENVELOPE_SLOT_BYTES (zlen env)) as [Hhi|Hhi]; cbn [negb].
  { destruct Hs as (_ & -> & ->). cbn. by rewrite Hset. }
  destruct Hs as (Hq1 & -> & Hc1). split; [done|]. cbn [queue set_queue].
  pose proof (enqueue_spec q1 env route Hq1) as Hs. rewrite Hc1, Z.gtb_ltb, (proj2 (Z.ltb_ge _ _)) in Hs by done.
  destruct (enqueue q1 env route) as [r2 q2]. destruct Hs as (_ & -> & ->). split; [done|].
  pose proof (dequeue_spec q1 buf w Hq1 Hw) as Hd. rewrite Hc1 in Hd.
  destruct (dequeue q1 buf w) as [[r3 q3] b3]. destruct Hd as [_ Hd].
  destruct (zlen env <=? zlen buf); destruct Hd as (-> & -> & ?); [done | by subst].
Qed.

(** [sys_write] on a descriptor bound to the bus does not apply the floor of
    the envelope calls: an envelope of 1 to 31 bytes that [sys_exec] and
    [sys_envelope_send] refuse is queued and delivered to the next
    receiver; and a read of an idle bus fails with [Invalid] where
    [sys_envelope_recv] says [WouldBlock]. *)
Theorem bus_write_bypasses_floor k fd m buf w :
  kernel_ok k -> q_contents (queue k) = None -> 0 <= w ->
  3 <= fd < 256 -> fd_table k !!! Z.to_nat fd = Vfs.FD_BIND_BUSENVELOPE ->
  0 < zlen m < Envelope.MIN_ENVELOPE_BYTES -> zlen m <= zlen buf ->
  sys_exec k m = (Err Invalid, k) /\ sys_envelope_send k m 0 = (Err Invalid, k) /\
  (let '(r, k1) := sys_write k fd m in
   r = Ok (zlen m) /\
   let '(r2, k2, buf2) := sys_envelope_recv k1 buf w in
   r2 = Ok (zlen m) /\ buf2 = m ++ drop (length m) buf) /\
  sys_read k fd buf (zlen buf) = (Err Invalid, k, buf).
Proof.
  intros (_ & Hq & _) Hc Hw Hfd Hk Hm Hbuf. unfold Envelope.MIN_ENVELOPE_BYTES in Hm.
  assert (Hset : set_queue k (queue k) = k) by by destruct k.
  split; [|split; [|split]].
  - unfold sys_exec. by rewrite (proj2 (Z.ltb_lt _ _)) by apply Hm.
  - unfold sys_envelope_send. by rewrite (proj2 (Z.ltb_lt _ _)) by apply Hm.
  - unfold sys_write. rewrite (proj2 (Z.eqb_neq _ _)) by lia.
    rewrite vfs_write_bus by (done || (intros ->; change (zlen []) with 0 in Hm; lia)).
    pose proof (enqueue_spec (queue k) m 0 Hq) as Hs.
    rewrite Hc, Z.gtb_ltb, (proj2 (Z.ltb_ge _ _)) in Hs by (unfold Envelope.ENVELOPE_SLOT_BYTES; lia).
    destruct (enqueue (queue k) m 0) as [r1 q1]. destruct Hs as (Hq1 & -> & Hc1). split; [done|].
    unfold sys_envelope_recv. rewrite (proj2 (Z.eqb_neq _ _)) by lia. cbn [queue set_queue].
    pose proof (dequeue_spec q1 buf w Hq1 Hw) as Hd. rewrite Hc1, (proj2 (Z.leb_le _ _)) in Hd by lia.
    destruct (dequeue q1 buf w) as [[r2 q2] b2]. by destruct Hd as (_ & -> & -> & _).
  - unfold sys_read. rewrite Z.ltb_irrefl. rewrite vfs_read_bus by (done || lia).
    unfold zlen at 1 2. rewrite Nat2Z.id, firstn_all, drop_all.
    pose proof (dequeue_spec (queue k) buf 0 Hq (Z.le_refl 0)) as Hd. rewrite Hc in Hd.
    destruct (dequeue (queue k) buf 0) as [[r2 q2] b2]. destruct Hd as (_ & -> & -> & ->).
    by rewrite Hset, app_nil_r.
Qed.

End Facts.

Lemma boot_kernel_ok : kernel_ok boot_kernel.
Proof.
  unfold kernel_ok, boot_kernel. cbn [fd_table queue next_virtual_base append_seq spawn_counter
    exec_handle_next monotonic_counter].
  split; [exact table_ok_initial|]. split; [exact slot_ok_initial|]. split_and!; by vm_compute.
Qed.

#[export] Hint Resolve boot_kernel_ok : aso.

Lemma syscall_surface_witness :
  let _ := boot_digest in let _ := ascii_case in
  kernel_ok (invoke (fold_left (fun k c => (invoke k c).2) [Fork; Mmap 1 1] boot_kernel) Time).2.
Proof.
  intros d u.
  assert (Hcs : Forall (@call_ok) [Fork; Mmap 1 1]).
  { repeat constructor; by vm_compute. }
  exact (proj1 (syscall_surface (H:=boot_digest) (H0:=ascii_case) boot_kernel [Fork; Mmap 1 1] Time
                  boot_kernel_ok Hcs I)).
Defined.

Lemma envelope_send_recv_witness :
  let env := lit "PING" ++ replicate 28 7 in
  let k1 := (sys_envelope_send boot_kernel env 0).2 in
  (sys_envelope_recv k1 (replicate 32 0) 0).1.1 = Ok 32 /\
  (sys_envelope_send k1 env 0).1 = Err Exhausted.
Proof.
  intros env k1. split; [by vm_compute|].
  assert (Hw : 0 <= 0) by lia. assert (Hb : 0 < zlen (replicate 32 0)) by by vm_compute.
  assert (H := proj2 (envelope_send_recv boot_kernel env 0 (replicate 32 0) 0 boot_kernel_ok eq_refl Hw Hb)).
  exact (proj1 (proj2 H)).
Defined.

Lemma bus_write_bypasses_floor_witness :
  let t := (Vfs.vfs_open Vfs.initial (lit "/dev/bus/envelope") Vfs.O_RDONLY).2 in
  let k := mkKernel t Envelope.initial FrameAlloc.initial 0 0 1 0 in
  sys_exec k (lit "tiny") = (Err Invalid, k) /\ (sys_write k 3 (lit "tiny")).1 = Ok 4.
Proof.
  intros t k.
  assert (Hk : kernel_ok k).
  { unfold kernel_ok, k. cbn [fd_table queue next_virtual_base append_seq spawn_counter
      exec_handle_next monotonic_counter].
    split; [|split; [exact slot_ok_initial | split_and!; by vm_compute]].
    split; [by vm_compute|]. apply (bool_decide_unpack _). vm_compute. exact I. }
  assert (Hw : 0 <= 0) by lia. assert (Hf : 3 <= 3 < 256) by lia.
  assert (Hm : 0 < zlen (lit "tiny") < Envelope.MIN_ENVELOPE_BYTES) by by vm_compute.
  assert (Hb : zlen (lit "tiny") <= zlen (replicate 8 0)) by by vm_compute.
  split; [|by vm_compute].
  exact (proj1 (bus_write_bypasses_floor k 3 (lit "tiny") (replicate 8 0) 0 Hk eq_refl Hw Hf eq_refl Hm Hb)).
Defined.
