(* ===== verification/SyscallErrors.v ===== *)
(** * Refused system calls ([kernel/core/src/syscall/mod.rs])

    The errors of the sixteen calls of [Syscall.v]: one table that says on
    the state of the kernel when a call is refused and with which error, and
    the atomicity of a refusal. A refused call leaves every static and the
    caller's buffer as they were, so it can be struck from any run. *)

From S2P Require Import Prelude Digest Sha256 Access CosignChain SyscallTypes Hookwall Gnn Envelope Queue FrameAlloc Vfs.
From S2P Require Import AgentRuntime AgentRegistry Utf8 Syscall.

Import Syscall.

#[local] Open Scope Z_scope.

(** ** The table *)

Section Table.
Context `{Digest} `{UnicodeCase} {Q : Type} `{ByteQueue Q}.

Definition bound_to (k : Kernel Q) (kind fd : Z) : bool :=
  (3 <=? fd) && (fd <? 256) && (fd_table k !!! Z.to_nat fd =? kind).

Definition null_fd (k : Kernel Q) : Z -> bool := bound_to k Vfs.FD_BIND_DEVNULL.
Definition bus_fd (k : Kernel Q) : Z -> bool := bound_to k Vfs.FD_BIND_BUSENVELOPE.

Definition when (b : bool) (e : SyscallErr) : option SyscallErr := if b then Some e else None.

(** An envelope offered to the bus, [full] being the error of a full one. *)
Definition offer (k : Kernel Q) (env : bytes) (full : SyscallErr) : option SyscallErr :=
  if 1024 <? zlen env then Some Invalid
  else match q_contents (queue k) with Some _ => Some full | None => None end.

(** An envelope taken from the bus into [room] bytes. *)
Definition demand (k : Kernel Q) (room : Z) (idle : SyscallErr) : option SyscallErr :=
  match q_contents (queue k) with
  | None => Some idle
  | Some m => when (room <? zlen m) Invalid
  end.

(** The pages of a request, as a number of bytes; the code's rounding wraps
    on the last page of [usize] and then asks for nothing. *)
Definition page_bytes (len : Z) : Z := if len <=? 2 ^ 64 - 4096 then (len + 4095) / 4096 * 4096 else 0.

Definition refusal (k : Kernel Q) (c : call) : option SyscallErr :=
  match c with
  | Read fd buf len =>
      if zlen buf <? len then Some Invalid
      else if (fd =? 0) || null_fd k fd then None
      else if bus_fd k fd then demand k len Invalid
      else Some Invalid
  | Write fd buf =>
      if zlen buf =? 0 then Some Invalid
      else if (fd =? 1) || (fd =? 2) || null_fd k fd then None
      else if bus_fd k fd then offer k buf Invalid
      else Some Invalid
  | Exec env | EnvelopeSend env _ => if zlen env <? 32 then Some Invalid else offer k env Exhausted
  | Fork => when (spawn_counter k =? AgentRuntime.AGENT_REGISTRY_MAX) Exhausted
  | Mmap len prot =>
      if (len =? 0) || (prot =? 0) then Some Invalid
      else when (FrameAlloc.VIRTUAL_BASE_END <? next_virtual_base k + page_bytes len) Exhausted
  | Munmap addr len =>
      when ((len =? 0) || (addr <? FrameAlloc.VIRTUAL_BASE_START) || (FrameAlloc.VIRTUAL_BASE_END <=? addr)
            || negb (addr mod 4096 =? 0)) Invalid
  | EnvelopeRecv buf _ => if zlen buf =? 0 then Some Invalid else demand k (zlen buf) WouldBlock
  | HookwallPre env | HookwallPost env _ => when ((zlen env <? 2) || (64 <=? env !!! 0%nat)) Invalid
  | CosignAppend row => when (zlen row <? 16) Invalid
  | TierQuery path => when (negb (utf8_valid path) || (zlen path =? 0) || existsb (fun b => b =? 0) path) Invalid
  | GnnInfer _ out => when (zlen out =? 0) Invalid
  | Exit _ | Time | PidCurrent => None
  end.

(** The buffer a call borrows, and what the reply leaves in it. *)
Definition borrowed (c : call) : option bytes :=
  match c with Read _ buf _ | EnvelopeRecv buf _ | GnnInfer _ buf => Some buf | _ => None end.

Definition returned (r : reply) : option bytes := match r with RBuf _ buf => Some buf | _ => None end.

(** Calls one after the other. *)
Fixpoint run (k : Kernel Q) (cs : list call) : list reply * Kernel Q :=
  match cs with
  | [] => ([], k)
  | c :: cs' => let '(rs, k') := run (invoke k c).2 cs' in ((invoke k c).1 :: rs, k')
  end.

(** The calls of a run that the kernel does not refuse. *)
Fixpoint accepted (k : Kernel Q) (cs : list call) : list call :=
  match cs with
  | [] => []
  | c :: cs' =>
      let rest := accepted (invoke k c).2 cs' in
      match refusal k c with None => c :: rest | Some _ => rest end
  end.

Definition succeeded (r : reply) : bool := match error_of r with None => true | Some _ => false end.

End Table.

(** ** Each call against the table *)

Section Facts.
Context `{Digest} `{UnicodeCase} {Q : Type} `{ByteQueue Q}.

(** The outcome of a call: the error of the table, and if there is one the
    kernel and the buffer as before. *)
Definition as_in_table (k : Kernel Q) (c : call) : Prop :=
  error_of (invoke k c).1 = refusal k c /\
  (refusal k c <> None -> (invoke k c).2 = k /\ returned (invoke k c).1 = borrowed c).

(** Offering to the bus. *)
Lemma enqueue_offer (k : Kernel Q) env route full : q_ok (queue k) ->
  let '(r, q) := enqueue (queue k) env route in
  match offer k env full with
  | None => r = Ok tt
  | Some e => set_queue k q = k /\
      (r = Err Envelope.PayloadOversize /\ e = Invalid \/ r = Err Envelope.QueueFull /\ e = full)
  end.
Proof.
  intros Hq. pose proof (enqueue_spec (queue k) env route Hq) as Hs. unfold offer.
  destruct (enqueue _ _ _) as [r q]. rewrite Z.gtb_ltb in Hs. unfold Envelope.ENVELOPE_SLOT_BYTES in Hs.
  destruct Hs as [_ Hs].
  destruct (1024 <? zlen env); [destruct Hs as [-> ->]; rewrite set_queue_same; auto|].
  destruct (q_contents (queue k)); [destruct Hs as [-> ->]; rewrite set_queue_same; auto | by destruct Hs].
Qed.

(** Taking from the bus. *)
Lemma dequeue_demand (k : Kernel Q) buf w idle : q_ok (queue k) -> 0 <= w ->
  let '(r, q, buf') := dequeue (queue k) buf w in
  match demand k (zlen buf) idle with
  | None => is_ok r = true
  | Some e => set_queue k q = k /\ buf' = buf /\
      (r = Err Envelope.PayloadOversize /\ e = Invalid \/ r = Err Envelope.QueueEmpty /\ e = idle)
  end.
Proof.
  intros Hq Hw. pose proof (dequeue_spec (queue k) buf w Hq Hw) as Hs. unfold demand, when.
  destruct (dequeue _ _ _) as [[r q] buf']. destruct Hs as [_ Hs].
  destruct (q_contents (queue k)) as [m|]; [|destruct Hs as (-> & -> & ->); rewrite set_queue_same; auto].
  rewrite Z.ltb_antisym. destruct (zlen m <=? zlen buf); cbn [negb].
  - by destruct Hs as (-> & _).
  - destruct Hs as (-> & -> & ->). rewrite set_queue_same. auto.
Qed.

Lemma read_in_table k fd buf len : kernel_ok k -> call_ok (Read fd buf len) -> as_in_table k (Read fd buf len).
Proof.
  intros (Ht & Hq & _) [Hfd Hl]. unfold as_in_table. cbn [invoke refusal borrowed]. unfold sys_read, Vfs.vfs_read.
  destruct (zlen buf <? len) eqn:E0; [done|]. to_prop. unfold null_fd, bus_fd, bound_to, is_u in *.
  unfold Vfs.STDIN_FD, Vfs.STDOUT_FD, Vfs.STDERR_FD, Vfs.FD_TABLE_SIZE.
  destruct (Z.eqb_spec fd 0) as [->|N0]; [done|]. cbn [orb].
  destruct ((fd =? 1) || (fd =? 2)) eqn:E1.
  { rewrite (proj2 (Z.leb_gt 3 fd)) by (to_prop; lia). cbn. by rewrite set_queue_same. }
  rewrite (proj2 (Z.leb_le 3 fd)) by (to_prop; lia). cbn [andb]. rewrite Z.leb_antisym.
  destruct (fd <? 256); cbn [negb andb]; [|cbn; by rewrite set_queue_same].
  destruct (Z.eqb_spec (fd_table k !!! Z.to_nat fd) Vfs.FD_BIND_DEVNULL) as [->|N1].
  { by cbn. }
  destruct (Z.eqb_spec (fd_table k !!! Z.to_nat fd) Vfs.FD_BIND_BUSENVELOPE) as [->|N2].
  - change (Vfs.FD_BIND_BUSENVELOPE =? Vfs.FD_STATE_FREE) with false.
    change (Vfs.FD_BIND_BUSENVELOPE =? Vfs.FD_BIND_UNBACKED) with false. cbn [orb].
    pose proof (dequeue_demand k (take (Z.to_nat len) buf) 0 Invalid Hq (Z.le_refl 0)) as Hd.
    assert (Hz : zlen (take (Z.to_nat len) buf) = len) by (unfold zlen in *; rewrite length_take; lia).
    rewrite Hz in Hd. destruct (dequeue _ _ _) as [[r q] b]. destruct (demand k len Invalid) as [e|].
    + destruct Hd as (Hs & -> & [[-> ->]|[-> ->]]); cbn; by rewrite Hs, take_drop.
    + destruct r; [done | discriminate Hd].
  - destruct (fd_table k !!! Z.to_nat fd =? Vfs.FD_STATE_FREE), (fd_table k !!! Z.to_nat fd =? Vfs.FD_BIND_UNBACKED); cbn; by rewrite set_queue_same.
Qed.

Lemma write_in_table k fd buf : kernel_ok k -> call_ok (Write fd buf) -> as_in_table k (Write fd buf).
Proof.
  intros (Ht & Hq & _) Hfd. unfold as_in_table. cbn [invoke refusal borrowed call_ok] in *. unfold sys_write, Vfs.vfs_write.
  destruct (zlen buf =? 0) eqn:E0; [done|]. unfold null_fd, bus_fd, bound_to, is_u in *.
  unfold Vfs.STDIN_FD, Vfs.STDOUT_FD, Vfs.STDERR_FD, Vfs.FD_TABLE_SIZE.
  destruct ((fd =? 1) || (fd =? 2)) eqn:E1; [done|]. cbn [orb].
  destruct (Z.eqb_spec fd 0) as [->|N0]; [cbn; by rewrite set_queue_same|].
  rewrite (proj2 (Z.leb_le 3 fd)) by (to_prop; lia). cbn [andb]. rewrite Z.leb_antisym.
  destruct (fd <? 256); cbn [negb andb]; [|cbn; by rewrite set_queue_same].
  destruct (Z.eqb_spec (fd_table k !!! Z.to_nat fd) Vfs.FD_BIND_DEVNULL) as [->|N1]; [done|].
  destruct (Z.eqb_spec (fd_table k !!! Z.to_nat fd) Vfs.FD_BIND_BUSENVELOPE) as [->|N2].
  - change (Vfs.FD_BIND_BUSENVELOPE =? Vfs.FD_STATE_FREE) with false.
    change (Vfs.FD_BIND_BUSENVELOPE =? Vfs.FD_BIND_UNBACKED) with false. cbn [orb].
    pose proof (enqueue_offer k buf 0 Invalid Hq) as Hs. destruct (enqueue _ _ _) as [r q].
    destruct (offer k buf Invalid) as [e|]; [|by rewrite Hs].
    by destruct Hs as (Hs & [[-> ->]|[-> ->]]); cbn; rewrite Hs.
  - destruct (fd_table k !!! Z.to_nat fd =? Vfs.FD_STATE_FREE), (fd_table k !!! Z.to_nat fd =? Vfs.FD_BIND_UNBACKED); cbn;
      by rewrite set_queue_same.
Qed.

(** The two calls that put an envelope on the bus. *)
Lemma exec_in_table k env : kernel_ok k -> as_in_table k (Exec env).
Proof.
  intros (Ht & Hq & _). unfold as_in_table. cbn [invoke refusal borrowed]. unfold sys_exec.
  change Envelope.MIN_ENVELOPE_BYTES with 32. destruct (zlen env <? 32); [done|].
  pose proof (enqueue_offer k env 0 Exhausted Hq) as Hs. destruct (enqueue _ _ _) as [r q].
  destruct (offer k env Exhausted) as [e|]; [|by rewrite Hs].
  by destruct Hs as (Hs & [[-> ->]|[-> ->]]); cbn; rewrite Hs.
Qed.

Lemma send_in_table k env route : kernel_ok k -> as_in_table k (EnvelopeSend env route).
Proof.
  intros (Ht & Hq & _). unfold as_in_table. cbn [invoke refusal borrowed]. unfold sys_envelope_send.
  change Envelope.MIN_ENVELOPE_BYTES with 32. destruct (zlen env <? 32); [done|].
  pose proof (enqueue_offer k env route Exhausted Hq) as Hs. destruct (enqueue _ _ _) as [r q].
  destruct (offer k env Exhausted) as [e|]; [|by rewrite Hs].
  by destruct Hs as (Hs & [[-> ->]|[-> ->]]); cbn; rewrite Hs.
Qed.

Lemma recv_in_table k buf w : kernel_ok k -> call_ok (EnvelopeRecv buf w) -> as_in_table k (EnvelopeRecv buf w).
Proof.
  intros (Ht & Hq & _) [Hw _]. unfold as_in_table. cbn [invoke refusal borrowed]. unfold sys_envelope_recv.
  destruct (zlen buf =? 0); [done|].
  pose proof (dequeue_demand k buf w WouldBlock Hq Hw) as Hd. destruct (dequeue _ _ _) as [[r q] b].
  destruct (demand k (zlen buf) WouldBlock) as [e|].
  - by destruct Hd as (Hs & -> & [[-> ->]|[-> ->]]); cbn; rewrite Hs.
  - destruct r; [done | discriminate Hd].
Qed.

Lemma fork_in_table k : kernel_ok k -> as_in_table k Fork.
Proof.
  intros (_ & _ & _ & _ & Hc & _). unfold as_in_table. cbn [invoke refusal borrowed]. unfold sys_fork.
  rewrite spawn_child_cases by done. unfold when.
  by destruct (spawn_counter k =? AgentRuntime.AGENT_REGISTRY_MAX); [destruct k|].
Qed.

Lemma bytes_needed_pages len : 0 < len < 2 ^ 64 -> FrameAlloc.bytes_needed len = page_bytes len.
Proof.
  intros Hl. unfold page_bytes. destruct (Z.leb_spec len (2 ^ 64 - 4096)).
  - destruct (bytes_needed_spec len) as [B1 B2]; [unfold FrameAlloc.PAGE_BYTES; lia|].
    unfold FrameAlloc.PAGE_BYTES in *. pose proof (Z.div_mod (len + 4095) 4096).
    pose proof (Z.mod_pos_bound (len + 4095) 4096). pose proof (Z.div_mod (FrameAlloc.bytes_needed len) 4096). lia.
  - apply bytes_needed_wraps. unfold FrameAlloc.PAGE_BYTES. lia.
Qed.

Lemma mmap_in_table k len prot : kernel_ok k -> call_ok (Mmap len prot) -> as_in_table k (Mmap len prot).
Proof.
  intros (_ & _ & Hb & _) [Hl _]. unfold as_in_table. cbn [invoke refusal borrowed]. unfold sys_mmap.
  destruct (Z.eqb_spec len 0) as [->|N]; [done|]. destruct (prot =? 0); [done|]. cbn [orb].
  unfold FrameAlloc.alloc_pages. rewrite (proj2 (Z.eqb_neq len 0)) by done.
  rewrite bytes_needed_pages by (unfold is_u in Hl; lia).
  assert (E : (FrameAlloc.VIRTUAL_BASE_END <? sat_add 64 (next_virtual_base k) (page_bytes len)) =
              (FrameAlloc.VIRTUAL_BASE_END <? next_virtual_base k + page_bytes len)).
  { apply eq_true_iff_eq. rewrite !Z.ltb_lt. unfold sat_add.
    assert (FrameAlloc.VIRTUAL_BASE_END < 2 ^ 64 - 1) by (by vm_compute). lia. }
  rewrite E. unfold when. clear E.
  by destruct (FrameAlloc.VIRTUAL_BASE_END <? next_virtual_base k + page_bytes len); [destruct k|].
Qed.

Lemma munmap_in_table k addr len : as_in_table k (Munmap addr len).
Proof.
  unfold as_in_table. cbn [invoke refusal borrowed]. unfold sys_munmap, FrameAlloc.free_pages, when.
  destruct (Z.eqb_spec addr 0) as [->|_]; [by destruct (len =? 0)|].
  destruct (len =? 0); [done|]. cbn [orb]. change FrameAlloc.PAGE_BYTES with 4096.
  destruct (_ || _); [done|]. by destruct (negb _).
Qed.

Lemma contains_zero path : contains [0] path = existsb (fun b => b =? 0) path.
Proof.
  apply eq_true_iff_eq. rewrite contains_spec, existsb_exists. split.
  - intros (a & b & ->). exists 0. split; [|done]. apply in_app_iff. right. by left.
  - intros (z & Hz & ->%Z.eqb_eq). apply in_split in Hz as (a & b & ->). by exists a, b.
Qed.

Lemma tier_query_in_table k path : as_in_table k (TierQuery path).
Proof.
  unfold as_in_table. cbn [invoke refusal borrowed]. split; [|done]. unfold sys_tier_query, when.
  destruct (utf8_valid path); cbn [negb orb]; [|done]. unfold Tier.classify_path.
  rewrite contains_zero. replace (bytes_eqb path []) with (zlen path =? 0) by (by destruct path).
  destruct ((zlen path =? 0) || _); [done|].
  by repeat split_if.
Qed.

Lemma invoke_in_table k c : kernel_ok k -> call_ok c -> as_in_table k c.
Proof.
  intros Hk Hc. destruct c.
  - by apply read_in_table.
  - by apply write_in_table.
  - by apply exec_in_table.
  - by apply fork_in_table.
  - done.
  - by apply mmap_in_table.
  - apply munmap_in_table.
  - done.
  - done.
  - by apply send_in_table.
  - by apply recv_in_table.
  - unfold as_in_table. cbn [invoke refusal borrowed]. unfold sys_hookwall_pre, Hookwall.hookwall_pre, when.
    destruct (zlen env <? 2); [done|]. cbn [orb]. change Hookwall.HOOKWALL_SLOT_COUNT with 64.
    by destruct (64 <=? _).
  - unfold as_in_table. cbn [invoke refusal borrowed]. unfold sys_hookwall_post, when.
    destruct (zlen env <? 2); [done|]. rewrite hookwall_post_cases. cbn [orb].
    change Hookwall.HOOKWALL_SLOT_COUNT with 64. cbn [hook_context Hookwall.slot].
    by destruct (64 <=? _); [destruct k|].
  - unfold as_in_table. cbn [invoke refusal borrowed]. unfold sys_cosign_append, CosignChain.append_bytes, when.
    change MIN_COSIGN_ROW_BYTES with 16. destruct (zlen row <? 16) eqn:E; [done|].
    rewrite (proj2 (bytes_eqb_false row [])); [done|]. intros ->. by change (zlen []) with 0 in *.
  - apply tier_query_in_table.
  - unfold as_in_table. cbn [invoke refusal borrowed]. unfold sys_gnn_infer, when. by destruct (zlen out =? 0).
Qed.

Lemma run_ok_state cs k : kernel_ok k -> Forall call_ok cs -> kernel_ok (run k cs).2.
Proof.
  intros Hk Hcs. revert k Hk. induction Hcs as [|c cs Hc _ IH]; intros k Hk; cbn [run]; [done|].
  specialize (IH (invoke k c).2 (invoke_ok k c Hk Hc)). by destruct (run _ cs).
Qed.

Lemma run_accepted cs k : kernel_ok k -> Forall call_ok cs ->
  run k (accepted k cs) = (List.filter succeeded (run k cs).1, (run k cs).2).
Proof.
  intros Hk Hcs. revert k Hk. induction Hcs as [|c cs Hc _ IH]; intros k Hk; cbn [run accepted]; [done|].
  specialize (IH (invoke k c).2 (invoke_ok k c Hk Hc)).
  destruct (invoke_in_table k c Hk Hc) as [E A].
  destruct (run (invoke k c).2 cs) as [rs k'] eqn:R. cbn [fst snd List.filter].
  unfold succeeded at 1. rewrite E. destruct (refusal k c) as [e|].
  - destruct A as [A _]; [done|]. by rewrite A in *.
  - cbn [run]. by rewrite IH.
Qed.

(** ** Theorem *)

(** C19. Errors of the kernel. After any run of calls, each call fails exactly
    when the table says so and with the error it names, and then every
    static and the caller's buffer are as before; so the refused calls can
    be struck from any run: the others get the same replies and leave the
    same kernel. *)
Theorem refusals_exact_and_atomic k cs :
  kernel_ok k -> Forall call_ok cs ->
  (forall c, call_ok c ->
     let k' := (run k cs).2 in
     error_of (invoke k' c).1 = refusal k' c /\
     (refusal k' c <> None -> (invoke k' c).2 = k' /\ returned (invoke k' c).1 = borrowed c)) /\
  run k (accepted k cs) = (List.filter succeeded (run k cs).1, (run k cs).2).
Proof.
  intros Hk Hcs. split; [|by apply run_accepted].
  intros c Hc k'. apply invoke_in_table; [by apply run_ok_state | done].
Qed.

End Facts.

(** A bus that is full, then read into too small a buffer, then emptied;
    between them a fork, an empty mapping and a wrapped one. *)
Definition sample_run : list call :=
  [EnvelopeRecv (replicate 64 0) 0; EnvelopeSend (replicate 40 7) 0; Exec (replicate 40 8); Fork;
   EnvelopeRecv (replicate 39 0) 0; Mmap 0 1; Mmap (2 ^ 64 - 1) 1; EnvelopeRecv (replicate 64 0) 0].

Lemma refusals_exact_and_atomic_witness :
  let _ := boot_digest in let _ := ascii_case in
  accepted boot_kernel sample_run =
    [EnvelopeSend (replicate 40 7) 0; Fork; Mmap (2 ^ 64 - 1) 1; EnvelopeRecv (replicate 64 0) 0] /\
  (run boot_kernel (accepted boot_kernel sample_run)).2 = (run boot_kernel sample_run).2 /\
  map error_of (run boot_kernel sample_run).1 =
    [Some WouldBlock; None; Some Exhausted; None; Some Invalid; Some Invalid; None; None].
Proof.
  intros d u. split; [by vm_compute|]. split; [|by vm_compute].
  assert (Hcs : Forall (@call_ok) sample_run) by (repeat constructor; by vm_compute).
  exact (f_equal snd (proj2 (refusals_exact_and_atomic (H:=boot_digest) (H0:=ascii_case) boot_kernel sample_run
           boot_kernel_ok Hcs))).
Defined.
