(* ===== verification/Concurrent.v ===== *)
(** * The system calls run at once ([kernel/core/src/syscall/mod.rs])

    The sixteen calls, and the opening and closing of descriptors, as
    threads over the shared statics: one atomic operation per step, the
    calls of the envelope queue, the frame allocator, the child counter and
    the descriptor table inlined where the code calls them. Each of these
    parts is simulated by the whole, so that what is proved of a part holds
    in every interleaving of system calls. *)

From S2P Require Import Prelude Digest Sha256 Access CosignChain SyscallTypes Hookwall Gnn Interleave Envelope Queue.
From S2P Require Import FrameAlloc Vfs AgentRuntime AgentRegistry Utf8 Syscall.

(** ** A counter advanced by [fetch_add] *)

Module FetchAdd.

#[local] Open Scope Z_scope.

Inductive thread := FReady | FDone (v : Z).

(** The event is the value returned. *)
Definition tstep (counter : Z) (t : thread) : option (Z * thread * list Z) :=
  match t with
  | FReady => Some (wrap64 (counter + 1), FDone counter, [counter])
  | FDone _ => None
  end.

End FetchAdd.

Module Concurrent.

Import Syscall.
#[local] Open Scope Z_scope.

Section Threads.
Context `{Digest} `{UnicodeCase}.

Abbreviation Statics := (Kernel Envelope.Slot).

Definition set_fds (k : Statics) (t : list Z) : Statics :=
  mkKernel t (queue k) (next_virtual_base k) (append_seq k) (spawn_counter k)
    (exec_handle_next k) (monotonic_counter k).

(** A call in progress, with the call it runs; [KFd] is [vfs_open] or
    [vfs_close]. *)
Inductive kthread :=
| KStart (c : call)
| KQueue (c : call) (t : Envelope.thread)
| KMint (c : call)
| KFrames (c : call) (t : FrameAlloc.thread)
| KFork (c : call) (t : AgentRuntime.thread)
| KSpin (c : call)
| KDone (c : call) (r : reply)
| KFd (t : Vfs.thread).

Inductive kevent :=
| EvQueue (e : Envelope.event)
| EvGrant (g : FrameAlloc.grant)
| EvFork (prev : Z)
| EvFd (e : Vfs.event)
| EvExec (h : Z)
| EvRow (prev : Z)
| EvTick (v : Z).

(** The call of the queue a system call makes when it gets that far. *)
Definition bus_thread (c : call) : Envelope.thread :=
  match c with
  | Read _ buf len => Envelope.DStart (zlen (take (Z.to_nat len) buf)) 0 (Envelope.spin_budget_of 0)
  | Write _ buf => Envelope.EStart buf 0
  | Exec env => Envelope.EStart env 0
  | EnvelopeSend env h => Envelope.EStart env h
  | EnvelopeRecv buf w => Envelope.DStart (zlen buf) 0 (Envelope.spin_budget_of w)
  | _ => Envelope.DStart 0 0 1
  end.

Definition recv_err (e : Envelope.EnvelopeErr) : SyscallErr :=
  match e with Envelope.QueueEmpty => WouldBlock | _ => Invalid end.

(** Back from the queue. *)
Definition bus_return (c : call) (t : Envelope.thread) : option kthread :=
  match c, t with
  | Read _ buf _, Envelope.DDone (Ok acc) => Some (KDone c (RBuf (Ok (zlen acc)) (acc ++ drop (length acc) buf)))
  | Read _ buf _, Envelope.DDone (Err _) => Some (KDone c (RBuf (Err Invalid) buf))
  | Write _ buf, Envelope.EDone (Ok _) => Some (KDone c (RNum (Ok (zlen buf))))
  | Write _ _, Envelope.EDone (Err _) => Some (KDone c (RNum (Err Invalid)))
  | Exec _, Envelope.EDone (Ok _) => Some (KMint c)
  | Exec _, Envelope.EDone (Err e) => Some (KDone c (RNum (Err (enqueue_err e))))
  | EnvelopeSend _ _, Envelope.EDone (Ok _) => Some (KDone c (RUnit (Ok tt)))
  | EnvelopeSend _ _, Envelope.EDone (Err e) => Some (KDone c (RUnit (Err (enqueue_err e))))
  | EnvelopeRecv buf _, Envelope.DDone (Ok acc) =>
      Some (KDone c (RBuf (Ok (zlen acc)) (acc ++ drop (length acc) buf)))
  | EnvelopeRecv buf _, Envelope.DDone (Err e) => Some (KDone c (RBuf (Err (recv_err e)) buf))
  | _, _ => None
  end.

Definition mmap_reply (r : result FrameAlloc.FrameErr Z) : reply :=
  RNum match r with Ok p => Ok p | Err FrameAlloc.PoolExhausted => Err Exhausted | Err _ => Err Invalid end.

Definition fork_reply (r : result AgentRuntime.AgentErr Z) : reply :=
  RNum match r with Ok h => Ok h | Err AgentRuntime.RegistryFull => Err Exhausted | Err _ => Err Invalid end.

(** What a call without further steps did. *)
Definition short_events (m : Statics) (c : call) (r : reply) : list kevent :=
  match c, r with
  | Time, RNum (Ok v) => [EvTick v]
  | CosignAppend _, RNum (Ok _) => [EvRow (append_seq m)]
  | HookwallPost _ _, RUnit (Ok _) => [EvRow (append_seq m)]
  | _, _ => []
  end.

(** From the entry of a call to its first atomic operation. The remaining
    calls make one atomic operation at most: they are their function. *)
Definition start_step (m : Statics) (c : call) : option (Statics * kthread * list kevent) :=
  let ret r := Some (m, KDone c r, []) in
  let goto t := Some (m, t, []) in
  match c with
  | Read fd buf len =>
      if (zlen buf <? len) then ret (RBuf (Err Invalid) buf)
      else if (fd =? Vfs.STDIN_FD) then ret (RBuf (Ok 0) buf)
      else if (fd =? Vfs.STDOUT_FD) || (fd =? Vfs.STDERR_FD) then ret (RBuf (Err Invalid) buf)
      else if (Vfs.FD_TABLE_SIZE <=? fd) then ret (RBuf (Err Invalid) buf)
      else
        let kind := fd_table m !!! Z.to_nat fd in
        if (kind =? Vfs.FD_BIND_DEVNULL) then ret (RBuf (Ok 0) buf)
        else if (kind =? Vfs.FD_BIND_BUSENVELOPE) then goto (KQueue c (bus_thread c))
        else ret (RBuf (Err Invalid) buf)
  | Write fd buf =>
      if (zlen buf =? 0) then ret (RNum (Err Invalid))
      else if (fd =? Vfs.STDOUT_FD) || (fd =? Vfs.STDERR_FD) then ret (RNum (Ok (zlen buf)))
      else if (fd =? Vfs.STDIN_FD) then ret (RNum (Err Invalid))
      else if (Vfs.FD_TABLE_SIZE <=? fd) then ret (RNum (Err Invalid))
      else
        let kind := fd_table m !!! Z.to_nat fd in
        if (kind =? Vfs.FD_BIND_DEVNULL) then ret (RNum (Ok (zlen buf)))
        else if (kind =? Vfs.FD_BIND_BUSENVELOPE) then goto (KQueue c (bus_thread c))
        else ret (RNum (Err Invalid))
  | Exec env =>
      if (zlen env <? Envelope.MIN_ENVELOPE_BYTES) then ret (RNum (Err Invalid)) else goto (KQueue c (bus_thread c))
  | EnvelopeSend env _ =>
      if (zlen env <? Envelope.MIN_ENVELOPE_BYTES) then ret (RUnit (Err Invalid)) else goto (KQueue c (bus_thread c))
  | EnvelopeRecv buf _ =>
      if (zlen buf =? 0) then ret (RBuf (Err Invalid) buf) else goto (KQueue c (bus_thread c))
  | Fork => goto (KFork c AgentRuntime.FStart)
  | Mmap len prot =>
      if (len =? 0) then ret (RNum (Err Invalid))
      else if (prot =? 0) then ret (RNum (Err Invalid))
      else goto (KFrames c (FrameAlloc.AStart len))
  | Exit _ => goto (KSpin c)
  | _ => let '(r, m') := invoke m c in Some (m', KDone c r, short_events m c r)
  end.

(** One step of a call. *)
Definition kstep (m : Statics) (t : kthread) : option (Statics * kthread * list kevent) :=
  match t with
  | KStart c => start_step m c
  | KQueue c t =>
      match Envelope.tstep (queue m) t with
      | Some (q, t', es) => Some (set_queue m q, KQueue c t', map EvQueue es)
      | None => t' ← bus_return c t; Some (m, t', [])
      end
  | KMint c =>
      let h := exec_handle_next m in
      Some (set_exec m (queue m) (wrap64 (h + 1)), KDone c (RNum (Ok h)), [EvExec h])
  | KFrames c t =>
      match FrameAlloc.tstep (next_virtual_base m) t with
      | Some (b, t', es) => Some (set_base m b, KFrames c t', map EvGrant es)
      | None => match t with FrameAlloc.ADone r => Some (m, KDone c (mmap_reply r), []) | _ => None end
      end
  | KFork c t =>
      match AgentRuntime.tstep (spawn_counter m) t with
      | Some (n, t', es) => Some (set_spawn m n, KFork c t', map EvFork es)
      | None => match t with AgentRuntime.FDone r => Some (m, KDone c (fork_reply r), []) | _ => None end
      end
  | KSpin c => Some (m, KSpin c, [])
  | KDone _ _ => None
  | KFd t =>
      match Vfs.tstep (fd_table m) t with
      | Some (fds, t', es) => Some (set_fds m fds, KFd t', map EvFd es)
      | None => None
      end
  end.

Definition starting (t : kthread) : Prop :=
  match t with KStart c => call_ok c | KFd t => Vfs.starting t | _ => False end.

Definition boot (ts : list kthread) : iconf (M := Statics) (E := kevent) := IConf boot_kernel ts [].

End Threads.
End Concurrent.

Import FetchAdd Syscall Concurrent.
#[local] Open Scope Z_scope.

(** ** The counters *)

(** The values returned are consecutive, modulo the width, in the order of
    the atomic operations, and each thread got the one logged for it. *)
Lemma fetch_add_spec start n c :
  is_u 64 start -> ireach FetchAdd.tstep (IConf start (replicate n FReady) []) c ->
  (length (ilog c) <= n)%nat /\
  (ilog c).*2 = map (fun i => wrap64 (start + Z.of_nat i)) (seq 0 (length (ilog c))) /\
  forall k v, ipool c !! k = Some (FDone v) -> (k, v) ∈ ilog c.
Proof.
  intros Hs Hr. split.
  { apply (ireach_log_bound FetchAdd.tstep (fun t => match t with FReady => 1 | _ => 0 end)%nat) in Hr.
    - pose proof (sum_const (fun t => match t with FReady => 1 | _ => 0 end)%nat 1 (replicate n FReady)) as Hb.
      rewrite length_replicate in Hb. specialize (Hb ltac:(by apply Forall_replicate)). lia.
    - intros m t m' t' es E. destruct t; cbn in E; simplify_eq; cbn; lia. }
  destruct (ireach_inv FetchAdd.tstep
    (fun m l => m = wrap64 (start + zlen l) /\
       l.*2 = map (fun i => wrap64 (start + Z.of_nat i)) (seq 0 (length l)))
    (fun _ l k t => match t with FDone v => (k, v) ∈ l | _ => True end)
    start (replicate n FReady)) with (c := c) as [[_ HS] HL]; [| | |exact Hr|].
  - split; [|done]. rewrite Z.add_0_r. symmetry. by apply wrap_id.
  - intros k t Hk. by apply lookup_replicate in Hk as [-> _].
  - intros m l k t m' t' es [Hm Hl] HL E l'. subst l'. destruct t; cbn in E; simplify_eq. cbn [map].
    split_and!.
    + rewrite zlen_snoc. unfold wrap. rewrite Zplus_mod_idemp_l. f_equal. lia.
    + rewrite fmap_app, Hl, length_app, seq_app, map_app. done.
    + apply elem_of_app. right. by left.
    + intros j u Hj. destruct u; [done|]. apply elem_of_app. by left.
  - split; [done|]. intros k v Hk. apply (HL k _ Hk).
Qed.

Lemma fetch_add_range start n c k v :
  is_u 64 start -> ireach FetchAdd.tstep (IConf start (replicate n FReady) []) c ->
  ipool c !! k = Some (FDone v) -> is_u 64 v.
Proof.
  intros Hs Hr Hk. destruct (fetch_add_spec start n c Hs Hr) as (_ & Hl & HL). apply HL in Hk.
  assert (Hv : v ∈ (ilog c).*2) by (apply list_elem_of_fmap; by exists (k, v)).
  rewrite Hl in Hv. apply list_elem_of_fmap in Hv as (i & -> & _). by apply wrap_range.
Qed.

Lemma fetch_add_once start n c j k v :
  is_u 64 start -> Z.of_nat n < 2 ^ 64 -> ireach FetchAdd.tstep (IConf start (replicate n FReady) []) c ->
  ipool c !! j = Some (FDone v) -> ipool c !! k = Some (FDone v) -> j = k.
Proof.
  intros Hs Hn Hr Hj Hk. destruct (fetch_add_spec start n c Hs Hr) as (Hlen & Hl & HL).
  apply HL in Hj, Hk. apply list_elem_of_lookup in Hj as [x Hx], Hk as [y Hy].
  assert (Hv : forall i h w, ilog c !! i = Some (h, w) -> (i < length (ilog c))%nat /\ w = wrap64 (start + Z.of_nat i)).
  { intros i h w Hi. assert (Hlt := lookup_lt_Some _ _ _ Hi). split; [done|].
    assert (E : (ilog c).*2 !! i = Some w) by by rewrite list_lookup_fmap, Hi.
    rewrite Hl, list_lookup_fmap, lookup_seq_lt in E by done. by simplify_eq/=. }
  destruct (Hv _ _ _ Hx) as [Hxl Ex], (Hv _ _ _ Hy) as [Hyl Ey].
  assert (Z.of_nat x = Z.of_nat y) as Exy.
  { rewrite Ex in Ey. apply (wrap_add_inj 64 start); [lia..|done]. }
  apply Nat2Z.inj in Exy. subst y. rewrite Hx in Hy. congruence.
Qed.

(** ** The first step of a call *)

Section Facts.
Context `{Digest} `{UnicodeCase}.

Implicit Types (m : Kernel Envelope.Slot) (t : kthread).

(** Calls of one atomic operation at most. *)
Definition short (c : call) : Prop :=
  match c with
  | Munmap _ _ | Time | PidCurrent | HookwallPre _ | HookwallPost _ _ | CosignAppend _ | TierQuery _
  | GnnInfer _ _ => True
  | _ => False
  end.

(** The replies a call gives without entering the part it uses. *)
Definition early (c : call) (r : reply) : Prop :=
  match c with
  | Read _ buf _ => r = RBuf (Err Invalid) buf \/ r = RBuf (Ok 0) buf
  | Write _ buf => r = RNum (Err Invalid) \/ r = RNum (Ok (zlen buf))
  | Exec _ | Mmap _ _ => r = RNum (Err Invalid)
  | EnvelopeSend _ _ => r = RUnit (Err Invalid)
  | EnvelopeRecv buf _ => r = RBuf (Err Invalid) buf
  | _ => False
  end.

Inductive entry m (c : call) : Kernel Envelope.Slot -> kthread -> list kevent -> Prop :=
| entry_early r : early c r -> entry m c m (KDone c r) []
| entry_bus : entry m c m (KQueue c (bus_thread c)) []
| entry_fork : c = Fork -> entry m c m (KFork c AgentRuntime.FStart) []
| entry_mmap len prot : c = Mmap len prot -> entry m c m (KFrames c (FrameAlloc.AStart len)) []
| entry_exit s : c = Exit s -> entry m c m (KSpin c) []
| entry_short r m' : short c -> invoke m c = (r, m') -> entry m c m' (KDone c r) (short_events m c r).

#[local] Hint Constructors entry : core.

Lemma start_step_entry m c m' t es : start_step m c = Some (m', t, es) -> entry m c m' t es.
Proof.
  unfold start_step. destruct c; intros E.
  1-2: repeat (split_if_in E; [simplify_eq; constructor; cbn; auto|]); by simplify_eq; eauto; constructor; cbn; auto.
  all: try (destruct (invoke _ _) as [r k'] eqn:Ei; simplify_eq; by constructor).
  all: repeat (split_if_in E; [simplify_eq; constructor; cbn; auto|]); simplify_eq; eauto.
Qed.
(** What the short calls do to the statics. *)
Lemma short_spec m c r m' : short c -> invoke m c = (r, m') ->
  fd_table m' = fd_table m /\ queue m' = queue m /\ next_virtual_base m' = next_virtual_base m /\
  spawn_counter m' = spawn_counter m /\ exec_handle_next m' = exec_handle_next m /\
  match short_events m c r with
  | [] => c <> Time /\ append_seq m' = append_seq m /\ monotonic_counter m' = monotonic_counter m
  | [EvTick v] => c = Time /\ r = RNum (Ok v) /\ v = monotonic_counter m /\ append_seq m' = append_seq m /\
      monotonic_counter m' = wrap64 (monotonic_counter m + 1)
  | [EvRow p] => c <> Time /\ p = append_seq m /\ append_seq m' = wrap64 (append_seq m + 1) /\
      monotonic_counter m' = monotonic_counter m /\
      (forall row, c = CosignAppend row -> r = RNum (Ok (wrap64 (p + 1))))
  | _ => False
  end.
Proof.
  intros Hs E. destruct c; try done; cbn in E.
  - unfold sys_munmap in E. by repeat split_if_in E; simplify_eq.
  - unfold sys_time in E. by simplify_eq.
  - by simplify_eq.
  - by simplify_eq.
  - unfold sys_hookwall_post in E. split_if_in E; [by simplify_eq|]. rewrite hookwall_post_cases in E.
    by split_if_in E; simplify_eq/=.
  - unfold sys_cosign_append, CosignChain.append_bytes in E. split_if_in E; [by simplify_eq|].
    split_if_in E; simplify_eq/=; [done|]. split_and!; done.
  - by simplify_eq.
  - unfold sys_gnn_infer in E. by repeat case_match; simplify_eq/=.
Qed.

(** ** The parts are simulated by the whole *)

(** Every event of a step, by the part it belongs to. *)
Definition ev_queue (e : kevent) := match e with EvQueue e => Some e | _ => None end.
Definition ev_grant (e : kevent) := match e with EvGrant g => Some g | _ => None end.
Definition ev_fork (e : kevent) := match e with EvFork p => Some p | _ => None end.
Definition ev_fd (e : kevent) := match e with EvFd e => Some e | _ => None end.
Definition ev_exec (e : kevent) := match e with EvExec h => Some h | _ => None end.
Definition ev_row (e : kevent) := match e with EvRow p => Some p | _ => None end.
Definition ev_tick (e : kevent) := match e with EvTick v => Some v | _ => None end.

Lemma omap_map {A B C} (f : A -> B) (g : B -> option C) l : omap g (map f l) = omap (fun x => g (f x)) l.
Proof. induction l as [|x l IH]; [done|]. cbn. by rewrite IH. Qed.

Lemma omap_map_some {A B} (f : A -> B) (g : B -> option A) l :
  (forall x, g (f x) = Some x) -> omap g (map f l) = l.
Proof. intros Hg. induction l as [|x l IH]; [done|]. cbn. by rewrite Hg, IH. Qed.

Lemma omap_map_none {A B C} (f : A -> B) (g : B -> option C) l :
  (forall x, g (f x) = None) -> omap g (map f l) = [].
Proof. intros Hg. induction l as [|x l IH]; [done|]. cbn. by rewrite Hg. Qed.

(** The steps of a part belong to the call that uses it. *)
Definition well_placed t : Prop :=
  match t with
  | KMint c => exists env, c = Exec env
  | KFrames c _ => exists len prot, c = Mmap len prot
  | KFork c _ => c = Fork
  | _ => True
  end.

Lemma kstep_placed m t m' t' es : well_placed t -> kstep m t = Some (m', t', es) -> well_placed t'.
Proof.
  intros Hw E. destruct t as [c|c t|c|c t|c t|c|c r|t]; cbn [kstep] in E.
  - apply start_step_entry in E. destruct E; cbn; eauto.
  - destruct (Envelope.tstep _ _) as [[[q t1] es1]|]; [by simplify_eq|].
    destruct (bus_return c t) as [t1|] eqn:Eb; cbn in E; simplify_eq.
    destruct c, t as [| | | | | |[[]|]| | | | | | | |[|]]; cbn in Eb; simplify_eq; cbn; eauto.
  - by simplify_eq.
  - destruct (FrameAlloc.tstep _ _) as [[[q t1] es1]|]; [by simplify_eq|]. by destruct t; simplify_eq.
  - destruct (AgentRuntime.tstep _ _) as [[[q t1] es1]|]; [by simplify_eq|]. by destruct t; simplify_eq.
  - by simplify_eq.
  - done.
  - by destruct (Vfs.tstep _ _) as [[[q t1] es1]|]; simplify_eq.
Qed.

(** A part whose relation holds of a placed thread is simulated: what is
    left to show for each way a step can go. *)
Section Part.
Context {M2 T2 E2 : Type} (step2 : M2 -> T2 -> option (M2 * T2 * list E2)).
Context (proj : Kernel Envelope.Slot -> M2) (ev : kevent -> option E2) (R : kthread -> T2 -> Prop).

Definition part_step m t : Prop := forall m' t' es u, R t u -> kstep m t = Some (m', t', es) ->
  (proj m' = proj m /\ omap ev es = [] /\ R t' u) \/
  exists u', step2 (proj m) u = Some (proj m', u', omap ev es) /\ R t' u'.

Lemma part_simulates :
  (forall m t, well_placed t -> part_step m t) ->
  simulates kstep step2 proj ev (fun _ t u => well_placed t /\ R t u).
Proof.
  intros Hp k m t m' t' es u [Hw HR] E. assert (Hw' := kstep_placed _ _ _ _ _ Hw E).
  destruct (Hp m t Hw _ _ _ _ HR E) as [(? & ? & ?)|(u' & ? & ?)]; [by left | right; by exists u'].
Qed.
End Part.

(** The state of a call against the queue's thread. *)
Definition bus_rel t (u : Envelope.thread) : Prop :=
  match t with
  | KStart c => u = bus_thread c
  | KQueue c t' => u = t'
  | KMint c => u = Envelope.EDone (Ok tt)
  | KDone (EnvelopeRecv buf _) (RBuf (Ok n) b) =>
      exists acc, u = Envelope.DDone (Ok acc) /\ n = zlen acc /\ b = acc ++ drop (length acc) buf
  | KDone (Read _ buf _) (RBuf (Ok n) b) =>
      n = 0 /\ b = buf \/
      exists acc, u = Envelope.DDone (Ok acc) /\ n = zlen acc /\ b = acc ++ drop (length acc) buf
  | KDone (EnvelopeSend _ _) (RUnit (Ok _)) | KDone (Exec _) (RNum (Ok _)) => u = Envelope.EDone (Ok tt)
  | _ => True
  end.

Lemma bus_step m t : well_placed t -> part_step Envelope.tstep queue ev_queue bus_rel m t.
Proof.
  intros Hw m' t' es u HR E. destruct t as [c|c t|c|c t|c t|c|c r|t]; cbn [kstep] in E.
  - left. apply start_step_entry in E. destruct E as [r He| |Ec|len prot Ec|s Ec|r m' Hs Ei]; try subst c; try done.
    + split_and!; [done..|]. destruct c; try done; cbn in He; try by subst r.
      destruct He as [->| ->]; [done|]. by left.
    + destruct (short_spec m c r m' Hs Ei) as (_ & Hq & _). split_and!; [done| |].
      * destruct c, r as [[]|[]|[]| | |]; done.
      * by destruct c.
  - destruct (Envelope.tstep (queue m) t) as [[[q t1] es1]|] eqn:Et.
    + simplify_eq. right. exists t1. cbn in HR. subst u. cbn. rewrite omap_map_some by done. done.
    + left. destruct (bus_return c t) as [t1|] eqn:Eb; cbn in E; simplify_eq. split_and!; [done..|].
      cbn in HR. subst u. destruct c, t as [| | | | | |[[]|]| | | | | | | |[|]]; cbn in Eb; simplify_eq; try done;
        cbn; eauto.
  - left. simplify_eq. destruct Hw as [env ->]. by split_and!.
  - left. destruct Hw as (len & prot & ->). destruct (FrameAlloc.tstep _ t) as [[[b t1] es1]|]; simplify_eq; cbn.
    + by rewrite omap_map_none by done.
    + by destruct t; simplify_eq.
  - left. cbn in Hw. subst c. destruct (AgentRuntime.tstep _ t) as [[[b t1] es1]|]; simplify_eq; cbn.
    + by rewrite omap_map_none by done.
    + by destruct t; simplify_eq.
  - left. by simplify_eq.
  - done.
  - left. destruct (Vfs.tstep _ _) as [[[q t1] es1]|]; simplify_eq; cbn. by rewrite omap_map_none by done.
Qed.

(** A step of another part. *)
Ltac other_part :=
  left; simplify_eq; repeat (case_match; simplify_eq); cbn; rewrite ?omap_map_none by done; split_and!; done.

(** A step of this part, or its return. *)
Ltac own_part := simplify_eq;
  first [ right; eexists; cbn; rewrite omap_map_some by done; split; reflexivity
        | left; repeat (case_match; simplify_eq); split_and!; [done | done | cbn; repeat case_match; by simplify_eq] ].

Definition frame_rel t (u : FrameAlloc.thread) : Prop :=
  match t with
  | KStart c => match c with Mmap len _ => u = FrameAlloc.AStart len | _ => u = FrameAlloc.AStart 0 end
  | KFrames _ t' => u = t'
  | KDone (Mmap _ _) (RNum (Ok p)) => u = FrameAlloc.ADone (Ok p)
  | _ => True
  end.

Lemma frame_step m t : well_placed t -> part_step FrameAlloc.tstep next_virtual_base ev_grant frame_rel m t.
Proof.
  intros Hw m' t' es u HR E. destruct t as [c|c t|c|c t|c t|c|c r|t]; cbn [kstep] in E.
  - left. apply start_step_entry in E. destruct E as [r He| |Ec|len prot Ec|s Ec|r m' Hs Ei]; try subst c; try done.
    + split_and!; [done..|]. destruct c; try done; cbn in He; by subst r.
    + destruct (short_spec m c r m' Hs Ei) as (_ & _ & Hq & _). split_and!; [done| |by destruct c].
      by destruct c, r as [[]|[]|[]| | |].
  - destruct (Envelope.tstep _ _) as [[[q t1] es1]|]; [by other_part|]. left.
    destruct (bus_return c t) as [t1|] eqn:Eb; cbn in E; simplify_eq. split_and!; [done..|].
    by destruct c, t as [| | | | | |[[]|]| | | | | | | |[|]]; cbn in Eb; simplify_eq.
  - destruct Hw as [env ->]. other_part.
  - destruct Hw as (len & prot & ->). cbn in HR. subst u. destruct (FrameAlloc.tstep _ t) as [[[? ?] ?]|]; own_part.
  - cbn in Hw. subst c. other_part.
  - other_part.
  - done.
  - other_part.
Qed.

Definition fork_rel t (u : AgentRuntime.thread) : Prop :=
  match t with
  | KStart _ => u = AgentRuntime.FStart
  | KFork _ t' => u = t'
  | KDone Fork (RNum (Ok h)) => u = AgentRuntime.FDone (Ok h)
  | _ => True
  end.

Lemma fork_step m t : well_placed t -> part_step AgentRuntime.tstep spawn_counter ev_fork fork_rel m t.
Proof.
  intros Hw m' t' es u HR E. destruct t as [c|c t|c|c t|c t|c|c r|t]; cbn [kstep] in E.
  - left. apply start_step_entry in E. destruct E as [r He| |Ec|len prot Ec|s Ec|r m' Hs Ei]; try subst c; try done.
    + split_and!; [done..|]. destruct c; try done; cbn in He; by subst r.
    + destruct (short_spec m c r m' Hs Ei) as (_ & _ & _ & Hq & _). split_and!; [done| |by destruct c].
      by destruct c, r as [[]|[]|[]| | |].
  - destruct (Envelope.tstep _ _) as [[[q t1] es1]|]; [by other_part|]. left.
    destruct (bus_return c t) as [t1|] eqn:Eb; cbn in E; simplify_eq. split_and!; [done..|].
    by destruct c, t as [| | | | | |[[]|]| | | | | | | |[|]]; cbn in Eb; simplify_eq.
  - destruct Hw as [env ->]. other_part.
  - destruct Hw as (len & prot & ->). other_part.
  - cbn in Hw. subst c. cbn in HR. subst u. destruct (AgentRuntime.tstep _ t) as [[[? ?] ?]|]; own_part.
  - other_part.
  - done.
  - other_part.
Qed.

Definition fd_rel t (u : Vfs.thread) : Prop :=
  match t with KFd t' => u = t' | _ => True end.

Lemma fd_step m t : well_placed t -> part_step Vfs.tstep fd_table ev_fd fd_rel m t.
Proof.
  intros Hw m' t' es u HR E. destruct t as [c|c t|c|c t|c t|c|c r|t]; cbn [kstep] in E.
  - left. apply start_step_entry in E. destruct E as [r He| |Ec|len prot Ec|s Ec|r m' Hs Ei]; try done.
    destruct (short_spec m c r m' Hs Ei) as (Hq & _). split_and!; [done| |done].
    by destruct c, r as [[]|[]|[]| | |].
  - destruct (Envelope.tstep _ _) as [[[q t1] es1]|]; [by other_part|]. left.
    destruct (bus_return c t) as [t1|] eqn:Eb; cbn in E; simplify_eq. split_and!; [done..|].
    by destruct c, t as [| | | | | |[[]|]| | | | | | | |[|]]; cbn in Eb; simplify_eq.
  - other_part.
  - other_part.
  - other_part.
  - other_part.
  - done.
  - cbn in HR. subst u. destruct (Vfs.tstep _ t) as [[[? ?] ?]|]; own_part.
Qed.

(** The three plain counters. *)
Definition tick_rel t (u : FetchAdd.thread) : Prop :=
  match t with
  | KStart _ => u = FReady
  | KDone Time (RNum (Ok v)) => u = FDone v
  | _ => True
  end.

Definition exec_rel t (u : FetchAdd.thread) : Prop :=
  match t with
  | KStart _ | KQueue (Exec _) _ | KMint _ => u = FReady
  | KDone (Exec _) (RNum (Ok h)) => u = FDone h
  | _ => True
  end.

Definition row_rel t (u : FetchAdd.thread) : Prop :=
  match t with
  | KStart _ => u = FReady
  | KDone (CosignAppend _) (RNum (Ok n)) => exists p, u = FDone p /\ n = wrap64 (p + 1)
  | _ => True
  end.

Lemma tick_step m t : well_placed t -> part_step FetchAdd.tstep monotonic_counter ev_tick tick_rel m t.
Proof.
  intros Hw m' t' es u HR E. destruct t as [c|c t|c|c t|c t|c|c r|t]; cbn [kstep] in E.
  - apply start_step_entry in E. destruct E as [r He| |Ec|len prot Ec|s Ec|r m' Hs Ei]; try subst c; try (by left).
    + left. split_and!; [done..|]. destruct c; try done; cbn in He; by subst r.
    + destruct (short_spec m c r m' Hs Ei) as (_ & _ & _ & _ & _ & Hev).
      destruct (short_events m c r) as [|[] [|]] eqn:Ee; try done.
      * destruct Hev as (Hne & _ & Hm). left. split_and!; [done..|]. by destruct c.
      * destruct Hev as (Hne & _ & _ & Hm & _). left. split_and!; [done..|]. by destruct c.
      * destruct Hev as (-> & -> & -> & _ & Hm). right. eexists. cbn in HR |- *. subst u. by rewrite Hm.
  - destruct (Envelope.tstep _ _) as [[[q t1] es1]|]; [by other_part|]. left.
    destruct (bus_return c t) as [t1|] eqn:Eb; cbn in E; simplify_eq. split_and!; [done..|].
    by destruct c, t as [| | | | | |[[]|]| | | | | | | |[|]]; cbn in Eb; simplify_eq.
  - destruct Hw as [env ->]. other_part.
  - destruct Hw as (len & prot & ->). other_part.
  - cbn in Hw. subst c. other_part.
  - other_part.
  - done.
  - other_part.
Qed.

Lemma exec_step m t : well_placed t -> part_step FetchAdd.tstep exec_handle_next ev_exec exec_rel m t.
Proof.
  intros Hw m' t' es u HR E. destruct t as [c|c t|c|c t|c t|c|c r|t]; cbn [kstep] in E.
  - left. apply start_step_entry in E. destruct E as [r He| |Ec|len prot Ec|s Ec|r m' Hs Ei]; try subst c; try done.
    + split_and!; [done..|]. destruct c; try done; cbn in He; by subst r.
    + split_and!; [done..|]. by destruct c.
    + destruct (short_spec m c r m' Hs Ei) as (_ & _ & _ & _ & Hq & _). split_and!; [done| |by destruct c].
      by destruct c, r as [[]|[]|[]| | |].
  - destruct (Envelope.tstep _ _) as [[[q t1] es1]|]; [by other_part|]. left.
    destruct (bus_return c t) as [t1|] eqn:Eb; cbn in E; simplify_eq. split_and!; [done..|].
    by destruct c, t as [| | | | | |[[]|]| | | | | | | |[|]]; cbn in Eb; simplify_eq.
  - simplify_eq. destruct Hw as [env ->]. right. eexists. cbn in HR |- *. by subst u.
  - destruct Hw as (len & prot & ->). other_part.
  - cbn in Hw. subst c. other_part.
  - other_part.
  - done.
  - other_part.
Qed.

Lemma row_step m t : well_placed t -> part_step FetchAdd.tstep append_seq ev_row row_rel m t.
Proof.
  intros Hw m' t' es u HR E. destruct t as [c|c t|c|c t|c t|c|c r|t]; cbn [kstep] in E.
  - apply start_step_entry in E. destruct E as [r He| |Ec|len prot Ec|s Ec|r m' Hs Ei]; try subst c; try (by left).
    + left. split_and!; [done..|]. destruct c; try done; cbn in He; by subst r.
    + destruct (short_spec m c r m' Hs Ei) as (_ & _ & _ & _ & _ & Hev).
      destruct (short_events m c r) as [|[] [|]] eqn:Ee; try done.
      * destruct Hev as (_ & Hm & _). left. split_and!; [done..|].
        destruct c; try done. by destruct r as [[]| | | | |].
      * destruct Hev as (_ & -> & Hm & _ & Hr). right. exists (FDone (append_seq m)).
        cbn in HR |- *. subst u. rewrite Hm. split; [done|]. destruct c; try done.
        rewrite (Hr _ eq_refl). by eexists.
      * destruct Hev as (-> & -> & _ & Hm & _). by left.
  - destruct (Envelope.tstep _ _) as [[[q t1] es1]|]; [by other_part|]. left.
    destruct (bus_return c t) as [t1|] eqn:Eb; cbn in E; simplify_eq. split_and!; [done..|].
    by destruct c, t as [| | | | | |[[]|]| | | | | | | |[|]]; cbn in Eb; simplify_eq.
  - destruct Hw as [env ->]. other_part.
  - destruct Hw as (len & prot & ->). other_part.
  - cbn in Hw. subst c. other_part.
  - other_part.
  - done.
  - other_part.
Qed.

(** ** Executions *)

Definition call_of (t : kthread) : option call :=
  match t with
  | KStart c | KQueue c _ | KMint c | KFrames c _ | KFork c _ | KSpin c | KDone c _ => Some c
  | KFd _ => None
  end.

Lemma kstep_call m t m' t' es : kstep m t = Some (m', t', es) -> call_of t' = call_of t.
Proof.
  intros E. destruct t as [c|c t|c|c t|c t|c|c r|t]; cbn [kstep] in E.
  - apply start_step_entry in E. by destruct E.
  - destruct (Envelope.tstep _ _) as [[[q t1] es1]|]; [by simplify_eq|].
    destruct (bus_return c t) as [t1|] eqn:Eb; cbn in E; simplify_eq.
    by destruct c, t as [| | | | | |[[]|]| | | | | | | |[|]]; cbn in Eb; simplify_eq.
  - by simplify_eq.
  - destruct (FrameAlloc.tstep _ _) as [[[q t1] es1]|]; [by simplify_eq|]. by destruct t; simplify_eq.
  - destruct (AgentRuntime.tstep _ _) as [[[q t1] es1]|]; [by simplify_eq|]. by destruct t; simplify_eq.
  - by simplify_eq.
  - done.
  - by destruct (Vfs.tstep _ _) as [[[q t1] es1]|]; simplify_eq.
Qed.

(** A thread of an execution runs the call it was started with. *)
Lemma calls_kept ts (c : iconf) k t : ireach kstep (boot ts) c -> ipool c !! k = Some t ->
  exists t0, ts !! k = Some t0 /\ call_of t = call_of t0.
Proof.
  intros Hr. revert k t. induction Hr as [|c c' _ IH Hc]; intros k t Hk; [by exists t|].
  destruct Hc as [c j u m' u' es Hj E]; cbn in Hk.
  apply list_lookup_insert_Some in Hk as [(-> & -> & _)|[_ Hk]]; [|by apply IH].
  destruct (IH _ _ Hj) as (t0 & ? & Ec). exists t0. split; [done|]. by rewrite <- Ec; eapply kstep_call.
Qed.

Lemma done_started ts (c : iconf) k cl r : Forall starting ts -> ireach kstep (boot ts) c ->
  ipool c !! k = Some (KDone cl r) -> ts !! k = Some (KStart cl) /\ call_ok cl.
Proof.
  intros Hs Hr Hk. destruct (calls_kept ts c k _ Hr Hk) as (t0 & Ht0 & Ec).
  rewrite Forall_lookup in Hs. specialize (Hs k t0 Ht0). destruct t0; try done. cbn in Ec. by simplify_eq.
Qed.

(** The execution of a part inside an execution of the whole. *)
Lemma part_reach {M2 T2 E2} (step2 : M2 -> T2 -> option (M2 * T2 * list E2)) proj ev R (start : kthread -> T2) ts (c : iconf) :
  (forall m t, well_placed t -> part_step step2 proj ev R m t) ->
  (forall t, starting t -> R t (start t)) ->
  Forall starting ts -> ireach kstep (boot ts) c ->
  exists c2, ireach step2 (IConf (proj boot_kernel) (map start ts) []) c2 /\
    imem c2 = proj (imem c) /\ ilog c2 = ev_log ev (ilog c) /\
    forall k t, ipool c !! k = Some t -> exists u, ipool c2 !! k = Some u /\ R t u.
Proof.
  intros Hp HR Hs Hr.
  destruct (ireach_simulate kstep step2 proj ev _ boot_kernel ts (map start ts) c (part_simulates _ _ _ _ Hp))
    as (c2 & ? & ? & ? & Hpool); [|done|].
  - intros k t Hk. exists (start t). rewrite list_lookup_fmap, Hk. split; [done|].
    rewrite Forall_lookup in Hs. specialize (Hs k t Hk). split; [by destruct t | by apply HR].
  - exists c2. split_and!; try done. intros k t Hk. destruct (Hpool k t Hk) as (u & ? & _ & ?). by exists u.
Qed.

Definition bus_start t : Envelope.thread :=
  match t with KStart c => bus_thread c | _ => Envelope.DStart 0 0 1 end.
Definition frame_start t : FrameAlloc.thread :=
  match t with KStart (Mmap len _) => FrameAlloc.AStart len | _ => FrameAlloc.AStart 0 end.
Definition fd_start t : Vfs.thread := match t with KFd t => t | _ => Vfs.CStart 0 end.

Lemma map_replicate {A B} (b : B) (l : list A) : map (fun _ => b) l = replicate (length l) b.
Proof. induction l; cbn; congruence. Qed.

Lemma bus_reach ts (c : iconf) : Forall starting ts -> ireach kstep (boot ts) c ->
  Forall Envelope.starting (map bus_start ts) /\
  exists c2, ireach Envelope.tstep (Envelope.start (map bus_start ts)) c2 /\
    imem c2 = queue (imem c) /\ ilog c2 = ev_log ev_queue (ilog c) /\
    forall k t, ipool c !! k = Some t -> exists u, ipool c2 !! k = Some u /\ bus_rel t u.
Proof.
  intros Hs Hr. split.
  - apply Forall_map. eapply Forall_impl; [exact Hs|]. intros t Ht. destruct t as [c0| | | | | | |]; try done.
    by destruct c0.
  - apply (part_reach _ _ _ _ bus_start _ _ bus_step); [|done|done]. intros t Ht. by destruct t.
Qed.

Lemma frame_reach ts (c : iconf) : Forall starting ts -> ireach kstep (boot ts) c ->
  Forall FrameAlloc.starting (map frame_start ts) /\
  exists c2, ireach FrameAlloc.tstep (IConf FrameAlloc.initial (map frame_start ts) []) c2 /\
    imem c2 = next_virtual_base (imem c) /\ ilog c2 = ev_log ev_grant (ilog c) /\
    forall k t, ipool c !! k = Some t -> exists u, ipool c2 !! k = Some u /\ frame_rel t u.
Proof.
  intros Hs Hr. split.
  - apply Forall_map. eapply Forall_impl; [exact Hs|]. intros t Ht.
    destruct t as [[]| | | | | | |]; try done. by destruct Ht.
  - apply (part_reach _ _ _ _ frame_start _ _ frame_step); [|done|done]. intros t Ht.
    destruct t as [[]| | | | | | |]; done.
Qed.

Lemma counter_reach {T2 E2} (step2 : Z -> T2 -> option (Z * T2 * list E2)) proj ev R (u0 : T2) ts (c : iconf) :
  (forall m t, well_placed t -> part_step step2 proj ev R m t) ->
  (forall t, starting t -> R t u0) ->
  Forall starting ts -> ireach kstep (boot ts) c ->
  exists c2, ireach step2 (IConf (proj boot_kernel) (replicate (length ts) u0) []) c2 /\
    imem c2 = proj (imem c) /\ ilog c2 = ev_log ev (ilog c) /\
    forall k t, ipool c !! k = Some t -> exists u, ipool c2 !! k = Some u /\ R t u.
Proof.
  intros Hp HR Hs Hr. rewrite <- map_replicate. by apply (part_reach _ _ _ _ (fun _ => u0)).
Qed.

(** ** A call without interference *)

Lemma bus_lift m c u q' u' :
  isolo Envelope.tstep (queue m) u q' u' -> isolo kstep m (KQueue c u) (set_queue m q') (KQueue c u').
Proof.
  apply (isolo_lift kstep Envelope.tstep queue set_queue (KQueue c)); try done.
  - by intros [].
  - intros m0 v q v' es E. cbn [kstep]. rewrite E. by eexists.
Qed.

Lemma bus_enqueue_alone m c env route : Envelope.slot_ok (queue m) ->
  bus_thread c = Envelope.EStart env route ->
  let '(r, q) := Envelope.dispatch_enqueue_bytes (queue m) env route in
  isolo kstep m (KQueue c (bus_thread c)) (set_queue m q) (KQueue c (Envelope.EDone r)).
Proof.
  intros Hq ->. pose proof (enqueue_solo (queue m) env route Hq) as Hs.
  destruct (Envelope.dispatch_enqueue_bytes _ _ _). by apply bus_lift.
Qed.

Lemma bus_dequeue_alone m c buf w : Envelope.slot_ok (queue m) -> 0 <= w ->
  bus_thread c = Envelope.DStart (zlen buf) 0 (Envelope.spin_budget_of w) ->
  let '(r, q, buf') := Envelope.dispatch_dequeue_bytes (queue m) buf w in
  exists r', isolo kstep m (KQueue c (bus_thread c)) (set_queue m q) (KQueue c (Envelope.DDone r')) /\
  match r, r' with
  | Ok n, Ok acc => n = zlen acc /\ buf' = acc ++ drop (length acc) buf
  | Err e, Err e' => e = e' /\ buf' = buf
  | _, _ => False
  end.
Proof.
  intros Hq Hw ->. pose proof (dequeue_solo (queue m) buf w Hq Hw) as Hs.
  destruct (Envelope.dispatch_dequeue_bytes _ _ _) as [[r q] b]. destruct Hs as (r' & Hs & Hr).
  exists r'. split; [by apply bus_lift | done].
Qed.

(** One step to the end. *)
Lemma alone_step m t m1 t1 es m2 t2 : kstep m t = Some (m1, t1, es) ->
  isolo kstep m1 t1 m2 t2 -> isolo kstep m t m2 t2.
Proof. apply isolo_step. Qed.

Ltac returns := eapply alone_step; [reflexivity|]; apply isolo_refl.

Lemma short_alone m c : short c -> isolo kstep m (KStart c) (invoke m c).2 (KDone c (invoke m c).1).
Proof.
  intros Hs. eapply (alone_step _ _ (invoke m c).2 _ (short_events m c (invoke m c).1)); [|apply isolo_refl].
  cbn [kstep]. assert (E : start_step m c = let '(r, m') := invoke m c in Some (m', KDone c r, short_events m c r))
    by by destruct c.
  rewrite E. by destruct (invoke m c).
Qed.

Lemma frames_lift m c u b' u' :
  isolo FrameAlloc.tstep (next_virtual_base m) u b' u' -> isolo kstep m (KFrames c u) (set_base m b') (KFrames c u').
Proof.
  apply (isolo_lift kstep FrameAlloc.tstep next_virtual_base set_base (KFrames c)); try done.
  - by intros [].
  - intros m0 v q v' es E. cbn [kstep]. rewrite E. by eexists.
Qed.

Lemma fork_lift m c u b' u' :
  isolo AgentRuntime.tstep (spawn_counter m) u b' u' -> isolo kstep m (KFork c u) (set_spawn m b') (KFork c u').
Proof.
  apply (isolo_lift kstep AgentRuntime.tstep spawn_counter set_spawn (KFork c)); try done.
  - by intros [].
  - intros m0 v q v' es E. cbn [kstep]. rewrite E. by eexists.
Qed.

(** The kinds of descriptor are different numbers. *)
Lemma bus_kind :
  (Vfs.FD_BIND_BUSENVELOPE =? Vfs.FD_STATE_FREE) = false /\ (Vfs.FD_BIND_BUSENVELOPE =? Vfs.FD_BIND_UNBACKED) = false /\
  (Vfs.FD_BIND_BUSENVELOPE =? Vfs.FD_BIND_DEVNULL) = false.
Proof. done. Qed.

Lemma dequeue_fits q buf w : Envelope.slot_ok q -> 0 <= w ->
  match Envelope.dispatch_dequeue_bytes q buf w with (Ok n, _, _) => n <= zlen buf | _ => True end.
Proof.
  intros Hq Hw. pose proof (slot_dequeue_spec q buf w Hq Hw) as Hs.
  destruct (Envelope.dispatch_dequeue_bytes q buf w) as [[[n|e] q'] b]; [|done].
  destruct Hs as [_ Hs]. destruct (Envelope.contents q); [|naive_solver].
  destruct (Z.leb_spec (zlen l) (zlen buf)); naive_solver.
Qed.

(** Writing a window of a buffer is writing the buffer. *)
Lemma drop_window (buf : bytes) (n : nat) (i : nat) : (i <= n)%nat ->
  drop i (take n buf) ++ drop n buf = drop i buf.
Proof.
  intros Hi. rewrite <- (take_drop n buf) at 3. rewrite drop_app. f_equal.
  rewrite length_take. destruct (le_lt_dec (length buf) n).
  - rewrite (drop_ge buf n), drop_nil by lia. done.
  - replace (i - n `min` length buf)%nat with 0%nat by lia. by rewrite drop_0.
Qed.

Lemma read_alone m fd buf len : Envelope.slot_ok (queue m) ->
  isolo kstep m (KStart (Read fd buf len)) (invoke m (Read fd buf len)).2
    (KDone (Read fd buf len) (invoke m (Read fd buf len)).1).
Proof.
  intros Hq. cbn [invoke]. unfold sys_read, Vfs.vfs_read.
  set (kind := fd_table m !!! Z.to_nat fd).
  pose proof (bus_dequeue_alone m (Read fd buf len) (take (Z.to_nat len) buf) 0 Hq ltac:(done) eq_refl) as Hs.
  destruct (zlen buf <? len) eqn:E0.
  { eapply alone_step; [cbn [kstep start_step]; rewrite E0; reflexivity | apply isolo_refl]. }
  destruct (fd =? Vfs.STDIN_FD) eqn:E1;
    [|destruct ((fd =? Vfs.STDOUT_FD) || (fd =? Vfs.STDERR_FD)) eqn:E2;
      [|destruct (Vfs.FD_TABLE_SIZE <=? fd) eqn:E3]].
  1-3: eapply alone_step; [cbn [kstep start_step]; rewrite E0, E1, ?E2, ?E3; reflexivity
                          | cbn; rewrite set_queue_same; apply isolo_refl].
  destruct (kind =? Vfs.FD_BIND_BUSENVELOPE) eqn:E4.
  - assert (Ek : kind = Vfs.FD_BIND_BUSENVELOPE) by by apply Z.eqb_eq.
    eapply alone_step; [cbn [kstep start_step]; fold kind; rewrite E0, E1, E2, E3, Ek; reflexivity|].
    rewrite Ek. cbn [dequeue slot_queue].
    destruct bus_kind as (-> & -> & ->).
    pose proof (dequeue_fits (queue m) (take (Z.to_nat len) buf) 0 Hq ltac:(done)) as Hf.
    destruct (Envelope.dispatch_dequeue_bytes _ _ _) as [[[n|e] q] b], Hs as ([acc|e'] & Hs & Hr); try done;
      destruct Hr as [-> ->]; (eapply isolo_trans; [exact Hs|]).
    + rewrite <- app_assoc, drop_window by (unfold zlen in *; rewrite length_take in *; lia). returns.
    + rewrite take_drop. destruct e'; returns.
  - destruct (kind =? Vfs.FD_BIND_DEVNULL) eqn:E5;
      (eapply alone_step; [cbn [kstep start_step]; fold kind; rewrite E0, E1, E2, E3, E4, E5; reflexivity|]).
    + apply Z.eqb_eq in E5. rewrite E5. cbn. rewrite set_queue_same. apply isolo_refl.
    + destruct (kind =? Vfs.FD_STATE_FREE), (kind =? Vfs.FD_BIND_UNBACKED); cbn; rewrite set_queue_same; apply isolo_refl.
Qed.

Lemma write_alone m fd buf : Envelope.slot_ok (queue m) ->
  isolo kstep m (KStart (Write fd buf)) (invoke m (Write fd buf)).2
    (KDone (Write fd buf) (invoke m (Write fd buf)).1).
Proof.
  intros Hq. cbn [invoke]. unfold sys_write, Vfs.vfs_write.
  set (kind := fd_table m !!! Z.to_nat fd).
  pose proof (bus_enqueue_alone m (Write fd buf) buf 0 Hq eq_refl) as Hs.
  destruct (zlen buf =? 0) eqn:E0.
  { eapply alone_step; [cbn [kstep start_step]; rewrite E0; reflexivity | apply isolo_refl]. }
  destruct ((fd =? Vfs.STDOUT_FD) || (fd =? Vfs.STDERR_FD)) eqn:E1;
    [|destruct (fd =? Vfs.STDIN_FD) eqn:E2; [|destruct (Vfs.FD_TABLE_SIZE <=? fd) eqn:E3]].
  1-3: eapply alone_step; [cbn [kstep start_step]; rewrite E0, E1, ?E2, ?E3; reflexivity
                          | cbn; rewrite set_queue_same; apply isolo_refl].
  destruct (kind =? Vfs.FD_BIND_BUSENVELOPE) eqn:E4.
  - assert (Ek : kind = Vfs.FD_BIND_BUSENVELOPE) by by apply Z.eqb_eq.
    eapply alone_step; [cbn [kstep start_step]; fold kind; rewrite E0, E1, E2, E3, Ek; reflexivity|].
    rewrite Ek. cbn [enqueue slot_queue].
    destruct bus_kind as (-> & -> & ->).
    destruct (Envelope.dispatch_enqueue_bytes _ _ _) as [[[]|e] q]; (eapply isolo_trans; [exact Hs|]); [returns|].
    destruct e; returns.
  - destruct (kind =? Vfs.FD_BIND_DEVNULL) eqn:E5;
      (eapply alone_step; [cbn [kstep start_step]; fold kind; rewrite E0, E1, E2, E3, E4, E5; reflexivity|]).
    + apply Z.eqb_eq in E5. rewrite E5. cbn. rewrite set_queue_same. apply isolo_refl.
    + destruct (kind =? Vfs.FD_STATE_FREE), (kind =? Vfs.FD_BIND_UNBACKED); cbn; rewrite set_queue_same; apply isolo_refl.
Qed.

(** The envelope a call offers to the bus. *)
Definition payload (cl : call) : option bytes :=
  match cl with Write _ env | Exec env | EnvelopeSend env _ => Some env | _ => None end.

(** ** Theorems *)

(** C6. Any number of system calls at once, in any interleaving of their atomic
    operations. The messages of the bus are taken in the order they were
    published, at most one waits; a call publishes once at most, and only
    its own envelope; a successful send or exec has published it; a
    successful receive returns, in front of the rest of its buffer, one
    whole message that some call of the run sent. *)
Theorem bus_under_calls ts (c : iconf) :
  Forall starting ts -> ireach kstep (boot ts) c ->
  let log := ev_log ev_queue (ilog c) in
  (exists pending, Envelope.log_sent log.*2 = Envelope.log_received log.*2 ++ pending /\
     (length pending <= 1)%nat) /\
  NoDup (publishers log) /\
  (forall j env, (j, Envelope.Published env) ∈ log ->
     exists cl, ts !! j = Some (KStart cl) /\ payload cl = Some env) /\
  (forall k env h, ipool c !! k = Some (KDone (EnvelopeSend env h) (RUnit (Ok tt))) ->
     (k, Envelope.Published env) ∈ log) /\
  (forall k env n, ipool c !! k = Some (KDone (Exec env) (RNum (Ok n))) -> (k, Envelope.Published env) ∈ log) /\
  (forall k buf w n b, ipool c !! k = Some (KDone (EnvelopeRecv buf w) (RBuf (Ok n) b)) ->
     exists j msg, (k, Envelope.Consumed msg) ∈ log /\ (j, Envelope.Published msg) ∈ log /\
       n = zlen msg /\ b = msg ++ drop (length msg) buf).
Proof.
  intros Hs Hr log. destruct (bus_reach ts c Hs Hr) as (Hu & c2 & Hr2 & _ & Hl & Hp). fold log in Hl.
  assert (I := queue_inv_reach _ _ Hu Hr2). destruct (attribution _ _ Hu Hr2) as [[Horig Hnd] Hth].
  destruct (one_pending _ I) as (pending & Hpend & Hlen).
  cbn [Envelope.view Envelope.sent Envelope.received] in Hpend. rewrite Hl in *.
  change (map snd log) with log.*2 in Hpend.
  assert (Hpub : forall k env (t : kthread), ipool c !! k = Some t ->
    (forall u, bus_rel t u -> u = Envelope.EDone (Ok tt)) -> call_of t ≫= payload = Some env ->
    (k, Envelope.Published env) ∈ log).
  { intros k env t Hk Huniq Hc. destruct (Hp k t Hk) as (u & Hu2 & HR). rewrite (Huniq u HR) in Hu2.
    specialize (Hth k _ Hu2). cbn in Hth. destruct Hth as (env' & [route Ho] & Hin).
    destruct (calls_kept ts c k t Hr Hk) as (t0 & Hk0 & Ec).
    rewrite list_lookup_fmap, Hk0 in Ho. cbn in Ho. injection Ho as Ho.
    rewrite Ec in Hc. destruct t0 as [cl| | | | | | |]; try done. destruct cl; cbn in *; by simplify_eq. }
  split_and!.
  - by exists pending.
  - done.
  - intros j m Hj. destruct (Horig j m Hj) as [route Ho]. rewrite list_lookup_fmap in Ho.
    destruct (ts !! j) as [[cl| | | | | | |]|]; try done. exists cl. split; [done|].
    destruct cl; cbn in *; by simplify_eq.
  - intros k env h Hk. eapply Hpub; [exact Hk | done | done].
  - intros k env n Hk. eapply Hpub; [exact Hk | done | done].
  - intros k buf w n b Hk. destruct (Hp k _ Hk) as (u & Hu2 & (acc & -> & -> & ->)).
    specialize (Hth k _ Hu2). cbn in Hth.
    assert (Hin : acc ∈ Envelope.log_sent log.*2).
    { rewrite Hpend. apply elem_of_app. left. apply list_elem_of_omap.
      exists (Envelope.Consumed acc). split; [|done]. apply list_elem_of_fmap. by exists (k, Envelope.Consumed acc). }
    apply list_elem_of_omap in Hin as (e & He & Ee). apply list_elem_of_fmap in He as ([j e'] & -> & He).
    cbn in Ee. destruct e'; simplify_eq. by exists j, acc.
Qed.

Lemma mmaps_disjoint ts (c : iconf) : Forall starting ts -> ireach kstep (boot ts) c ->
  forall k len prot p, ipool c !! k = Some (KDone (Mmap len prot) (RNum (Ok p))) -> len <= 2 ^ 64 - 4096 ->
     p mod 4096 = 0 /\ FrameAlloc.VIRTUAL_BASE_START <= p /\ p + len <= FrameAlloc.VIRTUAL_BASE_END /\
     forall j len' prot' p', j <> k -> len' <= 2 ^ 64 - 4096 ->
       ipool c !! j = Some (KDone (Mmap len' prot') (RNum (Ok p'))) -> p' + len' <= p \/ p + len <= p'.
Proof.
  intros Hs Hr. destruct (frame_reach ts c Hs Hr) as (Hu & c2 & Hr2 & _ & _ & Hp).
  destruct (alloc_reach_inv _ _ Hu Hr2) as [HS HL]. destruct (grant_facts _ _ HS) as [Hg Hd].
  assert (Hmap : forall k len prot p, ipool c !! k = Some (KDone (Mmap len prot) (RNum (Ok p))) ->
    exists g, (k, g) ∈ ilog c2 /\ FrameAlloc.g_ptr g = p /\ FrameAlloc.g_len g = len /\ (len <= 2 ^ 64 - 4096 -> len <= FrameAlloc.g_bytes g)).
  { intros k len prot p Hk. destruct (Hp _ _ Hk) as (u & Hu2 & HR). cbn in HR. subst u.
    specialize (HL k _ Hu2). cbn in HL. destruct HL as (g & Hin & <-). exists g. split; [done|]. split; [done|].
    assert (Ho := grant_origin _ _ Hu Hr2 k g Hin).
    destruct (done_started ts c k _ _ Hs Hr Hk) as [Hk0 [Hlen _]].
    rewrite list_lookup_fmap, Hk0 in Ho. cbn in Ho. injection Ho as ->. split; [done|]. intros Hl.
    destruct (Hg k g Hin) as (_ & _ & _ & Hcov). unfold is_u in Hlen.
    destruct (Z.eq_dec (FrameAlloc.g_len g) 0) as [E0|]; [|apply Hcov; unfold FrameAlloc.PAGE_BYTES; lia].
    rewrite E0. destruct HS as (_ & Ht & _). apply list_elem_of_lookup in Hin as [i Hi].
    eapply (tiles_bytes _ _ _ i); [exact Ht|]. by rewrite list_lookup_fmap, Hi. }
  intros k len prot p Hk Hl. destruct (Hmap _ _ _ _ Hk) as (g & Hin & <- & _ & Hc).
  destruct (Hg k g Hin) as (? & ? & ? & _). split_and!; [done | done | lia|].
  intros j len' prot' p' Hne Hl' Hj. destruct (Hmap _ _ _ _ Hj) as (g' & Hin' & <- & _ & Hc').
  destruct (Hd j k g' g Hin' Hin Hne); lia.
Qed.

Lemma forks_distinct ts (c : iconf) : Forall starting ts -> Z.of_nat (length ts) < 2 ^ 63 ->
  ireach kstep (boot ts) c ->
  forall k h, ipool c !! k = Some (KDone Fork (RNum (Ok h))) ->
     1 <= h <= AgentRuntime.AGENT_REGISTRY_MAX /\
     forall j, ipool c !! j = Some (KDone Fork (RNum (Ok h))) -> j = k.
Proof.
  intros Hs Hn Hr.
  destruct (counter_reach _ _ _ _ _ ts c fork_step ltac:(by intros []) Hs Hr) as (c2 & Hr2 & _ & _ & Hp).
  assert (Hl := fork_log_bound _ _ Hr2). destruct (fork_reach_inv _ _ Hr2) as [HS HL].
  assert (Hl' : zlen (ilog c2) < 2 ^ 63) by (unfold zlen; lia).
  intros k h Hk. destruct (Hp _ _ Hk) as (u & Hu2 & HR). cbn in HR. subst u.
  destruct (HL k _ Hu2 Hl') as [Hh Hin]. split; [done|]. intros j Hj.
  destruct (Hp _ _ Hj) as (u & Hv2 & HR). cbn in HR. subst u. destruct (HL j _ Hv2 Hl') as [_ Hin'].
  eapply (granted_once _ _ j k (h - 1)); try done. lia.
Qed.

(** C7. Fewer than 2^63 system calls, opens and closes at once, in any
    interleaving: mappings of at most [usize::MAX - 4095] bytes are
    page-aligned, inside the pool and do not overlap; fork handles are in
    1..=10000 and never shared; exec handles, times and ledger numbers are
    each handed out once; the history of every descriptor alternates
    between open and close and the table shows its current side. *)
Theorem resources_under_calls ts (c : iconf) :
  Forall starting ts -> zlen ts < 2 ^ 63 -> ireach kstep (boot ts) c ->
  (forall k len prot p, ipool c !! k = Some (KDone (Mmap len prot) (RNum (Ok p))) -> len <= 2 ^ 64 - 4096 ->
     p mod 4096 = 0 /\ FrameAlloc.VIRTUAL_BASE_START <= p /\ p + len <= FrameAlloc.VIRTUAL_BASE_END /\
     forall j len' prot' p', j <> k -> len' <= 2 ^ 64 - 4096 ->
       ipool c !! j = Some (KDone (Mmap len' prot') (RNum (Ok p'))) -> p' + len' <= p \/ p + len <= p') /\
  (forall k h, ipool c !! k = Some (KDone Fork (RNum (Ok h))) ->
     1 <= h <= AgentRuntime.AGENT_REGISTRY_MAX /\
     forall j, ipool c !! j = Some (KDone Fork (RNum (Ok h))) -> j = k) /\
  (forall j k env env' h, ipool c !! k = Some (KDone (Exec env) (RNum (Ok h))) ->
     ipool c !! j = Some (KDone (Exec env') (RNum (Ok h))) -> j = k) /\
  (forall j k v, ipool c !! k = Some (KDone Time (RNum (Ok v))) ->
     ipool c !! j = Some (KDone Time (RNum (Ok v))) -> j = k) /\
  (forall j k row row' n, ipool c !! k = Some (KDone (CosignAppend row) (RNum (Ok n))) ->
     ipool c !! j = Some (KDone (CosignAppend row') (RNum (Ok n))) -> j = k) /\
  (forall fd, (fd < 256)%nat ->
     Vfs.replay fd false (ev_log ev_fd (ilog c)).*2 =
     Some (negb (fd_table (imem c) !!! fd =? Vfs.FD_STATE_FREE))).
Proof.
  intros Hs Hn Hr. unfold zlen in Hn.
  destruct (counter_reach _ _ _ _ _ ts c exec_step ltac:(by intros []) Hs Hr) as (ce & Hre & _ & _ & Hpe).
  destruct (counter_reach _ _ _ _ _ ts c tick_step ltac:(by intros []) Hs Hr) as (ct & Hrt & _ & _ & Hpt).
  destruct (counter_reach _ _ _ _ _ ts c row_step ltac:(by intros []) Hs Hr) as (cr & Hrr & _ & _ & Hpr).
  split; [by eapply mmaps_disjoint|]. split; [by eapply forks_distinct|]. split_and!.
  - intros j k env env' h Hk Hj.
    destruct (Hpe _ _ Hk) as (? & Hk2 & HR), (Hpe _ _ Hj) as (? & Hj2 & HR'). cbn in HR, HR'. subst.
    eapply (fetch_add_once 1); [by vm_compute | | exact Hre | done | done]; lia.
  - intros j k v Hk Hj.
    destruct (Hpt _ _ Hk) as (? & Hk2 & HR), (Hpt _ _ Hj) as (? & Hj2 & HR'). cbn in HR, HR'. subst.
    eapply (fetch_add_once 0); [by vm_compute | | exact Hrt | done | done]; lia.
  - intros j k row row' n Hk Hj.
    destruct (Hpr _ _ Hk) as (? & Hk2 & (p & -> & Ep)), (Hpr _ _ Hj) as (? & Hj2 & (q & -> & Eq)).
    assert (p = q) as ->; [|eapply (fetch_add_once 0); [by vm_compute | | exact Hrr | done | done]; lia].
    apply (fetch_add_range 0 _ _ _ _ ltac:(by vm_compute) Hrr) in Hk2 as [? ?], Hj2 as [? ?].
    apply (wrap_add_inj 64 1); [lia | lia | lia|]. rewrite !(Z.add_comm 1). congruence.
  - destruct (part_reach _ _ _ _ fd_start ts c fd_step ltac:(by intros []) Hs Hr) as (cf & Hrf & Hm & Hl & _).
    destruct (vfs_reach_inv (map fd_start ts) cf) as [[_ HS] _]; [|exact Hrf|by rewrite Hm, Hl in HS].
    apply Forall_map. eapply Forall_impl; [exact Hs|]. by intros [].
Qed.

(** C24. A system call that no other disturbs, taken step by step, is its
    function: it reaches the state and the reply of [invoke]; [sys_exit]
    never returns. *)
Theorem call_alone m c :
  kernel_ok m -> call_ok c ->
  match c with
  | Exit _ => forall m' t', isolo kstep m (KStart c) m' t' -> m' = m /\ forall r, t' <> KDone c r
  | _ => isolo kstep m (KStart c) (invoke m c).2 (KDone c (invoke m c).1)
  end.
Proof.
  intros (Ht & Hq & Hb & Hsq & Hc & He & Hm) Hcall.
  destruct c; try by apply short_alone.
  - by apply read_alone.
  - by apply write_alone.
  - cbn [invoke]. unfold sys_exec. destruct (zlen env <? Envelope.MIN_ENVELOPE_BYTES) eqn:E.
    { eapply alone_step; [cbn [kstep start_step]; by rewrite E | apply isolo_refl]. }
    eapply alone_step; [cbn [kstep start_step]; by rewrite E|].
    pose proof (bus_enqueue_alone m (Exec env) env 0 Hq eq_refl) as Hs. cbn [enqueue slot_queue].
    destruct (Envelope.dispatch_enqueue_bytes _ _ _) as [[[]|e] q]; (eapply isolo_trans; [exact Hs|]).
    + eapply alone_step; [reflexivity|]. returns.
    + returns.
  - eapply alone_step; [reflexivity|]. cbn [invoke]. unfold sys_fork.
    pose proof (spawn_child_solo (spawn_counter m)) as Hs. destruct (AgentRuntime.spawn_child_agent _) as [r n].
    eapply isolo_trans; [by apply fork_lift|]. returns.
  - intros m' t' Hi. remember (KStart (Exit status)) as t0 eqn:E0.
    assert (Hinv : t0 = KStart (Exit status) \/ t0 = KSpin (Exit status)) by by left. clear E0.
    induction Hi as [m0 t0|m0 t0 m1 t1 es m2 t2 E _ IH]; [by destruct Hinv as [-> | ->]|].
    destruct Hinv as [-> | ->]; cbn in E; simplify_eq; apply IH; try done; by right.
  - destruct Hcall as [Hl _]. cbn [invoke]. unfold sys_mmap. destruct (len =? 0) eqn:E0; [|destruct (prot =? 0) eqn:E1].
    1-2: eapply alone_step; [cbn [kstep start_step]; rewrite E0, ?E1; reflexivity | apply isolo_refl].
    eapply alone_step; [cbn [kstep start_step]; rewrite E0, E1; reflexivity|].
    pose proof (alloc_solo (next_virtual_base m) len) as Hs. destruct (FrameAlloc.alloc_pages _ _) as [r n].
    eapply isolo_trans; [by apply frames_lift|]. destruct r as [|[]]; returns.
  - cbn [invoke]. unfold sys_envelope_send. destruct (zlen env <? Envelope.MIN_ENVELOPE_BYTES) eqn:E.
    { eapply alone_step; [cbn [kstep start_step]; by rewrite E | apply isolo_refl]. }
    eapply alone_step; [cbn [kstep start_step]; by rewrite E|].
    pose proof (bus_enqueue_alone m (EnvelopeSend env route_hint) env route_hint Hq eq_refl) as Hs. cbn [enqueue slot_queue].
    destruct (Envelope.dispatch_enqueue_bytes _ _ _) as [[[]|e] q]; (eapply isolo_trans; [exact Hs|]); returns.
  - destruct Hcall as [Hw _]. cbn [invoke]. unfold sys_envelope_recv. destruct (zlen buf =? 0) eqn:E.
    { eapply alone_step; [cbn [kstep start_step]; by rewrite E | apply isolo_refl]. }
    eapply alone_step; [cbn [kstep start_step]; by rewrite E|].
    pose proof (bus_dequeue_alone m (EnvelopeRecv buf max_wait_ns) buf max_wait_ns Hq Hw eq_refl) as Hs.
    cbn [dequeue slot_queue].
    destruct (Envelope.dispatch_dequeue_bytes _ _ _) as [[[n|e] q] b], Hs as ([acc|e'] & Hs & Hr); try done;
      destruct Hr as [-> ->]; (eapply isolo_trans; [exact Hs|]); [returns|]. destruct e'; returns.
Qed.

End Facts.

(** ** Instances *)

#[local] Existing Instances boot_digest ascii_case.

Definition ping : bytes := lit "PING" ++ replicate 28 7.

Lemma bus_under_calls_witness :
  let ts := [KStart (EnvelopeRecv (replicate 33 0) 9); KStart (EnvelopeSend ping 0); KStart Time] in
  exists c, ireach kstep (boot ts) c /\
    ipool c !! 0%nat = Some (KDone (EnvelopeRecv (replicate 33 0) 9) (RBuf (Ok 32) (ping ++ [0]))) /\
    exists j msg, (0%nat, Envelope.Consumed msg) ∈ ev_log ev_queue (ilog c) /\
      (j, Envelope.Published msg) ∈ ev_log ev_queue (ilog c) /\ 32 = zlen msg.
Proof.
  intros ts.
  assert (R : exists c, irun kstep ([0; 1; 2] ++ replicate 3 0 ++ replicate 39 1 ++ replicate 39 0)%nat (boot ts) = Some c /\
      ipool c !! 0%nat = Some (KDone (EnvelopeRecv (replicate 33 0) 9) (RBuf (Ok 32) (ping ++ [0])))).
  { eexists. split; [vm_compute; reflexivity | vm_compute; reflexivity]. }
  destruct R as (c & R & P). exists c.
  assert (R' := irun_reach kstep _ _ _ _ (ireach_refl kstep _) R).
  assert (Hs : Forall starting ts) by (repeat constructor; by vm_compute).
  split; [exact R'|]. split; [exact P|].
  destruct (bus_under_calls ts c Hs R') as (_ & _ & _ & _ & _ & Hrecv).
  destruct (Hrecv _ _ _ _ _ P) as (j & msg & H1 & H2 & H3 & _). exists j, msg. exact (conj H1 (conj H2 H3)).
Defined.

Lemma resources_under_calls_witness :
  let ts := [KStart (Mmap 5000 1); KStart (Mmap 1 3); KStart Fork; KStart Time] in
  exists c, ireach kstep (boot ts) c /\
    ipool c !! 0%nat = Some (KDone (Mmap 5000 1) (RNum (Ok 8192))) /\
    ipool c !! 1%nat = Some (KDone (Mmap 1 3) (RNum (Ok 4096))) /\
    (4096 + 1 <= 8192 \/ 8192 + 5000 <= 4096).
Proof.
  intros ts.
  assert (R : exists c, irun kstep [0; 0; 1; 1; 1; 2; 3; 0; 0; 1; 2; 0; 2]%nat (boot ts) = Some c /\
      ipool c !! 0%nat = Some (KDone (Mmap 5000 1) (RNum (Ok 8192))) /\
      ipool c !! 1%nat = Some (KDone (Mmap 1 3) (RNum (Ok 4096)))).
  { eexists. split; [vm_compute; reflexivity|]. split; vm_compute; reflexivity. }
  destruct R as (c & R & P & P'). exists c.
  assert (R' := irun_reach kstep _ _ _ _ (ireach_refl kstep _) R).
  assert (Hs : Forall starting ts) by (repeat constructor; by vm_compute).
  assert (Hn : zlen ts < 2 ^ 63) by by vm_compute.
  split; [exact R'|]. split; [exact P|]. split; [exact P'|].
  destruct (resources_under_calls ts c Hs Hn R') as (Hmap & _).
  destruct (Hmap 0%nat 5000 1 8192 P ltac:(lia)) as (_ & _ & _ & Hd).
  apply (Hd 1%nat 1 3 4096); [lia | lia | exact P'].
Defined.

Lemma call_alone_witness :
  isolo kstep boot_kernel (KStart (Exec ping)) (invoke boot_kernel (Exec ping)).2 (KDone (Exec ping) (RNum (Ok 1))).
Proof.
  assert (Hk : kernel_ok boot_kernel) by exact boot_kernel_ok.
  exact (call_alone boot_kernel (Exec ping) Hk I).
Defined.
