(* ===== verification/Init.v ===== *)
(** * The init task ([kernel/boot/src/init.rs])

    Init's receive-dispatch-reply loop over the system calls. [sys_exit]
    does not return, so a dispatch either continues or leaves. *)

From S2P Require Import Prelude Digest Sha256 Access CosignChain SyscallTypes Hookwall Gnn Envelope Queue FrameAlloc Vfs AgentRuntime AgentRegistry Syscall.

Module Init.

#[local] Open Scope Z_scope.

Definition INIT_ENVELOPE_MAX : Z := 512.
Definition RECV_FAILURE_THRESHOLD : Z := 32.
Definition RECV_WAIT_NS : Z := 1000000000.
Definition ROUTE_HINT_LOCAL : Z := 0.

(** Continue with a state, or exit with a status. *)
Inductive flow (S K : Type) :=
| Cont (s : S)
| Exited (status : Z) (k : K).
Arguments Cont {S K} _.
Arguments Exited {S K} _ _.

Section Init.
Context `{Digest} {Q : Type} `{ByteQueue Q}.
Import Syscall.

(** [send_len] bytes of the 512-byte buffer [emit_envelope] fills. *)
Definition emitted (type_prefix : bytes) (seq : Z) (payload : bytes) : bytes :=
  let n := Z.min (zlen payload) (INIT_ENVELOPE_MAX - 12) in
  let buf := type_prefix ++ le_bytes 8 seq ++ take (Z.to_nat n) payload ++
             replicate (Z.to_nat (INIT_ENVELOPE_MAX - 12 - n)) 0 in
  let send_len := Z.max (12 + n) Envelope.MIN_ENVELOPE_BYTES in
  take (Z.to_nat send_len) buf.

Definition emit_envelope (k : Kernel Q) (type_prefix : bytes) (seq : Z) (payload : bytes) :
    Kernel Q * Z :=
  let '(_, k') := sys_envelope_send k (emitted type_prefix seq payload) ROUTE_HINT_LOCAL in
  (k', wrap64 (seq + 1)).

Definition emit_init_ready (k : Kernel Q) (pid : Z) : Kernel Q :=
  let buf := lit "INIT" ++ le_bytes 8 0 ++ le_bytes 8 pid ++ replicate 12 0 in
  let '(_, k1) := sys_envelope_send k buf ROUTE_HINT_LOCAL in
  let '(_, k2) := sys_hookwall_post k1 buf Proceed in
  k2.

Definition exec_error (e : SyscallErr) : bytes :=
  match e with
  | Invalid => lit "invalid"
  | PermissionDenied => lit "perm-denied"
  | HookwallBlock => lit "hookwall-block"
  | Exhausted => lit "exhausted"
  | WouldBlock => lit "would-block"
  | Unimplemented => lit "unimplemented"
  | CosignReject => lit "cosign-reject"
  end.

Definition handle_exec (k : Kernel Q) (payload : bytes) (seq : Z) : Kernel Q * Z :=
  if (zlen payload =? 0) then emit_envelope k (lit "EERR") seq (lit "empty-exec")
  else
    let '(r, k1) := sys_exec k payload in
    match r with
    | Ok handle => emit_envelope k1 (lit "EOKx") seq (le_bytes 8 handle)
    | Err e => emit_envelope k1 (lit "EERR") seq (exec_error e)
    end.

(** The verdict init acts on: a failing hook counts as [Block]. *)
Definition dispatch_verdict (full_env : bytes) : HookwallVerdict :=
  match sys_hookwall_pre full_env with Ok v => v | Err _ => Block end.

Definition dispatch_envelope (k : Kernel Q) (type_prefix full_env : bytes) (seq : Z) :
    flow (Kernel Q * Z) (Kernel Q) :=
  let verdict := dispatch_verdict full_env in
  let post k v := (sys_hookwall_post k full_env v).2 in
  let reply '(k1, seq1) v := Cont (post k1 v, seq1) in
  if bool_decide (verdict = Block) then
    reply (emit_envelope k (lit "BLOK") seq type_prefix) Block
  else if bool_decide (verdict = Hold) then
    reply (emit_envelope k (lit "HOLD") seq type_prefix) Hold
  else if bytes_eqb type_prefix (lit "PING") then
    reply (emit_envelope k (lit "PONG") seq []) Proceed
  else if bytes_eqb type_prefix (lit "EXEC") then
    reply (if zlen full_env <? 12 then emit_envelope k (lit "EERR") seq (lit "short-exec")
           else handle_exec k (drop 12 full_env) seq) Proceed
  else if bytes_eqb type_prefix (lit "SHTD") then
    let '(k1, _) := emit_envelope k (lit "FINI") seq (lit "init-shutdown") in
    let k2 := post k1 Proceed in
    Exited 0 (sys_cosign_append k2 (lit "init-shutdown")).2
  else if bytes_eqb type_prefix (lit "VERS") then
    reply (emit_envelope k (lit "VERS") seq KERNEL_VERSION) Proceed
  else if bytes_eqb type_prefix (lit "PIDA") then
    reply (emit_envelope k (lit "PIDA") seq FEDERATION_ANCHOR_PID) Proceed
  else
    reply (emit_envelope k (lit "UNKN") seq type_prefix) Proceed.

Record istate := mkInit {
  kernel : Kernel Q;
  recv_buf : bytes;
  consecutive_failures : Z;
  seq : Z
}.

(** One iteration of the loop. *)
Definition loop_step (s : istate) : flow istate (Kernel Q) :=
  let '(r, k, buf) := sys_envelope_recv (kernel s) (recv_buf s) RECV_WAIT_NS in
  match r with
  | Ok n =>
      if (4 <=? n) then
        match dispatch_envelope k (take 4 buf) (take (Z.to_nat n) buf) (seq s) with
        | Cont (k', seq') => Cont (mkInit k' buf 0 seq')
        | Exited st k' => Exited st k'
        end
      else Cont (mkInit k buf (consecutive_failures s) (seq s))
  | Err WouldBlock => Cont (mkInit k buf (consecutive_failures s) (seq s))
  | Err _ =>
      let f := sat_add 32 (consecutive_failures s) 1 in
      if (RECV_FAILURE_THRESHOLD <=? f) then
        Exited 2 (emit_envelope k (lit "SOS!") (seq s) (lit "init-recv-exhausted")).1
      else Cont (mkInit k buf f (seq s))
  end.

(** [n] iterations. *)
Fixpoint loop (n : nat) (s : istate) : flow istate (Kernel Q) :=
  match n with
  | O => Cont s
  | S n' => match loop_step s with
            | Cont s' => loop n' s'
            | Exited st k => Exited st k
            end
  end.

(** The state in which [run] enters the loop. *)
Definition run_start (k : Kernel Q) : istate :=
  let pid := match sys_pid_current with Ok p => p | Err _ => 0 end in
  mkInit (emit_init_ready k pid) (replicate 512 0) 0 1.

End Init.

Arguments istate Q : clear implicits.

End Init.

Import Syscall Init.

#[local] Open Scope Z_scope.

Lemma emitted_length tp seq payload : length tp = 4%nat ->
  32 <= zlen (emitted tp seq payload) <= 512.
Proof.
  intros Ht. unfold emitted, zlen, INIT_ENVELOPE_MAX, Envelope.MIN_ENVELOPE_BYTES.
  rewrite length_take, !length_app, le_bytes_length, length_take, length_replicate, Ht. lia.
Qed.

Lemma emitted_head tp seq payload : length tp = 4%nat -> take 4 (emitted tp seq payload) = tp.
Proof.
  intros Ht. unfold emitted. rewrite take_take, Nat.min_l by (unfold Envelope.MIN_ENVELOPE_BYTES; lia).
  by rewrite <- Ht, take_app_length.
Qed.

Lemma emitted_first tp seq payload : length tp = 4%nat ->
  emitted tp seq payload !!! 0%nat = tp !!! 0%nat.
Proof.
  intros Ht. pose proof (emitted_head tp seq payload Ht) as E.
  destruct (emitted tp seq payload); [by subst | by destruct tp; simplify_eq/=].
Qed.

Section Facts.
Context `{Digest} {Q : Type} `{ByteQueue Q}.

(** A post hook only moves the cosign counter. *)
Lemma post_eq (k : Kernel Q) env v : 2 <= zlen env ->
  (sys_hookwall_post k env v).2 =
  set_seq k (if 64 <=? env !!! 0%nat then append_seq k else wrap64 (append_seq k + 1)).
Proof.
  intros Hl. unfold sys_hookwall_post. rewrite (proj2 (Z.ltb_ge _ _)) by done.
  rewrite hookwall_post_cases. change (Hookwall.slot (hook_context env)) with (env !!! 0%nat).
  change Hookwall.HOOKWALL_SLOT_COUNT with 64. by destruct (64 <=? _).
Qed.

Lemma emit_idle (k : Kernel Q) tp seq payload :
  q_ok (queue k) -> q_contents (queue k) = None -> length tp = 4%nat ->
  exists q, emit_envelope k tp seq payload = (set_queue k q, wrap64 (seq + 1)) /\
    q_ok q /\ q_contents q = Some (emitted tp seq payload).
Proof.
  intros Hq Hc Ht. pose proof (emitted_length tp seq payload Ht). unfold emit_envelope, sys_envelope_send.
  rewrite (proj2 (Z.ltb_ge _ _)) by (unfold Envelope.MIN_ENVELOPE_BYTES; lia).
  pose proof (enqueue_spec (queue k) (emitted tp seq payload) ROUTE_HINT_LOCAL Hq) as Hs.
  rewrite Hc, Z.gtb_ltb, (proj2 (Z.ltb_ge _ _)) in Hs by (unfold Envelope.ENVELOPE_SLOT_BYTES; lia).
  destruct (enqueue _ _ _) as [r q]. destruct Hs as (? & -> & ?). by exists q.
Qed.

Lemma emit_busy (k : Kernel Q) tp seq payload m :
  q_ok (queue k) -> q_contents (queue k) = Some m -> length tp = 4%nat ->
  emit_envelope k tp seq payload = (k, wrap64 (seq + 1)).
Proof.
  intros Hq Hc Ht. pose proof (emitted_length tp seq payload Ht). unfold emit_envelope, sys_envelope_send.
  rewrite (proj2 (Z.ltb_ge _ _)) by (unfold Envelope.MIN_ENVELOPE_BYTES; lia).
  pose proof (enqueue_spec (queue k) (emitted tp seq payload) ROUTE_HINT_LOCAL Hq) as Hs.
  rewrite Hc, Z.gtb_ltb, (proj2 (Z.ltb_ge _ _)) in Hs by (unfold Envelope.ENVELOPE_SLOT_BYTES; lia).
  destruct (enqueue _ _ _) as [r q]. destruct Hs as (? & -> & ->). by destruct k.
Qed.

Lemma verdict_eq env : 2 <= zlen env ->
  dispatch_verdict env = if 64 <=? env !!! 0%nat then Block else Proceed.
Proof.
  intros Hl. unfold dispatch_verdict, sys_hookwall_pre. rewrite (proj2 (Z.ltb_ge _ _)) by done.
  unfold Hookwall.hookwall_pre. change (Hookwall.slot (hook_context env)) with (env !!! 0%nat).
  change Hookwall.HOOKWALL_SLOT_COUNT with 64. by destruct (64 <=? _).
Qed.

(** What a dispatch amounts to. *)
Lemma dispatch_eq (k : Kernel Q) env seq :
  4 <= zlen env ->
  dispatch_envelope k (take 4 env) env seq =
  let '(k1, seq1) := emit_envelope k (if 64 <=? env !!! 0%nat then lit "BLOK" else lit "UNKN") seq (take 4 env) in
  Cont (set_seq k1 (if 64 <=? env !!! 0%nat then append_seq k1 else wrap64 (append_seq k1 + 1)), seq1).
Proof.
  intros Hl. unfold dispatch_envelope. rewrite verdict_eq by lia.
  destruct (64 <=? env !!! 0%nat) eqn:E.
  - rewrite bool_decide_eq_true_2 by done. destruct (emit_envelope _ _ _ _) as [k1 s1].
    by rewrite post_eq, E by lia.
  - rewrite !bool_decide_eq_false_2 by done.
    assert (Hne : forall a l, 64 <= a -> bytes_eqb (take 4 env) (a :: l) = false).
    { intros a l Ha. apply bytes_eqb_false. intros Et. apply Z.leb_gt in E.
      destruct env as [|b env]; [by change (zlen []) with 0 in Hl|].
      injection Et as -> _. change ((a :: env) !!! 0%nat) with a in E. lia. }
    change (lit "PING") with (80 :: lit "ING"). change (lit "EXEC") with (69 :: lit "XEC").
    change (lit "SHTD") with (83 :: lit "HTD"). change (lit "VERS") with (86 :: lit "ERS").
    change (lit "PIDA") with (80 :: lit "IDA"). rewrite !Hne by lia.
    destruct (emit_envelope _ _ _ _) as [k1 s1]. by rewrite post_eq, E by lia.
Qed.

(** ** Theorems *)


(** The state of the loop between two self-addressed replies. *)
Definition echoing (a : Z) (s : istate Q) (m : bytes) (n : Z) : Prop :=
  append_seq (kernel s) = a /\   q_ok (queue (kernel s)) /\ q_contents (queue (kernel s)) = Some m /\ 4 <= zlen m <= 512 /\
  64 <= m !!! 0%nat /\ zlen (recv_buf s) = 512 /\ consecutive_failures s = 0 /\ seq s = n.

Lemma echo_step a s m n : echoing a s m n ->
  exists s', loop_step s = Cont s' /\
    echoing a s' (emitted (lit "BLOK") n (take 4 m)) (wrap64 (n + 1)).
Proof.
  intros (Ha & Hq & Hc & Hl & Hm & Hb & Hf & Hs). unfold loop_step, sys_envelope_recv.
  rewrite (proj2 (Z.eqb_neq _ _)) by lia.
  pose proof (dequeue_spec (queue (kernel s)) (recv_buf s) RECV_WAIT_NS Hq ltac:(by vm_compute)) as Hd.
  rewrite Hc, (proj2 (Z.leb_le _ _)) in Hd by lia.
  destruct (dequeue _ _ _) as [[r q] buf]. destruct Hd as (Hq1 & -> & -> & Hc1).
  rewrite (proj2 (Z.leb_le _ _)) by lia.
  assert (E1 : take (Z.to_nat (zlen m)) (m ++ drop (length m) (recv_buf s)) = m).
  { unfold zlen. by rewrite Nat2Z.id, take_app_length. }
  assert (E2 : take 4 (m ++ drop (length m) (recv_buf s)) = take 4 m).
  { apply take_app_le. unfold zlen in Hl. lia. }
  rewrite E1, E2, dispatch_eq, (proj2 (Z.leb_le _ _)) by lia.
  destruct (emit_idle (set_queue (kernel s) q) (lit "BLOK") (seq s) (take 4 m)) as (q2 & -> & Hq2 & Hc2);
    [done | done | done |].
  eexists. split; [reflexivity|]. rewrite Hs in Hc2. rewrite Hs.
  pose proof (emitted_length (lit "BLOK") n (take 4 m) eq_refl).
  unfold echoing. cbn [kernel recv_buf consecutive_failures Init.seq queue set_seq set_queue].
  split_and!; try done; try lia; [by rewrite emitted_first|].
  unfold zlen in *. rewrite length_app, length_drop. lia.
Qed.

Lemma echo_loop a k s m n : echoing a s m n -> is_u 64 n ->
  exists s', loop (S k) s = Cont s' /\ exists m', length m' = 4%nat /\
    echoing a s' (emitted (lit "BLOK") (wrap64 (n + Z.of_nat k)) m') (wrap64 (n + Z.of_nat k + 1)).
Proof.
  intros He Hn. revert s m n He Hn. induction k as [|k IH]; intros s m n He Hn.
  - destruct (echo_step a s m n He) as (s' & E & He'). cbn [loop]. rewrite E. exists s'. split; [done|].
    exists (take 4 m). split; [destruct He as (_ & _ & _ & ? & _); unfold zlen in *; rewrite length_take; lia|].
    change (Z.of_nat 0) with 0. by rewrite Z.add_0_r, (wrap_id 64 n).
  - destruct (echo_step a s m n He) as (s' & E & He'). cbn [loop]. rewrite E.
    destruct (IH s' _ _ He' (wrap_range 64 _ ltac:(lia))) as (s2 & E2 & m' & Hm' & He2).
    exists s2. split; [done|]. exists m'. split; [done|].
    assert (W : forall z, wrap64 (wrap64 (n + 1) + z) = wrap64 (n + 1 + z)).
    { intros z. unfold wrap. by rewrite Zplus_mod_idemp_l. }
    rewrite <- Z.add_assoc, !W in He2.
    replace (n + Z.of_nat (S k)) with (n + 1 + Z.of_nat k) by lia.
    by rewrite <- (Z.add_assoc (n + 1)).
Qed.

Lemma run_start_echo (k : Kernel Q) :
  kernel_ok k -> q_contents (queue k) = None -> exists m, echoing (append_seq k) (run_start k) m 1.
Proof.
  intros (_ & Hq & _) Hc. unfold run_start. cbn [sys_pid_current].
  set (pid := fold_left _ _ _). unfold emit_init_ready.
  set (buf := lit "INIT" ++ _). assert (Hl : zlen buf = 32).
  { unfold buf, zlen. by rewrite !length_app, !le_bytes_length, length_replicate. }
  unfold sys_envelope_send. rewrite Hl. change (32 <? Envelope.MIN_ENVELOPE_BYTES) with false. cbn iota.
  pose proof (enqueue_spec (queue k) buf ROUTE_HINT_LOCAL Hq) as Hs. rewrite Hc, Hl in Hs.
  change (32 >? Envelope.ENVELOPE_SLOT_BYTES) with false in Hs. cbn iota in Hs.
  destruct (enqueue _ _ _) as [r q]. destruct Hs as (Hq1 & -> & Hc1).
  pose proof (post_eq (set_queue k q) buf Proceed ltac:(lia)) as Hp.
  destruct (sys_hookwall_post _ _ _) as [r2 k2]. cbn [snd] in Hp. subst k2.
  exists buf. unfold echoing. cbn [kernel recv_buf consecutive_failures Init.seq queue set_seq set_queue].
  split_and!; try done; lia.
Qed.

Lemma wedged_loop j (s : istate Q) m :
  q_ok (queue (kernel s)) -> q_contents (queue (kernel s)) = Some m -> 512 < zlen m ->
  zlen (recv_buf s) = 512 -> consecutive_failures s = 31 - Z.of_nat j -> (j <= 31)%nat ->
  loop (S j) s = Exited 2 (kernel s).
Proof.
  intros Hq Hc Hm. revert s Hq Hc. induction j as [|j IH]; intros s Hq Hc Hb Hf Hj.
  all: cbn [loop]; unfold loop_step, sys_envelope_recv; rewrite (proj2 (Z.eqb_neq _ _)) by lia.
  all: pose proof (dequeue_spec (queue (kernel s)) (recv_buf s) RECV_WAIT_NS Hq ltac:(by vm_compute)) as Hd.
  all: rewrite Hc, (proj2 (Z.leb_gt _ _)) in Hd by lia.
  all: destruct (dequeue _ _ _) as [[r q] buf]; destruct Hd as (_ & -> & -> & ->).
  all: assert (Hset : set_queue (kernel s) (queue (kernel s)) = kernel s) by (by destruct (kernel s)).
  all: rewrite Hset, Hf; unfold sat_add, RECV_FAILURE_THRESHOLD.
  - change (32 <=? _) with true. cbn iota. by rewrite (emit_busy _ _ _ _ m).
  - rewrite (proj2 (Z.leb_gt _ _)) by lia. cbn iota.
    change (S j) with (1 + j)%nat. apply (IH (mkInit _ _ _ _)); cbn; try done; lia.
Qed.

(** Init alone on an idle bus answers itself for ever: it dequeues its own
    ready envelope, replies BLOK, dequeues that reply, and so on. After every
    number of iterations the bus holds a BLOK envelope of init's, numbered
    by the iteration; the loop neither exits nor finds the bus idle, and no
    cosign row is appended by the replies. *)
Theorem init_answers_itself (k : Kernel Q) n :
  kernel_ok k -> q_contents (queue k) = None ->
  exists s m, loop (S n) (run_start k) = Cont s /\ length m = 4%nat /\
    q_contents (queue (kernel s)) = Some (emitted (lit "BLOK") (wrap64 (1 + Z.of_nat n)) m) /\
    consecutive_failures s = 0 /\ append_seq (kernel s) = append_seq k.
Proof.
  intros Hk Hc. destruct (run_start_echo k Hk Hc) as (m0 & He).
  destruct (echo_loop _ n _ _ _ He ltac:(by vm_compute)) as (s & E & m & Hm & He').
  exists s, m. destruct He' as (? & _ & ? & _ & _ & _ & ? & _). by split_and!.
Qed.

(** An envelope of more than 512 bytes (the bus takes up to 1024) stops
    init: if nobody else receives it, 32 failing receives later init exits
    with status 2, and its SOS is dropped because the bus is still full. *)
Theorem init_wedged_exits (s : istate Q) m :
  q_ok (queue (kernel s)) -> q_contents (queue (kernel s)) = Some m -> 512 < zlen m ->
  zlen (recv_buf s) = 512 -> consecutive_failures s = 0 ->
  loop 32 s = Exited 2 (kernel s).
Proof.
  intros Hq Hc Hm Hb Hf. apply (wedged_loop 31 s m); done || lia.
Qed.

End Facts.


Lemma init_answers_itself_witness :
  let _ := boot_digest in
  exists s m, loop 3 (run_start boot_kernel) = Cont s /\ length m = 4%nat /\
    q_contents (queue (kernel s)) = Some (emitted (lit "BLOK") 3 m).
Proof.
  intros d. destruct (init_answers_itself (H:=boot_digest) boot_kernel 2 boot_kernel_ok eq_refl)
    as (s & m & E & Hm & Hc & _).
  exists s, m. split; [exact E|]. split; [exact Hm | exact Hc].
Defined.

Lemma init_wedged_exits_witness :
  let k := (sys_envelope_send boot_kernel (replicate 600 65) 0).2 in
  loop 32 (mkInit k (replicate 512 0) 0 1) = Exited 2 k.
Proof.
  intros k. apply (init_wedged_exits (mkInit k (replicate 512 0) 0 1) (replicate 600 65));
    [| by vm_compute | by vm_compute | by vm_compute | reflexivity].
  exact (proj1 (slot_enqueue_spec Envelope.initial (replicate 600 65) 0 slot_ok_initial)).
Defined.
