(* ===== verification/Pid.v ===== *)
(** * BEHCS-1024 PIDs ([kernel/core/src/pid/mod.rs])

    Parsing, validation, classification and minting of canonical and anchor
    PIDs. A slice off a character boundary panics: the parser is a
    computation in [comp]. *)

From S2P Require Import Prelude Digest Sha256 Utf8.

Module Pid.

Definition GRAND : Z := 71.
Definition HOST : Z := 72.
Definition FEDERATION : Z := 70.
Definition DATA : Z := 68.

Definition KNOWN_ROLES : list bytes :=
  [lit "OPERATOR"; lit "OP-JESSE"; lit "OP-RAYSSA"; lit "ACER"; lit "LIRIS"; lit "FALCON";
   lit "AETHER"; lit "ASOLARIA-FEDERATION-REMAKE-1024"].

Inductive PidErr :=
| MalformedFormat | InvalidRegion | InvalidHostCode | InvalidActivity | InvalidWave
| InvalidProcess | InvalidNonce | UnknownRole.

#[export] Instance PidErr_eq_dec : EqDecision PidErr.
Proof. solve_decision. Defined.

Definition is_valid_role (r : bytes) : bool := existsb (fun k => bytes_eqb k r) KNOWN_ROLES.

Definition is_valid_region (c : Z) : bool :=
  (c =? GRAND)%Z || (c =? HOST)%Z || (c =? FEDERATION)%Z || (c =? DATA)%Z.

Definition is_valid_host_code (s : bytes) : bool :=
  (zlen s =? 4)%Z && forallb is_ascii_hexdigit s.

Definition is_valid_hex_n (s : bytes) (n : Z) : bool :=
  (zlen s =? n)%Z && forallb is_ascii_hexdigit s.

Inductive PidSubclass :=
| Regular | RegularExtended | Anchor | HookwallCp | InfrastructureRouting | Pending.

#[export] Instance PidSubclass_eq_dec : EqDecision PidSubclass.
Proof. solve_decision. Defined.

Record PidParts := mkParts {
  role : bytes;
  region : Z;
  host_code : bytes;
  activity : bytes;
  wave : bytes;
  process_tag : option bytes;
  nonce : option bytes
}.

Record AnchorPidParts := mkAnchor { anchor_role : bytes; date : bytes }.

Inductive ParsedPid := Canonical (p : PidParts) | AnchorPid (p : AnchorPidParts).

(** The separator [parse_pid] searches for. *)
Definition marker : bytes := lit "-PID-".

(** [block.starts_with(c) && is_valid_hex_n(&block[1..], n)] with its
    short-circuit, as [Some] of the digits. *)
Definition tagged (block : bytes) (c : Z) (n : Z) (e : PidErr) : comp PidErr bytes :=
  if negb (starts_with [c] block) then CErr e
  else
    digits ← slice_from block 1;
    if negb (is_valid_hex_n digits n) then CErr e else CRet digits.

(** The date test of [parse_pid], on a tail of ten bytes. *)
Definition date_ok (tail : bytes) : comp PidErr bool :=
  y ← slice_to tail 4;
  if negb (forallb is_ascii_digit y) then CRet false
  else
    m ← slice_range tail 5 7;
    if negb (forallb is_ascii_digit m) then CRet false
    else
      d ← slice_range tail 8 10;
      CRet (forallb is_ascii_digit d).

(** The shape test in front of it. *)
Definition date_shape (tail : bytes) : bool :=
  (zlen tail =? 10)%Z && bool_decide (tail !! 4%nat = Some 45%Z)
  && bool_decide (tail !! 7%nat = Some 45%Z).

(** From [let parts = ...] to the end. *)
Definition parse_canonical (role tail : bytes) : comp PidErr ParsedPid :=
  let parts := split_on 45 tail in
  match parts with
  | region_host :: activity_block :: wave_block :: rest =>
      if negb (Nat.eqb (length rest) 0) && negb (Nat.eqb (length rest) 2) then CErr MalformedFormat
      else if negb (zlen region_host =? 5)%Z then CErr MalformedFormat
      else
        let region := region_host !!! 0%nat in
        if negb (is_valid_region region) then CErr InvalidRegion
        else
          host_code ← slice_from region_host 1;
          if negb (is_valid_host_code host_code) then CErr InvalidHostCode
          else
            activity ← tagged activity_block 65 2 InvalidActivity;
            wave ← tagged wave_block 87 3 InvalidWave;
            match rest with
            | [process_block; nonce_block] =>
                process ← tagged process_block 80 2 InvalidProcess;
                nonce ← tagged nonce_block 78 5 InvalidNonce;
                CRet (Canonical (mkParts role region host_code activity wave (Some process) (Some nonce)))
            | _ => CRet (Canonical (mkParts role region host_code activity wave None None))
            end
  | _ => CErr MalformedFormat
  end.

Definition parse_pid (pid : bytes) : comp PidErr ParsedPid :=
  match rfind_sub marker pid with
  | None => CErr MalformedFormat
  | Some idx =>
      role ← slice_to pid idx;
      tail ← slice_from pid (idx + 5);
      if date_shape tail then
        ok ← date_ok tail;
        if ok : bool then CRet (AnchorPid (mkAnchor role tail))
        else parse_canonical role tail
      else parse_canonical role tail
  end.

Definition role_of (p : ParsedPid) : bytes :=
  match p with Canonical p => role p | AnchorPid p => anchor_role p end.

Definition validate_pid (pid : bytes) (strict_role : bool) : comp PidErr unit :=
  parsed ← parse_pid pid;
  if strict_role && negb (is_valid_role (role_of parsed)) then CErr UnknownRole else CRet tt.

Definition classify_subclass (pid : bytes) : comp PidErr PidSubclass :=
  match parse_pid pid with
  | CRet (Canonical p) =>
      match process_tag p, nonce p with
      | Some _, Some _ => CRet RegularExtended
      | _, _ => CRet Regular
      end
  | CRet (AnchorPid _) => CRet Anchor
  | CErr _ => CRet Pending
  | CPanic => CPanic
  end.

Definition is_in_subclass (pid : bytes) (sub : PidSubclass) : comp PidErr bool :=
  c ← classify_subclass pid;
  CRet (bool_decide (c = sub) && bool_decide (sub <> Pending)).

Definition validate_subclass (pid : bytes) : comp PidErr PidSubclass :=
  _ ← validate_pid pid false;
  classify_subclass pid.

Definition mint_pid (role : bytes) (region : Z) (host_code activity wave : bytes) :
    result PidErr bytes :=
  if negb (is_valid_region region) then Err InvalidRegion
  else if negb (is_valid_host_code host_code) then Err InvalidHostCode
  else if negb (is_valid_hex_n activity 2) then Err InvalidActivity
  else if negb (is_valid_hex_n wave 3) then Err InvalidWave
  else Ok (role ++ marker ++ [region] ++ host_code ++ lit "-A" ++ activity ++ lit "-W" ++ wave).

Definition mint_pid_extended (role : bytes) (region : Z)
    (host_code activity wave process_tag nonce : bytes) : result PidErr bytes :=
  s ← mint_pid role region host_code activity wave;
  if negb (is_valid_hex_n process_tag 2) then Err InvalidProcess
  else if negb (is_valid_hex_n nonce 5) then Err InvalidNonce
  else Ok (s ++ lit "-P" ++ process_tag ++ lit "-N" ++ nonce).

Definition mint_anchor_pid (role date_yyyy_mm_dd : bytes) : result PidErr bytes :=
  let b := date_yyyy_mm_dd in
  if negb (zlen b =? 10)%Z then Err MalformedFormat
  else if negb (b !!! 4%nat =? 45)%Z || negb (b !!! 7%nat =? 45)%Z then Err MalformedFormat
  else if negb (forallb is_ascii_digit (take 4 b) && forallb is_ascii_digit (take 2 (drop 5 b))
                && forallb is_ascii_digit (take 2 (drop 8 b))) then Err MalformedFormat
  else Ok (role ++ marker ++ b).

Definition pid_fingerprint_sha16 `{Digest} (pid : bytes) : bytes :=
  flat_map hex_pair (take 8 (sha256 pid)).

(** The minter a parsed PID came from. *)
Definition mint_parsed (p : ParsedPid) : result PidErr bytes :=
  match p with
  | Canonical p =>
      match process_tag p, nonce p with
      | None, None => mint_pid (role p) (region p) (host_code p) (activity p) (wave p)
      | Some t, Some n =>
          mint_pid_extended (role p) (region p) (host_code p) (activity p) (wave p) t n
      | _, _ => Err MalformedFormat
      end
  | AnchorPid p => mint_anchor_pid (anchor_role p) (date p)
  end.

End Pid.

Import Pid.

(** ** The separator *)

Lemma rfind_sub_None n h : rfind_sub n h = None <-> contains n h = false.
Proof.
  induction h as [|c h IH]; cbn; [by destruct (starts_with n [])|].
  destruct (rfind_sub n h); destruct (contains n h) eqn:E;
    destruct (starts_with n (c :: h)); cbn; naive_solver.
Qed.

(** The marker is the last one when no [I] follows it. *)
Lemma rfind_marker role tail : 73%Z ∉ tail ->
  rfind_sub marker (role ++ marker ++ tail) = Some (length role).
Proof.
  intros Ht. induction role as [|c role IH]; [|cbn [app rfind_sub]; by rewrite IH].
  change ([] ++ marker ++ tail) with (45%Z :: (lit "PID-" ++ tail)). cbn [rfind_sub].
  assert (E : rfind_sub marker (lit "PID-" ++ tail) = None).
  { apply rfind_sub_None. apply not_true_is_false. intros (a & b & E)%contains_spec.
    assert (L : (lit "PID-" ++ tail) !! (length a + 2)%nat = Some 73%Z).
    { rewrite E, lookup_app_r by lia. by replace (length a + 2 - length a)%nat with 2%nat by lia. }
    destruct a as [|x [|y a]]; [discriminate L | discriminate L|].
    apply Ht. replace (length (x :: y :: a) + 2)%nat with (4 + length a)%nat in L by (cbn; lia).
    exact (list_elem_of_lookup_2 tail (length a) 73%Z L). }
  rewrite E. by rewrite (starts_with_app marker tail : starts_with marker (45%Z :: lit "PID-" ++ tail) = true).
Qed.

(** ** Slices that cannot panic *)

Lemma boundary_at s i b : s !! i = Some b -> is_continuation b = false -> is_char_boundary s i = true.
Proof. intros Hi Hb. unfold is_char_boundary. rewrite Hi, Hb. apply orb_true_r. Qed.

Lemma boundary_len s : is_char_boundary s (length s) = true.
Proof.
  unfold is_char_boundary. rewrite lookup_ge_None_2 by lia. rewrite Nat.eqb_refl. apply orb_true_r.
Qed.

(** Slicing a text made of ASCII never panics. *)
Definition ascii (s : bytes) : Prop := forallb is_ascii s = true.

Lemma ascii_boundary s i : ascii s -> (i <= length s)%nat -> is_char_boundary s i = true.
Proof.
  intros Ha Hi. destruct (decide (i = length s)) as [->|Hne]; [apply boundary_len|].
  destruct (lookup_lt_is_Some_2 s i) as [b Hb]; [lia|]. apply (boundary_at s i b Hb).
  unfold ascii in Ha. rewrite forallb_forall in Ha.
  assert (Hin : In b s) by (apply list_elem_of_In; by eapply list_elem_of_lookup_2).
  specialize (Ha b Hin). unfold is_ascii in Ha. to_prop. unfold is_continuation.
  apply andb_false_iff. left. apply Z.leb_gt. lia.
Qed.

Lemma slice_from_ascii {E} s i : ascii s -> (i <= length s)%nat -> @slice_from E s i = CRet (drop i s).
Proof. intros. unfold slice_from. by rewrite ascii_boundary. Qed.
Lemma slice_to_ascii {E} s i : ascii s -> (i <= length s)%nat -> @slice_to E s i = CRet (take i s).
Proof. intros. unfold slice_to. by rewrite ascii_boundary. Qed.
Lemma slice_range_ascii {E} s i j : ascii s -> (i <= j)%nat -> (j <= length s)%nat ->
  @slice_range E s i j = CRet (take (j - i) (drop i s)).
Proof.
  intros. unfold slice_range. rewrite !ascii_boundary by (done || lia).
  by rewrite (proj2 (Nat.leb_le _ _)).
Qed.

Lemma slice_from_inv {E} s i r : @slice_from E s i = CRet r -> r = drop i s.
Proof. unfold slice_from. by destruct (is_char_boundary s i); intros; simplify_eq. Qed.
Lemma slice_to_inv {E} s i r : @slice_to E s i = CRet r -> r = take i s.
Proof. unfold slice_to. by destruct (is_char_boundary s i); intros; simplify_eq. Qed.
Lemma slice_range_inv {E} s i j r : @slice_range E s i j = CRet r -> r = take (j - i) (drop i s).
Proof. unfold slice_range. destruct (_ && _); intros; by simplify_eq. Qed.

(** ** Hexadecimal fields *)

Lemma hex_field s n : is_valid_hex_n s n = true -> zlen s = n /\ forallb is_ascii_hexdigit s = true.
Proof. unfold is_valid_hex_n. intros H. by to_prop. Qed.

Lemma hexdigit_range c : is_ascii_hexdigit c = true ->
  (48 <= c <= 57 \/ 65 <= c <= 70 \/ 97 <= c <= 102)%Z.
Proof. unfold is_ascii_hexdigit, is_ascii_digit. intros H. to_prop. destruct H as [H|H]; to_prop; [|lia]. destruct H as [H|H]; to_prop; lia. Qed.

Lemma hex_not_in s c : forallb is_ascii_hexdigit s = true -> is_ascii_hexdigit c = false -> c ∉ s.
Proof.
  intros Hs Hc Hin. rewrite forallb_forall in Hs. apply list_elem_of_In in Hin.
  by rewrite (Hs c Hin) in Hc.
Qed.

Lemma hex_ascii s : forallb is_ascii_hexdigit s = true -> ascii s.
Proof.
  unfold ascii. rewrite !forallb_forall. intros H c Hc. specialize (H c Hc).
  apply hexdigit_range in H. unfold is_ascii.
  apply andb_true_iff. split; [apply Z.leb_le | apply Z.ltb_lt]; lia.
Qed.

Lemma ascii_app a b : ascii a -> ascii b -> ascii (a ++ b).
Proof. unfold ascii. intros. rewrite forallb_app. by apply andb_true_iff. Qed.

Lemma tagged_ok c d n e : is_ascii c = true -> is_valid_hex_n d n = true -> tagged (c :: d) c n e = CRet d.
Proof.
  intros Hc Hd. unfold tagged. cbn [starts_with]. rewrite Z.eqb_refl. cbn [andb negb].
  rewrite slice_from_ascii; [|apply (ascii_app [c] d)|cbn; lia].
  - change (drop 1 (c :: d)) with d. cbn [mbind comp_bind]. by rewrite Hd.
  - unfold ascii. cbn. by rewrite Hc.
  - apply hex_field in Hd as [_ Hd]. by apply hex_ascii.
Qed.

Lemma tagged_inv block c n e d : tagged block c n e = CRet d ->
  block = c :: d /\ is_valid_hex_n d n = true.
Proof.
  unfold tagged. destruct (starts_with [c] block) eqn:E; cbn [negb]; [|done].
  apply starts_with_spec in E as [r ->]. intros H.
  destruct (slice_from ([c] ++ r) 1) eqn:Es; cbn [mbind comp_bind] in H; [|done|done].
  apply slice_from_inv in Es. change (drop 1 ([c] ++ r)) with r in Es. subst a.
  destruct (is_valid_hex_n r n) eqn:Ev; cbn [negb] in H; by simplify_eq.
Qed.

(** ** Parsing inverts minting *)

Definition short_tail (rg : Z) (h a w : bytes) : bytes := [rg] ++ h ++ lit "-A" ++ a ++ lit "-W" ++ w.

Lemma region_cases c : is_valid_region c = true -> c = 71%Z \/ c = 72%Z \/ c = 70%Z \/ c = 68%Z.
Proof.
  unfold is_valid_region, GRAND, HOST, FEDERATION, DATA. intros H. to_prop.
  destruct H as [H|H]; to_prop; [|auto]. destruct H as [H|H]; to_prop; [|auto].
  destruct H as [H|H]; to_prop; auto.
Qed.

Lemma region_ascii c : is_valid_region c = true -> is_ascii c = true /\ c <> 45%Z /\ c <> 73%Z.
Proof. intros [-> | [-> | [-> | ->]]]%region_cases; by split_and!. Qed.

Record fields_ok (rg : Z) (h a w : bytes) : Prop := {
  fo_region : is_valid_region rg = true;
  fo_host : is_valid_host_code h = true;
  fo_act : is_valid_hex_n a 2 = true;
  fo_wave : is_valid_hex_n w 3 = true
}.

Lemma mint_pid_Ok r rg h a w s :
  mint_pid r rg h a w = Ok s <-> fields_ok rg h a w /\ s = r ++ marker ++ short_tail rg h a w.
Proof.
  unfold mint_pid. split.
  - destruct (is_valid_region rg) eqn:E1; cbn [negb]; [|intros; discriminate].
    destruct (is_valid_host_code h) eqn:E2; cbn [negb]; [|intros; discriminate].
    destruct (is_valid_hex_n a 2) eqn:E3; cbn [negb]; [|intros; discriminate].
    destruct (is_valid_hex_n w 3) eqn:E4; cbn [negb]; [|intros; discriminate].
    intros E. apply Ok_inj in E. by subst s.
  - intros [[-> -> -> ->] ->]. done.
Qed.

Lemma not_in_app (c : Z) a b : c ∉ a -> c ∉ b -> c ∉ a ++ b.
Proof. intros Ha Hb [H|H]%elem_of_app; done. Qed.

Lemma not_in_lit (c : Z) (l : bytes) : forallb (fun x => negb (x =? c)%Z) l = true -> c ∉ l.
Proof.
  intros H Hin. rewrite forallb_forall in H. apply list_elem_of_In, H in Hin.
  by rewrite Z.eqb_refl in Hin.
Qed.

(** Splitting the two tails. *)
Lemma split_short rg h a w rest :
  fields_ok rg h a w ->
  split_on 45 (short_tail rg h a w ++ rest) =
  (rg :: h) :: (65%Z :: a) :: split_on 45 (87%Z :: w ++ rest).
Proof.
  intros [Hr Hh Ha Hw]. apply region_ascii in Hr as (_ & Hr & _).
  apply (hex_field h 4) in Hh as [_ Hh]. apply hex_field in Ha as [_ Ha].
  assert (N1 : 45%Z ∉ rg :: h) by (rewrite not_elem_of_cons; split; [done | by apply hex_not_in]).
  assert (N2 : 45%Z ∉ 65%Z :: a) by (rewrite not_elem_of_cons; split; [done | by apply hex_not_in]).
  unfold short_tail. rewrite <- !app_assoc.
  change ([rg] ++ h ++ lit "-A" ++ a ++ lit "-W" ++ w ++ rest)
    with ((rg :: h) ++ 45%Z :: (65%Z :: a ++ 45%Z :: 87%Z :: w ++ rest)).
  rewrite split_on_app by done.
  change (65%Z :: a ++ 45%Z :: 87%Z :: w ++ rest) with ((65%Z :: a) ++ 45%Z :: (87%Z :: w ++ rest)).
  by rewrite split_on_app by done.
Qed.

Lemma split_block c d : is_ascii c = true -> c <> 45%Z -> forallb is_ascii_hexdigit d = true ->
  split_on 45 (c :: d) = [c :: d].
Proof.
  intros _ Hc Hd. apply split_on_single. rewrite not_elem_of_cons. split; [done | by apply hex_not_in].
Qed.

Lemma split_block_app c d rest : c <> 45%Z -> forallb is_ascii_hexdigit d = true ->
  split_on 45 ((c :: d) ++ 45%Z :: rest) = (c :: d) :: split_on 45 rest.
Proof.
  intros Hc Hd. apply split_on_app. rewrite not_elem_of_cons. split; [done | by apply hex_not_in].
Qed.

(** The canonical branch on split fields. *)
Lemma parse_fields r rg h a w rest tail :
  fields_ok rg h a w -> split_on 45 tail = (rg :: h) :: (65%Z :: a) :: (87%Z :: w) :: rest ->
  parse_canonical r tail =
  match rest with
  | [] => CRet (Canonical (mkParts r rg h a w None None))
  | [p; n] =>
      process ← tagged p 80 2 InvalidProcess;
      nonce ← tagged n 78 5 InvalidNonce;
      CRet (Canonical (mkParts r rg h a w (Some process) (Some nonce)))
  | _ => CErr MalformedFormat
  end.
Proof.
  intros [Hr Hh Ha Hw] E. unfold parse_canonical. rewrite E.
  destruct (hex_field h 4 Hh) as [Lh Xh].
  assert (G : (zlen (rg :: h) =? 5)%Z = true) by (rewrite zlen_cons, Lh; done).
  assert (S1 : @slice_from PidErr (rg :: h) 1 = CRet h).
  { rewrite slice_from_ascii; [done | | cbn; lia].
    apply (ascii_app [rg] h); [|by apply hex_ascii]. unfold ascii. cbn.
    by rewrite (proj1 (region_ascii rg Hr)). }
  rewrite G. change ((rg :: h) !!! 0%nat) with rg. rewrite Hr, S1. cbn [negb mbind comp_bind].
  rewrite Hh, !tagged_ok by done. cbn [negb mbind comp_bind].
  by destruct rest as [|p [|n [|? ?]]].
Qed.

Lemma lookup_after (a b : bytes) i : (a ++ b) !! (length a + i)%nat = b !! i.
Proof. rewrite lookup_app_r by lia. f_equal. lia. Qed.

Lemma parse_marked r b tail' :
  is_continuation b = false -> 73%Z ∉ b :: tail' ->
  let tail := b :: tail' in
  parse_pid (r ++ marker ++ tail) =
  if date_shape tail then
    ok ← date_ok tail;
    if ok : bool then CRet (AnchorPid (mkAnchor r tail)) else parse_canonical r tail
  else parse_canonical r tail.
Proof.
  intros Hb Hn tail. unfold parse_pid. rewrite rfind_marker by done.
  set (s := r ++ marker ++ tail).
  assert (S1 : @slice_to PidErr s (length r) = CRet r).
  { unfold slice_to. rewrite (boundary_at s (length r) 45); [by unfold s; rewrite take_app_length | | done].
    pose proof (lookup_after r (marker ++ tail) 0) as E. by rewrite Nat.add_0_r in E. }
  assert (S2 : @slice_from PidErr s (length r + 5) = CRet tail).
  { unfold slice_from. rewrite (boundary_at s _ b); [|by apply lookup_after|done].
    f_equal. unfold s. rewrite app_assoc. apply drop_app_length'. rewrite length_app. done. }
  by rewrite S1, S2.
Qed.

Lemma region_no_cont c : is_valid_region c = true -> is_continuation c = false.
Proof. intros [-> | [-> | [-> | ->]]]%region_cases; done. Qed.

Lemma short_tail_facts rg h a w : fields_ok rg h a w ->
  73%Z ∉ short_tail rg h a w /\ length (short_tail rg h a w) = 14%nat.
Proof.
  intros [Hr Hh Ha Hw]. destruct (hex_field h 4 Hh) as [Lh Xh], (hex_field _ _ Ha) as [La Xa],
    (hex_field _ _ Hw) as [Lw Xw].
  unfold zlen in *. unfold short_tail. split.
  - apply region_ascii in Hr as (_ & _ & Hr).
    repeat apply not_in_app; try (by apply hex_not_in); try (by apply not_in_lit).
    rewrite not_elem_of_cons. split; [done | apply not_elem_of_nil].
  - rewrite !length_app. cbn [length lit]. lia.
Qed.

Lemma date_shape_long tail : (length tail <> 10)%nat -> date_shape tail = false.
Proof.
  intros H. unfold date_shape. rewrite (proj2 (Z.eqb_neq _ _)); [done|]. unfold zlen. lia.
Qed.

Lemma parse_short r rg h a w : fields_ok rg h a w ->
  parse_pid (r ++ marker ++ short_tail rg h a w) =
  CRet (Canonical (mkParts r rg h a w None None)).
Proof.
  intros F. destruct (short_tail_facts _ _ _ _ F) as [N L].
  pose proof (split_short rg h a w [] F) as Es. rewrite !app_nil_r in Es.
  destruct (hex_field _ _ (fo_wave _ _ _ _ F)) as [_ Xw]. rewrite split_block in Es by done.
  change (short_tail rg h a w) with (rg :: (h ++ lit "-A" ++ a ++ lit "-W" ++ w)) in *.
  rewrite parse_marked by (done || by apply region_no_cont, F).
  rewrite date_shape_long by (rewrite L; lia). by rewrite (parse_fields r _ _ _ _ _ _ F Es).
Qed.

Lemma parse_extended r rg h a w p n : fields_ok rg h a w ->
  is_valid_hex_n p 2 = true -> is_valid_hex_n n 5 = true ->
  parse_pid (r ++ marker ++ short_tail rg h a w ++ lit "-P" ++ p ++ lit "-N" ++ n) =
  CRet (Canonical (mkParts r rg h a w (Some p) (Some n))).
Proof.
  intros F Hp Hn. destruct (short_tail_facts _ _ _ _ F) as [N L].
  destruct (hex_field _ _ Hp) as [Lp Xp], (hex_field _ _ Hn) as [Ln Xn].
  pose proof (split_short rg h a w (lit "-P" ++ p ++ lit "-N" ++ n) F) as Es.
  destruct (hex_field _ _ (fo_wave _ _ _ _ F)) as [_ Xw].
  change (87%Z :: w ++ lit "-P" ++ p ++ lit "-N" ++ n)
    with ((87%Z :: w) ++ 45%Z :: ((80%Z :: p) ++ 45%Z :: (78%Z :: n))) in Es.
  rewrite !split_block_app, split_block in Es by done.
  set (rest := lit "-P" ++ p ++ lit "-N" ++ n) in *.
  assert (N' : 73%Z ∉ short_tail rg h a w ++ rest).
  { apply not_in_app; [done|]. unfold rest.
    repeat apply not_in_app; try (by apply hex_not_in); by apply not_in_lit. }
  assert (L' : length (short_tail rg h a w ++ rest) <> 10%nat) by (rewrite length_app, L; lia).
  change (short_tail rg h a w ++ rest) with (rg :: ((h ++ lit "-A" ++ a ++ lit "-W" ++ w) ++ rest)) in *.
  rewrite parse_marked by (done || by apply region_no_cont, F).
  rewrite date_shape_long by done. rewrite (parse_fields r _ _ _ _ _ _ F Es).
  by rewrite !tagged_ok.
Qed.

(** ** Anchors *)

Lemma digits_ascii s : forallb is_ascii_digit s = true -> ascii s /\ 73%Z ∉ s.
Proof.
  unfold ascii. rewrite !forallb_forall. intros H. split.
  - intros c Hc. specialize (H c Hc). unfold is_ascii_digit in H. to_prop. unfold is_ascii.
    apply andb_true_iff. split; [apply Z.leb_le | apply Z.ltb_lt]; lia.
  - intros Hc%list_elem_of_In. by apply H in Hc.
Qed.

(** A date: four digits, a hyphen, two digits, a hyphen, two digits. *)
Definition is_date (d : bytes) : Prop :=
  exists y m dd, d = y ++ 45%Z :: m ++ 45%Z :: dd /\ length y = 4%nat /\ length m = 2%nat /\ length dd = 2%nat
    /\ forallb is_ascii_digit y = true /\ forallb is_ascii_digit m = true /\ forallb is_ascii_digit dd = true.

Lemma date_split d : length d = 10%nat -> d !! 4%nat = Some 45%Z -> d !! 7%nat = Some 45%Z ->
  d = take 4 d ++ 45%Z :: take 2 (drop 5 d) ++ 45%Z :: take 2 (drop 8 d).
Proof.
  intros L H4 H7. do 10 (destruct d as [|? d]; [discriminate L|]).
  destruct d; [|discriminate L]. cbn in H4, H7 |- *. by simplify_eq.
Qed.

Lemma mint_anchor_Ok r d s :
  mint_anchor_pid r d = Ok s <-> is_date d /\ s = r ++ marker ++ d.
Proof.
  unfold mint_anchor_pid. split.
  - destruct (Z.eqb_spec (zlen d) 10) as [L|]; cbn [negb]; [|intros; discriminate].
    unfold zlen in L. destruct (Z.eqb_spec (d !!! 4%nat) 45) as [E4|]; cbn [negb orb]; [|intros; discriminate].
    destruct (Z.eqb_spec (d !!! 7%nat) 45) as [E7|]; cbn [negb orb]; [|intros; discriminate].
    destruct (_ && _) eqn:E; cbn [negb]; [|intros; discriminate]. to_prop.
    intros Es. apply Ok_inj in Es. split; [|by subst].
    exists (take 4 d), (take 2 (drop 5 d)), (take 2 (drop 8 d)). rewrite !length_take, !length_drop.
    split_and!; try done; try lia.
    apply date_split; [lia | |]; rewrite list_lookup_lookup_total_lt by lia; congruence.
  - intros [(y & m & dd & -> & Ly & Lm & Ld & Dy & Dm & Dd) ->].
    do 4 (destruct y as [|? y]; [discriminate Ly|]). destruct y; [|discriminate Ly].
    do 2 (destruct m as [|? m]; [discriminate Lm|]). destruct m; [|discriminate Lm].
    do 2 (destruct dd as [|? dd]; [discriminate Ld|]). destruct dd; [|discriminate Ld].
    cbn in Dy, Dm, Dd |- *. by rewrite Dy, Dm, Dd.
Qed.

Lemma parse_date r d : is_date d -> parse_pid (r ++ marker ++ d) = CRet (AnchorPid (mkAnchor r d)).
Proof.
  intros (y & m & dd & -> & Ly & Lm & Ld & Dy & Dm & Dd).
  destruct (digits_ascii y Dy) as [Ay Iy], (digits_ascii m Dm) as [Am Im], (digits_ascii dd Dd) as [Ad Id'].
  set (d := y ++ 45%Z :: m ++ 45%Z :: dd).
  assert (A : ascii d).
  { apply ascii_app; [done|]. apply (ascii_app [45%Z]); [done|]. apply ascii_app; [done|].
    by apply (ascii_app [45%Z]). }
  assert (I : 73%Z ∉ d).
  { unfold d. repeat first [apply not_in_app; [done|] | rewrite not_elem_of_cons; split; [done|]]. done. }
  assert (L : length d = 10%nat) by (unfold d; rewrite !length_app; cbn; rewrite length_app; cbn; lia).
  assert (S : date_shape d = true).
  { unfold date_shape, zlen. rewrite L. unfold d.
    do 4 (destruct y as [|? y]; [discriminate Ly|]). destruct y; [|discriminate Ly].
    do 2 (destruct m as [|? m]; [discriminate Lm|]). by destruct m. }
  assert (T : date_ok d = CRet true).
  { unfold date_ok. rewrite slice_to_ascii by (done || lia). cbn [mbind comp_bind].
    assert (E1 : take 4 d = y) by (apply take_app_length'; lia).
    assert (E2 : take 2 (drop 5 d) = m).
    { unfold d. rewrite (drop_app_ge _ _ 5) by lia. rewrite Ly. cbn. apply take_app_length'. lia. }
    assert (E3 : take 2 (drop 8 d) = dd).
    { unfold d. rewrite (drop_app_ge _ _ 8) by lia. rewrite Ly. cbn.
      rewrite (drop_app_ge _ _ 3) by lia. rewrite Lm. cbn. apply take_ge. lia. }
    rewrite E1, Dy. cbn [negb]. rewrite (slice_range_ascii d 5 7) by (done || lia). cbn [mbind comp_bind].
    change (7 - 5)%nat with 2%nat. rewrite E2, Dm. cbn [negb].
    rewrite (slice_range_ascii d 8 10) by (done || lia). cbn [mbind comp_bind].
    change (10 - 8)%nat with 2%nat. by rewrite E3, Dd. }
  destruct y as [|b y]; [discriminate Ly|]. change d with (b :: (y ++ 45%Z :: m ++ 45%Z :: dd)) in *.
  rewrite parse_marked; [by rewrite S, T | | done].
  unfold ascii in A. cbn in A. to_prop. unfold is_ascii in *. to_prop. unfold is_continuation.
  apply andb_false_iff. left. apply Z.leb_gt. lia.
Qed.

(** ** What a successful parse has seen *)

Lemma parse_canonical_inv r tail q : parse_canonical r tail = CRet q ->
  exists rg h a w, fields_ok rg h a w /\
  ((tail = short_tail rg h a w /\ q = Canonical (mkParts r rg h a w None None)) \/
   (exists p n, is_valid_hex_n p 2 = true /\ is_valid_hex_n n 5 = true /\
      tail = short_tail rg h a w ++ lit "-P" ++ p ++ lit "-N" ++ n /\
      q = Canonical (mkParts r rg h a w (Some p) (Some n)))).
Proof.
  unfold parse_canonical. intros E. pose proof (join_split 45 tail) as J.
  destruct (split_on 45 tail) as [|rh [|ab [|wb rest]]]; try discriminate E.
  destruct (negb _ && negb _) eqn:Hrest; [discriminate E|].
  destruct (Z.eqb_spec (zlen rh) 5) as [Lr|]; cbn [negb] in E; [|discriminate E].
  destruct rh as [|rg h]; [discriminate Lr|]. change ((rg :: h) !!! 0%nat) with rg in E.
  destruct (is_valid_region rg) eqn:Er; cbn [negb] in E; [|discriminate E].
  destruct (slice_from (rg :: h) 1) as [h'| |] eqn:Es; cbn [mbind comp_bind] in E; try discriminate E.
  apply slice_from_inv in Es. change (drop 1 (rg :: h)) with h in Es. subst h'.
  destruct (is_valid_host_code h) eqn:Eh; cbn [negb] in E; [|discriminate E].
  destruct (tagged ab 65 2 _) as [a| |] eqn:Ea; cbn [mbind comp_bind] in E; try discriminate E.
  destruct (tagged wb 87 3 _) as [w| |] eqn:Ew; cbn [mbind comp_bind] in E; try discriminate E.
  apply tagged_inv in Ea as [-> Ea], Ew as [-> Ew].
  exists rg, h, a, w. split; [done|].
  destruct rest as [|pb [|nb [|? ?]]]; try discriminate Hrest.
  - left. injection E as <-. split; [|done]. rewrite <- J. done.
  - right. destruct (tagged pb 80 2 _) as [p| |] eqn:Ep; cbn [mbind comp_bind] in E; try discriminate E.
    destruct (tagged nb 78 5 _) as [n| |] eqn:En; cbn [mbind comp_bind] in E; try discriminate E.
    apply tagged_inv in Ep as [-> Ep], En as [-> En]. injection E as <-.
    exists p, n. split_and!; [done..| |done]. rewrite <- J. unfold short_tail.
    cbn [join_with]. rewrite <- !app_assoc. done.
Qed.

Lemma date_ok_inv d : date_shape d = true -> date_ok d = CRet true -> is_date d.
Proof.
  unfold date_shape, date_ok. intros Hs E. to_prop.
  destruct (slice_to d 4) as [y| |] eqn:Ey; cbn [mbind comp_bind] in E; try discriminate E.
  destruct (forallb is_ascii_digit y) eqn:Dy; cbn [negb] in E; [|discriminate E].
  destruct (slice_range d 5 7) as [m| |] eqn:Em; cbn [mbind comp_bind] in E; try discriminate E.
  destruct (forallb is_ascii_digit m) eqn:Dm; cbn [negb] in E; [|discriminate E].
  destruct (slice_range d 8 10) as [dd| |] eqn:Ed; cbn [mbind comp_bind] in E; try discriminate E.
  injection E as Dd. apply slice_to_inv in Ey. apply slice_range_inv in Em, Ed.
  unfold zlen in *. exists y, m, dd. subst. split_and!; try done.
  - apply date_split; [lia|done|done].
  - rewrite length_take. lia.
  - rewrite length_take, length_drop. lia.
  - rewrite length_take, length_drop. lia.
Qed.

Lemma parse_iff pid q : parse_pid pid = CRet q <-> mint_parsed q = Ok pid.
Proof.
  split.
  - unfold parse_pid. destruct (rfind_sub marker pid) as [idx|] eqn:Ei; [|done].
    apply rfind_sub_Some in Ei as (Ei & Hl & _).
    destruct (slice_to pid idx) as [r| |] eqn:Er; cbn [mbind comp_bind]; try done.
    destruct (slice_from pid (idx + 5)) as [tail| |] eqn:Et; cbn [mbind comp_bind]; try done.
    apply slice_to_inv in Er. apply slice_from_inv in Et.
    change (length marker) with 5%nat in Ei. rewrite <- Er, <- Et in Ei. clear Er Et Hl.
    assert (Hcan : parse_canonical r tail = CRet q -> mint_parsed q = Ok pid).
    { intros (rg & h & a & w & F & [[-> ->]|(p & n & Hp & Hn & -> & ->)])%parse_canonical_inv.
      - apply mint_pid_Ok. by rewrite Ei.
      - cbn [mint_parsed process_tag nonce role region host_code activity wave].
        unfold mint_pid_extended. destruct (mint_pid r rg h a w) eqn:Em; cbn [mbind result_bind].
        + apply mint_pid_Ok in Em as [_ ->]. rewrite Hp, Hn. cbn [negb]. by rewrite Ei, <- !app_assoc.
        + by rewrite (proj2 (mint_pid_Ok r rg h a w _) (conj F eq_refl)) in Em. }
    destruct (date_shape tail) eqn:Es; [|exact Hcan].
    destruct (date_ok tail) as [[]| |] eqn:Eo; cbn [mbind comp_bind]; try done.
    intros [= <-]. apply mint_anchor_Ok. split; [by apply date_ok_inv | by rewrite Ei].
  - destruct q as [[r rg h a w [p|] [n|]]|[r d]]; cbn; try done.
    + unfold mint_pid_extended. destruct (mint_pid r rg h a w) as [s|] eqn:Em; cbn [mbind result_bind]; [|done].
      apply mint_pid_Ok in Em as [F ->].
      destruct (is_valid_hex_n p 2) eqn:Hp; cbn [negb]; [|done].
      destruct (is_valid_hex_n n 5) eqn:Hn; cbn [negb]; [|done].
      intros E. apply Ok_inj in E. subst pid. rewrite <- !app_assoc. by apply parse_extended.
    + intros [F ->]%mint_pid_Ok. by apply parse_short.
    + intros [D ->]%mint_anchor_Ok. by apply parse_date.
Qed.

(** ** Theorems *)

(** C13. Parsing and minting are inverse: a text parses to some parts exactly
    when minting those parts (short, extended or anchor form) succeeds and
    gives that text. Any role is allowed, the separator inside it included:
    the parser splits at the last one. *)
Theorem parse_mint_inverse pid q :
  (parse_pid pid = CRet q <-> mint_parsed q = Ok pid) /\
  (forall e, mint_parsed q = Err e -> forall p, parse_pid p <> CRet q).
Proof.
  split; [apply parse_iff|]. intros e E p Hp. apply parse_iff in Hp. congruence.
Qed.

(** ** No panic *)

Lemma slice_from_some {E} s i : is_char_boundary s i = true -> @slice_from E s i = CRet (drop i s).
Proof. unfold slice_from. by intros ->. Qed.

Lemma tagged_no_panic block c n e :
  starts_after_ascii block -> is_ascii c = true -> tagged block c n e <> CPanic.
Proof.
  intros Hb Hc. unfold tagged. destruct (starts_with [c] block) eqn:E; [|done].
  apply starts_with_spec in E as [r ->]. cbn [negb].
  rewrite slice_from_some by (by eapply (starts_after_ascii_boundary _ 0%nat c)).
  cbn [mbind comp_bind]. by destruct (is_valid_hex_n _ _).
Qed.

Lemma bind_no_panic {E A B} (m : comp E A) (f : A -> comp E B) :
  m <> CPanic -> (forall a, m = CRet a -> f a <> CPanic) -> (m ≫= f) <> CPanic.
Proof. intros Hm Hf. destruct m; cbn; [by apply Hf | done | done]. Qed.

Lemma split_on_infix c s p : p ∈ split_on c s -> exists a b, s = a ++ p ++ b.
Proof.
  revert p. induction s as [|x s IH]; intros p Hp; cbn in Hp.
  - apply list_elem_of_singleton in Hp as ->. by exists [], [].
  - destruct (x =? c)%Z.
    + apply elem_of_cons in Hp as [->|Hp]; [by exists [], (x :: s)|].
      destruct (IH p Hp) as (a & b & ->). by exists (x :: a), b.
    + destruct (split_on c s) as [|q qs] eqn:Eq; [by destruct (split_on_nonempty c s)|].
      apply elem_of_cons in Hp as [->|Hp].
      * pose proof (join_split c s) as J. rewrite Eq in J.
        destruct qs as [|q2 qs]; cbn [join_with] in J.
        -- exists [], []. cbn. by rewrite app_nil_r, J.
        -- exists [], (c :: join_with c (q2 :: qs)). cbn [app]. f_equal. symmetry. exact J.
      * destruct (IH p) as (a & b & ->); [by right|]. by exists (x :: a), b.
Qed.

Lemma parse_canonical_no_panic r tail : starts_after_ascii tail -> parse_canonical r tail <> CPanic.
Proof.
  intros Ht. unfold parse_canonical.
  assert (Hp : forall p, p ∈ split_on 45 tail -> starts_after_ascii p).
  { intros p (a & b & E)%split_on_infix. subst tail. by eapply starts_after_ascii_infix. }
  destruct (split_on 45 tail) as [|rh [|ab [|wb rest]]]; try done.
  destruct (negb _ && negb _); [done|]. destruct (Z.eqb_spec (zlen rh) 5) as [L|]; cbn [negb]; [|done].
  destruct rh as [|rg h]; [discriminate L|]. change ((rg :: h) !!! 0%nat) with rg.
  destruct (is_valid_region rg) eqn:Er; cbn [negb]; [|done].
  rewrite slice_from_some by (eapply (starts_after_ascii_boundary _ 0%nat rg);
    [apply Hp; by left | done | by apply region_ascii]).
  cbn [mbind comp_bind]. destruct (is_valid_host_code _); cbn [negb]; [|done].
  apply bind_no_panic; [apply tagged_no_panic; [apply Hp; right; by left | done]|]. intros a _.
  apply bind_no_panic; [apply tagged_no_panic; [apply Hp; do 2 right; by left | done]|]. intros w _.
  destruct rest as [|pb [|nb [|? ?]]]; try done.
  apply bind_no_panic; [apply tagged_no_panic; [apply Hp; do 3 right; by left | done]|]. intros p _.
  apply bind_no_panic; [apply tagged_no_panic; [apply Hp; do 4 right; by left | done]|]. done.
Qed.

Lemma date_ok_no_panic d : starts_after_ascii d -> date_shape d = true -> date_ok d <> CPanic.
Proof.
  unfold date_shape. intros Hd Hs. to_prop. unfold zlen in *.
  assert (B4 : is_char_boundary d 4 = true) by by eapply boundary_at.
  assert (B5 : is_char_boundary d 5 = true) by by eapply (starts_after_ascii_boundary d 4 45).
  assert (B7 : is_char_boundary d 7 = true) by by eapply boundary_at.
  assert (B8 : is_char_boundary d 8 = true) by by eapply (starts_after_ascii_boundary d 7 45).
  assert (B10 : is_char_boundary d 10 = true).
  { replace 10%nat with (length d) by lia. apply boundary_len. }
  unfold date_ok, slice_to, slice_range. rewrite B4, B5, B7, B8, B10. cbn [andb Nat.leb mbind comp_bind].
  by repeat (destruct (forallb _ _); cbn [negb mbind comp_bind]).
Qed.

(** The parser, the validator and the classifier never panic on a [&str]
    (UTF-8), whatever non-ASCII characters it holds; strict validation
    accepts exactly what a minter of a known role could have produced; and
    the classifier names the minter. *)
Theorem pid_total pid :
  utf8_valid pid = true ->
  parse_pid pid <> CPanic /\
  (validate_pid pid true = CRet tt <->
     exists q, mint_parsed q = Ok pid /\ is_valid_role (role_of q) = true) /\
  (classify_subclass pid = CRet Anchor <-> exists r d, mint_anchor_pid r d = Ok pid) /\
  (classify_subclass pid = CRet Regular <-> exists r rg h a w, mint_pid r rg h a w = Ok pid) /\
  (classify_subclass pid = CRet RegularExtended <->
     exists r rg h a w p n, mint_pid_extended r rg h a w p n = Ok pid).
Proof.
  intros Hu. apply utf8_starts_after_ascii in Hu.
  assert (Hnp : parse_pid pid <> CPanic).
  { unfold parse_pid. destruct (rfind_sub marker pid) as [idx|] eqn:Ei; [|done].
    apply rfind_sub_Some in Ei as (Ei & Hl & _). change (length marker) with 5%nat in *.
    assert (L0 : length (take idx pid) = idx) by (rewrite length_take; lia).
    assert (Lk : forall i, pid !! (idx + i)%nat = (marker ++ drop (idx + 5) pid) !! i).
    { intros i. rewrite <- (lookup_after (take idx pid) (marker ++ _) i), L0. by rewrite <- Ei. }
    assert (E0 : pid !! idx = Some 45%Z) by (specialize (Lk 0%nat); by rewrite Nat.add_0_r in Lk).
    assert (E4 : pid !! (idx + 4)%nat = Some 45%Z) by apply Lk.
    unfold slice_to. rewrite (boundary_at pid idx 45) by done. cbn [mbind comp_bind].
    assert (B : is_char_boundary pid (idx + 5) = true).
    { replace (idx + 5)%nat with (S (idx + 4)) by lia. by eapply starts_after_ascii_boundary. }
    rewrite slice_from_some by done. cbn [mbind comp_bind].
    assert (Ht : starts_after_ascii (drop (idx + 5) pid)).
    { apply (starts_after_ascii_infix (take (idx + 5) pid) _ []). by rewrite app_nil_r, take_drop. }
    destruct (date_shape _) eqn:Es; [|by apply parse_canonical_no_panic].
    apply bind_no_panic; [by apply date_ok_no_panic|].
    intros [] _; [done | by apply parse_canonical_no_panic]. }
  split; [done|]. unfold validate_pid, classify_subclass.
  pose proof (parse_iff pid) as Hq.
  destruct (parse_pid pid) as [q0|e|]; [|split_and!; split; try done|done].
  - assert (U : forall q, mint_parsed q = Ok pid -> q = q0).
    { intros q Em. apply Hq in Em. by injection Em. }
    pose proof (proj1 (Hq q0) eq_refl) as E0. cbn [mbind comp_bind andb].
    split_and!; split.
    + destruct (is_valid_role (role_of q0)) eqn:Er; cbn [negb]; [|done]. intros _. by exists q0.
    + intros (q & Em & Er). rewrite (U q Em) in Er. by rewrite Er.
    + destruct q0 as [[? ? ? ? ? [] []]|[r d]]; try done. intros _. by exists r, d.
    + intros (r & d & Em). by rewrite <- (U (AnchorPid (mkAnchor r d)) Em).
    + destruct q0 as [[r rg h a w [] []]|[r d]]; try done. intros _. by exists r, rg, h, a, w.
    + intros (r & rg & h & a & w & Em). by rewrite <- (U (Canonical (mkParts r rg h a w None None)) Em).
    + destruct q0 as [[r rg h a w [p|] [n|]]|[r d]]; try done. intros _. by exists r, rg, h, a, w, p, n.
    + intros (r & rg & h & a & w & p & n & Em).
      by rewrite <- (U (Canonical (mkParts r rg h a w (Some p) (Some n))) Em).
  - intros (q & Em & _). by apply Hq in Em.
  - intros (r & d & Em). by apply (Hq (AnchorPid (mkAnchor r d))) in Em.
  - intros (r & rg & h & a & w & Em). by apply (Hq (Canonical (mkParts r rg h a w None None))) in Em.
  - intros (r & rg & h & a & w & p & n & Em).
    by apply (Hq (Canonical (mkParts r rg h a w (Some p) (Some n)))) in Em.
Qed.

Lemma pid_total_witness :
  validate_pid (lit "OP-RAYSSA-PID-G0000-A00-W000") true = CRet tt /\
  classify_subclass (lit "ASOLARIA-FEDERATION-REMAKE-1024-PID-2026-05-11") = CRet Anchor.
Proof.
  assert (U1 : utf8_valid (lit "OP-RAYSSA-PID-G0000-A00-W000") = true) by by vm_compute.
  assert (U2 : utf8_valid (lit "ASOLARIA-FEDERATION-REMAKE-1024-PID-2026-05-11") = true) by by vm_compute.
  split.
  - apply (pid_total _ U1).
    exists (Canonical (mkParts (lit "OP-RAYSSA") 71 (lit "0000") (lit "00") (lit "000") None None)).
    by vm_compute.
  - apply (pid_total _ U2). exists (lit "ASOLARIA-FEDERATION-REMAKE-1024"), (lit "2026-05-11").
    by vm_compute.
Defined.

(** The fingerprint is the shared 16-character rendering; with the boot
    crate's SHA-256 it reproduces the federation's parity vectors. *)
Lemma fingerprint_sha16 `{Digest} pid : pid_fingerprint_sha16 pid = sha16 pid.
Proof. done. Qed.

Lemma fingerprint_vectors :
  let _ := boot_digest in
  map pid_fingerprint_sha16 [lit "OP-RAYSSA-PID-G0000-A00-W000"; lit "OPERATOR-PID-H1001-A00-W110"]
  = [lit "bf5fa7a1a57f384b"; lit "760ba73b84f31861"].
Proof. vm_compute. reflexivity. Qed.
