(* ===== verification/LinkAuth.v ===== *)
(** * Cross-host link authentication ([kernel/core/src/link_auth/mod.rs])

    HMAC-SHA256 over request parts, the link gate and the level grants. *)

From S2P Require Import Prelude Digest Sha256.

Module LinkAuth.

Definition HMAC_BLOCK : Z := 64.

Section WithDigest.
Context `{Digest}.

(** The key normalised to one block: long keys hashed, then zero padding. *)
Definition block_key (key : bytes) : bytes :=
  let k := if (zlen key >? HMAC_BLOCK)%Z then sha256 key else key in
  k ++ replicate (Z.to_nat HMAC_BLOCK - length k) 0%Z.

Definition pad_with (x : Z) (k0 : bytes) : bytes := map (fun b => Z.lxor b x) k0.

Definition hmac_sha256_parts (key : bytes) (parts : list bytes) : bytes :=
  let k0 := block_key key in
  let inner_digest := sha256_parts (pad_with 54 k0 :: parts) in
  sha256_parts [pad_with 92 k0; inner_digest].

Record LinkRequest := mkRequest {
  owner_pid : bytes;
  host : bytes;
  verb : bytes;
  nonce : bytes;
  ts_unix_s : Z;
  hmac_hex : bytes
}.

Inductive LinkVerdict := Allow | DenyBadHmac | DenyOwnerNotGranted | DenyStale | DenyMalformed.

Definition is_empty (s : bytes) : bool := (zlen s =? 0)%Z.

(** One round of the comparison: the two characters of byte [i]. *)
Definition pair_matches (mac eb : bytes) (i : nat) : bool :=
  let hi := HEX !!! Z.to_nat (Z.shiftr (mac !!! i) 4) in
  let lo := HEX !!! Z.to_nat (Z.land (mac !!! i) 15) in
  negb (negb (eb !!! (2 * i)%nat =? hi)%Z || negb (eb !!! (2 * i + 1)%nat =? lo)%Z).

Definition hmac_hex_matches (mac expected_hex : bytes) : bool :=
  if negb (zlen expected_hex =? 64)%Z then false
  else fold_left (fun equal i => if pair_matches mac expected_hex i then equal else false)
         (seq 0 32) true.

(** The parts [verify_link] feeds to the HMAC. *)
Definition canonical_parts (req : LinkRequest) : list bytes :=
  [lit "LINK|"; owner_pid req; lit "|"; host req; lit "|"; verb req; lit "|"; nonce req; lit "|";
   be_bytes 8 (ts_unix_s req)].

Definition verify_link (req : LinkRequest) (shared_key : bytes) (granted_owner_pids : list bytes)
    (now_unix_s max_skew_s : Z) : LinkVerdict :=
  if is_empty (owner_pid req) || is_empty (host req) || is_empty (verb req) || is_empty (nonce req)
     || negb (zlen (hmac_hex req) =? 64)%Z
  then DenyMalformed
  else
    let diff := if (ts_unix_s req <=? now_unix_s)%Z then (now_unix_s - ts_unix_s req)%Z
                else (ts_unix_s req - now_unix_s)%Z in
    if (max_skew_s <? diff)%Z then DenyStale
    else if negb (existsb (fun g => bytes_eqb g (owner_pid req)) granted_owner_pids)
    then DenyOwnerNotGranted
    else
      let mac := hmac_sha256_parts shared_key (canonical_parts req) in
      if hmac_hex_matches mac (hmac_hex req) then Allow else DenyBadHmac.

End WithDigest.

Record LinkGrant := mkGrant { grant_pid : bytes; max_level : Z }.

Definition LEVEL_PUBLIC : Z := 0.

Definition granted_level (owner : bytes) (grants : list LinkGrant) : option Z :=
  fold_left (fun best g =>
    if bytes_eqb (grant_pid g) owner then
      Some match best with
           | Some b => if (max_level g <=? b)%Z then b else max_level g
           | None => max_level g
           end
    else best) grants None.

Definition effective_level (owner : bytes) (requested_level : Z) (grants : list LinkGrant) : option Z :=
  (fun g => if (requested_level <? g)%Z then requested_level else g) <$> granted_level owner grants.

(** The canonical message as one byte string. *)
Definition message (req : LinkRequest) : bytes := concat (canonical_parts req).

(** *** What a link request must satisfy, written apart from the code *)

(** HMAC as RFC 2104 writes it, for a hash of 64-byte blocks: the key, hashed
    when it is longer than a block, is filled up with zero bytes and combined
    with 64 copies of the pad byte. *)
Section WithDigestSpec.
Context `{Digest}.

Definition rfc_pad (pad : Z) (key : bytes) : bytes :=
  zip_with Z.lxor (resize 64 0%Z (if (64 <? zlen key)%Z then sha256 key else key)) (replicate 64 pad).

Definition rfc_inner (key text : bytes) : bytes := rfc_pad 0x36 key ++ text.
Definition rfc_outer (key text : bytes) : bytes := rfc_pad 0x5c key ++ sha256 (rfc_inner key text).
Definition rfc_hmac (key text : bytes) : bytes := sha256 (rfc_outer key text).

(** The text a request signs. *)
Definition link_text (req : LinkRequest) : bytes :=
  lit "LINK|" ++ owner_pid req ++ lit "|" ++ host req ++ lit "|" ++ verb req ++ lit "|" ++ nonce req
  ++ lit "|" ++ be_bytes 8 (ts_unix_s req).

Definition well_formed (req : LinkRequest) : Prop :=
  owner_pid req <> [] /\ host req <> [] /\ verb req <> [] /\ nonce req <> [] /\ length (hmac_hex req) = 64%nat.

Definition genuine (key : bytes) (req : LinkRequest) : Prop :=
  hmac_hex req = hex_of (rfc_hmac key (link_text req)).

(** These two byte strings are a collision of the hash. *)
Definition collide (x y : bytes) : Prop := x <> y /\ sha256 x = sha256 y.

End WithDigestSpec.

(** No field of the request contains the separator. *)
Definition separator_free (req : LinkRequest) : Prop :=
  124%Z ∉ owner_pid req /\ 124%Z ∉ host req /\ 124%Z ∉ verb req /\ 124%Z ∉ nonce req.

End LinkAuth.

Import LinkAuth.

#[local] Open Scope Z_scope.

(** ** The comparison *)

Lemma fold_all (f : nat -> bool) l :
  fold_left (fun equal i => if f i then equal else false) l true = forallb f l.
Proof.
  assert (F : forall k, fold_left (fun equal i => if f i then equal else false) k false = false).
  { induction k as [|i k IH]; cbn; [done|]. by destruct (f i). }
  induction l as [|i l IH]; cbn; [done|]. destruct (f i); cbn; [done | apply F].
Qed.

Lemma HEX_total n : 0 <= n < 16 -> HEX !!! Z.to_nat n = hex_digit n.
Proof. intros Hn. apply list_lookup_total_correct. by apply HEX_lookup. Qed.

Lemma hex_of_cons b l : hex_of (b :: l) = hex_pair b ++ hex_of l.
Proof. done. Qed.

Lemma hex_of_lookup mac i : (i < length mac)%nat ->
  hex_of mac !!! (2 * i)%nat = hex_digit (Z.shiftr (mac !!! i) 4) /\
  hex_of mac !!! (2 * i + 1)%nat = hex_digit (Z.land (mac !!! i) 15).
Proof.
  revert i. induction mac as [|b mac IH]; intros i Hi; [cbn in Hi; lia|].
  destruct i as [|i]; [done|]. cbn [length] in Hi. destruct (IH i ltac:(lia)) as [H1 H2].
  replace (2 * S i)%nat with (S (S (2 * i))) by lia.
  replace (S (S (2 * i)) + 1)%nat with (S (S (2 * i + 1))) by lia.
  rewrite hex_of_cons. cbn [hex_pair app]. done.
Qed.

Lemma list_eq_total (l k : bytes) n : length l = n -> length k = n ->
  (forall i, (i < n)%nat -> l !!! i = k !!! i) -> l = k.
Proof.
  intros Hl Hk He. apply list_eq_same_length with n; [done|done|].
  intros i x y Hi Hx Hy. apply list_lookup_total_correct in Hx, Hy. subst. by apply He.
Qed.

(** The loop accepts exactly the lowercase rendering of the MAC. *)
Lemma hmac_hex_matches_spec mac e : length mac = 32%nat -> Forall is_byte mac ->
  hmac_hex_matches mac e = true <-> e = hex_of mac.
Proof.
  intros Hm Hb. unfold hmac_hex_matches. rewrite fold_all.
  assert (Hr : forall i, (i < 32)%nat -> 0 <= Z.shiftr (mac !!! i) 4 < 16 /\ 0 <= Z.land (mac !!! i) 15 < 16).
  { intros i Hi. rewrite Forall_lookup in Hb. destruct (hex_pair_spec (mac !!! i)) as (E & H1 & H2).
    - apply (Hb i). apply list_lookup_lookup_total_lt. lia.
    - rewrite Z.shiftr_div_pow2 by lia. change 15 with (Z.ones 4). by rewrite Z.land_ones. }
  assert (Hp : forall i, (i < 32)%nat -> pair_matches mac e i = true <->
     e !!! (2 * i)%nat = hex_of mac !!! (2 * i)%nat /\ e !!! (2 * i + 1)%nat = hex_of mac !!! (2 * i + 1)%nat).
  { intros i Hi. destruct (Hr i Hi). destruct (hex_of_lookup mac i) as [-> ->]; [lia|].
    unfold pair_matches. rewrite !HEX_total by done.
    rewrite negb_true_iff, orb_false_iff, !negb_false_iff, !Z.eqb_eq. done. }
  assert (Hlen : length (hex_of mac) = 64%nat) by (rewrite hex_of_length; lia).
  destruct (Z.eqb_spec (zlen e) 64) as [He|He]; cbn [negb].
  - rewrite forallb_forall. split.
    + intros Hf. apply (list_eq_total _ _ 64); [unfold zlen in He; lia | done|].
      intros j Hj. specialize (Hf (j / 2)%nat). pose proof (Nat.div_mod j 2 ltac:(lia)) as Hdm.
      pose proof (Nat.mod_upper_bound j 2 ltac:(lia)).
      assert (Hj2 : (j / 2 < 32)%nat) by (apply Nat.Div0.div_lt_upper_bound; lia).
      apply Hp in Hf as [F1 F2]; [|done|apply in_seq; lia].
      assert (j = 2 * (j / 2) \/ j = 2 * (j / 2) + 1)%nat as [->| ->] by lia; done.
    + intros -> i Hi%in_seq. by apply Hp; [lia|].
  - split; [done|]. intros ->. unfold zlen in He. rewrite Hlen in He. done.
Qed.

Section Facts.
Context `{Digest}.

Lemma hmac_length key parts : length (hmac_sha256_parts key parts) = 32%nat.
Proof. apply sha256_length. Qed.
Lemma hmac_bytes key parts : Forall is_byte (hmac_sha256_parts key parts).
Proof. apply sha256_bytes. Qed.

(** ** The signed message *)

Lemma count_app (a b : bytes) x : count_occ Z.eq_dec (a ++ b) x = (count_occ Z.eq_dec a x + count_occ Z.eq_dec b x)%nat.
Proof. apply count_occ_app. Qed.

Lemma count_zero (a : bytes) x : count_occ Z.eq_dec a x = 0%nat <-> x ∉ a.
Proof. rewrite list_elem_of_In. symmetry. apply count_occ_not_In. Qed.

Lemma message_eq req : message req =
  (lit "LINK|" ++ owner_pid req ++ lit "|" ++ host req ++ lit "|" ++ verb req ++ lit "|" ++ nonce req ++ lit "|")
  ++ be_bytes 8 (ts_unix_s req).
Proof. unfold message, canonical_parts. cbn [concat]. by rewrite app_nil_r, <- !app_assoc. Qed.

(** A separator-free request shares its message with no other request. *)
Lemma message_inj req req' :
  separator_free req -> is_u 64 (ts_unix_s req) -> is_u 64 (ts_unix_s req') ->
  message req = message req' ->
  owner_pid req = owner_pid req' /\ host req = host req' /\ verb req = verb req' /\
  nonce req = nonce req' /\ ts_unix_s req = ts_unix_s req'.
Proof.
  intros (N1 & N2 & N3 & N4) U U' E. rewrite !message_eq in E.
  apply app_eq_len_r in E as [E Et]; [|by rewrite !be_bytes_length].
  apply be_bytes_inj in Et; [|exact U|exact U'].
  apply app_eq_len in E as [_ E]; [|done].
  pose proof (f_equal (fun l => count_occ Z.eq_dec l 124) E) as Ec. cbn beta in Ec.
  rewrite !count_app in Ec. change (count_occ Z.eq_dec (lit "|") 124) with 1%nat in Ec.
  rewrite (proj2 (count_zero _ _) N1), (proj2 (count_zero _ _) N2), (proj2 (count_zero _ _) N3),
    (proj2 (count_zero _ _) N4) in Ec.
  assert (M : 124 ∉ owner_pid req' /\ 124 ∉ host req' /\ 124 ∉ verb req' /\ 124 ∉ nonce req').
  { rewrite <- !count_zero. lia. }
  destruct M as (M1 & M2 & M3 & M4). cbn [lit app] in E.
  change (byte_of_ascii "|") with 124 in E.
  apply split_first_unique in E as [-> E]; [|done|done].
  apply split_first_unique in E as [-> E]; [|done|done].
  apply split_first_unique in E as [-> E]; [|done|done].
  by apply split_first_unique in E as [-> _].
Qed.

(** The code's pads are RFC 2104's. *)
Lemma block_key_length key : length (block_key key) = 64%nat.
Proof.
  unfold block_key. rewrite length_app, length_replicate. unfold zlen, HMAC_BLOCK.
  destruct (Z.gtb_spec (Z.of_nat (length key)) 64); [rewrite sha256_length|]; lia.
Qed.

Lemma pad_with_rfc x key : pad_with x (block_key key) = rfc_pad x key.
Proof.
  unfold rfc_pad. rewrite <- Z.gtb_ltb, resize_spec.
  assert (L : (length (if (zlen key >? 64)%Z then sha256 key else key) <= 64)%nat).
  { unfold zlen. destruct (Z.gtb_spec (Z.of_nat (length key)) 64); [rewrite sha256_length|]; lia. }
  rewrite take_ge by exact L. change (_ ++ replicate _ _) with (block_key key).
  rewrite zip_with_replicate_r_eq by (by rewrite block_key_length). done.
Qed.

Lemma message_text req : message req = link_text req.
Proof. rewrite message_eq. unfold link_text. by rewrite <- !app_assoc. Qed.

Lemma hmac_parts_rfc key req : hmac_sha256_parts key (canonical_parts req) = rfc_hmac key (link_text req).
Proof.
  unfold hmac_sha256_parts, sha256_parts, rfc_hmac, rfc_outer, rfc_inner. cbn [concat].
  rewrite !app_nil_r, !pad_with_rfc. by rewrite <- message_text.
Qed.

(** The verdicts in closed form, with the order of the tests. *)
Lemma is_empty_false s : is_empty s = false <-> s <> [].
Proof.
  unfold is_empty. rewrite Z.eqb_neq. split; [intros E ->; done|].
  intros Hs E. by apply zlen_zero_nil in E.
Qed.

Lemma granted_elem g grants : existsb (fun x => bytes_eqb x g) grants = true <-> g ∈ grants.
Proof.
  rewrite existsb_exists. split.
  - intros (x & Hx & E). apply bytes_eqb_true in E. subst. by apply list_elem_of_In.
  - intros Hx%list_elem_of_In. exists g. by rewrite bytes_eqb_refl.
Qed.

Lemma malformed_test req :
  is_empty (owner_pid req) || is_empty (host req) || is_empty (verb req) || is_empty (nonce req)
  || negb (zlen (hmac_hex req) =? 64)%Z = false <-> well_formed req.
Proof.
  rewrite !orb_false_iff, !is_empty_false, negb_false_iff, Z.eqb_eq. unfold well_formed, zlen.
  split; intros; destruct_and!; split_and!; auto; lia.
Qed.

Lemma genuine_test key req :
  hmac_hex_matches (hmac_sha256_parts key (canonical_parts req)) (hmac_hex req) = true <-> genuine key req.
Proof.
  rewrite hmac_hex_matches_spec by apply hmac_length || apply hmac_bytes. unfold genuine.
  by rewrite hmac_parts_rfc.
Qed.

Lemma verify_link_cases req key grants now skew :
  let v := verify_link req key grants now skew in
  let fresh := Z.abs (now - ts_unix_s req) <= skew in
  (v = DenyMalformed <-> ~ well_formed req) /\
  (v = DenyStale <-> well_formed req /\ skew < Z.abs (now - ts_unix_s req)) /\
  (v = DenyOwnerNotGranted <-> well_formed req /\ fresh /\ owner_pid req ∉ grants) /\
  (v = DenyBadHmac <-> well_formed req /\ fresh /\ owner_pid req ∈ grants /\ ~ genuine key req) /\
  (v = Allow <-> well_formed req /\ fresh /\ owner_pid req ∈ grants /\ genuine key req).
Proof.
  cbv zeta. unfold verify_link.
  assert (Habs : (if ts_unix_s req <=? now then now - ts_unix_s req else ts_unix_s req - now)
                 = Z.abs (now - ts_unix_s req)) by (split_if; lia).
  rewrite Habs. pose proof (malformed_test req) as M. destruct (_ || _).
  { assert (~ well_formed req) by (intros W; by apply M in W). clear M. naive_solver. }
  assert (W : well_formed req) by (by apply M). clear M.
  destruct (Z.ltb_spec skew (Z.abs (now - ts_unix_s req))) as [L|L];
    [split_and!; (split; [intros | intros; destruct_and?]; split_and?; auto; try done; lia)|].
  assert (L' : ~ skew < Z.abs (now - ts_unix_s req)) by lia.
  pose proof (granted_elem (owner_pid req) grants) as G. destruct (existsb _ grants); cbn [negb].
  2:{ assert (owner_pid req ∉ grants) by (intros W'; by apply G in W'). naive_solver. }
  assert (owner_pid req ∈ grants) by (by apply G).
  pose proof (genuine_test key req) as T. destruct (hmac_hex_matches _ _).
  - assert (genuine key req) by (by apply T). naive_solver.
  - assert (~ genuine key req) by (intros W'; by apply T in W'). naive_solver.
Qed.

(** Equal HMACs under one key: equal texts, or the inner or the outer inputs
    of these two computations collide. *)
Lemma hmac_collision key p q :
  rfc_hmac key p = rfc_hmac key q ->
  p = q \/ collide (rfc_inner key p) (rfc_inner key q) \/ collide (rfc_outer key p) (rfc_outer key q).
Proof.
  intros E. destruct (decide (rfc_outer key p = rfc_outer key q)) as [E1|]; [|by right; right].
  apply app_inv_head in E1.
  destruct (decide (rfc_inner key p = rfc_inner key q)) as [E2|]; [|by right; left].
  apply app_inv_head in E2. by left.
Qed.

(** ** Theorems *)

(** C14. The verdict of the gate, each one exactly. A request is well formed when no
    field is empty and its MAC text has 64 characters; otherwise it is
    malformed. A well-formed one is stale when its time is further than the
    skew from now; a fresh one of an owner without consent is not granted; a
    granted one is allowed when its MAC text is the lowercase hex of the
    RFC 2104 HMAC of its own fields, and a bad MAC otherwise. And a MAC that
    a separator-free request was allowed with opens the gate for no other
    owner, host, verb, nonce or time, unless the inputs of the two HMAC
    computations, inner or outer, are a SHA-256 collision. *)
Theorem verify_link_sound req key grants now skew :
  is_u 64 (ts_unix_s req) ->
  let v := verify_link req key grants now skew in
  let fresh := Z.abs (now - ts_unix_s req) <= skew in
  (v = DenyMalformed <-> ~ well_formed req) /\
  (v = DenyStale <-> well_formed req /\ skew < Z.abs (now - ts_unix_s req)) /\
  (v = DenyOwnerNotGranted <-> well_formed req /\ fresh /\ owner_pid req ∉ grants) /\
  (v = DenyBadHmac <-> well_formed req /\ fresh /\ owner_pid req ∈ grants /\ ~ genuine key req) /\
  (v = Allow <-> well_formed req /\ fresh /\ owner_pid req ∈ grants /\ genuine key req) /\
  (v = Allow -> separator_free req ->
   forall req' grants' now' skew', is_u 64 (ts_unix_s req') -> hmac_hex req' = hmac_hex req ->
     verify_link req' key grants' now' skew' = Allow ->
     req' = req \/ collide (rfc_inner key (link_text req)) (rfc_inner key (link_text req'))
     \/ collide (rfc_outer key (link_text req)) (rfc_outer key (link_text req'))).
Proof.
  intros U v fresh. destruct (verify_link_cases req key grants now skew) as (V1 & V2 & V3 & V4 & V5).
  split_and!; [exact V1 | exact V2 | exact V3 | exact V4 | exact V5 |].
  intros A S req' grants' now' skew' U' Eh A'. apply V5 in A as (_ & _ & _ & A).
  apply verify_link_cases in A' as (_ & _ & _ & A'). unfold genuine in A, A'.
  rewrite Eh, A in A'. apply hex_of_inj in A'; [|apply sha256_bytes..].
  apply hmac_collision in A' as [E|C]; [left | by right]. rewrite <- !message_text in E.
  destruct (message_inj req req' S U U' E) as (H1 & H2 & H3 & H4 & H5).
  destruct req, req'. cbn in *. congruence.
Qed.

(** The separator matters: a request allowed for one verb, whose nonce
    contains a separator, gives the same MAC as a request for the verb
    hidden in that nonce, which the gate then allows too. *)
Theorem verb_rebinding owner h v v' n ts mac key grants now skew :
  verify_link (mkRequest owner h v (v' ++ lit "|" ++ n) ts mac) key grants now skew = Allow ->
  v' <> [] -> n <> [] ->
  verify_link (mkRequest owner (h ++ lit "|" ++ v) v' n ts mac) key grants now skew = Allow.
Proof.
  intros ((H1 & H2 & H3 & H4 & H5) & H6 & H7 & H8)%verify_link_cases Hv Hn. apply verify_link_cases.
  unfold well_formed, genuine, link_text in *.
  cbn [owner_pid host verb nonce ts_unix_s hmac_hex] in *. split_and!; try done.
  - intros E. by apply app_eq_nil in E as [? _].
  - rewrite H8. do 2 f_equal. by rewrite <- !app_assoc.
Qed.

End Facts.

(** Grants: the level an owner gets is the largest of its grants, nothing
    without a grant; the effective level never exceeds the request nor that
    grant and is one of the two. *)
Theorem effective_level_spec owner req grants :
  match granted_level owner grants with
  | None => (forall g, g ∈ grants -> grant_pid g <> owner) /\ effective_level owner req grants = None
  | Some l =>
      (exists g, g ∈ grants /\ grant_pid g = owner /\ max_level g = l) /\
      (forall g, g ∈ grants -> grant_pid g = owner -> max_level g <= l) /\
      effective_level owner req grants = Some (Z.min req l)
  end.
Proof.
  unfold effective_level.
  assert (I : match granted_level owner grants with
    | None => forall g, g ∈ grants -> grant_pid g <> owner
    | Some l => (exists g, g ∈ grants /\ grant_pid g = owner /\ max_level g = l) /\
                (forall g, g ∈ grants -> grant_pid g = owner -> max_level g <= l)
    end).
  { unfold granted_level. induction grants as [|g grants IH] using rev_ind; cbn.
    - intros g Hg. by apply elem_of_nil in Hg.
    - rewrite fold_left_app. cbn. destruct (fold_left _ grants None) as [b|].
      + destruct IH as ((g0 & Hg0 & Eg0 & El) & Hmax). destruct (bytes_eqb (grant_pid g) owner) eqn:E.
        * apply bytes_eqb_true in E. destruct (Z.leb_spec (max_level g) b).
          -- split; [exists g0; rewrite elem_of_app; auto|].
             intros k [Hk|Hk%list_elem_of_singleton]%elem_of_app Ek; [by apply Hmax | by subst].
          -- split; [exists g; rewrite elem_of_app, list_elem_of_singleton; auto|].
             intros k [Hk|Hk%list_elem_of_singleton]%elem_of_app Ek; [specialize (Hmax k Hk Ek); lia | subst; lia].
        * apply bytes_eqb_false in E. split; [exists g0; rewrite elem_of_app; auto|].
          intros k [Hk|Hk%list_elem_of_singleton]%elem_of_app Ek; [by apply Hmax | by subst].
      + destruct (bytes_eqb (grant_pid g) owner) eqn:E.
        * apply bytes_eqb_true in E. split; [exists g; rewrite elem_of_app, list_elem_of_singleton; auto|].
          intros k [Hk|Hk%list_elem_of_singleton]%elem_of_app Ek; [by apply IH in Hk | subst; lia].
        * apply bytes_eqb_false in E.
          intros k [Hk|Hk%list_elem_of_singleton]%elem_of_app; [by apply IH | by subst]. }
  destruct (granted_level owner grants) as [l|]; cbn; [|done]. destruct I. split_and!; [done..|].
  f_equal. destruct (Z.ltb_spec req l); lia.
Qed.

(** A request signed with the key [k] under the boot crate's SHA-256. *)
Definition signed `{Digest} (key o h v n : bytes) (ts : Z) : LinkRequest :=
  let r := mkRequest o h v n ts [] in
  mkRequest o h v n ts (hex_of (hmac_sha256_parts key (canonical_parts r))).

Lemma verify_link_sound_witness :
  let _ := boot_digest in
  verify_link (signed (lit "k") (lit "OP-JESSE") (lit "acer") (lit "search") (lit "n1") 1000)
    (lit "k") [lit "OP-JESSE"] 1010 30 = Allow.
Proof.
  intros d.
  assert (U : is_u 64 1000) by by vm_compute.
  apply (verify_link_sound (H:=d) (signed (lit "k") (lit "OP-JESSE") (lit "acer") (lit "search") (lit "n1") 1000)
           (lit "k") [lit "OP-JESSE"] 1010 30 U).
  split; [by vm_compute|]. split; [by vm_compute|]. split; [by left|]. vm_compute. reflexivity.
Defined.

Lemma verb_rebinding_witness :
  let _ := boot_digest in
  let mac := hmac_hex (signed (lit "k") (lit "OP-JESSE") (lit "acer") (lit "search") (lit "fabric-write|n1") 1000) in
  verify_link (mkRequest (lit "OP-JESSE") (lit "acer|search") (lit "fabric-write") (lit "n1") 1000 mac)
    (lit "k") [lit "OP-JESSE"] 1010 30 = Allow.
Proof.
  intros d mac.
  apply (verb_rebinding (H:=d) (lit "OP-JESSE") (lit "acer") (lit "search") (lit "fabric-write") (lit "n1") 1000
           mac (lit "k") [lit "OP-JESSE"] 1010 30); [|done|done].
  vm_compute. reflexivity.
Defined.
