(* ===== verification/Fedenv.v ===== *)
(** * FEDENV-v1 envelopes ([kernel/core/src/envelope/fedenv.rs])

    The route-layer validator and the target resolver. *)

From S2P Require Import Prelude Digest Sha256.

Module Fedenv.

Definition COSIGN_WINDOW : bytes := lit "QUINTUPLE-DELEGATED-2WEEK-2026-05-22-to-2026-06-05".
Definition COSIGN_WINDOW_V3 : bytes := lit "FOUNDATION-V3-LAW-EXTENDED-4MO".
Definition ADMIN_OVERRIDE : bytes := lit "ADMIN-OVERRIDE-OP-JESSE".
Definition MAX_PAYLOAD_BYTES : Z := 64 * 1024.

Definition TARGET_PREFIXES : list bytes :=
  [lit "pid:H"; lit "cli:"; lit "citizen:"; lit "antigravity:"; lit "daemon:"; lit "google:"; lit "meta:"].

Inductive RejectReason :=
| Malformed | UnresolvableTarget | PayloadTooLarge | ExpiredCosign | RowHashMismatch | ReservedSlot.

#[export] Instance RejectReason_eq_dec : EqDecision RejectReason.
Proof. solve_decision. Defined.

Definition as_event_str (r : RejectReason) : bytes :=
  match r with
  | Malformed => lit "EVT-FEDENV-REJECTED-MALFORMED"
  | UnresolvableTarget => lit "EVT-FEDENV-REJECTED-UNRESOLVABLE-TARGET"
  | PayloadTooLarge => lit "EVT-FEDENV-REJECTED-PAYLOAD-TOO-LARGE"
  | ExpiredCosign => lit "EVT-FEDENV-REJECTED-EXPIRED-COSIGN"
  | RowHashMismatch => lit "EVT-FEDENV-REJECTED-ROW-HASH-MISMATCH"
  | ReservedSlot => lit "EVT-FEDENV-REJECTED-RESERVED-SLOT"
  end.

Inductive RouteKind := PidRouted | Cli | Citizen | Antigravity | Daemon | Google | Meta.

Inductive Priority := Apex | High | Normal | Low.

Record FedenvView := mkView {
  caller_pid : bytes;
  target : bytes;
  verb : bytes;
  payload : bytes;
  back_address : bytes;
  cube_47d : bytes;
  glyph_5 : bytes;
  cosign_token : bytes;
  ttl_seconds : bytes;
  antecedents : bytes;
  row_hash : bytes;
  ts : option bytes
}.

Definition required_fields (env : FedenvView) : list bytes :=
  [caller_pid env; target env; verb env; payload env; back_address env; cube_47d env; glyph_5 env;
   cosign_token env; ttl_seconds env; antecedents env; row_hash env].

(** [str::parse::<u32>]: an optional [+], then at least one digit, at most
    2^32 - 1. *)
Definition strip_plus (s : bytes) : bytes :=
  match s with
  | b :: c :: d => if (b =? 43)%Z then c :: d else s
  | _ => s
  end.

Definition parse_u32 (s : bytes) : option Z :=
  let digits := strip_plus s in
  if (zlen digits =? 0)%Z then None
  else if forallb is_ascii_digit digits then
    let v := dec_value digits in
    if (v <? 2 ^ 32)%Z then Some v else None
  else None.

(** [chars().count()] of UTF-8 text: the bytes that start a character. *)
Definition chars_count (s : bytes) : Z := zlen (filter (fun b => is_continuation b = false) s).

Definition is_lower_hex (b : Z) : bool := is_ascii_digit b || ((97 <=? b) && (b <=? 102))%Z.

Definition is_hex16 (s : bytes) : bool := (zlen s =? 16)%Z && forallb is_lower_hex s.

Definition octal_segment (seg : bytes) : bool :=
  (zlen seg =? 1)%Z && ((48 <=? seg !!! 0%nat) && (seg !!! 0%nat <=? 55))%Z.

(** The loop over the segments with its counter; [None] is the early return. *)
Fixpoint count_segments (segments : Z) (l : list bytes) : option Z :=
  match l with
  | [] => Some segments
  | seg :: l' =>
      if negb (octal_segment seg) then None else count_segments (wrap32 (segments + 1)) l'
  end.

Definition cube_47d_ok (s : bytes) : bool :=
  match count_segments 0 (split_on 45 s) with
  | Some n => (n =? 6)%Z
  | None => false
  end.

(** The loop of [row_hash_matches]. *)
Fixpoint row_pairs (digest eb : bytes) (n i : nat) : bool :=
  match n with
  | O => true
  | S n' =>
      let hi := HEX !!! Z.to_nat (Z.shiftr (digest !!! i) 4) in
      let lo := HEX !!! Z.to_nat (Z.land (digest !!! i) 15) in
      if negb (eb !!! (2 * i)%nat =? hi)%Z || negb (eb !!! (2 * i + 1)%nat =? lo)%Z then false
      else row_pairs digest eb n' (S i)
  end.

Definition row_hash_matches (digest_first8 expected : bytes) : bool :=
  if negb (zlen expected =? 16)%Z || (zlen digest_first8 <? 8)%Z then false
  else row_pairs digest_first8 expected 8 0.

Section WithDigest.
Context `{Digest}.

(** The digest of rule 10. *)
Definition row_digest (env : FedenvView) (t : bytes) : bytes :=
  sha256_parts [lit "FEDENV|"; caller_pid env; verb env; payload env; t].

Definition validate (env : FedenvView) : result RejectReason unit :=
  if existsb (fun f => zlen f =? 0)%Z (required_fields env) then Err Malformed
  else if negb (existsb (fun p => starts_with p (target env)) TARGET_PREFIXES) then Err UnresolvableTarget
  else if (MAX_PAYLOAD_BYTES <? zlen (payload env))%Z then Err PayloadTooLarge
  else if negb (cube_47d_ok (cube_47d env)) then Err Malformed
  else if (chars_count (glyph_5 env) <? 5)%Z then Err Malformed
  else if negb match parse_u32 (ttl_seconds env) with
               | Some t => (1 <=? t)%Z && (t <=? 86400)%Z
               | None => false
               end then Err Malformed
  else if negb (is_hex16 (row_hash env)) || negb (is_hex16 (antecedents env)) then Err Malformed
  else if negb (contains COSIGN_WINDOW (cosign_token env)
                || contains COSIGN_WINDOW_V3 (cosign_token env)
                || contains ADMIN_OVERRIDE (cosign_token env)) then Err ExpiredCosign
  else match ts env with
       | Some t =>
           if negb (row_hash_matches (take 8 (row_digest env t)) (row_hash env)) then Err RowHashMismatch
           else Ok tt
       | None => Ok tt
       end.
End WithDigest.

Definition resolve_target (target : bytes) : option RouteKind :=
  if starts_with (lit "pid:H") target then Some PidRouted
  else if starts_with (lit "cli:") target then Some Cli
  else if starts_with (lit "citizen:") target then Some Citizen
  else if starts_with (lit "antigravity:") target then Some Antigravity
  else if starts_with (lit "daemon:") target then Some Daemon
  else if starts_with (lit "google:") target then Some Google
  else if starts_with (lit "meta:") target then Some Meta
  else None.

Definition priority_of (priority : bytes) : Priority :=
  if bytes_eqb priority (lit "apex") then Apex
  else if bytes_eqb priority (lit "high") then High
  else if bytes_eqb priority (lit "low") then Low
  else Normal.

(** *** The documented rules, written apart from the checks *)

Definition filled (env : FedenvView) : Prop :=
  caller_pid env <> [] /\ target env <> [] /\ verb env <> [] /\ payload env <> [] /\ back_address env <> [] /\
  cube_47d env <> [] /\ glyph_5 env <> [] /\ cosign_token env <> [] /\ ttl_seconds env <> [] /\
  antecedents env <> [] /\ row_hash env <> [].

(** The prefix of each route. *)
Definition route_prefix (k : RouteKind) : bytes :=
  match k with
  | PidRouted => lit "pid:H" | Cli => lit "cli:" | Citizen => lit "citizen:" | Antigravity => lit "antigravity:"
  | Daemon => lit "daemon:" | Google => lit "google:" | Meta => lit "meta:"
  end.

Definition routed (env : FedenvView) : Prop := exists k rest, target env = route_prefix k ++ rest.

(** Six octal digits with hyphens between them. *)
Definition six_octal (s : bytes) : Prop :=
  exists a b c d e f, s = [a; 45; b; 45; c; 45; d; 45; e; 45; f]%Z /\
    Forall (fun x => 48 <= x <= 55)%Z [a; b; c; d; e; f].

(** At least five characters: bytes of UTF-8 text that continue none. *)
Definition five_glyphs (s : bytes) : Prop := (5 <= length (filter (fun b => ~ (128 <= b < 192)%Z) s))%nat.

(** Decimal digits, after a plus sign or without, of a number of seconds in
    a day. *)
Definition ttl_in_day (s : bytes) : Prop :=
  exists ds, (s = ds \/ s = 43%Z :: ds) /\ ds <> [] /\ Forall (fun b => 48 <= b <= 57)%Z ds /\
    (1 <= fold_left (fun n b => 10 * n + (b - 48)) ds 0 <= 86400)%Z.

Definition hex16 (s : bytes) : Prop :=
  length s = 16%nat /\ Forall (fun b => 48 <= b <= 57 \/ 97 <= b <= 102)%Z s.

Definition shaped (env : FedenvView) : Prop :=
  six_octal (cube_47d env) /\ five_glyphs (glyph_5 env) /\ ttl_in_day (ttl_seconds env) /\
  hex16 (row_hash env) /\ hex16 (antecedents env).

Definition cosigned (env : FedenvView) : Prop :=
  exists a w b, cosign_token env = a ++ w ++ b /\
    w ∈ [lit "QUINTUPLE-DELEGATED-2WEEK-2026-05-22-to-2026-06-05"; lit "FOUNDATION-V3-LAW-EXTENDED-4MO";
         lit "ADMIN-OVERRIDE-OP-JESSE"].

Definition self_hashed `{Digest} (env : FedenvView) : Prop :=
  forall t, ts env = Some t ->
    row_hash env = hex_of (take 8 (sha256 (lit "FEDENV|" ++ caller_pid env ++ verb env ++ payload env ++ t))).

End Fedenv.

Import Fedenv.

#[local] Open Scope Z_scope.

(** ** The parts *)

Lemma HEX_at n : 0 <= n < 16 -> HEX !!! Z.to_nat n = hex_digit n.
Proof. intros Hn. apply list_lookup_total_correct. by apply HEX_lookup. Qed.

Lemma row_pairs_spec d e : Forall is_byte d -> forall pre,
  length e = (2 * length d)%nat ->
  row_pairs (pre ++ d) (hex_of pre ++ e) (length d) (length pre) = true <-> e = hex_of d.
Proof.
  induction 1 as [|b d Hb Hd IH] in e |- *; intros pre Hl.
  - destruct e; [done|discriminate Hl].
  - destruct e as [|x [|y e]]; [discriminate Hl | cbn in Hl; lia |]. cbn [length row_pairs].
    destruct (hex_pair_spec b Hb) as (E & H1 & H2).
    assert (L1 : (pre ++ b :: d) !!! length pre = b) by by apply list_lookup_total_middle.
    assert (Lh : length (hex_of pre) = (2 * length pre)%nat) by apply hex_of_length.
    assert (L2 : (hex_of pre ++ x :: y :: e) !!! (2 * length pre)%nat = x) by by apply list_lookup_total_middle.
    assert (L3 : (hex_of pre ++ x :: y :: e) !!! (2 * length pre + 1)%nat = y).
    { rewrite (app_assoc _ [x] (y :: e)). apply list_lookup_total_middle. rewrite length_app, Lh. cbn. lia. }
    rewrite L1, L2, L3.
    assert (B1 : 0 <= Z.shiftr b 4 < 16) by by rewrite Z.shiftr_div_pow2 by lia.
    assert (B2 : 0 <= Z.land b 15 < 16) by (change 15 with (Z.ones 4); by rewrite Z.land_ones).
    rewrite !HEX_at by done.
    specialize (IH e (pre ++ [b])). rewrite length_app, <- app_assoc in IH.
    unfold hex_of in IH. rewrite flat_map_app in IH. cbn [flat_map] in IH. rewrite app_nil_r in IH.
    unfold hex_of. cbn [flat_map]. cbn [length] in *. replace (length pre + 1)%nat with (S (length pre)) in IH by lia.
    unfold hex_pair in *. cbn [app]. rewrite <- app_assoc in IH. cbn [app] in IH.
    destruct (Z.eqb_spec x (hex_digit (Z.shiftr b 4))) as [->|Nx]; cbn [negb orb];
      [destruct (Z.eqb_spec y (hex_digit (Z.land b 15))) as [->|Ny]; cbn [negb]|].
    + rewrite IH by lia. split; [by intros -> | by intros [= ->]].
    + split; [done|]. intros [= ? _]. done.
    + split; [done|]. intros [= ? _ _]. done.
Qed.

Lemma row_hash_matches_spec d e : length d = 8%nat -> Forall is_byte d ->
  row_hash_matches d e = true <-> e = hex_of d.
Proof.
  intros Hl Hb. unfold row_hash_matches. assert (Zd : zlen d = 8) by (unfold zlen; lia).
  rewrite Zd. change (8 <? 8) with false. rewrite orb_false_r.
  destruct (Z.eqb_spec (zlen e) 16) as [He|He]; cbn [negb].
  - pose proof (row_pairs_spec d e Hb []) as Hp. cbn [app length hex_of flat_map] in Hp. rewrite Hl in Hp.
    apply Hp. unfold zlen in He. lia.
  - split; [done|]. intros ->. destruct He. unfold zlen. rewrite hex_of_length. lia.
Qed.

Lemma count_segments_spec l n k : 0 <= n -> n + zlen l < 2 ^ 32 ->
  count_segments n l = Some k <-> Forall (fun s => octal_segment s = true) l /\ k = n + zlen l.
Proof.
  revert n. induction l as [|s l IH]; intros n Hn Hl; cbn [count_segments].
  - rewrite zlen_nil, Z.add_0_r. split; [intros [= ->]; by split | by intros [_ ->]].
  - rewrite zlen_cons in *. pose proof (zlen_nonneg l). rewrite Forall_cons.
    destruct (octal_segment s); cbn [negb]; [|split; [done|]; by intros [[? _] _]].
    rewrite wrap_id by (unfold is_u; lia). rewrite IH by lia.
    split; [intros [? ->]; split; [done|lia] | intros [[_ ?] ->]; split; [done|lia]].
Qed.

(** The loop counts six octal segments. *)
Lemma cube_47d_spec s : zlen s < 2 ^ 32 - 1 ->
  cube_47d_ok s = true <->
  length (split_on 45 s) = 6%nat /\ Forall (fun g => octal_segment g = true) (split_on 45 s).
Proof.
  intros Hs. assert (L : zlen (split_on 45 s) <= zlen s + 1).
  { clear. induction s as [|b s IH]; cbn; [unfold zlen; cbn; lia|].
    pose proof (split_on_nonempty 45 s). destruct (b =? 45); [rewrite zlen_cons; rewrite (zlen_cons b); lia|].
    destruct (split_on 45 s) as [|p ps]; [done|]. rewrite !zlen_cons in *. lia. }
  unfold cube_47d_ok. pose proof (count_segments_spec (split_on 45 s) 0) as Hc.
  destruct (count_segments 0 _) as [n|].
  - destruct (Hc n) as [Hn _]; [lia|lia|]. destruct (Hn eq_refl) as [Hf ->].
    rewrite Z.eqb_eq. unfold zlen. split; [intros; split; [lia|done] | intros [-> _]; done].
  - split; [done|]. intros [_ Hf]. by destruct (Hc (0 + zlen (split_on 45 s))) as [_ H2]; [lia|lia|]; discriminate H2.
Qed.

(** ** Each check against its rule *)

Lemma filled_check env : existsb (fun f => zlen f =? 0) (required_fields env) = false <-> filled env.
Proof.
  assert (E : forall f : bytes, (zlen f =? 0) = false <-> f <> []).
  { intros f. rewrite Z.eqb_neq. split; [intros Hz ->; done|]. intros Hf Hz. by apply zlen_zero_nil in Hz. }
  unfold required_fields, filled. cbn [existsb]. rewrite !orb_false_iff, !E. tauto.
Qed.

Lemma resolve_prefix t k : resolve_target t = Some k <-> starts_with (route_prefix k) t = true.
Proof.
  unfold resolve_target.
  assert (X : forall k k' : RouteKind, starts_with (route_prefix k) t = true ->
    starts_with (route_prefix k') t = true -> k = k').
  { intros k1 k2 [r1 ->]%starts_with_spec [r2 E]%starts_with_spec. by destruct k1, k2. }
  specialize (X k).
  repeat match goal with
  | |- context [if starts_with ?p t then Some ?r else _] =>
      change p with (route_prefix r); destruct (starts_with (route_prefix r) t) eqn:?;
      [split; [by intros [= <-] | intros Hk; f_equal; symmetry; by apply X]|]
  end.
  split; [done|]. intros Hk. by destruct k; congruence.
Qed.

Lemma routed_check env :
  existsb (fun p => starts_with p (target env)) TARGET_PREFIXES = true <-> routed env.
Proof.
  rewrite existsb_exists. unfold routed. split.
  - intros (p & Hp & [r Hr]%starts_with_spec).
    assert (exists k, p = route_prefix k) as [k ->]; [|by exists k, r].
    cbn in Hp. destruct_or! Hp; (done || subst p);
      [exists PidRouted|exists Cli|exists Citizen|exists Antigravity|exists Daemon|exists Google|exists Meta]; done.
  - intros (k & r & Hr). exists (route_prefix k). split; [destruct k; cbn; tauto|]. apply starts_with_spec. by exists r.
Qed.

Lemma octal_segment_spec g : octal_segment g = true <-> exists x, g = [x] /\ 48 <= x <= 55.
Proof.
  unfold octal_segment. rewrite !andb_true_iff, Z.eqb_eq, !Z.leb_le. split.
  - destruct g as [|x [|y g]]; intros [L B]; [done| by exists x |]. rewrite !zlen_cons in L.
    pose proof (zlen_nonneg g). lia.
  - by intros (x & -> & ?).
Qed.

Lemma six_octal_check s : zlen s < 2 ^ 32 - 1 -> cube_47d_ok s = true <-> six_octal s.
Proof.
  intros Hs. rewrite cube_47d_spec by done. split.
  - intros [L F]. pose proof (join_split 45 s) as J. revert L F J. generalize (split_on 45 s). intros l L F J.
    do 6 (destruct l as [|?g l]; [done|]). destruct l; [|done]. rewrite !Forall_cons, !octal_segment_spec in F.
    destruct F as ((? & -> & ?) & (? & -> & ?) & (? & -> & ?) & (? & -> & ?) & (? & -> & ?) & (? & -> & ?) & _).
    cbn in J. rewrite <- J. unfold six_octal. do 6 eexists. split; [done|].
    by rewrite !Forall_cons, Forall_nil.
  - intros (a & b & c & d & e & f & -> & F). rewrite !Forall_cons in F. destruct F as (?&?&?&?&?&?&_).
    assert (N : forall x, 48 <= x -> (x =? 45) = false) by (intros; apply Z.eqb_neq; lia).
    cbn [split_on]. rewrite (N a), (N b), (N c), (N d), (N e), (N f) by lia.
    change (45 =? 45) with true. cbv iota. split; [done|].
    rewrite !Forall_cons, !octal_segment_spec. split_and!; eauto.
Qed.

Lemma five_glyphs_check s : (chars_count s <? 5) = false <-> five_glyphs s.
Proof.
  unfold chars_count, five_glyphs, zlen. rewrite Z.ltb_ge.
  assert (E : filter (fun b => is_continuation b = false) s = filter (fun b => ~ (128 <= b < 192)) s).
  { apply list_filter_iff. intros b. unfold is_continuation. rewrite andb_false_iff, Z.leb_gt, Z.ltb_ge. lia. }
  rewrite E. lia.
Qed.

Lemma dec_value_fold ds : dec_value ds = fold_left (fun n b => 10 * n + (b - 48)) ds 0.
Proof. unfold dec_value. generalize 0. induction ds as [|d ds IH]; intros n; cbn; [done|apply IH]. Qed.

Lemma all_digits ds : forallb is_ascii_digit ds = true <-> Forall (fun b => 48 <= b <= 57) ds.
Proof.
  induction ds as [|d ds IH]; cbn; [done|]. rewrite andb_true_iff, Forall_cons, IH. unfold is_ascii_digit.
  by rewrite andb_true_iff, !Z.leb_le.
Qed.

Lemma strip_plus_digits s ds : Forall (fun b => 48 <= b <= 57) ds -> ds <> [] ->
  (s = ds \/ s = 43 :: ds) <-> strip_plus s = ds.
Proof.
  intros F N. destruct ds as [|d ds]; [done|]. apply Forall_cons in F as [Hd _].
  destruct s as [|x [|y s]]; cbn [strip_plus].
  - naive_solver.
  - split; [intros [E|E]; [done|discriminate E] | by left].
  - destruct (Z.eqb_spec x 43) as [->|Hx].
    + split; [intros [[= <- _]|[= -> ->]]; [lia|done] | intros ->; by right].
    + split; [intros [E|[= -> _]]; done | by left].
Qed.

Lemma ttl_check s :
  match parse_u32 s with Some t => (1 <=? t) && (t <=? 86400) | None => false end = true <-> ttl_in_day s.
Proof.
  unfold parse_u32, ttl_in_day. destruct (Z.eqb_spec (zlen (strip_plus s)) 0) as [E|E].
  { apply zlen_zero_nil in E. split; [done|]. intros (ds & Hs & N & F & _).
    apply strip_plus_digits in Hs; [congruence|done|done]. }
  destruct (forallb is_ascii_digit (strip_plus s)) eqn:D.
  2:{ split; [done|]. intros (ds & Hs & N & F & _). apply strip_plus_digits in Hs; [|done|done].
      apply all_digits in F. congruence. }
  apply all_digits in D. rewrite dec_value_fold.
  assert (N : strip_plus s <> []) by (intros Z0; by rewrite Z0 in E).
  transitivity (1 <= fold_left (fun n b => 10 * n + (b - 48)) (strip_plus s) 0 <= 86400).
  - destruct (Z.ltb_spec (fold_left (fun n b => 10 * n + (b - 48)) (strip_plus s) 0) (2 ^ 32)).
    + rewrite andb_true_iff, !Z.leb_le. done.
    + split; [done|lia].
  - split.
    + intros V. exists (strip_plus s). split_and!; try done; try lia. by apply strip_plus_digits.
    + intros (ds & Hs & N' & F & V). apply strip_plus_digits in Hs; [|done|done]. by rewrite Hs.
Qed.

Lemma hex16_check s : is_hex16 s = true <-> hex16 s.
Proof.
  unfold is_hex16, hex16, zlen. rewrite andb_true_iff, Z.eqb_eq, forallb_forall, Forall_forall.
  setoid_rewrite list_elem_of_In. unfold is_lower_hex, is_ascii_digit.
  setoid_rewrite orb_true_iff. setoid_rewrite andb_true_iff. setoid_rewrite Z.leb_le.
  split; intros [? ?]; (split; [lia|done]).
Qed.

Lemma cosigned_check env :
  contains COSIGN_WINDOW (cosign_token env) || contains COSIGN_WINDOW_V3 (cosign_token env)
  || contains ADMIN_OVERRIDE (cosign_token env) = true <-> cosigned env.
Proof.
  rewrite !orb_true_iff, !contains_spec. unfold cosigned. split.
  - intros [[(a & b & E)|(a & b & E)]|(a & b & E)]; (eexists a, _, b; split; [exact E|]); by repeat constructor.
  - intros (a & w & b & E & Hw). rewrite !elem_of_cons in Hw.
    destruct Hw as [->|[->|[->|Hw]]]; [left; left|left; right|right|by apply elem_of_nil in Hw]; by exists a, b.
Qed.

Section Facts.
Context `{Digest}.

Lemma row_hash_ok env t :
  row_hash_matches (take 8 (row_digest env t)) (row_hash env) = true <->
  row_hash env = hex_of (take 8 (sha256 (lit "FEDENV|" ++ caller_pid env ++ verb env ++ payload env ++ t))).
Proof.
  unfold row_digest, sha256_parts. cbn [concat]. rewrite app_nil_r.
  apply row_hash_matches_spec; [by rewrite length_take, sha256_length | apply sha256_take_bytes].
Qed.

(** The rules 4 to 8, the cube as the loop reads it. *)
Definition shaped_loop (env : FedenvView) : Prop :=
  cube_47d_ok (cube_47d env) = true /\ five_glyphs (glyph_5 env) /\ ttl_in_day (ttl_seconds env) /\
  hex16 (row_hash env) /\ hex16 (antecedents env).

(** The verdicts as one chain of the rules. *)
Lemma validate_cases env :
  match validate env with
  | Ok _ => filled env /\ routed env /\ zlen (payload env) <= 65536 /\ shaped_loop env /\ cosigned env /\ self_hashed env
  | Err Malformed =>
      ~ filled env \/ (filled env /\ routed env /\ zlen (payload env) <= 65536 /\ ~ shaped_loop env)
  | Err UnresolvableTarget => filled env /\ ~ routed env
  | Err PayloadTooLarge => filled env /\ routed env /\ 65536 < zlen (payload env)
  | Err ExpiredCosign =>
      filled env /\ routed env /\ zlen (payload env) <= 65536 /\ shaped_loop env /\ ~ cosigned env
  | Err RowHashMismatch =>
      filled env /\ routed env /\ zlen (payload env) <= 65536 /\ shaped_loop env /\ cosigned env /\ ~ self_hashed env
  | Err ReservedSlot => False
  end.
Proof.
  unfold validate, shaped_loop. change MAX_PAYLOAD_BYTES with 65536.
  pose proof (filled_check env) as Rf. destruct (existsb (fun f => zlen f =? 0) _); [left; by intros F%Rf|].
  assert (F : filled env) by (by apply Rf). clear Rf.
  pose proof (routed_check env) as Rr. destruct (existsb (fun p => starts_with p _) _); cbn [negb];
    [|split; [done|]; by intros R%Rr].
  assert (R : routed env) by (by apply Rr). clear Rr.
  destruct (Z.ltb_spec 65536 (zlen (payload env))) as [P|P]; [by split_and!|].
  destruct (cube_47d_ok _); cbn [negb]; [|by right; split_and!; [done..|intros []]].
  pose proof (five_glyphs_check (glyph_5 env)) as Rg. destruct (chars_count _ <? 5).
  { right. split_and!; [done..|]. by intros (_ & G%Rg & _). }
  pose proof (ttl_check (ttl_seconds env)) as Rt.
  destruct (match parse_u32 _ with Some _ => _ | None => _ end); cbn [negb].
  2:{ right. split_and!; [done..|]. by intros (_ & _ & T%Rt & _). }
  pose proof (hex16_check (row_hash env)) as Rh. destruct (is_hex16 (row_hash env)); cbn [negb orb].
  2:{ right. split_and!; [done..|]. by intros (_ & _ & _ & T%Rh & _). }
  pose proof (hex16_check (antecedents env)) as Ra. destruct (is_hex16 (antecedents env)); cbn [negb].
  2:{ right. split_and!; [done..|]. by intros (_ & _ & _ & _ & T%Ra). }
  pose proof (cosigned_check env) as Rc. destruct (_ || _); cbn [negb]; [|naive_solver].
  unfold self_hashed. destruct (ts env) as [t|]; [|naive_solver].
  pose proof (row_hash_ok env t) as Rr. destruct (row_hash_matches _ _); cbn [negb]; naive_solver.
Qed.

Lemma validate_ok env :
  validate env = Ok tt <->
  filled env /\ routed env /\ zlen (payload env) <= 65536 /\ shaped_loop env /\ cosigned env /\ self_hashed env.
Proof.
  pose proof (validate_cases env) as C. destruct (validate env) as [[]|[]]; try naive_solver.
  split; [done|]. intros (? & ? & ? & _). lia.
Qed.

(** ** Theorems *)

(** C37. The verdict on an envelope, each one exactly and in the documented order,
    for a cube coordinate of fewer than 2^32 - 1 bytes: malformed when one
    of the eleven required fields is empty; then unresolvable when the
    target begins with none of the seven prefixes; then too large when the
    payload has more than 65536 bytes; then malformed when the cube is not
    six octal digits joined by hyphens, the glyphs are fewer than five, the
    ttl is no decimal number from 1 to 86400, or the row hash or the
    antecedents are not 16 lowercase hex digits; then expired without a
    valid window in the cosign token; then mismatched when a timestamp is
    given and the row hash is not the hash of the fields; accepted
    otherwise. The route of a target is the one whose prefix it has, and
    every accepted envelope has one. *)
Theorem validate_spec env : zlen (cube_47d env) < 2 ^ 32 - 1 ->
  let v := validate env in
  let sized := zlen (payload env) <= 65536 in
  (v = Ok tt <-> filled env /\ routed env /\ sized /\ shaped env /\ cosigned env /\ self_hashed env) /\
  (v = Err Malformed <-> ~ filled env \/ (filled env /\ routed env /\ sized /\ ~ shaped env)) /\
  (v = Err UnresolvableTarget <-> filled env /\ ~ routed env) /\
  (v = Err PayloadTooLarge <-> filled env /\ routed env /\ 65536 < zlen (payload env)) /\
  (v = Err ExpiredCosign <-> filled env /\ routed env /\ sized /\ shaped env /\ ~ cosigned env) /\
  (v = Err RowHashMismatch <->
     filled env /\ routed env /\ sized /\ shaped env /\ cosigned env /\ ~ self_hashed env) /\
  v <> Err ReservedSlot /\
  (forall k, resolve_target (target env) = Some k <-> exists rest, target env = route_prefix k ++ rest) /\
  (v = Ok tt -> exists k, resolve_target (target env) = Some k).
Proof.
  intros Hc v sized. pose proof (validate_cases env) as C. fold v in C.
  assert (S : shaped_loop env <-> shaped env) by (unfold shaped_loop, shaped; by rewrite six_octal_check).
  assert (K : forall k, resolve_target (target env) = Some k <-> exists rest, target env = route_prefix k ++ rest).
  { intros k. by rewrite resolve_prefix, starts_with_spec. }
  assert (Z : sized /\ ~ 65536 < zlen (payload env) \/ ~ sized /\ 65536 < zlen (payload env)) by (unfold sized; lia).
  change (zlen (payload env) <= 65536) with sized in C. clearbody sized v.
  split_and!; [| | | | | | |exact K|intros ->; destruct C as (_ & (k & r & Hr) & _); exists k; apply K; by exists r];
    destruct v as [[]|[]]; clear K Hc; naive_solver.
Qed.

(** The row hash does not bind the fields: its input has no separators, so
    moving bytes from the end of the verb to the front of the payload keeps
    an accepted strict-mode envelope accepted. *)
Theorem row_hash_not_binding env v x :
  validate env = Ok tt -> verb env = v ++ x -> v <> [] ->
  zlen x + zlen (payload env) <= MAX_PAYLOAD_BYTES ->
  validate (mkView (caller_pid env) (target env) v (x ++ payload env) (back_address env) (cube_47d env)
    (glyph_5 env) (cosign_token env) (ttl_seconds env) (antecedents env) (row_hash env) (ts env)) = Ok tt.
Proof.
  intros A Ev Hv Hl. apply validate_ok. apply validate_ok in A as (Hf & Hr & Hp & Hs & Hco & Hrow).
  change MAX_PAYLOAD_BYTES with 65536 in Hl.
  destruct Hf as (? & ? & ? & Hpay & ? & ? & ? & ? & ? & ? & ?).
  split_and!; [unfold filled; cbn; split_and!; try done | done | | done | done |].
  - intros E. apply app_eq_nil in E as [_ E]. done.
  - cbn. rewrite zlen_app. lia.
  - intros t Et. cbn in *. rewrite (Hrow t Et), Ev. by rewrite <- !app_assoc.
Qed.

End Facts.

(** A strict-mode envelope hashed with the boot crate's SHA-256. *)
Definition sample `{Digest} (v p : bytes) : FedenvView :=
  let t := lit "2026-06-01" in
  mkView (lit "AGT") (lit "cli:engineering:x") v p (lit "pid:H740C") (lit "1-2-3-4-5-6") (lit "ABCDE")
    (lit "tok|FOUNDATION-V3-LAW-EXTENDED-4MO") (lit "300") (lit "0000000000000000")
    (sha16 (lit "FEDENV|" ++ lit "AGT" ++ v ++ p ++ t)) (Some t).

Lemma validate_spec_witness :
  let _ := boot_digest in
  let e := sample (lit "EVT") (lit "hello") in
  validate e = Ok tt /\ exists k, resolve_target (target e) = Some k.
Proof.
  intros d e. assert (A : validate e = Ok tt) by (vm_compute; reflexivity). split; [exact A|].
  apply (validate_spec (H:=d) e); [by vm_compute | exact A].
Defined.

Lemma row_hash_not_binding_witness :
  let _ := boot_digest in
  let e := sample (lit "EVT-READ-all") (lit "x") in
  validate (mkView (caller_pid e) (target e) (lit "EVT-READ") (lit "-allx") (back_address e) (cube_47d e)
    (glyph_5 e) (cosign_token e) (ttl_seconds e) (antecedents e) (row_hash e) (ts e)) = Ok tt.
Proof.
  intros d e.
  assert (A : validate e = Ok tt) by by vm_compute.
  assert (L : zlen (lit "-all") + zlen (payload e) <= MAX_PAYLOAD_BYTES) by by vm_compute.
  exact (row_hash_not_binding (H:=d) e (lit "EVT-READ") (lit "-all") A eq_refl ltac:(done) L).
Defined.
