(* ===== verification/ReflectionRoom.v ===== *)
(** * Reflection rooms ([kernel/core/src/reflection_room/mod.rs])

    The single-writer event log: prepare, commit and seal, the event and
    seal hashes, and the novelty gate. *)

From S2P Require Import Prelude Digest Sha256.

Module ReflectionRoom.

#[local] Open Scope Z_scope.

Definition ACTIVE_ENVELOPE_WINDOW : Z := 2000.
Definition GULPS_PER_CHECKPOINT : Z := 5.
Definition CHECKPOINTS_PER_SUPER_GULP : Z := 5.
Definition CHECKPOINT_ENVELOPES : Z := ACTIVE_ENVELOPE_WINDOW * GULPS_PER_CHECKPOINT.
Definition SUPER_GULP_ENVELOPES : Z := CHECKPOINT_ENVELOPES * CHECKPOINTS_PER_SUPER_GULP.
Definition MIN_SELECTOR_DIMS : Z := 60.
Definition GENESIS_SHA256 : bytes := replicate 32 0.

Inductive RoomEventKind :=
| TaskIn | WorkNote | ToolResult | TranslatedNote | SelfReflection | PeerReview
| SupervisorControl | FinalResult.

Definition requires_parent (k : RoomEventKind) : bool :=
  match k with TranslatedNote | SelfReflection | PeerReview | FinalResult => true | _ => false end.

Inductive AuthorityState := Unverified | Measured | Canon | Held.
Inductive RecallAccessLevel := PublicLevel | FederationLevel | OwnerPrivate.
Inductive PiiState := PiiNone | KeyedConsented | PiiUnknown.

#[export] Instance RoomEventKind_eq_dec : EqDecision RoomEventKind.
Proof. solve_decision. Defined.
#[export] Instance AuthorityState_eq_dec : EqDecision AuthorityState.
Proof. solve_decision. Defined.
#[export] Instance RecallAccessLevel_eq_dec : EqDecision RecallAccessLevel.
Proof. solve_decision. Defined.
#[export] Instance PiiState_eq_dec : EqDecision PiiState.
Proof. solve_decision. Defined.

(** The [repr(u8)] discriminants. *)
Definition kind_code (k : RoomEventKind) : Z :=
  match k with
  | TaskIn => 1 | WorkNote => 2 | ToolResult => 3 | TranslatedNote => 4 | SelfReflection => 5
  | PeerReview => 6 | SupervisorControl => 7 | FinalResult => 8
  end.
Definition authority_code (a : AuthorityState) : Z :=
  match a with Unverified => 0 | Measured => 1 | Canon => 2 | Held => 3 end.
Definition access_code (a : RecallAccessLevel) : Z :=
  match a with PublicLevel => 0 | FederationLevel => 5 | OwnerPrivate => 9 end.
Definition pii_code (p : PiiState) : Z :=
  match p with PiiNone => 0 | KeyedConsented => 1 | PiiUnknown => 2 end.

Record BodyRef := mkBody { offset : Z; length_ : Z; body_sha256 : bytes }.

Record EventDraft := mkDraft {
  kind : RoomEventKind;
  source_handle8 : bytes;
  source_pid_sha256 : bytes;
  target_handle8 : bytes;
  target_pid_sha256 : bytes;
  verb_sha256 : bytes;
  timestamp_ns : Z;
  parent_sha256 : bytes;
  body : BodyRef;
  selector_dims : Z;
  selector_tuple_sha256 : bytes;
  authority : AuthorityState;
  access_level : RecallAccessLevel;
  pii_state : PiiState;
  owner_pid_sha256 : bytes;
  idempotency_key : bytes
}.

Record CommittedEvent := mkEvent {
  sequence : Z;
  room_handle8 : bytes;
  room_id_sha256 : bytes;
  previous_sha256 : bytes;
  full_sha256 : bytes;
  draft : EventDraft
}.

(** [PreparedEvent] has one private field. *)
Record PreparedEvent := mkPrepared { event : CommittedEvent }.

Record RoomHead := mkHead {
  h_room_handle8 : bytes;
  h_room_id_sha256 : bytes;
  h_next_sequence : Z;
  h_head_sha256 : bytes;
  active_events : Z;
  h_total_events : Z;
  h_total_gulps : Z;
  total_checkpoints : Z;
  total_super_gulps : Z
}.

Inductive CommitOutcome := Committed (e : CommittedEvent) | Duplicate (e : CommittedEvent).

Inductive GulpTier := Gulp2k | Checkpoint10k | SuperGulp50k.

Definition tier_code (t : GulpTier) : Z :=
  match t with Gulp2k => 1 | Checkpoint10k => 2 | SuperGulp50k => 3 end.

Record GulpSeal := mkSeal {
  tier : GulpTier;
  sealed_events : Z;
  cumulative_events : Z;
  gulp_index : Z;
  checkpoint_index : Z;
  super_gulp_index : Z;
  room_head_sha256 : bytes;
  distilled_product_sha256 : bytes;
  seal_sha256 : bytes
}.

Inductive RoomError :=
| RoomIdentityMissing | BodyMissing | BodyHashMissing | IdempotencyKeyMissing | SelectorTupleMissing
| SelectorDimsTooSmall (observed : Z) | PiiRequiresOwnerPrivate | OwnerIdentityMissing
| ParentMissing | ParentNotCommitted | ActiveWindowFull | StalePreparedEvent | SequenceOverflow
| GulpNotReady (active_events : Z) | DistilledProductMissing.

Record RoomWriter := mkWriter {
  w_room_handle8 : bytes;
  w_room_id_sha256 : bytes;
  next_sequence : Z;
  head_sha256 : bytes;
  recent : list CommittedEvent;
  total_events : Z;
  total_gulps : Z
}.

Definition is_zero_sha (value : bytes) : bool := forallb (fun b => b =? 0) value.

Definition checked_add (a b : Z) : result RoomError Z :=
  if (a + b <=? U64_MAX) then Ok (a + b) else Err SequenceOverflow.

Definition new (handle id : bytes) : result RoomError RoomWriter :=
  if is_zero_sha id then Err RoomIdentityMissing
  else Ok (mkWriter handle id 1 GENESIS_SHA256 [] 0 0).

Definition read_committed_head (w : RoomWriter) : RoomHead :=
  mkHead (w_room_handle8 w) (w_room_id_sha256 w) (next_sequence w) (head_sha256 w)
    (wrap32 (zlen (recent w))) (total_events w) (total_gulps w)
    (total_gulps w / GULPS_PER_CHECKPOINT)
    (total_gulps w / (GULPS_PER_CHECKPOINT * CHECKPOINTS_PER_SUPER_GULP)).

Definition validate_draft (w : RoomWriter) (d : EventDraft) : result RoomError unit :=
  if length_ (body d) =? 0 then Err BodyMissing
  else if is_zero_sha (body_sha256 (body d)) then Err BodyHashMissing
  else if is_zero_sha (idempotency_key d) then Err IdempotencyKeyMissing
  else if is_zero_sha (selector_tuple_sha256 d) then Err SelectorTupleMissing
  else if selector_dims d <? MIN_SELECTOR_DIMS then Err (SelectorDimsTooSmall (selector_dims d))
  else if bool_decide (access_level d <> OwnerPrivate) && bool_decide (pii_state d <> PiiNone)
  then Err PiiRequiresOwnerPrivate
  else if bool_decide (access_level d = OwnerPrivate) && is_zero_sha (owner_pid_sha256 d)
  then Err OwnerIdentityMissing
  else if requires_parent (kind d) then
    if is_zero_sha (parent_sha256 d) then Err ParentMissing
    else if bytes_eqb (parent_sha256 d) (head_sha256 w)
         || existsb (fun e => bytes_eqb (full_sha256 e) (parent_sha256 d)) (recent w)
    then Ok tt
    else Err ParentNotCommitted
  else Ok tt.

Section WithDigest.
Context `{Digest}.

(** The bytes [event_sha256] hashes, field by field. *)
Definition event_parts (room_id handle : bytes) (seq : Z) (prev : bytes) (d : EventDraft) : list bytes :=
  [lit "ASOLARIA-REFLECTION-ROOM-EVENT-V1"; room_id; handle; be_bytes 8 seq; prev;
   [kind_code (kind d)]; source_handle8 d; source_pid_sha256 d; target_handle8 d;
   target_pid_sha256 d; verb_sha256 d; be_bytes 8 (timestamp_ns d); parent_sha256 d;
   be_bytes 8 (offset (body d)); be_bytes 4 (length_ (body d)); body_sha256 (body d);
   be_bytes 2 (selector_dims d); selector_tuple_sha256 d; [authority_code (authority d)];
   [access_code (access_level d)]; [pii_code (pii_state d)]; owner_pid_sha256 d; idempotency_key d].

Definition event_sha256 (room_id handle : bytes) (seq : Z) (prev : bytes) (d : EventDraft) : bytes :=
  sha256_parts (event_parts room_id handle seq prev d).

Definition gulp_seal_sha256 (room_id head : bytes) (total index : Z) (t : GulpTier) (product : bytes) : bytes :=
  sha256_parts [lit "ASOLARIA-REFLECTION-ROOM-GULP-SEAL-V1"; room_id; head; be_bytes 8 total;
                be_bytes 8 index; [tier_code t]; product].

Definition same_key (k : bytes) (e : CommittedEvent) : bool := bytes_eqb (idempotency_key (draft e)) k.

Definition prepare (w : RoomWriter) (d : EventDraft) : result RoomError PreparedEvent :=
  _ ← validate_draft w d;
  let duplicate := existsb (same_key (idempotency_key d)) (recent w) in
  if (ACTIVE_ENVELOPE_WINDOW <=? zlen (recent w)) && negb duplicate then Err ActiveWindowFull
  else
    sequence ← checked_add (next_sequence w) 0;
    if sequence =? U64_MAX then Err SequenceOverflow
    else
      let full := event_sha256 (w_room_id_sha256 w) (w_room_handle8 w) sequence (head_sha256 w) d in
      Ok (mkPrepared (mkEvent sequence (w_room_handle8 w) (w_room_id_sha256 w) (head_sha256 w) full d)).

(** The writer after the call, also when a checked addition fails late. *)
Definition commit (w : RoomWriter) (p : PreparedEvent) : result RoomError CommitOutcome * RoomWriter :=
  let e := event p in
  match List.find (same_key (idempotency_key (draft e))) (recent w) with
  | Some existing => (Ok (Duplicate existing), w)
  | None =>
      if ACTIVE_ENVELOPE_WINDOW <=? zlen (recent w) then (Err ActiveWindowFull, w)
      else if negb (sequence e =? next_sequence w) || negb (bytes_eqb (previous_sha256 e) (head_sha256 w))
      then (Err StalePreparedEvent, w)
      else
        let w1 := mkWriter (w_room_handle8 w) (w_room_id_sha256 w) (next_sequence w)
                    (full_sha256 e) (recent w ++ [e]) (total_events w) (total_gulps w) in
        match checked_add (next_sequence w1) 1 with
        | Err x => (Err x, w1)
        | Ok n =>
            let w2 := mkWriter (w_room_handle8 w1) (w_room_id_sha256 w1) n (head_sha256 w1)
                        (recent w1) (total_events w1) (total_gulps w1) in
            match checked_add (total_events w2) 1 with
            | Err x => (Err x, w2)
            | Ok t => (Ok (Committed e),
                       mkWriter (w_room_handle8 w2) (w_room_id_sha256 w2) (next_sequence w2)
                         (head_sha256 w2) (recent w2) t (total_gulps w2))
            end
        end
  end.

Definition tier_of (index : Z) : GulpTier :=
  if index mod (GULPS_PER_CHECKPOINT * CHECKPOINTS_PER_SUPER_GULP) =? 0 then SuperGulp50k
  else if index mod GULPS_PER_CHECKPOINT =? 0 then Checkpoint10k
  else Gulp2k.

Definition seal_gulp (w : RoomWriter) (product : bytes) : result RoomError GulpSeal * RoomWriter :=
  let active := wrap32 (zlen (recent w)) in
  if negb (active =? ACTIVE_ENVELOPE_WINDOW) then (Err (GulpNotReady active), w)
  else if is_zero_sha product then (Err DistilledProductMissing, w)
  else
    match checked_add (total_gulps w) 1 with
    | Err x => (Err x, w)
    | Ok index =>
        let t := tier_of index in
        let seal_hash := gulp_seal_sha256 (w_room_id_sha256 w) (head_sha256 w) (total_events w) index t product in
        (Ok (mkSeal t ACTIVE_ENVELOPE_WINDOW (total_events w) index (index / GULPS_PER_CHECKPOINT)
               (index / (GULPS_PER_CHECKPOINT * CHECKPOINTS_PER_SUPER_GULP)) (head_sha256 w) product seal_hash),
         mkWriter (w_room_handle8 w) (w_room_id_sha256 w) (next_sequence w) (head_sha256 w) []
           (total_events w) index)
    end.

(** *** Interleavings: one writer and the preparations made on it *)

Record room := mkRoom { writer : RoomWriter; prepared : list PreparedEvent; history : list CommittedEvent }.

Inductive room_op := OPrepare (d : EventDraft) | OCommit (i : nat) | OSeal (product : bytes).

(** [history] keeps every published event, sealed windows included. *)
Definition room_step (r : room) (o : room_op) : room :=
  match o with
  | OPrepare d =>
      match prepare (writer r) d with
      | Ok p => mkRoom (writer r) (prepared r ++ [p]) (history r)
      | Err _ => r
      end
  | OCommit i =>
      match prepared r !! i with
      | Some p =>
          match commit (writer r) p with
          | (Ok (Committed e), w) => mkRoom w (prepared r) (history r ++ [e])
          | (_, w) => mkRoom w (prepared r) (history r)
          end
      | None => r
      end
  | OSeal product => mkRoom (seal_gulp (writer r) product).2 (prepared r) (history r)
  end.

End WithDigest.

(** *** Novelty *)

Inductive NoveltyDecision :=
| Continue (novelty_bps : Z) | LowNovelty (novelty_bps run : Z) | Saturated (novelty_bps run : Z).

Inductive NoveltyError := EpsilonOutOfRange | ZeroSaturationLimit | SimilarityOutOfRange.

Record NoveltyGate := mkGate { epsilon_bps : Z; saturation_limit : Z; low_novelty_run : Z }.

Definition new_gate (epsilon limit : Z) : result NoveltyError NoveltyGate :=
  if 10000 <? epsilon then Err EpsilonOutOfRange
  else if limit =? 0 then Err ZeroSaturationLimit
  else Ok (mkGate epsilon limit 0).

Definition observe_similarity (g : NoveltyGate) (similarity_bps : Z) :
    result NoveltyError NoveltyDecision * NoveltyGate :=
  if 10000 <? similarity_bps then (Err SimilarityOutOfRange, g)
  else
    let novelty := 10000 - similarity_bps in
    if novelty <? epsilon_bps g then
      let run := sat_add 8 (low_novelty_run g) 1 in
      let g' := mkGate (epsilon_bps g) (saturation_limit g) run in
      if saturation_limit g <=? run then (Ok (Saturated novelty run), g')
      else (Ok (LowNovelty novelty run), g')
    else (Ok (Continue novelty), mkGate (epsilon_bps g) (saturation_limit g) 0).

End ReflectionRoom.

Import ReflectionRoom.

#[local] Open Scope Z_scope.

Section Facts.
Context `{Digest}.

(** ** The event log *)

(** Each event continues its predecessor: number, link, room and hash. *)
Fixpoint chained (id handle prev : bytes) (seq : Z) (l : list CommittedEvent) : Prop :=
  match l with
  | [] => True
  | e :: l' =>
      sequence e = seq /\ previous_sha256 e = prev /\ room_id_sha256 e = id /\ room_handle8 e = handle /\
      full_sha256 e = event_sha256 id handle seq prev (draft e) /\
      chained id handle (full_sha256 e) (seq + 1) l'
  end.

Definition head_of (prev : bytes) (l : list CommittedEvent) : bytes :=
  match last l with Some e => full_sha256 e | None => prev end.

Lemma head_of_snoc prev l e : head_of prev (l ++ [e]) = full_sha256 e.
Proof. unfold head_of. by rewrite last_snoc. Qed.

Lemma head_of_cons prev e l : head_of prev (e :: l) = head_of (full_sha256 e) l.
Proof. unfold head_of. rewrite last_cons. by destruct (last l). Qed.

Lemma chained_snoc id handle prev seq l e :
  chained id handle prev seq (l ++ [e]) <->
  chained id handle prev seq l /\ chained id handle (head_of prev l) (seq + zlen l) [e].
Proof.
  revert prev seq. induction l as [|x l IH]; intros prev seq.
  - rewrite app_nil_l. change (zlen (@nil CommittedEvent)) with 0. rewrite Z.add_0_r.
    change (head_of prev []) with prev. cbn [chained].
    split; [intros X; split; [exact I | exact X] | intros [_ X]; exact X].
  - cbn [app chained]. rewrite IH, head_of_cons, zlen_cons.
    replace (seq + 1 + zlen l) with (seq + (1 + zlen l)) by lia. split.
    + intros (E1 & E2 & E3 & E4 & E5 & E6 & E7). done.
    + intros ((E1 & E2 & E3 & E4 & E5 & E6) & E7). done.
Qed.

(** What a draft satisfies once prepared. *)
Definition draft_ok (d : EventDraft) : Prop :=
  is_zero_sha (idempotency_key d) = false /\
  (access_level d <> OwnerPrivate -> pii_state d = PiiNone) /\
  (access_level d = OwnerPrivate -> is_zero_sha (owner_pid_sha256 d) = false).

Lemma validate_draft_ok w d u : validate_draft w d = Ok u -> draft_ok d.
Proof.
  unfold validate_draft, draft_ok. intros E.
  destruct (length_ (body d) =? 0); [discriminate E|].
  destruct (is_zero_sha (body_sha256 (body d))); [discriminate E|].
  destruct (is_zero_sha (idempotency_key d)); [discriminate E|].
  destruct (is_zero_sha (selector_tuple_sha256 d)); [discriminate E|].
  destruct (selector_dims d <? MIN_SELECTOR_DIMS); [discriminate E|].
  destruct (bool_decide (access_level d <> OwnerPrivate) && _) eqn:E1; [discriminate E|].
  destruct (bool_decide (access_level d = OwnerPrivate) && _) eqn:E2; [discriminate E|].
  split; [done|]. apply andb_false_iff in E1, E2. split.
  - intros Ha. destruct E1 as [E1|E1]; apply bool_decide_eq_false in E1; [done|].
    destruct (decide (pii_state d = PiiNone)); [done|]. by destruct E1.
  - intros Ha. destruct E2 as [E2|E2]; [by apply bool_decide_eq_false in E2|done].
Qed.

Definition prepared_ok (id handle : bytes) (p : PreparedEvent) : Prop :=
  let e := event p in
  room_id_sha256 e = id /\ room_handle8 e = handle /\ sequence e < U64_MAX /\
  full_sha256 e = event_sha256 id handle (sequence e) (previous_sha256 e) (draft e) /\ draft_ok (draft e).

Record room_inv (id handle : bytes) (r : room) : Prop := {
  ri_id : w_room_id_sha256 (writer r) = id /\ w_room_handle8 (writer r) = handle;
  ri_chain : chained id handle GENESIS_SHA256 1 (history r);
  ri_head : head_sha256 (writer r) = head_of GENESIS_SHA256 (history r);
  ri_seq : next_sequence (writer r) = zlen (history r) + 1 /\ next_sequence (writer r) <= U64_MAX;
  ri_total : total_events (writer r) = zlen (history r);
  ri_window : exists sealed, history r = sealed ++ recent (writer r) /\
     zlen sealed = ACTIVE_ENVELOPE_WINDOW * total_gulps (writer r);
  ri_active : zlen (recent (writer r)) <= ACTIVE_ENVELOPE_WINDOW;
  ri_keys : NoDup (map (fun e => idempotency_key (draft e)) (recent (writer r)));
  ri_drafts : Forall (fun e => draft_ok (draft e)) (history r);
  ri_prepared : Forall (prepared_ok id handle) (prepared r)
}.

Lemma prepare_Ok w d p : 0 <= next_sequence w <= U64_MAX -> prepare w d = Ok p ->
  exists u, validate_draft w d = Ok u /\ next_sequence w < U64_MAX /\
  event p = mkEvent (next_sequence w) (w_room_handle8 w) (w_room_id_sha256 w) (head_sha256 w)
     (event_sha256 (w_room_id_sha256 w) (w_room_handle8 w) (next_sequence w) (head_sha256 w) d) d.
Proof.
  intros Hn. unfold prepare. destruct (validate_draft w d) as [u|] eqn:Ev; cbn [mbind result_bind]; [|done].
  destruct (_ && _); [done|]. unfold checked_add. rewrite Z.add_0_r, (proj2 (Z.leb_le _ _)) by lia.
  cbn [mbind result_bind]. destruct (Z.eqb_spec (next_sequence w) U64_MAX); [done|].
  intros [= <-]. exists u. split_and!; [done | lia | done].
Qed.

Lemma find_key_none k l : List.find (same_key k) l = None ->
  k ∉ map (fun e => idempotency_key (draft e)) l.
Proof.
  intros Hf (e & -> & He)%list_elem_of_fmap. apply list_elem_of_In in He.
  apply (find_none _ _ Hf) in He. unfold same_key in He. by rewrite bytes_eqb_refl in He.
Qed.

(** A commit either leaves the writer alone or appends the prepared event. *)
Lemma commit_cases w p :
  sequence (event p) < U64_MAX -> total_events w < U64_MAX ->
  (exists o, commit w p = (o, w) /\ forall e, o <> Ok (Committed e)) \/
  (commit w p = (Ok (Committed (event p)),
     mkWriter (w_room_handle8 w) (w_room_id_sha256 w) (next_sequence w + 1) (full_sha256 (event p))
       (recent w ++ [event p]) (total_events w + 1) (total_gulps w)) /\
   sequence (event p) = next_sequence w /\ previous_sha256 (event p) = head_sha256 w /\
   zlen (recent w) < ACTIVE_ENVELOPE_WINDOW /\
   idempotency_key (draft (event p)) ∉ map (fun e => idempotency_key (draft e)) (recent w)).
Proof.
  intros Hs Ht. unfold commit. destruct (List.find _ _) as [e|] eqn:Ef; [left; by eexists|].
  destruct (Z.leb_spec ACTIVE_ENVELOPE_WINDOW (zlen (recent w))); [left; by eexists|].
  destruct (Z.eqb_spec (sequence (event p)) (next_sequence w)) as [E1|]; cbn [negb orb]; [|left; by eexists].
  destruct (bytes_eqb _ _) eqn:E2; cbn [negb]; [|left; by eexists]. apply bytes_eqb_true in E2.
  cbn [next_sequence total_events w_room_handle8 w_room_id_sha256 head_sha256 recent total_gulps].
  unfold checked_add. rewrite !(proj2 (Z.leb_le _ _)) by lia. right. split_and!; try done.
  by apply find_key_none.
Qed.

Lemma room_step_inv id handle r o : room_inv id handle r -> room_inv id handle (room_step r o).
Proof.
  intros I. pose proof I as [[I1 I2] I3 I4 [I5 I5'] I6 (sl & I7 & I7') I8 I9 I10 I11].
  pose proof (zlen_nonneg (history r)). destruct o as [d|i|product]; cbn [room_step].
  - destruct (prepare (writer r) d) as [p|] eqn:Ep; [|done].
    apply prepare_Ok in Ep as (u & Hv & Hlt & Ee); [|lia].
    split; cbn [writer prepared history]; try done; [by exists sl|].
    apply Forall_app. split; [done|]. constructor; [|done].
    unfold prepared_ok. rewrite Ee. cbn. rewrite I1, I2. split_and!; try done.
    by apply validate_draft_ok in Hv.
  - destruct (prepared r !! i) as [p|] eqn:Ei; [|done].
    assert (Hp : prepared_ok id handle p) by (rewrite Forall_lookup in I11; eauto).
    destruct Hp as (P1 & P2 & P3 & P4 & P5).
    destruct (commit_cases (writer r) p) as [(o & -> & Ho)|(-> & C1 & C2 & C3 & C4)]; [done | lia | |].
    + destruct o as [[e|e]|e]; [by destruct (Ho e)| |]; destruct r; by apply I.
    + split; cbn [writer prepared history w_room_id_sha256 w_room_handle8 head_sha256 next_sequence
                  total_events total_gulps recent]; try done.
      * apply chained_snoc. split; [done|]. cbn [chained]. rewrite C1, C2, P1, P2, <- I4. split_and!; try done.
        -- lia.
        -- rewrite P4, C1, C2. f_equal. lia.
      * by rewrite head_of_snoc.
      * rewrite zlen_snoc. split; lia.
      * rewrite zlen_snoc. lia.
      * exists sl. split; [by rewrite I7, <- app_assoc | done].
      * rewrite zlen_snoc. lia.
      * rewrite map_app. apply NoDup_app. split_and!; [done | | apply NoDup_singleton].
        intros k Hk Hk2. apply list_elem_of_singleton in Hk2. subst k. done.
      * apply Forall_app. split; [done|]. by constructor.
  - unfold seal_gulp. destruct (Z.eqb_spec (wrap32 (zlen (recent (writer r)))) ACTIVE_ENVELOPE_WINDOW) as [Ew|];
      cbn [negb]; [|by destruct r].
    destruct (is_zero_sha product); [by destruct r|].
    pose proof (zlen_nonneg (recent (writer r))).
    rewrite wrap_id in Ew by (unfold is_u, ACTIVE_ENVELOPE_WINDOW in *; lia).
    assert (Hh : zlen (history r) = zlen sl + zlen (recent (writer r))) by (by rewrite I7, zlen_app).
    unfold checked_add. rewrite (proj2 (Z.leb_le _ _)) by (unfold ACTIVE_ENVELOPE_WINDOW in *; lia).
    split; cbn [snd writer prepared history w_room_id_sha256 w_room_handle8 head_sha256 next_sequence
                  total_events total_gulps recent]; try done.
    + exists (history r). split; [by rewrite app_nil_r|]. unfold ACTIVE_ENVELOPE_WINDOW in *. lia.
    + apply NoDup_nil_2.
Qed.

Lemma room_run_inv handle id w ops : new handle id = Ok w ->
  room_inv id handle (fold_left room_step ops (mkRoom w [] [])).
Proof.
  unfold new. destruct (is_zero_sha id); [done|]. intros [= <-].
  assert (I0 : room_inv id handle (mkRoom (mkWriter handle id 1 GENESIS_SHA256 [] 0 0) [] [])).
  { split; cbn; try done. - exists []. done. - apply NoDup_nil_2. }
  revert I0. generalize (mkRoom (mkWriter handle id 1 GENESIS_SHA256 [] 0 0) [] []) as r.
  induction ops as [|o ops IH]; intros r I0; cbn; [done|]. by apply IH, room_step_inv.
Qed.

(** ** Theorems *)

(** C3. Whatever interleaving of preparations, commits (of any of them, in any
    order, repeatedly) and seals runs on a room: the published events form
    one chain from genesis, consecutively numbered, each hash recomputable;
    the head is the last hash; the counters count it; the active window is
    its unsealed tail, at most 2000 events with distinct keys; no event
    below owner-private level carries PII; a seal covers exactly the next
    2000 events and its tier follows the 5 / 25 hierarchy. *)
Theorem room_log_integrity handle id w ops :
  new handle id = Ok w ->
  let r := fold_left room_step ops (mkRoom w [] []) in
  chained id handle GENESIS_SHA256 1 (history r) /\
  head_sha256 (writer r) = head_of GENESIS_SHA256 (history r) /\
  total_events (writer r) = zlen (history r) /\ next_sequence (writer r) = zlen (history r) + 1 /\
  (exists sealed, history r = sealed ++ recent (writer r) /\
     zlen sealed = ACTIVE_ENVELOPE_WINDOW * total_gulps (writer r)) /\
  zlen (recent (writer r)) <= ACTIVE_ENVELOPE_WINDOW /\
  NoDup (map (fun e => idempotency_key (draft e)) (recent (writer r))) /\
  (forall e, e ∈ history r -> access_level (draft e) <> OwnerPrivate -> pii_state (draft e) = PiiNone) /\
  (forall product s w', seal_gulp (writer r) product = (Ok s, w') ->
     gulp_index s = total_gulps (writer r) + 1 /\ recent w' = [] /\
     cumulative_events s = ACTIVE_ENVELOPE_WINDOW * gulp_index s /\
     (tier s = SuperGulp50k <-> gulp_index s mod 25 = 0) /\
     (tier s = Checkpoint10k <-> gulp_index s mod 5 = 0 /\ gulp_index s mod 25 <> 0)).
Proof.
  intros Hn r. destruct (room_run_inv handle id w ops Hn) as [_ I3 I4 [I5 _] I6 I7 I8 I9 I10 _]. fold r in I3, I4, I5, I6, I7, I8, I9, I10.
  split_and!; try done.
  - intros e He. rewrite Forall_forall in I10. by destruct (I10 e He) as (_ & ? & _).
  - intros product s w'. unfold seal_gulp.
    destruct (Z.eqb_spec (wrap32 (zlen (recent (writer r)))) ACTIVE_ENVELOPE_WINDOW) as [Ew|]; cbn [negb]; [|done].
    destruct (is_zero_sha product); [done|]. unfold checked_add. destruct (_ <=? U64_MAX); [|done].
    intros [= <- <-]. cbn. destruct I7 as (sl & E & El).
    pose proof (zlen_nonneg (recent (writer r))).
    rewrite wrap_id in Ew by (unfold is_u, ACTIVE_ENVELOPE_WINDOW in *; lia).
    assert (Hh : zlen (history r) = zlen sl + zlen (recent (writer r))) by (by rewrite E, zlen_app).
    split_and!; try done; try (unfold ACTIVE_ENVELOPE_WINDOW in *; lia).
    + unfold tier_of, GULPS_PER_CHECKPOINT, CHECKPOINTS_PER_SUPER_GULP. change (5 * 5) with 25.
      destruct (Z.eqb_spec ((total_gulps (writer r) + 1) mod 25) 0); [done|].
      by destruct (_ =? 0).
    + unfold tier_of, GULPS_PER_CHECKPOINT, CHECKPOINTS_PER_SUPER_GULP. change (5 * 5) with 25.
      destruct (Z.eqb_spec ((total_gulps (writer r) + 1) mod 25) 0); [naive_solver|].
      destruct (Z.eqb_spec ((total_gulps (writer r) + 1) mod 5) 0); naive_solver.
Qed.

(** Fields of fixed widths are determined by their concatenation. *)
Lemma concat_widths (xs ys : list bytes) :
  Forall2 (fun x y => length x = length y) xs ys -> concat xs = concat ys -> xs = ys.
Proof.
  induction 1 as [|x y xs ys Hl Hr IH]; [done|]. cbn. intros E.
  apply app_eq_len in E as [-> E]; [|done]. by rewrite IH.
Qed.

(** The widths the Rust types give the fields of a draft. *)
Record draft_wf (d : EventDraft) : Prop := {
  dw_src : length (source_handle8 d) = 8%nat; dw_srcp : length (source_pid_sha256 d) = 32%nat;
  dw_dst : length (target_handle8 d) = 8%nat; dw_dstp : length (target_pid_sha256 d) = 32%nat;
  dw_verb : length (verb_sha256 d) = 32%nat; dw_ts : is_u 64 (timestamp_ns d);
  dw_parent : length (parent_sha256 d) = 32%nat; dw_off : is_u 64 (offset (body d));
  dw_len : is_u 32 (length_ (body d)); dw_body : length (body_sha256 (body d)) = 32%nat;
  dw_dims : is_u 16 (selector_dims d); dw_tuple : length (selector_tuple_sha256 d) = 32%nat;
  dw_owner : length (owner_pid_sha256 d) = 32%nat; dw_key : length (idempotency_key d) = 32%nat
}.

Lemma cons_eq {A} (x y : A) l k : x :: l = y :: k -> x = y /\ l = k.
Proof. by intros [= -> ->]. Qed.

Ltac fields E :=
  repeat match type of E with
  | _ :: _ = _ :: _ => let F := fresh "F" in apply cons_eq in E as [F E]
  end.

Lemma code_inj k k' a a' l l' q q' :
  kind_code k = kind_code k' -> authority_code a = authority_code a' ->
  access_code l = access_code l' -> pii_code q = pii_code q' -> k = k' /\ a = a' /\ l = l' /\ q = q'.
Proof.
  intros E1 E2 E3 E4. split; [by destruct k, k'|]. split; [by destruct a, a'|].
  split; [by destruct l, l' | by destruct q, q'].
Qed.

Lemma single_eq (x y : Z) : [x] = [y] -> x = y.
Proof. by intros [= ->]. Qed.

Lemma event_parts_inj id handle seq prev d id' handle' seq' prev' d' :
  draft_wf d -> draft_wf d' -> is_u 64 seq -> is_u 64 seq' ->
  event_parts id handle seq prev d = event_parts id' handle' seq' prev' d' ->
  id = id' /\ handle = handle' /\ seq = seq' /\ prev = prev' /\ d = d'.
Proof.
  intros W W' U U' E. unfold event_parts in E. fields E.
  destruct W, W', d as [k ? ? ? ? ? ? ? [? ? ?] ? ? a l q ? ?], d' as [k' ? ? ? ? ? ? ? [? ? ?] ? ? a' l' q' ? ?].
  cbn [kind source_handle8 source_pid_sha256 target_handle8 target_pid_sha256 verb_sha256 timestamp_ns
       parent_sha256 body offset length_ body_sha256 selector_dims selector_tuple_sha256 authority
       access_level pii_state owner_pid_sha256 idempotency_key] in *.
  repeat match goal with
  | F : be_bytes _ _ = be_bytes _ _ |- _ => apply be_bytes_inj in F; [|done|done]
  | F : [_] = [_] |- _ => apply single_eq in F
  end.
  destruct (code_inj k k' a a' l l' q q') as (-> & -> & -> & ->); try done. by subst.
Qed.

Lemma compete_keys w d1 d2 p1 p2 :
  0 <= next_sequence w <= U64_MAX -> total_events w < U64_MAX ->
  prepare w d1 = Ok p1 -> prepare w d2 = Ok p2 ->
  idempotency_key d1 ∉ map (fun e => idempotency_key (draft e)) (recent w) ->
  zlen (recent w) < ACTIVE_ENVELOPE_WINDOW ->
  event p2 = mkEvent (sequence (event p1)) (room_handle8 (event p1)) (room_id_sha256 (event p1))
               (previous_sha256 (event p1)) (full_sha256 (event p2)) d2 /\
  draft (event p1) = d1 /\ sequence (event p1) = next_sequence w /\
  commit w p1 = (Ok (Committed (event p1)),
     mkWriter (w_room_handle8 w) (w_room_id_sha256 w) (next_sequence w + 1) (full_sha256 (event p1))
       (recent w ++ [event p1]) (total_events w + 1) (total_gulps w)).
Proof.
  intros Hn Ht H1 H2 Hk Hw.
  apply prepare_Ok in H1 as (u1 & V1 & L1 & E1); [|done]. apply prepare_Ok in H2 as (u2 & V2 & L2 & E2); [|done].
  rewrite E1, E2. cbn. split_and!; try done.
  unfold commit. rewrite E1. cbn.
  destruct (List.find _ _) as [e|] eqn:Ef.
  { apply find_some in Ef as [Hi Hs]. unfold same_key in Hs. apply bytes_eqb_true in Hs. destruct Hk.
    rewrite <- Hs. apply list_elem_of_fmap. exists e. split; [done|]. by apply list_elem_of_In. }
  destruct (Z.leb_spec ACTIVE_ENVELOPE_WINDOW (zlen (recent w))); [lia|].
  rewrite Z.eqb_refl, bytes_eqb_refl. cbn. unfold checked_add. by rewrite !(proj2 (Z.leb_le _ _)) by lia.
Qed.

Lemma find_app_first {A} (f : A -> bool) l k :
  List.find f (l ++ k) = match List.find f l with Some x => Some x | None => List.find f k end.
Proof. induction l as [|x l IH]; cbn; [done|]. by destruct (f x). Qed.

(** One writer, no lost update: of two preparations made on the same head
    with different keys the first to commit is published and the other is
    refused as stale, leaving the writer alone; committing the first again
    returns the published event as a duplicate instead of logging it twice. *)
Theorem competing_preparations w d1 d2 p1 p2 :
  0 <= next_sequence w <= U64_MAX -> total_events w < U64_MAX ->
  prepare w d1 = Ok p1 -> prepare w d2 = Ok p2 ->
  idempotency_key d1 ∉ map (fun e => idempotency_key (draft e)) (recent w) ->
  idempotency_key d2 ∉ map (fun e => idempotency_key (draft e)) (recent w) ->
  idempotency_key d1 <> idempotency_key d2 ->
  zlen (recent w) + 1 < ACTIVE_ENVELOPE_WINDOW ->
  exists w', commit w p1 = (Ok (Committed (event p1)), w') /\ next_sequence w' = next_sequence w + 1 /\
    recent w' = recent w ++ [event p1] /\
    commit w' p2 = (Err StalePreparedEvent, w') /\
    commit w' p1 = (Ok (Duplicate (event p1)), w').
Proof.
  intros Hn Ht H1 H2 K1 K2 K12 Hw.
  destruct (compete_keys w d1 d2 p1 p2) as (E2 & D1 & S1 & C1); try done; [lia|].
  eexists. split; [exact C1|]. split; [done|]. split; [done|].
  split; unfold commit; cbn [recent next_sequence head_sha256].
  - rewrite E2. cbn [draft sequence previous_sha256]. destruct (List.find _ _) as [e|] eqn:Ef.
    + apply find_some in Ef as [Hi Hs]. unfold same_key in Hs. apply bytes_eqb_true in Hs.
      apply in_app_iff in Hi as [Hi|[<-|[]]].
      * destruct K2. rewrite <- Hs. apply list_elem_of_fmap. exists e. split; [done|]. by apply list_elem_of_In.
      * by rewrite D1 in Hs.
    + rewrite zlen_snoc. destruct (Z.leb_spec ACTIVE_ENVELOPE_WINDOW (zlen (recent w) + 1)); [lia|].
      by rewrite S1, (proj2 (Z.eqb_neq (next_sequence w) (next_sequence w + 1))) by lia.
  - assert (F : List.find (same_key (idempotency_key (draft (event p1)))) (recent w ++ [event p1]) = Some (event p1)).
    { rewrite find_app_first. destruct (List.find _ (recent w)) as [e|] eqn:Ef.
      - apply find_some in Ef as [Hi Hs]. unfold same_key in Hs. apply bytes_eqb_true in Hs.
        destruct K1. rewrite <- D1, <- Hs. apply list_elem_of_fmap. exists e. split; [done|]. by apply list_elem_of_In.
      - cbn. unfold same_key. by rewrite bytes_eqb_refl. }
    by rewrite F.
Qed.

Lemma be_bytes_same_length n x y : length (be_bytes n x) = length (be_bytes n y).
Proof. by rewrite !be_bytes_length. Qed.

Ltac same_width :=
  first [ apply be_bytes_same_length | eassumption
        | etransitivity; [eassumption | symmetry; eassumption] | reflexivity ].

(** The event hash binds every field of the event: two well-formed drafts
    hashed in rooms, sequence numbers and predecessors of the right widths
    have the same hash only if all of them are the same, or SHA-256
    collides. *)
Theorem event_hash_binds id handle seq prev d id' handle' seq' prev' d' :
  draft_wf d -> draft_wf d' -> is_u 64 seq -> is_u 64 seq' ->
  length id = length id' -> length handle = length handle' -> length prev = length prev' ->
  event_sha256 id handle seq prev d = event_sha256 id' handle' seq' prev' d' ->
  (id = id' /\ handle = handle' /\ seq = seq' /\ prev = prev' /\ d = d') \/
  exists x y, x <> y /\ sha256 x = sha256 y.
Proof.
  intros W W' U U' Li Lh Lp E. unfold event_sha256, sha256_parts in E.
  destruct (decide (concat (event_parts id handle seq prev d) = concat (event_parts id' handle' seq' prev' d')))
    as [Ec|]; [left|right; eauto].
  apply concat_widths in Ec.
  - by apply event_parts_inj.
  - unfold event_parts. destruct W, W'.
    repeat first [apply List.Forall2_nil | apply List.Forall2_cons; [same_width|]].
Qed.

(** A preparation is not tied to the writer that made it: one made in a
    fresh room commits in any other fresh room, whose log then holds an
    event with the first room's identity. *)
Theorem foreign_commit h1 id1 w1 h2 id2 w2 d p :
  new h1 id1 = Ok w1 -> new h2 id2 = Ok w2 -> prepare w1 d = Ok p ->
  exists w', commit w2 p = (Ok (Committed (event p)), w') /\
    recent w' = [event p] /\ head_sha256 w' = full_sha256 (event p) /\
    room_id_sha256 (event p) = id1 /\ w_room_id_sha256 w' = id2.
Proof.
  unfold new. destruct (is_zero_sha id1), (is_zero_sha id2); try done. intros [= <-] [= <-] Hp.
  apply prepare_Ok in Hp as (u & _ & _ & E); [|cbn; unfold U64_MAX; lia].
  unfold commit. rewrite E. cbn [recent List.find draft sequence previous_sha256 next_sequence head_sha256
    total_events w_room_handle8 w_room_id_sha256 total_gulps full_sha256].
  rewrite Z.eqb_refl, bytes_eqb_refl. cbn [negb orb]. change (ACTIVE_ENVELOPE_WINDOW <=? zlen []) with false.
  change (checked_add 1 1) with (@Ok RoomError _ 2). change (checked_add 0 1) with (@Ok RoomError _ 1).
  eexists. by split_and!.
Qed.

End Facts.

(** ** Novelty *)

Definition novelty_run (g : NoveltyGate) (obs : list Z) : NoveltyGate :=
  fold_left (fun g s => (observe_similarity g s).2) obs g.

(** The low-novelty run counts the trailing observations below epsilon,
    saturating at 255, and the gate saturates exactly from the limit on. *)
Theorem novelty_saturation g obs s :
  0 <= epsilon_bps g <= 10000 -> 1 <= saturation_limit g <= 255 -> 0 <= low_novelty_run g <= 255 ->
  Forall (fun s => 0 <= s <= 10000) obs -> 0 <= s ->
  Forall (fun s => 10000 - s < epsilon_bps g) obs ->
  low_novelty_run (novelty_run g obs) = Z.min 255 (low_novelty_run g + zlen obs) /\
  let run := Z.min 255 (low_novelty_run g + zlen obs + 1) in
  (observe_similarity (novelty_run g obs) s).1 =
    (if 10000 <? s then Err SimilarityOutOfRange
     else if 10000 - s <? epsilon_bps g then
       if saturation_limit g <=? run then Ok (Saturated (10000 - s) run) else Ok (LowNovelty (10000 - s) run)
     else Ok (Continue (10000 - s))) /\
  low_novelty_run (observe_similarity (novelty_run g obs) s).2 =
    (if 10000 <? s then Z.min 255 (low_novelty_run g + zlen obs)
     else if 10000 - s <? epsilon_bps g then run else 0).
Proof.
  intros He Hl Hr Ho Hs Hlow.
  assert (R : low_novelty_run (novelty_run g obs) = Z.min 255 (low_novelty_run g + zlen obs) /\
              epsilon_bps (novelty_run g obs) = epsilon_bps g /\
              saturation_limit (novelty_run g obs) = saturation_limit g).
  { clear s Hs. unfold novelty_run. revert g He Hl Hr Ho Hlow.
    induction obs as [|x obs IH]; intros g He Hl Hr Ho Hlow.
    { cbn. rewrite zlen_nil. split_and!; lia. }
    inversion Ho; inversion Hlow; subst. cbn [fold_left]. rewrite zlen_cons.
    unfold observe_similarity at 2 4 6. rewrite (proj2 (Z.ltb_ge 10000 x)), (proj2 (Z.ltb_lt _ _)) by lia.
    assert (S : sat_add 8 (low_novelty_run g) 1 = Z.min 255 (low_novelty_run g + 1)) by done.
    set (g' := mkGate (epsilon_bps g) (saturation_limit g) (sat_add 8 (low_novelty_run g) 1)).
    destruct (IH g') as (I1 & I2 & I3); try done; [cbn; lia|].
    pose proof (zlen_nonneg obs).
    destruct (saturation_limit g <=? _); cbn [snd]; fold g'; rewrite I1, I2, I3; cbn; split_and!; lia. }
  destruct R as (R1 & R2 & R3). split; [done|]. pose proof (zlen_nonneg obs).
  unfold observe_similarity. destruct (10000 <? s); [done|]. rewrite R2. destruct (10000 - s <? epsilon_bps g); [|done].
  rewrite R1, R3. change (sat_add 8 ?a 1) with (Z.min 255 (a + 1)).
  replace (Z.min 255 (Z.min 255 (low_novelty_run g + zlen obs) + 1)) with (Z.min 255 (low_novelty_run g + zlen obs + 1)) by lia.
  by destruct (saturation_limit g <=? _).
Qed.

(** ** The theorems at concrete inputs *)

Definition b32 (z : Z) : bytes := replicate 32 z.

(** A well-formed work note of sixty selector dimensions. *)
Definition sample_draft (key : Z) : EventDraft :=
  mkDraft WorkNote (replicate 8 2) (b32 2) (replicate 8 3) (b32 3) (b32 4) 77 GENESIS_SHA256
    (mkBody 0 10 (b32 5)) 60 (b32 6) Measured FederationLevel PiiNone (b32 0) (b32 key).

Definition sample_writer (id : Z) : RoomWriter := mkWriter (replicate 8 id) (b32 id) 1 GENESIS_SHA256 [] 0 0.

Definition sample_event `{Digest} (id key : Z) : CommittedEvent :=
  mkEvent 1 (replicate 8 id) (b32 id) GENESIS_SHA256
    (event_sha256 (b32 id) (replicate 8 id) 1 GENESIS_SHA256 (sample_draft key)) (sample_draft key).

Lemma sample_draft_wf key : draft_wf (sample_draft key).
Proof. split; unfold is_u; cbn; try done; lia. Qed.

Lemma room_log_integrity_witness :
  let _ := boot_digest in
  let r := fold_left room_step [OPrepare (sample_draft 1); OPrepare (sample_draft 2); OCommit 0; OCommit 1; OCommit 0]
             (mkRoom (sample_writer 1) [] []) in
  new (replicate 8 1) (b32 1) = Ok (sample_writer 1) /\ total_events (writer r) = zlen (history r).
Proof.
  intros d r. split; [reflexivity|].
  apply (room_log_integrity (H:=d) (replicate 8 1) (b32 1) (sample_writer 1)
           [OPrepare (sample_draft 1); OPrepare (sample_draft 2); OCommit 0; OCommit 1; OCommit 0] eq_refl).
Defined.

Lemma competing_preparations_witness :
  let _ := boot_digest in
  let e1 := sample_event 1 1 in let e2 := sample_event 1 2 in
  exists w', commit (sample_writer 1) (mkPrepared e1) = (Ok (Committed e1), w') /\
    commit w' (mkPrepared e2) = (Err StalePreparedEvent, w').
Proof.
  intros d e1 e2.
  destruct (competing_preparations (H:=d) (sample_writer 1) (sample_draft 1) (sample_draft 2)
              (mkPrepared e1) (mkPrepared e2)) as (w' & C1 & _ & _ & C2 & _).
  - cbn. unfold U64_MAX. lia.
  - cbn. unfold U64_MAX. lia.
  - reflexivity.
  - reflexivity.
  - apply not_elem_of_nil.
  - apply not_elem_of_nil.
  - discriminate.
  - reflexivity.
  - exists w'. split; [exact C1 | exact C2].
Defined.

Lemma event_hash_binds_witness :
  let _ := boot_digest in
  sample_draft 1 = sample_draft 1 \/ exists x y, x <> y /\ sha256 x = sha256 y.
Proof.
  intros d.
  destruct (event_hash_binds (H:=d) (b32 1) (replicate 8 1) 1 GENESIS_SHA256 (sample_draft 1)
              (b32 1) (replicate 8 1) 1 GENESIS_SHA256 (sample_draft 1)) as [(_ & _ & _ & _ & E)|C].
  - apply sample_draft_wf.
  - apply sample_draft_wf.
  - by vm_compute.
  - by vm_compute.
  - reflexivity.
  - reflexivity.
  - reflexivity.
  - reflexivity.
  - left. exact E.
  - right. exact C.
Defined.

Lemma foreign_commit_witness :
  let _ := boot_digest in
  let e := sample_event 1 1 in
  exists w', commit (sample_writer 2) (mkPrepared e) = (Ok (Committed e), w') /\
    recent w' = [e] /\ room_id_sha256 e <> w_room_id_sha256 w'.
Proof.
  intros d e.
  destruct (foreign_commit (H:=d) (replicate 8 1) (b32 1) (sample_writer 1) (replicate 8 2) (b32 2)
              (sample_writer 2) (sample_draft 1) (mkPrepared e) eq_refl eq_refl eq_refl)
    as (w' & C & R & _ & I1 & I2).
  exists w'. split; [exact C|]. split; [exact R|]. rewrite I2. discriminate.
Defined.

Lemma novelty_saturation_witness :
  low_novelty_run (novelty_run (mkGate 500 3 0) [9600; 9900]) = 2 /\
  (observe_similarity (novelty_run (mkGate 500 3 0) [9600; 9900]) 9990).1 = Ok (Saturated 10 3).
Proof.
  destruct (novelty_saturation (mkGate 500 3 0) [9600; 9900] 9990) as (R & S & _);
    [cbn; lia | cbn; lia | cbn; lia | repeat constructor; lia | lia | repeat constructor; cbn; lia |].
  split; [exact R | exact S].
Defined.
