(* ===== verification/RoomWaves.v ===== *)
(** * Waves through a reflection room ([kernel/core/src/reflection_room/mod.rs])

    What the calls of [ReflectionRoom.v] make together: windows of 2000
    events published and sealed one after the other, the way the room's own
    tests drive it. The chain never stalls, its seals climb the 2k / 10k /
    50k hierarchy, and keys are remembered for one window only. *)

From S2P Require Import Prelude Digest Sha256 ReflectionRoom.

Import ReflectionRoom.

#[local] Open Scope Z_scope.

Module RoomWaves.
Section WithDigest.
Context `{Digest}.

(** [writer.commit(writer.prepare(draft)?)]. *)
Definition publish (w : RoomWriter) (d : EventDraft) : result RoomError CommitOutcome * RoomWriter :=
  match prepare w d with
  | Ok p => commit w p
  | Err e => (Err e, w)
  end.

(** Up to the first error. *)
Fixpoint publish_all (w : RoomWriter) (ds : list EventDraft) : result RoomError (list CommitOutcome) * RoomWriter :=
  match ds with
  | [] => (Ok [], w)
  | d :: ds' =>
      match publish w d with
      | (Err e, w') => (Err e, w')
      | (Ok o, w') =>
          let '(r, w'') := publish_all w' ds' in
          (match r with Ok os => Ok (o :: os) | Err e => Err e end, w'')
      end
  end.

(** A window's drafts and the content address of its product. *)
Definition wave (w : RoomWriter) (ds : list EventDraft) (product : bytes) : result RoomError GulpSeal * RoomWriter :=
  match publish_all w ds with
  | (Ok _, w') => seal_gulp w' product
  | (Err e, w') => (Err e, w')
  end.

Fixpoint waves (w : RoomWriter) (l : list (list EventDraft * bytes)) : result RoomError (list GulpSeal) * RoomWriter :=
  match l with
  | [] => (Ok [], w)
  | (ds, product) :: l' =>
      match wave w ds product with
      | (Err e, w') => (Err e, w')
      | (Ok s, w') =>
          let '(r, w'') := waves w' l' in
          (match r with Ok ss => Ok (s :: ss) | Err e => Err e end, w'')
      end
  end.

End WithDigest.
End RoomWaves.

Import RoomWaves.

Section Facts.
Context `{Digest}.

(** A draft any room accepts, whatever it holds: complete, and of a kind
    that names no parent. *)
Definition admissible (d : EventDraft) : Prop := forall w, validate_draft w d = Ok tt.

Definition keys (l : list CommittedEvent) : list bytes := map (fun e => idempotency_key (draft e)) l.

Lemma find_fresh k l : k ∉ keys l -> List.find (same_key k) l = None.
Proof.
  intros Hk. destruct (List.find _ l) as [e|] eqn:Ef; [|done]. destruct Hk.
  apply find_some in Ef as [Hi Hs]. apply bytes_eqb_true in Hs.
  rewrite <- Hs. apply list_elem_of_fmap. exists e. split; [done|]. by apply list_elem_of_In.
Qed.

Lemma existsb_fresh k l : k ∉ keys l -> existsb (same_key k) l = false.
Proof.
  intros Hk. apply not_true_iff_false. intros (e & Hi & Hs)%existsb_exists.
  apply find_fresh in Hk. by rewrite (find_none _ _ Hk e Hi) in Hs.
Qed.

(** Publishing a fresh draft into a window with room. *)
Lemma publish_fresh w d :
  admissible d -> idempotency_key d ∉ keys (recent w) -> zlen (recent w) < ACTIVE_ENVELOPE_WINDOW ->
  0 <= next_sequence w < U64_MAX -> total_events w < U64_MAX ->
  exists e, draft e = d /\ sequence e = next_sequence w /\
    publish w d = (Ok (Committed e),
      mkWriter (w_room_handle8 w) (w_room_id_sha256 w) (next_sequence w + 1) (full_sha256 e)
        (recent w ++ [e]) (total_events w + 1) (total_gulps w)).
Proof.
  intros Ha Hk Hw Hn Ht. unfold publish, prepare. rewrite Ha. cbn [mbind result_bind].
  rewrite existsb_fresh, (proj2 (Z.leb_gt _ _)) by done. cbn [andb]. unfold checked_add at 1.
  rewrite Z.add_0_r, (proj2 (Z.leb_le _ _)) by lia. cbn [mbind result_bind].
  rewrite (proj2 (Z.eqb_neq _ _)) by lia.
  eexists. split; [|split]; [..|unfold commit; cbn [event draft sequence previous_sha256];
    rewrite find_fresh, (proj2 (Z.leb_gt _ _)) by done; rewrite Z.eqb_refl, bytes_eqb_refl; cbn [negb orb];
    cbn [next_sequence total_events w_room_handle8 w_room_id_sha256 head_sha256 recent total_gulps];
    unfold checked_add; rewrite !(proj2 (Z.leb_le _ _)) by lia; reflexivity]; done.
Qed.

Lemma NoDup_map_inj {A B} (f : A -> B) l x y :
  NoDup (map f l) -> x ∈ l -> y ∈ l -> f x = f y -> x = y.
Proof.
  intros Hn (i & Hi)%list_elem_of_lookup (j & Hj)%list_elem_of_lookup E.
  assert (i = j); [|by simplify_eq].
  eapply NoDup_lookup; [exact Hn | | ]; change (map f l) with (f <$> l); rewrite list_lookup_fmap.
  - by rewrite Hi.
  - by rewrite Hj; cbn; rewrite E.
Qed.

(** Publishing a draft of the window again. *)
Lemma publish_duplicate w d :
  admissible d -> NoDup (keys (recent w)) -> d ∈ map draft (recent w) -> 0 <= next_sequence w < U64_MAX ->
  exists e, e ∈ recent w /\ draft e = d /\ publish w d = (Ok (Duplicate e), w).
Proof.
  intros Ha Hk (e & -> & He)%list_elem_of_fmap Hn. exists e. split; [done|]. split; [done|].
  assert (Hs : same_key (idempotency_key (draft e)) e = true) by apply bytes_eqb_refl.
  unfold publish, prepare. rewrite Ha. cbn [mbind result_bind].
  rewrite (proj2 (existsb_exists _ _)) by (exists e; split; [by apply list_elem_of_In | done]).
  rewrite andb_false_r. unfold checked_add.
  rewrite Z.add_0_r, (proj2 (Z.leb_le _ _)) by lia. cbn [mbind result_bind]. rewrite (proj2 (Z.eqb_neq _ _)) by lia.
  unfold commit. cbn [event draft].
  destruct (List.find _ (recent w)) as [x|] eqn:Ef.
  - apply find_some in Ef as [Hx Ex]. apply bytes_eqb_true in Ex. do 3 f_equal.
    eapply (NoDup_map_inj (fun e => idempotency_key (draft e))); [done | by apply list_elem_of_In | done | done].
  - apply list_elem_of_In in He. by rewrite (find_none _ _ Ef e He) in Hs.
Qed.

(** Publishing fresh, pairwise different drafts as far as the window goes. *)
Lemma publish_all_fresh ds w :
  Forall admissible ds -> NoDup (keys (recent w) ++ map idempotency_key ds) ->
  zlen (recent w) + zlen ds <= ACTIVE_ENVELOPE_WINDOW ->
  0 <= next_sequence w -> next_sequence w + zlen ds <= U64_MAX -> total_events w + zlen ds <= U64_MAX ->
  exists es w', publish_all w ds = (Ok (map Committed es), w') /\ map draft es = ds /\
    recent w' = recent w ++ es /\ next_sequence w' = next_sequence w + zlen ds /\
    total_events w' = total_events w + zlen ds /\ total_gulps w' = total_gulps w.
Proof.
  revert w. induction ds as [|d ds IH]; intros w Ha Hk Hw Hn Hs Ht.
  { exists [], w. rewrite zlen_nil, app_nil_r, !Z.add_0_r. by split_and!. }
  rewrite zlen_cons in *. pose proof (zlen_nonneg ds).
  inversion Ha as [|? ? Hd Hds]; subst. cbn [map] in Hk.
  destruct (publish_fresh w d) as (e & Ed & _ & Ep); try done; try lia.
  { intros Hi. apply NoDup_app in Hk as (_ & Hk & _). apply (Hk _ Hi), list_elem_of_here. }
  cbn [publish_all]. rewrite Ep.
  edestruct (IH (mkWriter (w_room_handle8 w) (w_room_id_sha256 w) (next_sequence w + 1) (full_sha256 e)
        (recent w ++ [e]) (total_events w + 1) (total_gulps w))) as (es & w' & -> & Hm & Hr & Hn' & Ht' & Hg);
    cbn [recent next_sequence total_events total_gulps] in *; try done; try lia.
  { unfold keys. rewrite map_app, <- app_assoc. cbn [map app]. by rewrite Ed. }
  { rewrite zlen_snoc. lia. }
  exists (e :: es), w'. cbn [map]. rewrite Ed, Hm, Hr, <- app_assoc. split_and!; try done; lia.
Qed.

(** A full window of drafts, fresh within the window. *)
Record window_ok (p : list EventDraft * bytes) : Prop := {
  wo_full : zlen p.1 = ACTIVE_ENVELOPE_WINDOW;
  wo_drafts : Forall admissible p.1;
  wo_keys : NoDup (map idempotency_key p.1);
  wo_product : is_zero_sha p.2 = false
}.

(** Between two waves: [g] windows sealed. *)
Record rested (g : Z) (w : RoomWriter) : Prop := {
  re_recent : recent w = [];
  re_seq : next_sequence w = ACTIVE_ENVELOPE_WINDOW * g + 1;
  re_total : total_events w = ACTIVE_ENVELOPE_WINDOW * g;
  re_gulps : total_gulps w = g
}.

(** The numbers on the seal of window [index]. *)
Record seal_of (index : Z) (product : bytes) (s : GulpSeal) : Prop := {
  so_tier : tier s = tier_of index;
  so_events : sealed_events s = ACTIVE_ENVELOPE_WINDOW;
  so_cumulative : cumulative_events s = ACTIVE_ENVELOPE_WINDOW * index;
  so_gulp : gulp_index s = index;
  so_checkpoint : checkpoint_index s = index / 5;
  so_super : super_gulp_index s = index / 25;
  so_product : distilled_product_sha256 s = product
}.

(** The first drafts of a window. *)
Lemma fill g w p n :
  0 <= g -> ACTIVE_ENVELOPE_WINDOW * (g + 1) < U64_MAX -> rested g w -> window_ok p -> (n <= 2000)%nat ->
  exists es w', publish_all w (take n p.1) = (Ok (map Committed es), w') /\ map draft es = take n p.1 /\
    recent w' = es /\ zlen es = Z.of_nat n /\ next_sequence w' = next_sequence w + Z.of_nat n /\
    total_events w' = total_events w + Z.of_nat n /\ total_gulps w' = total_gulps w.
Proof.
  intros Hg Hu [Rr Rs Rt Rg] [Wf Wd Wk Wp] Hn. unfold ACTIVE_ENVELOPE_WINDOW in *.
  assert (Hl : zlen (take n p.1) = Z.of_nat n) by (unfold zlen in *; rewrite length_take; lia).
  destruct (publish_all_fresh (take n p.1) w) as (es & w' & E & Hm & Hr & Hs & Ht & Hgg);
    rewrite ?Rr, ?Rs, ?Rt, ?Hl, ?zlen_nil; unfold ACTIVE_ENVELOPE_WINDOW; try lia.
  - by apply Forall_take.
  - rewrite <- (take_drop n p.1), map_app in Wk. by apply NoDup_app in Wk as (? & _).
  - exists es, w'. rewrite Rr in Hr. rewrite Hl in Hs, Ht. split_and!; try done; [|lia..].
    rewrite <- Hl, <- Hm. unfold zlen. by rewrite length_map.
Qed.

Lemma window_take p : window_ok p -> take 2000 p.1 = p.1.
Proof. intros [Wf _ _ _]. apply take_ge. unfold zlen, ACTIVE_ENVELOPE_WINDOW in Wf. lia. Qed.

Lemma wave_rested g w p :
  0 <= g -> ACTIVE_ENVELOPE_WINDOW * (g + 1) < U64_MAX -> rested g w -> window_ok p ->
  exists s w', wave w p.1 p.2 = (Ok s, w') /\ seal_of (g + 1) p.2 s /\ rested (g + 1) w'.
Proof.
  intros Hg Hu R W. destruct (fill g w p 2000) as (es & w' & E & _ & Hr & Hl & Hn & Ht & Hgg); try done.
  rewrite window_take in E by done. destruct R as [Rr Rs Rt Rg], W as [_ _ _ Wp].
  unfold wave. rewrite E. unfold seal_gulp. rewrite Hr, Hl.
  change (wrap32 (Z.of_nat 2000)) with ACTIVE_ENVELOPE_WINDOW. unfold ACTIVE_ENVELOPE_WINDOW in *.
  rewrite Z.eqb_refl, Wp. cbn [negb]. unfold checked_add. rewrite Hgg, Rg, (proj2 (Z.leb_le _ _)) by lia.
  do 2 eexists. split; [reflexivity|]. rewrite Hn, Ht, Rs, Rt.
  split; split; cbn; unfold ACTIVE_ENVELOPE_WINDOW; try done; lia.
Qed.

(** A window refuses an event too many and a seal too early. *)
Lemma window_edges g w p :
  0 <= g -> ACTIVE_ENVELOPE_WINDOW * (g + 1) < U64_MAX -> rested g w -> window_ok p ->
  (exists os full, publish_all w p.1 = (Ok os, full) /\
     forall d, admissible d -> idempotency_key d ∉ map idempotency_key p.1 ->
       publish full d = (Err ActiveWindowFull, full)) /\
  (forall n, (n < 2000)%nat -> exists os part, publish_all w (take n p.1) = (Ok os, part) /\
     forall product, seal_gulp part product = (Err (GulpNotReady (Z.of_nat n)), part)).
Proof.
  intros Hg Hu R W. split.
  - destruct (fill g w p 2000) as (es & w' & E & Hm & Hr & Hl & _); try done.
    rewrite window_take in E, Hm by done. do 2 eexists. split; [exact E|]. intros d Hd Hk.
    unfold publish, prepare. rewrite Hd. cbn [mbind result_bind]. rewrite existsb_fresh.
    + rewrite Hr, Hl. done.
    + rewrite Hr. unfold keys. rewrite <- Hm in Hk. by rewrite map_map in Hk.
  - intros n Hn. destruct (fill g w p n) as (es & w' & E & _ & Hr & Hl & _); try done; [lia|].
    do 2 eexists. split; [exact E|]. intros product. unfold seal_gulp. rewrite Hr, Hl.
    rewrite wrap_id by (unfold is_u; lia). unfold ACTIVE_ENVELOPE_WINDOW.
    by rewrite (proj2 (Z.eqb_neq _ _)) by lia.
Qed.

Lemma waves_rested l g w :
  0 <= g -> ACTIVE_ENVELOPE_WINDOW * (g + zlen l) < U64_MAX -> rested g w -> Forall window_ok l ->
  exists ss w', waves w l = (Ok ss, w') /\ rested (g + zlen l) w' /\ length ss = length l /\
    forall i p s, l !! i = Some p -> ss !! i = Some s -> seal_of (g + Z.of_nat i + 1) p.2 s.
Proof.
  revert g w. induction l as [|p l IH]; intros g w Hg Hu Hr Hl.
  { exists [], w. rewrite zlen_nil, Z.add_0_r. by split_and!. }
  rewrite zlen_cons in *. pose proof (zlen_nonneg l). inversion Hl as [|? ? Hp Hl']; subst.
  destruct (wave_rested g w p) as (s & w1 & E1 & S1 & R1); try done; [unfold ACTIVE_ENVELOPE_WINDOW in *; lia|].
  destruct (IH (g + 1) w1) as (ss & w2 & E2 & R2 & L2 & S2); try done; try lia.
  destruct p as [ds product]. cbn [waves fst snd] in *. rewrite E1, E2. exists (s :: ss), w2.
  split; [done|]. split; [by replace (g + (1 + zlen l)) with (g + 1 + zlen l) by lia|]. split; [cbn; by rewrite L2|].
  intros [|i] p' s' Hp' Hs'; cbn in Hp', Hs'.
  - simplify_eq. by replace (g + Z.of_nat 0 + 1) with (g + 1) by lia.
  - replace (g + Z.of_nat (S i) + 1) with (g + 1 + Z.of_nat i + 1) by lia. by apply S2.
Qed.

Lemma new_rested handle id w : new handle id = Ok w -> rested 0 w.
Proof. unfold new. destruct (is_zero_sha id); [done|]. intros [= <-]. by split. Qed.

(** ** Theorems *)

(** C4. Windows of 2000 complete drafts with distinct keys go through a fresh
    room one after the other, as many as a [u64] counts: every call returns,
    the seal of window [i] carries [i], 2000 [i] events and the tier of the
    hierarchy, and the head counts them all. A full window refuses one event
    more and a window short of 2000 its seal, both leaving the room as it
    was. *)
Theorem gulp_ladder handle id w l :
  new handle id = Ok w -> Forall window_ok l -> ACTIVE_ENVELOPE_WINDOW * (zlen l + 1) < U64_MAX ->
  exists ss w', waves w l = (Ok ss, w') /\ length ss = length l /\
    (forall i p s, l !! i = Some p -> ss !! i = Some s -> seal_of (Z.of_nat i + 1) p.2 s) /\
    (let h := read_committed_head w' in
     active_events h = 0 /\ h_next_sequence h = 2000 * zlen l + 1 /\ h_total_events h = 2000 * zlen l /\
     h_total_gulps h = zlen l /\ total_checkpoints h = zlen l / 5 /\ total_super_gulps h = zlen l / 25) /\
    (forall p, window_ok p ->
       (exists os full, publish_all w' p.1 = (Ok os, full) /\
          forall d, admissible d -> idempotency_key d ∉ map idempotency_key p.1 ->
            publish full d = (Err ActiveWindowFull, full)) /\
       (forall n, (n < 2000)%nat -> exists os part, publish_all w' (take n p.1) = (Ok os, part) /\
          forall product, seal_gulp part product = (Err (GulpNotReady (Z.of_nat n)), part))).
Proof.
  intros Hnew Hl Hu. pose proof (zlen_nonneg l).
  destruct (waves_rested l 0 w) as (ss & w' & E & R & L & S); try done;
    [unfold ACTIVE_ENVELOPE_WINDOW in *; lia | by eapply new_rested |].
  exists ss, w'. rewrite Z.add_0_l in R. split; [done|]. split; [done|]. split; [by apply S|].
  split; [|intros p Wp; by apply (window_edges (zlen l))].
  destruct R as [Rr Rs Rt Rg]. cbn. by rewrite Rr, Rs, Rt, Rg.
Qed.

(** A key is remembered until its window is sealed, no longer: a draft
    published twice within the window is the duplicate of its first commit,
    published again behind the seal it is a second event with a number of
    its own. *)
Theorem sealed_key_commits_again handle id w p d :
  new handle id = Ok w -> window_ok p -> d ∈ p.1 ->
  exists os full s w1 w2 e e', publish_all w p.1 = (Ok os, full) /\ Committed e ∈ os /\
    publish full d = (Ok (Duplicate e), full) /\
    seal_gulp full p.2 = (Ok s, w1) /\ publish w1 d = (Ok (Committed e'), w2) /\
    draft e = d /\ draft e' = d /\ sequence e' = 2001.
Proof.
  intros Hnew W Hd. assert (R : rested 0 w) by (by eapply new_rested). pose proof W as [Wf Wd Wk Wp].
  destruct (fill 0 w p 2000) as (es & full & E & Hm & Hr & Hl & Hn & Ht & Hg); try done.
  rewrite window_take in E, Hm by done.
  destruct (wave_rested 0 w p) as (s & w1 & Ew & _ & R1); try done.
  unfold wave in Ew. rewrite E in Ew.
  destruct (publish_fresh w1 d) as (e' & D' & S' & P').
  { by eapply Forall_forall in Wd. }
  { rewrite (re_recent 1 w1) by done. apply not_elem_of_nil. }
  { by rewrite (re_recent 1 w1). }
  { by rewrite (re_seq 1 w1). }
  { by rewrite (re_total 1 w1). }
  destruct (publish_duplicate full d) as (e & He & De & Pe).
  { by eapply Forall_forall in Wd. }
  { rewrite Hr. unfold keys. rewrite <- (map_map draft idempotency_key), Hm. done. }
  { by rewrite Hr, Hm. }
  { rewrite Hn, (re_seq 0 w) by done. done. }
  exists (map Committed es), full, s, w1. do 3 eexists. split; [exact E|].
  split; [apply list_elem_of_fmap; exists e; split; [done | by rewrite <- Hr]|].
  split; [exact Pe|]. split; [exact Ew|]. split; [exact P'|]. split; [done|]. split; [done|].
  by rewrite S', (re_seq 1 w1).
Qed.

End Facts.

(** ** The theorems at a concrete room *)

(** The sample draft under the key [n]. *)
Definition keyed_draft (n : nat) : EventDraft :=
  let d := sample_draft 1 in
  mkDraft (kind d) (source_handle8 d) (source_pid_sha256 d) (target_handle8 d) (target_pid_sha256 d) (verb_sha256 d)
    (timestamp_ns d) (parent_sha256 d) (body d) (selector_dims d) (selector_tuple_sha256 d) (authority d)
    (access_level d) (pii_state d) (owner_pid_sha256 d) (be_bytes 31 (Z.of_nat n) ++ [1]).

Definition sample_window : list EventDraft * bytes := (map keyed_draft (seq 0 2000), b32 7).

Lemma keyed_draft_admissible n : admissible (keyed_draft n).
Proof.
  intros w. unfold validate_draft. cbn [keyed_draft idempotency_key].
  assert (E : is_zero_sha (be_bytes 31 (Z.of_nat n) ++ [1]) = false).
  { unfold is_zero_sha. rewrite forallb_app. apply andb_false_r. }
  by rewrite E.
Qed.

Lemma sample_window_ok : window_ok sample_window.
Proof.
  split; cbn [fst snd sample_window].
  - unfold zlen. by rewrite length_map, length_seq.
  - apply Forall_forall. intros d (i & -> & _)%list_elem_of_fmap. apply keyed_draft_admissible.
  - rewrite map_map. change (map ?f ?l) with (f <$> l). apply NoDup_fmap_2_strong; [|apply NoDup_seq].
    intros i j Hi%elem_of_seq Hj%elem_of_seq E. cbn [keyed_draft idempotency_key] in E.
    apply app_eq_len in E as [E _]; [|by rewrite !be_bytes_length].
    assert (B : 2000 < 256 ^ Z.of_nat 31) by (by vm_compute).
    apply be_bytes_inj in E; lia.
  - reflexivity.
Qed.

(** The same window twenty-five times over. *)
Lemma gulp_ladder_witness :
  let _ := boot_digest in
  new (replicate 8 1) (b32 1) = Ok (sample_writer 1) /\
  exists ss w s, waves (sample_writer 1) (replicate 25 sample_window) = (Ok ss, w) /\
    ss !! 24%nat = Some s /\ tier s = SuperGulp50k /\ cumulative_events s = 50000 /\
    h_total_events (read_committed_head w) = 50000.
Proof.
  intros d. split; [reflexivity|].
  destruct (gulp_ladder (H:=d) (replicate 8 1) (b32 1) (sample_writer 1) (replicate 25 sample_window))
    as (ss & w & E & L & S & T & _).
  - reflexivity.
  - apply Forall_replicate, sample_window_ok.
  - reflexivity.
  - destruct (lookup_lt_is_Some_2 ss 24) as [s Hs]; [rewrite L, length_replicate; lia|].
    exists ss, w, s. split; [exact E|]. split; [exact Hs|].
    destruct (S 24%nat sample_window s) as [S1 _ S2 _ _ _ _]; [reflexivity | exact Hs |].
    split; [exact S1|]. split; [exact S2|]. exact (proj1 (proj2 (proj2 T))).
Defined.

Lemma sealed_key_commits_again_witness :
  let _ := boot_digest in
  exists full s w1 w2 e e', publish full (keyed_draft 5) = (Ok (Duplicate e), full) /\
    seal_gulp full (b32 7) = (Ok s, w1) /\ publish w1 (keyed_draft 5) = (Ok (Committed e'), w2) /\ sequence e' = 2001.
Proof.
  intros d.
  destruct (sealed_key_commits_again (H:=d) (replicate 8 1) (b32 1) (sample_writer 1) sample_window (keyed_draft 5))
    as (os & full & s & w1 & w2 & e & e' & _ & _ & P & G & P' & _ & _ & N).
  - reflexivity.
  - apply sample_window_ok.
  - apply list_elem_of_fmap. exists 5%nat. split; [reflexivity | apply elem_of_seq; lia].
  - exists full, s, w1, w2, e, e'. split; [exact P|]. split; [exact G|]. split; [exact P' | exact N].
Defined.
