(* ===== verification/CycleOrch.v ===== *)
(** * Cycle orchestrator ([kernel/core/src/cycle_orch/mod.rs])

    The seven-state peer machine with its bounded history, strike counter
    and kick deadline, the SLO thresholds and the operator halt verbs. *)

From S2P Require Import Prelude.

Module CycleOrch.

#[local] Open Scope Z_scope.

Inductive PeerState := Dark | Probing | Alive | Kicked | Responding | Drift | Halt.

#[export] Instance PeerState_eq_dec : EqDecision PeerState.
Proof. solve_decision. Defined.

Definition legal_transitions (from : PeerState) : list PeerState :=
  match from with
  | Dark => [Probing]
  | Probing => [Alive; Dark]
  | Alive => [Kicked; Dark; Probing]
  | Kicked => [Responding; Drift; Halt; Dark]
  | Responding => [Alive; Kicked; Drift; Halt]
  | Drift => [Alive; Halt; Dark]
  | Halt => [Dark]
  end.

Record TransitionRecord := mkRecord { ts_ns : Z; from : PeerState; to : PeerState; reason : bytes }.

Record PeerStateMachine := mkPeer {
  peer_id : bytes;
  state : PeerState;
  history : list TransitionRecord;
  last_transition_ns : Z;
  kick_deadline_ns : option Z;
  strikes : Z
}.

Definition HISTORY_CAP : Z := 256.

Definition illegal_transition : bytes := lit "illegal_transition".

Definition new (id : bytes) : PeerStateMachine := mkPeer id Dark [] 0 None 0.

Definition transition (m : PeerStateMachine) (next : PeerState) (why : bytes) (now_ns : Z) :
    result bytes unit * PeerStateMachine :=
  if negb (bool_decide (next ∈ legal_transitions (state m))) then (Err illegal_transition, m)
  else
    let pushed := history m ++ [mkRecord now_ns (state m) next why] in
    let kept := if HISTORY_CAP <? zlen pushed then tl pushed else pushed in
    (Ok tt, mkPeer (peer_id m) next kept now_ns (kick_deadline_ns m) (strikes m)).

(** Deadline and strikes are written before the transition is attempted. *)
Definition on_kick (m : PeerStateMachine) (kick_text : bytes) (deadline_ns_from_now now_ns : Z) :
    result bytes unit * PeerStateMachine :=
  let m := mkPeer (peer_id m) (state m) (history m) (last_transition_ns m)
             (Some (wrap 64 (now_ns + deadline_ns_from_now))) (strikes m) in
  transition m Kicked (lit "kick-issued") now_ns.

Definition on_reply (m : PeerStateMachine) (reply_verb : bytes) (now_ns : Z) :
    result bytes unit * PeerStateMachine :=
  let m := mkPeer (peer_id m) (state m) (history m) (last_transition_ns m) (kick_deadline_ns m) 0 in
  transition m Responding (lit "reply-observed") now_ns.

Definition on_drift (m : PeerStateMachine) (diff_summary : bytes) (now_ns : Z) :
    result bytes unit * PeerStateMachine :=
  let m := mkPeer (peer_id m) (state m) (history m) (last_transition_ns m) (kick_deadline_ns m)
             (wrap 32 (strikes m + 1)) in
  transition m Drift (lit "drift-detected") now_ns.

Definition on_halt (m : PeerStateMachine) (predicate : bytes) (now_ns : Z) :
    result bytes unit * PeerStateMachine :=
  transition m Halt (lit "halt-predicate-fired") now_ns.

Definition is_overdue (m : PeerStateMachine) (now_ns : Z) : bool :=
  match state m, kick_deadline_ns m with
  | Kicked, Some dl => dl <? now_ns
  | _, _ => false
  end.

(** *** Calls on one machine *)

Inductive peer_op :=
| OTransition (next : PeerState) (why : bytes)
| OKick (kick_text : bytes) (deadline_ns_from_now : Z)
| OReply (reply_verb : bytes)
| ODrift (diff_summary : bytes)
| OHalt (predicate : bytes).

Definition peer_step (m : PeerStateMachine) (op : peer_op) (now_ns : Z) : result bytes unit * PeerStateMachine :=
  match op with
  | OTransition next why => transition m next why now_ns
  | OKick t d => on_kick m t d now_ns
  | OReply v => on_reply m v now_ns
  | ODrift d => on_drift m d now_ns
  | OHalt p => on_halt m p now_ns
  end.

(** Every accepted transition of a run, oldest first. *)
Fixpoint peer_run (m : PeerStateMachine) (ops : list (peer_op * Z)) : PeerStateMachine * list TransitionRecord :=
  match ops with
  | [] => (m, [])
  | (op, now) :: ops' =>
      let '(r, m') := peer_step m op now in
      let '(mf, log) := peer_run m' ops' in
      match r, last (history m') with
      | Ok tt, Some rec => (mf, rec :: log)
      | _, _ => (mf, log)
      end
  end.

Record SloThresholds := mkSlo {
  mem_free_mb_floor : Z; mem_duration_ms_floor : Z; err_rate_threshold_permille : Z; err_window_ms : Z;
  err_min_samples : Z; law_window_ms : Z; law_threshold : Z; flap_window_ms : Z; flap_threshold : Z;
  cadence_floor_ms : Z; state_file_stale_ms : Z
}.

Definition default_slo : SloThresholds :=
  mkSlo 200 30000 100 60000 5 60000 3 30000 5 5000 120000.

Inductive HaltPredicate :=
| U006MemLowSustained | U007ErrorRateExceeded | U008OpHaltObserved | U009LawViolationsExceeded
| U010SchemaDrift | U011PeerFlapExceeded | U012QuorumSplit | U013CadenceFloorBreached | U014StateFileStaleness.

Definition is_op_halt_verb (verb : bytes) : bool :=
  if bytes_eqb verb (lit "OP-HALT") || bytes_eqb verb (lit "EVT-HALT") then true
  else starts_with (lit "EVT-") verb && ends_with (lit "-HALT-EMIT") verb.

End CycleOrch.

Import CycleOrch.

#[local] Open Scope Z_scope.

(** ** The transition log *)

(** A log that starts in [s] and ends in [s'] along legal transitions. *)
Inductive legal_path : PeerState -> list TransitionRecord -> PeerState -> Prop :=
| path_nil s : legal_path s [] s
| path_cons s r log s' :
    from r = s -> to r ∈ legal_transitions s -> legal_path (to r) log s' -> legal_path s (r :: log) s'.

(** The newest [HISTORY_CAP] entries. *)
Definition newest (log : list TransitionRecord) : list TransitionRecord :=
  drop (length log - Z.to_nat HISTORY_CAP) log.

Lemma newest_small log : zlen log <= HISTORY_CAP -> newest log = log.
Proof.
  intros H. unfold newest. unfold zlen in H. replace (length log - _)%nat with 0%nat by lia. done.
Qed.

Lemma newest_newest a b : newest (newest a ++ b) = newest (a ++ b).
Proof.
  unfold newest. generalize (Z.to_nat HISTORY_CAP) as c. intros c.
  rewrite !length_app, length_drop.
  destruct (Nat.le_gt_cases (length a) c) as [L|L].
  { replace (length a - c)%nat with 0%nat by lia. rewrite drop_0. do 2 f_equal. lia. }
  rewrite <- (drop_app_le a b (length a - c)) by lia. rewrite drop_drop. f_equal. lia.
Qed.

Lemma transition_cases m next why now :
  ((next ∉ legal_transitions (state m)) /\ transition m next why now = (Err illegal_transition, m)) \/
  ((next ∈ legal_transitions (state m)) /\ exists kept,
     transition m next why now =
       (Ok tt, mkPeer (peer_id m) next kept now (kick_deadline_ns m) (strikes m)) /\
     last kept = Some (mkRecord now (state m) next why) /\
     (zlen (history m) <= HISTORY_CAP -> kept = newest (history m ++ [mkRecord now (state m) next why]))).
Proof.
  unfold transition. set (r := mkRecord now (state m) next why).
  destruct (bool_decide (next ∈ _)) eqn:E; cbn [negb]; to_prop; [right|by left].
  split; [done|]. eexists. split; [done|].
  destruct (Z.ltb_spec HISTORY_CAP (zlen (history m ++ [r]))) as [L|L].
  - destruct (history m) as [|x l] eqn:Eh; [by unfold zlen in L|]. cbn [app tl]. split; [by rewrite last_snoc|].
    intros Hc. unfold newest. rewrite zlen_snoc in L. unfold zlen in *.
    cbn [app length] in *. rewrite length_app. cbn [length].
    replace (S (length l + 1) - Z.to_nat HISTORY_CAP)%nat with 1%nat by lia. done.
  - split; [by rewrite last_snoc|]. intros _. by rewrite newest_small.
Qed.

(** The transition an operation attempts, on the machine it leaves behind. *)
Definition attempt (m : PeerStateMachine) (op : peer_op) (now : Z) : PeerStateMachine * PeerState * bytes :=
  match op with
  | OTransition n w => (m, n, w)
  | OKick _ d => (mkPeer (peer_id m) (state m) (history m) (last_transition_ns m)
                    (Some (wrap 64 (now + d))) (strikes m), Kicked, lit "kick-issued")
  | OReply _ => (mkPeer (peer_id m) (state m) (history m) (last_transition_ns m) (kick_deadline_ns m) 0,
                 Responding, lit "reply-observed")
  | ODrift _ => (mkPeer (peer_id m) (state m) (history m) (last_transition_ns m) (kick_deadline_ns m)
                   (wrap 32 (strikes m + 1)), Drift, lit "drift-detected")
  | OHalt _ => (m, Halt, lit "halt-predicate-fired")
  end.

Lemma peer_step_attempt m op now :
  peer_step m op now = (let '(m', n, w) := attempt m op now in transition m' n w now).
Proof. by destruct op. Qed.

Lemma attempt_same m op now m' n w : attempt m op now = (m', n, w) ->
  state m' = state m /\ history m' = history m /\ last_transition_ns m' = last_transition_ns m.
Proof. by destruct op; intros [= <- <- <-]. Qed.

Lemma peer_run_log m ops :
  zlen (history m) <= HISTORY_CAP ->
  let '(mf, log) := peer_run m ops in
  legal_path (state m) log (state mf) /\ history mf = newest (history m ++ log) /\
  last_transition_ns mf = match last log with Some r => ts_ns r | None => last_transition_ns m end /\
  zlen (history mf) <= HISTORY_CAP.
Proof.
  revert m. induction ops as [|[op now] ops IH]; intros m Hc; cbn [peer_run].
  { split; [constructor|]. rewrite app_nil_r, newest_small by done. done. }
  rewrite peer_step_attempt. destruct (attempt m op now) as [[m1 n] w] eqn:Ea.
  apply attempt_same in Ea as (E1 & E2 & E3).
  destruct (transition_cases m1 n w now) as [[_ ->]|(Hl & kept & -> & Hlast & Hk)].
  - specialize (IH m1). rewrite E1, E2, E3 in IH. destruct (peer_run m1 ops) as [mf log].
    destruct (last (history m)); by apply IH.
  - cbn [history]. rewrite Hlast, E1 in *. rewrite E2 in Hk. specialize (Hk Hc).
    specialize (IH (mkPeer (peer_id m1) n kept now (kick_deadline_ns m1) (strikes m1))).
    cbn [history state last_transition_ns] in IH. destruct (peer_run _ ops) as [mf log].
    destruct IH as (I1 & I2 & I3 & I4).
    { rewrite Hk. unfold newest, zlen. rewrite length_drop. unfold HISTORY_CAP in *. lia. }
    split_and!; [by constructor | | | done].
    + rewrite I2, Hk, newest_newest, <- app_assoc. done.
    + rewrite last_cons, I3. by destruct (last log).
Qed.

(** The counters of a run, read off the calls alone. *)
Fixpoint strikes_of (s : Z) (ops : list (peer_op * Z)) : Z :=
  match ops with
  | [] => s
  | (OReply _, _) :: ops' => strikes_of 0 ops'
  | (ODrift _, _) :: ops' => strikes_of (wrap 32 (s + 1)) ops'
  | _ :: ops' => strikes_of s ops'
  end.

Fixpoint deadline_of (d : option Z) (ops : list (peer_op * Z)) : option Z :=
  match ops with
  | [] => d
  | (OKick _ k, now) :: ops' => deadline_of (Some (wrap 64 (now + k))) ops'
  | _ :: ops' => deadline_of d ops'
  end.

Lemma transition_counters m n w now :
  strikes (transition m n w now).2 = strikes m /\
  kick_deadline_ns (transition m n w now).2 = kick_deadline_ns m.
Proof. unfold transition. by destruct (negb _). Qed.

Lemma peer_run_counters m ops :
  strikes (peer_run m ops).1 = strikes_of (strikes m) ops /\
  kick_deadline_ns (peer_run m ops).1 = deadline_of (kick_deadline_ns m) ops.
Proof.
  revert m. induction ops as [|[op now] ops IH]; intros m; [done|]. cbn [peer_run].
  destruct (peer_step m op now) as [r m'] eqn:Es. specialize (IH m').
  assert (strikes m' = strikes_of (strikes m) [(op, now)] /\
          kick_deadline_ns m' = deadline_of (kick_deadline_ns m) [(op, now)]) as [S D].
  { rewrite peer_step_attempt in Es. destruct (attempt m op now) as [[m1 n] w] eqn:Ea.
    destruct (transition_counters m1 n w now) as [T1 T2]. rewrite Es in T1, T2. cbn [snd] in *.
    rewrite T1, T2. by destruct op; injection Ea as <- <- <-. }
  destruct (peer_run m' ops) as [mf log]. cbn [fst] in IH.
  assert (X : strikes mf = strikes_of (strikes m) ((op, now) :: ops) /\
              kick_deadline_ns mf = deadline_of (kick_deadline_ns m) ((op, now) :: ops)).
  { rewrite (proj1 IH), (proj2 IH), S, D. by destruct op. }
  by destruct r as [[]|]; [destruct (last (history m'))|].
Qed.

(** ** Theorems *)

(** C17. Whatever sequence of calls a peer sees, accepted transitions form one
    path of the legal-transition table from [Dark] to the current state;
    the history is exactly the newest 256 of them, oldest first, and the
    last-transition time is that of the newest. *)
Theorem peer_history_is_path id ops :
  let '(m, log) := peer_run (new id) ops in
  legal_path Dark log (state m) /\ history m = newest log /\
  last_transition_ns m = match last log with Some r => ts_ns r | None => 0 end /\
  zlen (history m) <= HISTORY_CAP.
Proof. by apply (peer_run_log (new id) ops). Qed.

(** Strikes and deadline follow the calls, not the accepted transitions:
    strikes count the [on_drift] calls since the last [on_reply] call
    (modulo 2^32) and the deadline is that of the last [on_kick] call, with
    refused calls included.  In particular a peer already [Kicked] refuses
    a second kick and yet has its deadline moved: it is overdue at [t] just
    when [t] is past the refused kick's deadline. *)
Theorem rejected_calls_count m ops text d now t :
  strikes (peer_run m ops).1 = strikes_of (strikes m) ops /\
  kick_deadline_ns (peer_run m ops).1 = deadline_of (kick_deadline_ns m) ops /\
  (state m = Kicked -> is_u 64 (now + d) ->
     let '(r, m') := on_kick m text d now in
     r = Err illegal_transition /\ state m' = Kicked /\ history m' = history m /\
     is_overdue m' t = (now + d <? t)).
Proof.
  split; [apply peer_run_counters|]. split; [apply peer_run_counters|]. intros Hs U.
  unfold on_kick, transition. cbn [state]. rewrite Hs. cbn.
  rewrite wrap_id by done. done.
Qed.

(** The halt whitelist: the two exact verbs, or the documented prefix and
    suffix, which may overlap and leave anything (or nothing) between. *)
Theorem halt_verb_spec verb :
  is_op_halt_verb verb = true <->
  verb = lit "OP-HALT" \/ verb = lit "EVT-HALT" \/ verb = lit "EVT-HALT-EMIT" \/
  exists mid, verb = lit "EVT-" ++ mid ++ lit "-HALT-EMIT".
Proof.
  unfold is_op_halt_verb. split.
  - destruct (bytes_eqb verb (lit "OP-HALT")) eqn:E1; [left; by apply bytes_eqb_true|].
    destruct (bytes_eqb verb (lit "EVT-HALT")) eqn:E2; [right; left; by apply bytes_eqb_true|].
    cbn [orb]. intros [[a ->]%starts_with_spec [b Hb]%ends_with_spec]%andb_true_iff. right; right.
    change (lit "EVT-") with ([69; 86; 84] ++ [45]) in Hb. rewrite <- app_assoc in Hb.
    change (lit "-HALT-EMIT") with ([45] ++ lit "HALT-EMIT") in Hb.
    destruct b as [|b1 [|b2 [|b3 [|b4 b]]]]; cbn in Hb; try discriminate Hb.
    + left. injection Hb as _ _ _ ->. done.
    + right. exists b. injection Hb as _ _ _ _ ->. reflexivity.
  - intros [->|[->|[->|[mid ->]]]]; try done.
    rewrite starts_with_app. rewrite app_assoc, ends_with_app. apply orb_true_r.
Qed.

(** ** The theorems at concrete inputs *)

Lemma rejected_calls_count_witness :
  let m := mkPeer (lit "liris") Kicked [] 5 (Some 100) 0 in
  is_overdue m 101 = true /\ is_overdue (on_kick m (lit "hi") 100 50).2 101 = false /\
  (on_kick m (lit "hi") 100 50).1 = Err illegal_transition.
Proof.
  intros m. destruct (rejected_calls_count m [] (lit "hi") 100 50 101) as (_ & _ & K).
  specialize (K eq_refl). assert (U : is_u 64 (50 + 100)) by by vm_compute. specialize (K U).
  destruct (on_kick m (lit "hi") 100 50) as [r m']. destruct K as (-> & _ & _ & O).
  split; [reflexivity|]. split; [exact O | reflexivity].
Defined.
