(* ===== verification/BootLines.v ===== *)
(** * Boot status lines ([kernel/core/src/boot_diag.rs], [boot_identity.rs])

    The bounded line writer both files define, the boot-stage classifier
    with its status line, and the build-time identity line with its sixty
    selector axes. *)

From S2P Require Import Prelude.

Module LineWriter.

#[local] Open Scope Z_scope.

(** [IdentityLineWriter] / [StatusLineWriter]; a [None] buffer only counts. *)
Record LineWriter := mkWriter { buffer : option bytes; required : Z; written : Z }.

Inductive RenderError := BufferTooSmall (required_len : Z).

Definition count_only : LineWriter := mkWriter None 0 0.
Definition with_buffer (out : bytes) : LineWriter := mkWriter (Some out) 0 0.

Definition push_bytes (w : LineWriter) (value : bytes) : LineWriter :=
  let req := sat_add 64 (required w) (zlen value) in
  match buffer w with
  | None => mkWriter None req (written w)
  | Some b =>
      let available := sat_sub (zlen b) (written w) in
      let to_copy := Z.min available (zlen value) in
      if to_copy =? 0 then mkWriter (Some b) req (written w)
      else
        let end_ := written w + to_copy in
        mkWriter (Some (take (Z.to_nat (written w)) b ++ take (Z.to_nat to_copy) value
                        ++ drop (Z.to_nat end_) b)) req end_
  end.

Definition push_all (w : LineWriter) (values : list bytes) : LineWriter := fold_left push_bytes values w.

Definition finish (w : LineWriter) : result RenderError Z :=
  if written w <? required w then Err (BufferTooSmall (required w)) else Ok (required w).

(** The digit loop of [push_decimal], filling its buffer from the end. *)
Fixpoint digit_loop (fuel : nat) (n : Z) (digits : bytes) : bytes :=
  match fuel with
  | O => digits
  | S f => if n =? 0 then digits else digit_loop f (n / 10) ((48 + n mod 10) :: digits)
  end.

(** What [push_decimal] pushes. *)
Definition decimal (value : Z) : bytes := if value =? 0 then lit "0" else digit_loop 20 value [].

Definition bool_digit (b : bool) : bytes := if b then lit "1" else lit "0".

End LineWriter.

Module BootDiag.

Import LineWriter.
#[local] Open Scope Z_scope.

Inductive SecureBootState := SbUnknown | SbEnabled | SbDisabled.
Definition secure_boot_wire (s : SecureBootState) : bytes :=
  match s with SbUnknown => lit "unknown" | SbEnabled => lit "enabled" | SbDisabled => lit "disabled" end.

Inductive LoaderPathClass := FirmwareEfi | WindowsBootManager | LoaderUnknown.
Definition loader_wire (l : LoaderPathClass) : bytes :=
  match l with
  | FirmwareEfi => lit "firmware-efi" | WindowsBootManager => lit "windows-bootmgr" | LoaderUnknown => lit "unknown"
  end.

Inductive PixelFormat := Rgb | Bgr | Bitmask | BltOnly | PixelUnknown.
Definition pixel_wire (p : PixelFormat) : bytes :=
  match p with
  | Rgb => lit "rgb" | Bgr => lit "bgr" | Bitmask => lit "bitmask" | BltOnly => lit "blt-only"
  | PixelUnknown => lit "unknown"
  end.
Definition is_direct_framebuffer (p : PixelFormat) : bool :=
  match p with Rgb | Bgr | Bitmask => true | _ => false end.

Record FramebufferObservation := mkFb {
  width : Z; height : Z; pixel_format : PixelFormat; byte_len : Z; base_present : bool; layout_verified : bool
}.
Definition ABSENT : FramebufferObservation := mkFb 0 0 PixelUnknown 0 false false.

Definition is_direct_complete (f : FramebufferObservation) : bool :=
  negb (width f =? 0) && negb (height f =? 0) && negb (byte_len f =? 0) && base_present f
  && layout_verified f && is_direct_framebuffer (pixel_format f).

Record BootObservations := mkObs {
  uefi_system_table_present : bool; con_out_present : bool; boot_services_present : bool; gop_located : bool;
  framebuffer : FramebufferObservation; secure_boot : SecureBootState; loader_path : LoaderPathClass
}.
Definition EMPTY : BootObservations := mkObs false false false false ABSENT SbUnknown LoaderUnknown.

Definition has_direct_framebuffer (o : BootObservations) : bool :=
  gop_located o && is_direct_complete (framebuffer o).

Inductive BootStage :=
| NoUefi | UefiTable | UefiConsole | BootServices | GraphicsOutput | Framebuffer | MetalCandidate
| MetalReady | PolicyGuarded.

Definition stage_wire (s : BootStage) : bytes :=
  match s with
  | NoUefi => lit "no-uefi" | UefiTable => lit "uefi-table" | UefiConsole => lit "uefi-console"
  | BootServices => lit "boot-services" | GraphicsOutput => lit "graphics-output"
  | Framebuffer => lit "framebuffer" | MetalCandidate => lit "metal-candidate"
  | MetalReady => lit "pre-driver-ready" | PolicyGuarded => lit "policy-guarded"
  end.

Definition classify_boot_stage (o : BootObservations) : BootStage :=
  if negb (uefi_system_table_present o) then NoUefi
  else if has_direct_framebuffer o then
    match loader_path o, secure_boot o with
    | FirmwareEfi, SbDisabled => MetalReady
    | FirmwareEfi, SbUnknown => MetalCandidate
    | WindowsBootManager, _ | _, SbEnabled => PolicyGuarded
    | LoaderUnknown, _ => Framebuffer
    end
  else if gop_located o then GraphicsOutput
  else if boot_services_present o then BootServices
  else if con_out_present o then UefiConsole
  else UefiTable.

(** The arguments of the writer calls of [render_status_line_inner]. *)
Definition status_pushes (o : BootObservations) : list bytes :=
  let f := framebuffer o in
  [lit "ASOBTDIAG|format=hbpish|evidence=MEASURED_BOOT|source=uefi|seat=unknown|receipt=unsealed|tuple=boot:diag:early|stage=";
   stage_wire (classify_boot_stage o);
   lit "|uefi="; bool_digit (uefi_system_table_present o);
   lit "|conout="; bool_digit (con_out_present o);
   lit "|bs="; bool_digit (boot_services_present o);
   lit "|gop="; bool_digit (gop_located o);
   lit "|fb="; decimal (width f); lit "x"; decimal (height f); lit "/"; pixel_wire (pixel_format f);
   lit "/"; decimal (byte_len f);
   lit "|fbbase="; bool_digit (base_present f);
   lit "|fblayout="; bool_digit (layout_verified f);
   lit "|sb="; secure_boot_wire (secure_boot o);
   lit "|loader="; loader_wire (loader_path o)].

Definition status_line_len (o : BootObservations) : Z := required (push_all count_only (status_pushes o)).

(** Result and final contents of [out]. *)
Definition render_status_line (o : BootObservations) (out : bytes) : result RenderError Z * option bytes :=
  let w := push_all (with_buffer out) (status_pushes o) in
  (finish w, buffer w).

End BootDiag.

Module BootIdentity.

Import LineWriter.
#[local] Open Scope Z_scope.

Definition AXIS_COUNT : Z := 60.
Definition ACER_DEVICE_PID : bytes := lit "ACER-PID-H740C-A07-W104-P00-N00000".
Definition OP_JESSE_PID : bytes := lit "OP-JESSE-PID-G0000-A00-W000-P00-N00000".
Definition OP_RAYSSA_PID : bytes := lit "OP-RAYSSA-PID-G0000-A00-W000-P00-N00000".

Record BootIdentity := mkIdentity {
  seat : bytes; device_pid : bytes; operator_pid : bytes; co_operator_pid : bytes; room_pid : bytes;
  glyph : bytes; cohort : bytes; hilbert : Z; tuple_dim : Z; date : bytes; location : bytes
}.

Definition ACER_FABLE5_BOOT_IDENTITY : BootIdentity :=
  mkIdentity (lit "ACER-CLAUDE-FABLE5") ACER_DEVICE_PID OP_JESSE_PID OP_RAYSSA_PID (lit "8467a937cba309f7")
    (lit "BH1024:SEAT-FABLE5") (lit "H740C") 1720 AXIS_COUNT (lit "2026-07-09") (lit "SEC-FABLE5-1720").

Definition identity_seed (i : BootIdentity) : bytes :=
  if zlen (device_pid i) =? 0 then seat i else device_pid i.

Definition at_index (l : bytes) (i : Z) : Z := nth (Z.to_nat i) l 0.

(** Panics (remainder by zero) when the seed is empty. *)
Definition selector_axis_u10 (identity : BootIdentity) (index : Z) : comp RenderError Z :=
  let seed := identity_seed identity in
  let n := zlen seed in
  if n =? 0 then CPanic
  else
    let a := at_index seed (index mod n) in
    let b := at_index seed (wrap 64 (wrap 64 (index * 7) + 3) mod n) in
    let c := at_index seed (wrap 64 (wrap 64 (index * 13) + 11) mod n) in
    CRet (Z.land (wrap 16 (wrap 16 (wrap 16 (wrap 16 (a * 31) + wrap 16 (b * 17)) + wrap 16 (c * 7))
                          + wrap 16 (wrap 16 index * 19))) 1023).

(** The axis loop from [i], [n] rounds left. *)
Fixpoint axis_pushes (identity : BootIdentity) (i : Z) (n : nat) : comp RenderError (list bytes) :=
  match n with
  | O => CRet []
  | S n' =>
      axis ← selector_axis_u10 identity i;
      rest ← axis_pushes identity (i + 1) n';
      mret ((if i =? 0 then [] else [lit ","]) ++ [decimal axis] ++ rest)
  end.

Definition identity_pushes (i : BootIdentity) : comp RenderError (list bytes) :=
  axes ← axis_pushes i 0 (Z.to_nat (tuple_dim i));
  mret ([lit "ASOBTID|format=hbpish|evidence=BUILD_TIME_DEVICE_CONTEXT|source=uefi|json=0";
         lit "|seat="; seat i; lit "|device_pid="; device_pid i; lit "|operator_pid="; operator_pid i;
         lit "|co_operator_pid="; co_operator_pid i; lit "|room_pid="; room_pid i; lit "|glyph="; glyph i;
         lit "|cohort="; cohort i; lit "|hilbert="; decimal (hilbert i); lit "|tuple_dim=";
         decimal (tuple_dim i); lit "|date="; date i; lit "|location="; location i; lit "|axes="] ++ axes).

Definition boot_identity_line_len (i : BootIdentity) : comp RenderError Z :=
  parts ← identity_pushes i; mret (required (push_all count_only parts)).

Definition render_boot_identity_line (i : BootIdentity) (out : bytes) :
    comp RenderError (result RenderError Z * option bytes) :=
  parts ← identity_pushes i;
  let w := push_all (with_buffer out) parts in
  mret (finish w, buffer w).

End BootIdentity.

Import LineWriter BootDiag BootIdentity.

#[local] Open Scope Z_scope.

(** ** The writer *)

Lemma digit_loop_dec f n acc : 0 < n < 10 ^ Z.of_nat f -> digit_loop f n acc = dec_aux f n acc.
Proof.
  revert n acc. induction f as [|f IH]; intros n acc Hn; [cbn in Hn; lia|].
  cbn [digit_loop dec_aux]. rewrite (proj2 (Z.eqb_neq n 0)) by lia.
  destruct (Z.ltb_spec n 10).
  - rewrite Z.div_small, Z.mod_small by lia. by destruct f.
  - apply IH. rewrite Nat2Z.inj_succ, Z.pow_succ_r in Hn by lia.
    split; [apply Z.div_str_pos; lia | apply Z.div_lt_upper_bound; lia].
Qed.

Lemma decimal_dec n : is_u 64 n -> decimal n = dec n.
Proof.
  intros [H1 H2]. unfold decimal. destruct (Z.eqb_spec n 0) as [->|]; [done|].
  apply digit_loop_dec. split; [lia|]. eapply Z.lt_trans; [done|]. by vm_compute.
Qed.

(** The state of a writer over [out] after pushing [s]. *)
Definition wrote (out s : bytes) (w : LineWriter) : Prop :=
  buffer w = Some (take (length out) s ++ drop (length s) out) /\
  required w = Z.min U64_MAX (zlen s) /\ written w = Z.min (zlen out) (zlen s).

Lemma wrote_push out s w v : wrote out s w -> wrote out (s ++ v) (push_bytes w v).
Proof.
  intros (Hb & Hr & Hw). unfold push_bytes. rewrite Hb.
  assert (Lb : zlen (take (length out) s ++ drop (length s) out) = zlen out).
  { unfold zlen. rewrite length_app, length_take, length_drop. lia. }
  rewrite Lb, Hw. pose proof (zlen_nonneg s). pose proof (zlen_nonneg v). pose proof (zlen_nonneg out).
  assert (Hq : sat_add 64 (required w) (zlen v) = Z.min U64_MAX (zlen (s ++ v))).
  { rewrite Hr, zlen_app. unfold sat_add, U64_MAX. lia. }
  unfold sat_sub. destruct (Z.eqb_spec (Z.min (Z.max 0 (zlen out - Z.min (zlen out) (zlen s))) (zlen v)) 0) as [E|E].
  - split; [|split; [done|]]; cbn [buffer written].
    + f_equal. destruct (Z.le_gt_cases (zlen out) (zlen s)) as [L|L].
      * unfold zlen in *. rewrite take_app_le by lia. f_equal. rewrite !drop_ge; rewrite ?length_app; lia || done.
      * assert (v = []) as -> by (apply zlen_zero_nil; lia). by rewrite app_nil_r.
    + rewrite zlen_app. lia.
  - assert (zlen s < zlen out) by lia.
    split; [|split; [done|]]; cbn [buffer written]; [|rewrite zlen_app; lia].
    f_equal. rewrite Z.min_r, Z.max_r by lia. unfold zlen in *.
    set (n := length s) in *. set (m := length out) in *.
    rewrite (take_ge s) by (fold n; lia). rewrite Nat2Z.id, take_app_length' by done.
    rewrite take_app, (take_ge s) by (fold n; lia). fold n. rewrite <- app_assoc. f_equal.
    replace (Z.to_nat (Z.min (Z.of_nat m - Z.of_nat n) (Z.of_nat (length v)))) with (Nat.min (m - n) (length v)) by lia.
    replace (Z.to_nat (Z.of_nat n + Z.min (Z.of_nat m - Z.of_nat n) (Z.of_nat (length v))))
      with (n + Nat.min (m - n) (length v))%nat by lia.
    rewrite drop_app_ge by (fold n; lia). rewrite drop_drop, length_app. fold n.
    replace (n + (n + _ - n))%nat with (n + Nat.min (m - n) (length v))%nat by lia.
    destruct (Nat.le_gt_cases (m - n) (length v)) as [L|L].
    + rewrite Nat.min_l by lia. f_equal. by rewrite !drop_ge by (fold m; lia).
    + rewrite Nat.min_r by lia. by rewrite !take_ge by lia.
Qed.

Lemma wrote_all out parts s w : wrote out s w -> wrote out (s ++ concat parts) (push_all w parts).
Proof.
  revert s w. induction parts as [|p parts IH]; intros s w H; cbn; [by rewrite app_nil_r|].
  rewrite app_assoc. by apply IH, wrote_push.
Qed.

Lemma count_all parts w : buffer w = None ->
  required (push_all w parts) = fold_left (fun r (p : bytes) => sat_add 64 r (zlen p)) parts (required w).
Proof.
  revert w. induction parts as [|p parts IH]; intros w H; [done|].
  change (push_all w (p :: parts)) with (push_all (push_bytes w p) parts). cbn [fold_left].
  rewrite IH; unfold push_bytes; by rewrite H.
Qed.

Lemma count_fits parts r : 0 <= r -> r + zlen (concat parts) <= U64_MAX ->
  fold_left (fun r (p : bytes) => sat_add 64 r (zlen p)) parts r = r + zlen (concat parts).
Proof.
  revert r. induction parts as [|p parts IH]; intros r Hr H; cbn [concat fold_left] in *.
  - rewrite zlen_nil. lia.
  - rewrite zlen_app in *. pose proof (zlen_nonneg p). pose proof (zlen_nonneg (concat parts)).
    replace (sat_add 64 r (zlen p)) with (r + zlen p) by (unfold sat_add, U64_MAX in *; lia).
    rewrite IH by lia. lia.
Qed.

(** What rendering the pushes [parts] into [out] gives. *)
Definition rendered (parts : list bytes) (out : bytes) : result RenderError Z * option bytes :=
  let line := concat parts in
  if zlen line <=? zlen out then (Ok (zlen line), Some (line ++ drop (length line) out))
  else (Err (BufferTooSmall (zlen line)), Some (take (length out) line)).

Lemma render_all parts out : zlen (concat parts) <= U64_MAX ->
  let w := push_all (with_buffer out) parts in
  (finish w, buffer w) = rendered parts out /\ required (push_all count_only parts) = zlen (concat parts).
Proof.
  intros Hl w. assert (W : wrote out [] (with_buffer out)).
  { split; [|split]; cbn [buffer with_buffer required written]; [|done|].
    { rewrite take_nil. done. }
    change (0 = Z.min (zlen out) 0). pose proof (zlen_nonneg out). lia. }
  apply (wrote_all _ parts) in W as (Hb & Hr & Hw). cbn [app] in *. fold w in Hb, Hr, Hw. split.
  - unfold finish, rendered. rewrite Hb, Hr, Hw. rewrite (Z.min_r U64_MAX) by lia.
    destruct (Z.leb_spec (zlen (concat parts)) (zlen out)) as [L|L].
    + rewrite Z.min_r by lia. rewrite (proj2 (Z.ltb_ge _ _)) by lia. unfold zlen in L. by rewrite take_ge by lia.
    + rewrite Z.min_l by lia. rewrite (proj2 (Z.ltb_lt _ _)) by lia. unfold zlen in L.
      rewrite drop_ge by lia. by rewrite app_nil_r.
  - rewrite count_all by done. rewrite count_fits; cbn; lia.
Qed.

(** ** The diagnostic line *)

Definition obs_wf (o : BootObservations) : Prop :=
  is_u 32 (width (framebuffer o)) /\ is_u 32 (height (framebuffer o)) /\ is_u 64 (byte_len (framebuffer o)).

Definition status_line (o : BootObservations) : bytes := concat (status_pushes o).

Lemma is_u_32_64 z : is_u 32 z -> is_u 64 z.
Proof. intros [H1 H2]. split; [done|]. eapply Z.lt_trans; [done|]. by vm_compute. Qed.

Lemma decimal_length n : is_u 64 n -> zlen (decimal n) <= 20.
Proof. intros H. rewrite decimal_dec by done. destruct (dec_spec n H) as (_ & _ & L & _). unfold zlen. lia. Qed.

Lemma dec_aux_length f n acc k : 0 <= n < 10 ^ Z.of_nat k -> (0 < k)%nat ->
  (length (dec_aux f n acc) <= k + length acc)%nat.
Proof.
  revert f n acc. induction k as [|k IH]; intros [|f] n acc Hn Hk; try lia; [cbn; lia|]. cbn [dec_aux].
  destruct (Z.ltb_spec n 10); [cbn; lia|].
  rewrite Nat2Z.inj_succ, Z.pow_succ_r in Hn by lia. destruct k as [|k]; [cbn in Hn; lia|].
  etransitivity; [apply IH; [|lia]|cbn; lia].
  split; [apply Z.div_pos; lia | apply Z.div_lt_upper_bound; lia].
Qed.

Lemma decimal_length32 n : is_u 32 n -> zlen (decimal n) <= 10.
Proof.
  intros H. rewrite decimal_dec by by apply is_u_32_64. unfold dec, zlen.
  pose proof (dec_aux_length 20 n [] 10) as L. cbn [length] in L. destruct H as [H1 H2].
  change (2 ^ 32) with 4294967296 in H2. change (10 ^ Z.of_nat 10) with 10000000000 in L. lia.
Qed.

Lemma decimal_no c n : is_u 64 n -> is_ascii_digit c = false -> c ∉ decimal n.
Proof. intros H Hc. rewrite decimal_dec by done. apply digits_no_sep; [done|]. by apply dec_spec. Qed.

Lemma decimal_inj n m : is_u 64 n -> is_u 64 m -> decimal n = decimal m -> n = m.
Proof. intros Hn Hm. rewrite !decimal_dec by done. by apply dec_inj. Qed.

Lemma concat_bound parts ns : Forall2 (fun (p : bytes) n => zlen p <= n) parts ns ->
  zlen (concat parts) <= fold_right Z.add 0 ns.
Proof. induction 1; cbn [concat fold_right]; [by rewrite zlen_nil|]. rewrite zlen_app. lia. Qed.

Lemma status_line_bound o : obs_wf o -> zlen (status_line o) <= 384.
Proof.
  intros (Hw & Hh & Hb). unfold status_line.
  etransitivity; [apply (concat_bound _ [117; 16; 6; 1; 8; 1; 4; 1; 5; 1; 4; 10; 1; 10; 1; 8; 1; 20; 8; 1; 10; 1; 4; 8; 8; 15])|by vm_compute].
  unfold status_pushes.
  repeat (apply List.Forall2_cons;
    [first [ by apply decimal_length32 | by apply decimal_length | by vm_compute
           | by destruct (classify_boot_stage o) | by destruct (pixel_format _)
           | by destruct (secure_boot o) | by destruct (loader_path o)
           | by destruct (uefi_system_table_present o) | by destruct (con_out_present o)
           | by destruct (boot_services_present o) | by destruct (gop_located o)
           | by destruct (base_present _) | by destruct (layout_verified _) ]|]).
  apply List.Forall2_nil.
Qed.

Lemma field_step s c t a a' r r' :
  lit s = c :: t -> c ∉ a -> c ∉ a' -> a ++ lit s ++ r = a' ++ lit s ++ r' -> a = a' /\ r = r'.
Proof.
  intros -> Ha Ha' E. cbn [app] in E. apply split_first_unique in E as [-> E]; [|done|done].
  by apply app_inv_head in E.
Qed.

Lemma stage_wire_no c s : bool_decide (c = 124) = true -> c ∉ stage_wire s.
Proof. intros ->%bool_decide_eq_true. apply (bool_decide_unpack _). by destruct s. Qed.

Lemma secure_boot_no s : 124 ∉ secure_boot_wire s.
Proof. apply (bool_decide_unpack _). by destruct s. Qed.

Lemma pixel_wire_no p : 47 ∉ pixel_wire p.
Proof. apply (bool_decide_unpack _). by destruct p. Qed.

Lemma bool_digit_no b : 124 ∉ bool_digit b.
Proof. apply (bool_decide_unpack _). by destruct b. Qed.

Lemma bool_digit_inj a b : bool_digit a = bool_digit b -> a = b.
Proof. by destruct a, b. Qed.

Ltac peel E :=
  eapply field_step in E; [|reflexivity|..];
  [let F := fresh "F" in destruct E as [F E]
  | by first [apply stage_wire_no | apply bool_digit_no | apply secure_boot_no | apply pixel_wire_no
             | apply decimal_no; first [done | by apply is_u_32_64]]..].

Lemma status_line_inj a b : obs_wf a -> obs_wf b -> status_line a = status_line b -> a = b.
Proof.
  intros (Wa & Ha & Ba) (Wb & Hb & Bb) E. unfold status_line, status_pushes in E. cbn [concat] in E.
  apply app_inv_head in E. do 12 peel E. rewrite !app_nil_r in E.
  destruct a as [u c bs g [w h p l bp lv] sb lp], b as [u' c' bs' g' [w' h' p' l' bp' lv'] sb' lp'].
  cbn [uefi_system_table_present con_out_present boot_services_present gop_located framebuffer width height
       pixel_format byte_len base_present layout_verified secure_boot loader_path] in *.
  repeat match goal with
  | F : bool_digit _ = bool_digit _ |- _ => apply bool_digit_inj in F
  | F : decimal _ = decimal _ |- _ => apply decimal_inj in F; [|first [done | by apply is_u_32_64]..]
  end.
  subst. assert (p = p') as -> by by destruct p, p'. assert (sb = sb') as -> by by destruct sb, sb'.
  assert (lp = lp') as -> by by destruct lp, lp'. done.
Qed.

(** ** The identity line *)

Lemma selector_axis_range i k z : selector_axis_u10 i k = CRet z -> 0 <= z <= 1023.
Proof.
  unfold selector_axis_u10. destruct (_ =? 0); [done|]. intros [= <-].
  change 1023 with (Z.ones 10). rewrite Z.land_ones by lia.
  match goal with |- 0 <= ?x mod _ <= _ => pose proof (Z.mod_pos_bound x (2 ^ 10) eq_refl) end.
  change (2 ^ 10) with 1024 in *. change (Z.ones 10) with 1023. lia.
Qed.

(** The axes joined by commas, the first one at index [i]. *)
Fixpoint join_axes (i : Z) (axes : list Z) : list bytes :=
  match axes with
  | [] => []
  | x :: axes' => (if i =? 0 then [] else [lit ","]) ++ [decimal x] ++ join_axes (i + 1) axes'
  end.

Lemma axis_pushes_spec ident i n : identity_seed ident <> [] ->
  exists axes, axis_pushes ident i n = CRet (join_axes i axes) /\ length axes = n /\
    forall k, (k < n)%nat -> exists z,
      axes !! k = Some z /\ selector_axis_u10 ident (i + Z.of_nat k) = CRet z /\ 0 <= z <= 1023.
Proof.
  intros Hs. revert i. induction n as [|n IH]; intros i.
  { exists []. split_and!; [done..|]. intros k Hk. lia. }
  cbn [axis_pushes]. destruct (selector_axis_u10 ident i) as [x|e|] eqn:Ex.
  - destruct (IH (i + 1)) as (axes & -> & L & K). exists (x :: axes). cbn [mbind comp_bind length].
    split_and!; [done | by rewrite L |]. intros [|k] Hk.
    + rewrite Z.add_0_r. exists x. split_and!; [done | done | by eapply selector_axis_range..].
    + destruct (K k) as (z & ? & Ez & ?); [lia|]. exists z. split; [done|]. split; [|done].
      rewrite <- Ez. f_equal. lia.
  - unfold selector_axis_u10 in Ex. by destruct (_ =? 0).
  - unfold selector_axis_u10 in Ex. destruct (Z.eqb_spec (zlen (identity_seed ident)) 0) as [E|]; [|done].
    by apply zlen_zero_nil in E.
Qed.

Lemma render_status_line_eq o out : obs_wf o -> render_status_line o out = rendered (status_pushes o) out.
Proof.
  intros W%status_line_bound. apply (render_all (status_pushes o) out). unfold status_line, U64_MAX in *. lia.
Qed.

(** ** Theorems *)

(** C35. The diagnostic line: counting and rendering agree; a buffer that holds
    the line gets exactly it and keeps its tail, a shorter one gets the
    prefix that fits and the error carries the full length; the line never
    exceeds the 384 bytes of the boot
    program's buffer; and it determines every observation. *)
Theorem status_line_exact o out :
  obs_wf o ->
  status_line_len o = zlen (status_line o) /\ zlen (status_line o) <= 384 /\
  render_status_line o out = rendered (status_pushes o) out /\
  (forall o', obs_wf o' -> status_line o' = status_line o -> o' = o).
Proof.
  intros W. pose proof (status_line_bound o W) as B. split_and!; [|done | by apply render_status_line_eq |].
  - apply (render_all (status_pushes o) out). unfold status_line, U64_MAX in *. lia.
  - intros o' W' E. by apply status_line_inj.
Qed.

(** The boot stage: ready for metal exactly with a UEFI table, a located
    GOP, a complete direct framebuffer, the firmware path and Secure Boot
    disabled; the framebuffer stages are exactly those with a direct
    framebuffer, guarded when chainloaded or when Secure Boot is on. *)
Theorem boot_stage_spec o :
  let direct := uefi_system_table_present o = true /\ has_direct_framebuffer o = true in
  (classify_boot_stage o = MetalReady <-> direct /\ loader_path o = FirmwareEfi /\ secure_boot o = SbDisabled) /\
  (classify_boot_stage o = MetalCandidate <-> direct /\ loader_path o = FirmwareEfi /\ secure_boot o = SbUnknown) /\
  (classify_boot_stage o = PolicyGuarded <->
     direct /\ (loader_path o = WindowsBootManager \/ secure_boot o = SbEnabled)) /\
  (classify_boot_stage o = Framebuffer <-> direct /\ loader_path o = LoaderUnknown /\ secure_boot o <> SbEnabled) /\
  (classify_boot_stage o = NoUefi <-> uefi_system_table_present o = false) /\
  (classify_boot_stage o = GraphicsOutput <->
     uefi_system_table_present o = true /\ gop_located o = true /\ is_direct_complete (framebuffer o) = false).
Proof.
  unfold classify_boot_stage, has_direct_framebuffer. cbv zeta.
  destruct (uefi_system_table_present o), (gop_located o), (is_direct_complete (framebuffer o)),
    (loader_path o), (secure_boot o), (boot_services_present o), (con_out_present o); cbn;
    intuition congruence.
Qed.

(** The identity line: with a non-empty seed it is the fixed fields and
    exactly [tuple_dim] selector axes of ten bits each, rendered under the
    same buffer contract; with an empty seed and at least one axis the
    remainder by zero panics, and the shipped identity does not. *)
Theorem identity_line_exact i out :
  (identity_seed i = [] -> 0 < tuple_dim i ->
     render_boot_identity_line i out = CPanic /\ boot_identity_line_len i = CPanic) /\
  (identity_seed i <> [] -> 0 <= tuple_dim i ->
     exists axes parts, identity_pushes i = CRet (parts ++ join_axes 0 axes) /\
       zlen axes = tuple_dim i /\ Forall (fun z => 0 <= z <= 1023) axes /\
       (zlen (concat (parts ++ join_axes 0 axes)) <= U64_MAX ->
          boot_identity_line_len i = CRet (zlen (concat (parts ++ join_axes 0 axes))) /\
          render_boot_identity_line i out = CRet (rendered (parts ++ join_axes 0 axes) out))) /\
  identity_seed ACER_FABLE5_BOOT_IDENTITY <> [].
Proof.
  split_and!; [| |done].
  - intros Hs Hd. unfold render_boot_identity_line, boot_identity_line_len, identity_pushes.
    destruct (Z.to_nat (tuple_dim i)) as [|n] eqn:En; [lia|]. cbn [axis_pushes].
    unfold selector_axis_u10. rewrite Hs. done.
  - intros Hs Hd. destruct (axis_pushes_spec i 0 (Z.to_nat (tuple_dim i)) Hs) as (axes & E & L & K).
    unfold render_boot_identity_line, boot_identity_line_len, identity_pushes. rewrite E. cbn [mbind comp_bind mret comp_ret].
    eexists axes, _. split; [reflexivity|]. split; [unfold zlen; lia|]. split.
    + apply Forall_lookup. intros k x Hx. destruct (K k) as (z & Hz & _ & ?); [|congruence].
      rewrite <- L. by eapply lookup_lt_Some.
    + intros Hl. destruct (render_all _ out Hl) as [R C]. cbv zeta in R. by rewrite R, C.
Qed.

(** ** The theorems at concrete inputs *)

Lemma status_line_exact_witness :
  status_line_len EMPTY = zlen (status_line EMPTY) /\
  render_status_line EMPTY (lit "short") = (Err (BufferTooSmall (zlen (status_line EMPTY))), Some (lit "ASOBT")).
Proof.
  destruct (status_line_exact EMPTY (lit "short")) as (L & _ & R & _).
  - split_and!; unfold is_u; cbn; lia.
  - split; [exact L|]. rewrite R. reflexivity.
Defined.
