(* ===== verification/BootWriters.v ===== *)
(** * The two line writers ([kernel/core/src/boot_diag.rs], [boot_identity.rs])

    Both files define a writer of their own and render through its methods.
    This file follows them method by method, digit buffers included, and
    shows that they are the writer of [BootLines.v]: no number overruns its
    digit buffer, and both lines come out as modelled there. *)

From S2P Require Import Prelude BootLines.

Import LineWriter.

#[local] Open Scope Z_scope.

(** ** [boot_diag]: [StatusLineWriter] and the [Decimal] trait *)

Module StatusLineWriter.

Record u32 := U32 { u32_value : Z }.
Record usize := Usize { usize_value : Z }.

Class Decimal (T : Type) := {
  is_zero : T -> bool;
  rem_10 : T -> Z;
  div_10 : T -> T
}.

#[export] Instance decimal_u32 : Decimal u32 := {|
  is_zero n := u32_value n =? 0;
  rem_10 n := wrap8 (u32_value n mod 10);
  div_10 n := U32 (u32_value n / 10)
|}.

#[export] Instance decimal_usize : Decimal usize := {|
  is_zero n := usize_value n =? 0;
  rem_10 n := wrap8 (usize_value n mod 10);
  div_10 n := Usize (usize_value n / 10)
|}.

(** The loop of [push_decimal]: the digit buffer is filled from its end; a
    cursor that passes its start is a panic. [fuel] bounds the rounds. *)
Fixpoint fill {T} `{Decimal T} (fuel : nat) (n : T) (digits : bytes) (cursor : nat) : comp unit bytes :=
  match fuel with
  | O => CPanic
  | S f =>
      if is_zero n then CRet (drop cursor digits)
      else match cursor with
           | O => CPanic
           | S c => fill f (div_10 n) (<[c := 48 + rem_10 n]> digits) c
           end
  end.

Definition push_byte (w : LineWriter) (value : Z) : LineWriter := push_bytes w [value].

Definition push_bool (w : LineWriter) (value : bool) : LineWriter := push_byte w (if value then 49 else 48).

(** What [push_decimal] pushes, from a digit buffer of [size] bytes. *)
Definition digits_of {T} `{Decimal T} (size : nat) (value : T) : comp unit bytes :=
  if is_zero value then CRet [48] else fill (S size) value (replicate size 0) size.

Definition push_decimal {T} `{Decimal T} (w : LineWriter) (value : T) : comp unit LineWriter :=
  ds ← digits_of 39 value; CRet (push_bytes w ds).

(** The calls of [render_status_line_inner]. *)
Inductive push := PStr (s : bytes) | PByte (b : Z) | PBool (v : bool) | PU32 (n : Z) | PUsize (n : Z).

Definition apply (w : LineWriter) (p : push) : comp unit LineWriter :=
  match p with
  | PStr s => CRet (push_bytes w s)
  | PByte x => CRet (push_byte w x)
  | PBool v => CRet (push_bool w v)
  | PU32 n => push_decimal w (U32 n)
  | PUsize n => push_decimal w (Usize n)
  end.

Fixpoint run (w : LineWriter) (ps : list push) : comp unit LineWriter :=
  match ps with
  | [] => CRet w
  | p :: ps' => w ← apply w p; run w ps'
  end.

Definition render_status_line_inner (o : BootDiag.BootObservations) : list push :=
  let f := BootDiag.framebuffer o in
  [PStr (lit "ASOBTDIAG|format=hbpish|evidence=MEASURED_BOOT|source=uefi|seat=unknown|receipt=unsealed|tuple=boot:diag:early|stage=");
   PStr (BootDiag.stage_wire (BootDiag.classify_boot_stage o));
   PStr (lit "|uefi="); PBool (BootDiag.uefi_system_table_present o);
   PStr (lit "|conout="); PBool (BootDiag.con_out_present o);
   PStr (lit "|bs="); PBool (BootDiag.boot_services_present o);
   PStr (lit "|gop="); PBool (BootDiag.gop_located o);
   PStr (lit "|fb="); PU32 (BootDiag.width f); PByte 120; PU32 (BootDiag.height f); PByte 47;
   PStr (BootDiag.pixel_wire (BootDiag.pixel_format f)); PByte 47; PUsize (BootDiag.byte_len f);
   PStr (lit "|fbbase="); PBool (BootDiag.base_present f);
   PStr (lit "|fblayout="); PBool (BootDiag.layout_verified f);
   PStr (lit "|sb="); PStr (BootDiag.secure_boot_wire (BootDiag.secure_boot o));
   PStr (lit "|loader="); PStr (BootDiag.loader_wire (BootDiag.loader_path o))].

Definition render_status_line (o : BootDiag.BootObservations) (out : bytes) :
    comp unit (result RenderError Z * option bytes) :=
  w ← run (with_buffer out) (render_status_line_inner o); CRet (finish w, buffer w).

End StatusLineWriter.

Import StatusLineWriter.

(** ** The digit buffer *)

(** What the trait promises of a number with the value [value n]. *)
Class DecimalLaws (T : Type) `{Decimal T} := {
  value : T -> Z;
  is_zero_value : forall n, is_zero n = (value n =? 0);
  rem_10_value : forall n, rem_10 n = value n mod 10;
  div_10_value : forall n, value (div_10 n) = value n / 10
}.

Lemma wrap8_digit z : wrap8 (z mod 10) = z mod 10.
Proof. apply wrap_id. pose proof (Z.mod_pos_bound z 10). unfold is_u. lia. Qed.

#[export] Instance u32_laws : DecimalLaws u32.
Proof. by refine {| value := u32_value |}; intros []; cbn; rewrite ?wrap8_digit. Defined.

#[export] Instance usize_laws : DecimalLaws usize.
Proof. by refine {| value := usize_value |}; intros []; cbn; rewrite ?wrap8_digit. Defined.

Section Digits.
Context {T : Type} `{DecimalLaws T}.

(** Filling from cursor [c] leaves what the digit loop of [BootLines.v]
    makes, in front of what is already there. *)
Lemma fill_digits f n digits c :
  (c < f)%nat -> (c <= length digits)%nat -> 0 <= value n < 10 ^ Z.of_nat c ->
  fill f n digits c = CRet (digit_loop c (value n) (drop c digits)).
Proof.
  revert n digits c. induction f as [|f IH]; intros n digits c Hf Hc Hn; [lia|].
  cbn [fill]. rewrite is_zero_value. destruct c as [|c].
  { assert (value n = 0) as -> by lia. done. }
  cbn [digit_loop]. destruct (value n =? 0); [done|].
  rewrite Nat2Z.inj_succ, Z.pow_succ_r in Hn by lia.
  rewrite IH; [|lia|rewrite length_insert; lia|].
  - rewrite div_10_value, rem_10_value, drop_insert_ge, Nat.sub_diag by lia.
    destruct (lookup_lt_is_Some_2 digits c) as [x Hx]; [lia|].
    by rewrite (drop_S _ _ _ Hx).
  - rewrite div_10_value. split; [apply Z.div_pos; lia | apply Z.div_lt_upper_bound; lia].
Qed.

Lemma digit_loop_fuel f g k acc : 0 <= k < 10 ^ Z.of_nat f -> (f <= g)%nat ->
  digit_loop g k acc = digit_loop f k acc.
Proof.
  revert g k acc. induction f as [|f IH]; intros g k acc Hk Hg.
  { assert (k = 0) as -> by lia. by destruct g. }
  destruct g as [|g]; [lia|]. cbn [digit_loop]. destruct (k =? 0); [done|].
  rewrite Nat2Z.inj_succ, Z.pow_succ_r in Hk by lia.
  apply IH; [|lia]. split; [apply Z.div_pos; lia | apply Z.div_lt_upper_bound; lia].
Qed.

(** A buffer with room for the number holds exactly its decimal. *)
Lemma digits_of_decimal size n : (20 <= size)%nat -> is_u 64 (value n) ->
  digits_of size n = CRet (decimal (value n)).
Proof.
  intros Hs [H1 H2]. unfold digits_of, decimal. rewrite is_zero_value.
  destruct (Z.eqb_spec (value n) 0) as [E|E]; [done|].
  assert (value n < 10 ^ Z.of_nat size).
  { eapply Z.lt_le_trans; [|apply (Z.pow_le_mono_r 10 20); lia]. eapply Z.lt_trans; [exact H2|]. by vm_compute. }
  assert (value n < 10 ^ Z.of_nat 20) by (eapply Z.lt_trans; [exact H2|]; by vm_compute).
  rewrite fill_digits by (rewrite ?length_replicate; lia). f_equal.
  rewrite drop_ge by (rewrite length_replicate; lia). by apply digit_loop_fuel.
Qed.

End Digits.

(** ** The status line *)

(** The bytes of a call and the range of its number. *)
Definition pushed (p : push) : bytes :=
  match p with
  | PStr s => s | PByte x => [x] | PBool v => bool_digit v | PU32 n | PUsize n => decimal n
  end.

Definition push_ok (p : push) : Prop := match p with PU32 n | PUsize n => is_u 64 n | _ => True end.

Lemma apply_push w p : push_ok p -> apply w p = CRet (push_bytes w (pushed p)).
Proof.
  destruct p as [s|x|[]|n|n]; cbn [apply pushed push_ok]; try done.
  all: intros Hn; unfold push_decimal; rewrite digits_of_decimal by (cbn; lia || done); done.
Qed.

Lemma run_pushes w ps : Forall push_ok ps -> run w ps = CRet (push_all w (map pushed ps)).
Proof.
  intros H. revert w. induction H as [|p ps Hp _ IH]; intros w; [done|].
  cbn [run]. rewrite apply_push by done. cbn [mbind comp_bind map]. by rewrite IH.
Qed.

(** The writer of [boot_diag] never panics, and renders what
    [BootDiag.render_status_line] says. *)
Lemma status_writer_agrees o out : obs_wf o ->
  StatusLineWriter.render_status_line o out = CRet (BootDiag.render_status_line o out).
Proof.
  intros (Hw & Hh & Hb). unfold StatusLineWriter.render_status_line.
  rewrite run_pushes; [done|].
  unfold render_status_line_inner. repeat apply Forall_cons_2; try exact I; try apply Forall_nil_2.
  all: cbn [push_ok]; auto using is_u_32_64.
Qed.

(** ** [boot_identity]: [IdentityLineWriter] *)

Module IdentityLineWriter.

Record IdentityLineWriter := mkIdentityWriter { id_buffer : option bytes; id_required : Z; id_written : Z }.

Definition count_only : IdentityLineWriter := mkIdentityWriter None 0 0.
Definition with_buffer (out : bytes) : IdentityLineWriter := mkIdentityWriter (Some out) 0 0.
Definition required_len (w : IdentityLineWriter) : Z := id_required w.

Inductive RenderError := BufferTooSmall (required_len : Z).

Definition finish (w : IdentityLineWriter) : result RenderError Z :=
  if id_required w >? id_written w then Err (BufferTooSmall (id_required w)) else Ok (id_required w).

Definition min_usize (left_ right_ : Z) : Z := if left_ <? right_ then left_ else right_.

(** [buffer[a..a + n].copy_from_slice(s)], the ranges fitting. *)
Definition copy_at (buf : bytes) (a : Z) (s : bytes) : bytes :=
  take (Z.to_nat a) buf ++ s ++ drop (Z.to_nat (a + zlen s)) buf.

Definition push_bytes (w : IdentityLineWriter) (value : bytes) : IdentityLineWriter :=
  let required := sat_add 64 (id_required w) (zlen value) in
  match id_buffer w with
  | Some buffer =>
      let available := sat_sub (zlen buffer) (id_written w) in
      let to_copy := min_usize available (zlen value) in
      if negb (to_copy =? 0) then
        mkIdentityWriter (Some (copy_at buffer (id_written w) (take (Z.to_nat to_copy) value))) required
          (id_written w + to_copy)
      else mkIdentityWriter (Some buffer) required (id_written w)
  | None => mkIdentityWriter None required (id_written w)
  end.

Definition push_str (w : IdentityLineWriter) (value : bytes) : IdentityLineWriter := push_bytes w value.
Definition push_byte (w : IdentityLineWriter) (value : Z) : IdentityLineWriter := push_bytes w [value].

(** A twenty-byte digit buffer. *)
Definition push_decimal (w : IdentityLineWriter) (value : Z) : comp unit IdentityLineWriter :=
  if value =? 0 then CRet (push_byte w 48)
  else
    ds ← fill 21 (Usize value) (replicate 20 0) 20;
    CRet (push_bytes w ds).

Definition push_u16 (w : IdentityLineWriter) (value : Z) : comp unit IdentityLineWriter := push_decimal w value.
Definition push_u32 (w : IdentityLineWriter) (value : Z) : comp unit IdentityLineWriter := push_decimal w value.
Definition push_usize (w : IdentityLineWriter) (value : Z) : comp unit IdentityLineWriter := push_decimal w value.

(** An empty seed makes [selector_axis_u10] panic. *)
Definition axis (i : BootIdentity.BootIdentity) (index : Z) : comp unit Z :=
  match BootIdentity.selector_axis_u10 i index with CRet a => CRet a | _ => CPanic end.

(** The axis loop from [i], [n] rounds left. *)
Fixpoint push_axes (w : IdentityLineWriter) (identity : BootIdentity.BootIdentity) (i : Z) (n : nat) :
    comp unit IdentityLineWriter :=
  match n with
  | O => CRet w
  | S n' =>
      let w := if negb (i =? 0) then push_byte w 44 else w in
      a ← axis identity i;
      w ← push_u16 w a;
      push_axes w identity (i + 1) n'
  end.

(** The texts in front of the first number and behind the second. *)
Definition head_texts (i : BootIdentity.BootIdentity) : list bytes :=
  [lit "ASOBTID|format=hbpish|evidence=BUILD_TIME_DEVICE_CONTEXT|source=uefi|json=0";
   lit "|seat="; BootIdentity.seat i; lit "|device_pid="; BootIdentity.device_pid i;
   lit "|operator_pid="; BootIdentity.operator_pid i; lit "|co_operator_pid="; BootIdentity.co_operator_pid i;
   lit "|room_pid="; BootIdentity.room_pid i; lit "|glyph="; BootIdentity.glyph i;
   lit "|cohort="; BootIdentity.cohort i; lit "|hilbert="].

Definition tail_texts (i : BootIdentity.BootIdentity) : list bytes :=
  [lit "|date="; BootIdentity.date i; lit "|location="; BootIdentity.location i; lit "|axes="].

Definition render_boot_identity_line_inner (i : BootIdentity.BootIdentity) (w : IdentityLineWriter) :
    comp unit IdentityLineWriter :=
  w ← push_u32 (fold_left push_str (head_texts i) w) (BootIdentity.hilbert i);
  w ← push_usize (push_str w (lit "|tuple_dim=")) (BootIdentity.tuple_dim i);
  push_axes (fold_left push_str (tail_texts i) w) i 0 (Z.to_nat (BootIdentity.tuple_dim i)).

Definition boot_identity_line_len (i : BootIdentity.BootIdentity) : comp unit Z :=
  w ← render_boot_identity_line_inner i count_only; CRet (required_len w).

Definition render_boot_identity_line (i : BootIdentity.BootIdentity) (out : bytes) :
    comp unit (result RenderError Z * option bytes) :=
  w ← render_boot_identity_line_inner i (with_buffer out); CRet (finish w, id_buffer w).

End IdentityLineWriter.

Import IdentityLineWriter.

(** *** The same writer *)

Definition as_writer (w : IdentityLineWriter) : LineWriter := mkWriter (id_buffer w) (id_required w) (id_written w).

Lemma as_writer_inj w w' : as_writer w = as_writer w' -> w = w'.
Proof. destruct w, w'. unfold as_writer. by intros [= <- <- <-]. Qed.

Lemma as_push_bytes w v : id_written w <= zlen (default [] (id_buffer w)) ->
  as_writer (IdentityLineWriter.push_bytes w v) = LineWriter.push_bytes (as_writer w) v.
Proof.
  unfold IdentityLineWriter.push_bytes, LineWriter.push_bytes, as_writer.
  destruct w as [[buf|] req wr]; cbn [id_buffer id_required id_written buffer required written default from_option id]; [|done].
  intros Hw. assert (M : min_usize (sat_sub (zlen buf) wr) (zlen v) = Z.min (sat_sub (zlen buf) wr) (zlen v)).
  { unfold min_usize. destruct (Z.ltb_spec (sat_sub (zlen buf) wr) (zlen v)); lia. }
  rewrite M. destruct (Z.eqb_spec (Z.min (sat_sub (zlen buf) wr) (zlen v)) 0) as [E|E]; cbn [negb]; [done|].
  cbn [id_buffer id_required id_written]. unfold copy_at. do 4 f_equal.
  assert (zlen (take (Z.to_nat (Z.min (sat_sub (zlen buf) wr) (zlen v))) v) = Z.min (sat_sub (zlen buf) wr) (zlen v)) as ->;
    [|done].
  pose proof (zlen_nonneg v). unfold sat_sub in *. unfold zlen in *. rewrite length_take. lia.
Qed.

Definition writer_ok (w : IdentityLineWriter) : Prop := 0 <= id_written w <= zlen (default [] (id_buffer w)).

Lemma push_bytes_ok w v : writer_ok w -> writer_ok (IdentityLineWriter.push_bytes w v).
Proof.
  unfold writer_ok, IdentityLineWriter.push_bytes.
  destruct w as [[buf|] req wr]; cbn [id_buffer id_written default from_option id]; [|done].
  intros Hw. pose proof (zlen_nonneg v).
  assert (0 <= min_usize (sat_sub (zlen buf) wr) (zlen v) <= sat_sub (zlen buf) wr).
  { unfold min_usize, sat_sub. destruct (Z.ltb_spec (Z.max 0 (zlen buf - wr)) (zlen v)); lia. }
  destruct (negb _); cbn [id_buffer id_written default from_option id]; [|done].
  unfold sat_sub in *. split; [lia|]. unfold copy_at, zlen in *. rewrite !length_app, !length_take, length_drop. lia.
Qed.

Lemma push_all_app lw a c : push_all lw (a ++ c) = push_all (push_all lw a) c.
Proof. apply fold_left_app. Qed.

Lemma push_all_one lw a : push_all lw [a] = LineWriter.push_bytes lw a.
Proof. done. Qed.

(** The two writers after the same pushes. *)
Definition simulates (w : IdentityLineWriter) (lw : LineWriter) : Prop := writer_ok w /\ as_writer w = lw.

Lemma simulates_push w lw v : simulates w lw -> simulates (IdentityLineWriter.push_bytes w v) (LineWriter.push_bytes lw v).
Proof. intros [H <-]. split; [by apply push_bytes_ok|]. apply as_push_bytes, H. Qed.

Lemma simulates_all w lw vs : simulates w lw -> simulates (fold_left push_str vs w) (push_all lw vs).
Proof. revert w lw. induction vs as [|v vs IH]; intros w lw H; [done|]. cbn [fold_left]. apply IH. by apply simulates_push. Qed.

Lemma simulates_decimal w lw n : simulates w lw -> is_u 64 n ->
  exists w', IdentityLineWriter.push_decimal w n = CRet w' /\ simulates w' (LineWriter.push_bytes lw (decimal n)).
Proof.
  intros H Hn. unfold IdentityLineWriter.push_decimal.
  pose proof (digits_of_decimal 20 (Usize n) (le_n 20) Hn) as E. unfold digits_of in E.
  cbn [is_zero decimal_usize usize_value value usize_laws] in E.
  destruct (n =? 0).
  - eexists. split; [done|]. injection E as <-. by apply simulates_push.
  - rewrite E. eexists. split; [done|]. by apply simulates_push.
Qed.

Lemma simulates_axes i k n w lw : simulates w lw -> 0 <= k ->
  match BootIdentity.axis_pushes i k n with
  | CRet parts => exists w', push_axes w i k n = CRet w' /\ simulates w' (push_all lw parts)
  | _ => push_axes w i k n = CPanic
  end.
Proof.
  revert k w lw. induction n as [|n IH]; intros k w lw H Hk; cbn [BootIdentity.axis_pushes push_axes].
  { by exists w. }
  unfold axis. destruct (BootIdentity.selector_axis_u10 i k) as [a|e|] eqn:Ea; cbn [mbind comp_bind]; [|done..].
  set (pre := if k =? 0 then [] else [lit ","]).
  assert (H1 : simulates (if negb (k =? 0) then push_byte w 44 else w) (push_all lw pre)).
  { unfold pre. destruct (k =? 0); [done|]. by apply simulates_push. }
  assert (Ha : is_u 64 a) by (apply selector_axis_range in Ea; unfold is_u; lia).
  destruct (simulates_decimal _ _ a H1 Ha) as (w' & E & H2). unfold push_u16. rewrite E. cbn [mbind comp_bind].
  specialize (IH (k + 1) w' _ H2 ltac:(lia)).
  destruct (BootIdentity.axis_pushes i (k + 1) n) as [rest|e|]; cbn [mbind comp_bind mret comp_ret]; [|done..].
  destruct IH as (w'' & E' & H3). exists w''. split; [done|].
  by rewrite !push_all_app.
Qed.

Lemma identity_pushes_parts i : BootIdentity.identity_pushes i =
  (axes ← BootIdentity.axis_pushes i 0 (Z.to_nat (BootIdentity.tuple_dim i));
   mret (head_texts i ++ [decimal (BootIdentity.hilbert i)] ++ [lit "|tuple_dim="] ++
         [decimal (BootIdentity.tuple_dim i)] ++ tail_texts i ++ axes)).
Proof. unfold head_texts, tail_texts. cbn [app]. reflexivity. Qed.

Lemma simulates_inner i w lw : simulates w lw -> is_u 64 (BootIdentity.hilbert i) -> is_u 64 (BootIdentity.tuple_dim i) ->
  match BootIdentity.identity_pushes i with
  | CRet parts => exists w', render_boot_identity_line_inner i w = CRet w' /\ simulates w' (push_all lw parts)
  | _ => render_boot_identity_line_inner i w = CPanic
  end.
Proof.
  intros H Hh Ht. rewrite identity_pushes_parts. unfold render_boot_identity_line_inner, push_u32, push_usize.
  destruct (simulates_decimal _ _ _ (simulates_all w lw (head_texts i) H) Hh) as (w1 & E1 & H1).
  rewrite E1. cbn [mbind comp_bind].
  destruct (simulates_decimal _ _ _ (simulates_push _ _ (lit "|tuple_dim=") H1) Ht) as (w2 & E2 & H2).
  change (push_str w1 (lit "|tuple_dim=")) with (IdentityLineWriter.push_bytes w1 (lit "|tuple_dim=")). rewrite E2. cbn [mbind comp_bind].
  pose proof (simulates_axes i 0 (Z.to_nat (BootIdentity.tuple_dim i)) _ _ (simulates_all _ _ (tail_texts i) H2) ltac:(lia)) as H3.
  destruct (BootIdentity.axis_pushes i 0 _) as [axes|e|]; cbn [mbind comp_bind mret comp_ret]; [|done..].
  destruct H3 as (w' & E3 & H3). exists w'. split; [exact E3|].
  by rewrite !push_all_app, !push_all_one.
Qed.

Definition id_error (r : result LineWriter.RenderError Z) : result RenderError Z :=
  match r with Ok n => Ok n | Err (LineWriter.BufferTooSmall n) => Err (BufferTooSmall n) end.

(** The writer of [boot_identity] overruns no digit buffer, and its line,
    its length and its panics are those of [BootIdentity]. *)
Lemma identity_writer_agrees i out :
  is_u 64 (BootIdentity.hilbert i) -> is_u 64 (BootIdentity.tuple_dim i) ->
  IdentityLineWriter.render_boot_identity_line i out =
    match BootIdentity.render_boot_identity_line i out with
    | CRet (r, b) => CRet (id_error r, b) | _ => CPanic
    end /\
  IdentityLineWriter.boot_identity_line_len i =
    match BootIdentity.boot_identity_line_len i with CRet n => CRet n | _ => CPanic end.
Proof.
  intros Hh Ht. unfold IdentityLineWriter.render_boot_identity_line, IdentityLineWriter.boot_identity_line_len.
  unfold BootIdentity.render_boot_identity_line, BootIdentity.boot_identity_line_len.
  assert (S1 : simulates (with_buffer out) (LineWriter.with_buffer out)).
  { split; [|done]. unfold writer_ok. cbn. pose proof (zlen_nonneg out). lia. }
  assert (S2 : simulates count_only LineWriter.count_only) by (by split).
  pose proof (simulates_inner i _ _ S1 Hh Ht) as R1. pose proof (simulates_inner i _ _ S2 Hh Ht) as R2.
  destruct (BootIdentity.identity_pushes i) as [parts|e|]; [|by rewrite R1, R2..].
  destruct R1 as (w1 & -> & _ & E1), R2 as (w2 & -> & _ & E2). cbn [mbind comp_bind mret comp_ret].
  rewrite <- E1, <- E2. split; [|done]. f_equal. f_equal.
  unfold finish, LineWriter.finish, as_writer. cbn [required written]. rewrite Z.gtb_ltb. by destruct (_ <? _).
Qed.

(** Twenty digits are needed: [usize::MAX] fills the buffer. *)
Example digit_buffer_tight :
  digits_of 20 (Usize U64_MAX) = CRet (lit "18446744073709551615") /\ digits_of 19 (Usize U64_MAX) = CPanic.
Proof. by vm_compute. Qed.
