(* ===== verification/BumpAlloc.v ===== *)
(** * The boot heap ([kernel/boot/src/main.rs], [BumpAllocator])

    The global allocator of the boot program: a 16 KiB bump heap whose
    watermark is advanced by a weak compare-and-swap loop.  [alloc] is a
    function and a thread; the weak exchange may fail spuriously. *)

From S2P Require Import Prelude Interleave.

Module BumpAlloc.

#[local] Open Scope Z_scope.

Definition HEAP_SIZE : Z := 16 * 1024.

Record BumpAllocator := mkHeap { heap_start : Z; heap_end : Z; next : Z }.

Definition new : BumpAllocator := mkHeap 0 0 0.

Definition init (h : BumpAllocator) (start size : Z) : BumpAllocator :=
  mkHeap start (wrap 64 (start + size)) start.

Record Layout := mkLayout { size : Z; align : Z }.

(** [(current + align - 1) & !(align - 1)] *)
Definition aligned (current align : Z) : Z :=
  Z.land (wrap 64 (wrap 64 (current + align) - 1)) (Z.lxor (wrap 64 (align - 1)) U64_MAX).

Definition new_next (current : Z) (l : Layout) : Z := wrap 64 (aligned current (align l) + size l).

(** [alloc] run without interference; [None] is the null pointer. *)
Definition alloc (h : BumpAllocator) (l : Layout) : option Z * BumpAllocator :=
  if heap_end h <? new_next (next h) l then (None, h)
  else (Some (aligned (next h) (align l)), mkHeap (heap_start h) (heap_end h) (new_next (next h) l)).

Definition dealloc (h : BumpAllocator) (ptr : Z) (l : Layout) : BumpAllocator := h.

(** *** [alloc] as a thread

    [spurious] decides, attempt by attempt, whether the weak exchange fails
    although the watermark still has the expected value. *)

Inductive thread :=
| AStart (l : Layout) (spurious : list bool)
| ALoad (l : Layout) (spurious : list bool) (heap_end : Z)
| ALoop (l : Layout) (spurious : list bool) (heap_end current : Z)
| ADone (r : option Z).

Record block := Block { b_ptr : Z; b_layout : Layout }.

Definition tstep (h : BumpAllocator) (t : thread) : option (BumpAllocator * thread * list block) :=
  match t with
  | AStart l sp => Some (h, ALoad l sp (heap_end h), [])
  | ALoad l sp e => Some (h, ALoop l sp e (next h), [])
  | ALoop l sp e current =>
      if e <? new_next current l then Some (h, ADone None, [])
      else if (next h =? current) && negb (hd false sp)
      then Some (mkHeap (heap_start h) (heap_end h) (new_next current l),
                 ADone (Some (aligned current (align l))), [Block (aligned current (align l)) l])
      else Some (h, ALoop l (tl sp) e (next h), [])
  | ADone _ => None
  end.

End BumpAlloc.

Import BumpAlloc.

#[local] Open Scope Z_scope.

(** ** Rounding up *)

(** What [Layout] guarantees: a power-of-two alignment, and a size that
    fits [isize] when rounded up to it. *)
Definition layout_ok (l : Layout) : Prop :=
  (exists k, 0 <= k < 63 /\ align l = 2 ^ k) /\ 0 <= size l /\ size l + align l <= 2 ^ 63.

Lemma clear_low k x : 0 <= k < 63 -> 0 <= x < 2 ^ 64 ->
  Z.land x (Z.lxor (2 ^ k - 1) U64_MAX) = x - x mod 2 ^ k.
Proof.
  intros Hk Hx.
  assert (E : Z.land x (Z.lxor (2 ^ k - 1) U64_MAX) = Z.ldiff x (Z.ones k)).
  { change U64_MAX with (Z.ones 64). replace (2 ^ k - 1) with (Z.ones k) by (by rewrite Z.ones_equiv, Z.sub_1_r).
    apply Z.bits_inj'. intros i Hi. rewrite Z.land_spec, Z.lxor_spec, Z.ldiff_spec.
    destruct (Z.lt_ge_cases i 64) as [L|L].
    - rewrite (Z.ones_spec_low 64) by lia. by destruct (Z.testbit x i), (Z.testbit (Z.ones k) i).
    - assert (Z.testbit x i = false) as ->; [|done].
      destruct (Z.eq_dec x 0) as [->|]; [apply Z.testbit_0_l|].
      assert (Z.log2 x < 64) by (apply Z.log2_lt_pow2; lia).
      apply Z.bits_above_log2; lia. }
  rewrite E, Z.ldiff_ones_r by lia. rewrite Z.shiftl_mul_pow2, Z.shiftr_div_pow2 by lia.
  pose proof (Z.div_mod x (2 ^ k)). lia.
Qed.

Lemma aligned_spec cur l : layout_ok l -> 0 <= cur < 2 ^ 63 ->
  cur <= aligned cur (align l) < cur + align l /\ aligned cur (align l) mod align l = 0 /\
  new_next cur l = aligned cur (align l) + size l.
Proof.
  intros ((k & Hk & Ea) & Hs & Hm) Hc. rewrite Ea in *.
  assert (0 < 2 ^ k) by (apply Z.pow_pos_nonneg; lia).
  assert (2 ^ 64 = 2 * 2 ^ 63) by done.
  assert (A : aligned cur (2 ^ k) = (cur + 2 ^ k - 1) - (cur + 2 ^ k - 1) mod 2 ^ k).
  { unfold aligned. rewrite (wrap_id 64 (cur + 2 ^ k)), (wrap_id 64 (2 ^ k - 1)), wrap_id by (unfold is_u; lia).
    rewrite clear_low by lia. done. }
  pose proof (Z.mod_pos_bound (cur + 2 ^ k - 1) (2 ^ k)).
  split_and!; [lia | lia | |].
  - rewrite A. rewrite Zminus_mod_idemp_r. by rewrite Z.sub_diag.
  - unfold new_next. rewrite Ea, wrap_id; [done|]. unfold is_u. lia.
Qed.

(** ** The watermark invariant *)

(** Blocks in allocation order between [a] and [b], each after the last. *)
Fixpoint ordered (a : Z) (l : list block) (b : Z) : Prop :=
  match l with
  | [] => a <= b
  | x :: l' => a <= b_ptr x /\ 0 <= size (b_layout x) /\ ordered (b_ptr x + size (b_layout x)) l' b
  end.

Lemma ordered_snoc a l b x b' : ordered a l b -> b <= b_ptr x -> 0 <= size (b_layout x) ->
  b' = b_ptr x + size (b_layout x) -> ordered a (l ++ [x]) b'.
Proof.
  revert a. induction l as [|y l IH]; intros a; cbn; [lia|].
  intros (? & ? & ?) ? ? ?. split_and!; auto.
Qed.

Lemma ordered_le a l b : ordered a l b -> a <= b.
Proof. revert a. induction l as [|x l IH]; intros a; cbn; [done|]. intros (? & ? & ?%IH). lia. Qed.

Lemma ordered_lookup a l b j x : ordered a l b -> l !! j = Some x ->
  a <= b_ptr x /\ b_ptr x + size (b_layout x) <= b.
Proof.
  revert a j. induction l as [|y l IH]; intros a j Ho Hj; [done|].
  destruct Ho as (? & ? & Ho). destruct j as [|j]; cbn in Hj.
  - injection Hj as ->. apply ordered_le in Ho. lia.
  - destruct (IH _ _ Ho Hj). lia.
Qed.

Lemma ordered_disjoint a l b i j x y : ordered a l b -> (i < j)%nat -> l !! i = Some x -> l !! j = Some y ->
  b_ptr x + size (b_layout x) <= b_ptr y.
Proof.
  revert a i j. induction l as [|z l IH]; intros a i j Ho Hij Hi Hj; [done|].
  destruct Ho as (? & ? & Ho). destruct i as [|i], j as [|j]; cbn in Hi, Hj; try lia.
  - injection Hi as ->. destruct (ordered_lookup _ _ _ _ _ Ho Hj). lia.
  - eapply (IH _ i j); eauto; lia.
Qed.

Section Heap.
Variables (start size0 : Z).
Hypothesis heap_low : 0 <= start /\ 0 <= size0 /\ start + size0 < 2 ^ 63.

Lemma init_eq : init new start size0 = mkHeap start (start + size0) start.
Proof using heap_low. unfold init. rewrite wrap_id; [done|]. unfold is_u. assert (2 ^ 64 = 2 * 2 ^ 63) by done. lia. Qed.

Definition heap_inv (h : BumpAllocator) (log : list (nat * block)) : Prop :=
  heap_start h = start /\ heap_end h = start + size0 /\ start <= next h <= start + size0 /\
  ordered start log.*2 (next h) /\
  Forall (fun x => b_ptr x mod align (b_layout x) = 0) log.*2.

Definition thread_ok (h : BumpAllocator) (log : list (nat * block)) (k : nat) (t : thread) : Prop :=
  match t with
  | AStart l _ => layout_ok l
  | ALoad l _ e => layout_ok l /\ e = start + size0
  | ALoop l _ e c => layout_ok l /\ e = start + size0 /\ start <= c <= start + size0
  | ADone (Some p) => exists x, (k, x) ∈ log /\ b_ptr x = p
  | ADone None => True
  end.

Lemma thread_ok_mono h log h' es k t : thread_ok h log k t -> thread_ok h' (log ++ es) k t.
Proof.
  destruct t as [| | |[p|]]; cbn; [done..| |done].
  intros (x & Hx & E). exists x. split; [|done]. apply elem_of_app. by left.
Qed.

Lemma heap_step_inv h log k t h' t' es :
  heap_inv h log -> thread_ok h log k t -> tstep h t = Some (h', t', es) ->
  let log' := log ++ map (pair k) es in
  heap_inv h' log' /\ thread_ok h' log' k t' /\
  (forall j u, thread_ok h log j u -> thread_ok h' log' j u).
Proof using heap_low.
  intros HI HL E log'. subst log'. pose proof HI as (I1 & I2 & I3 & I4 & I5).
  split_and!; [| |intros j u; apply thread_ok_mono].
  all: destruct t as [l sp|l sp e|l sp e cur|]; cbn in E; [| | |done].
  - injection E as <- <- <-. by rewrite app_nil_r.
  - injection E as <- <- <-. by rewrite app_nil_r.
  - destruct HL as (Hl & -> & Hc). destruct (Z.ltb_spec (start + size0) (new_next cur l)).
    { injection E as <- <- <-. by rewrite app_nil_r. }
    destruct ((next h =? cur) && _) eqn:Ec; injection E as <- <- <-; [|by rewrite app_nil_r].
    apply andb_true_iff in Ec as [Ec%Z.eqb_eq _]. subst cur.
    destruct (aligned_spec (next h) l Hl) as (A1 & A2 & A3); [lia|]. destruct Hl as (_ & Hs & _).
    unfold heap_inv. cbn [heap_start heap_end next]. rewrite fmap_app. cbn [map fmap list_fmap snd].
    split_and!; [done | done | lia | lia | |].
    + eapply ordered_snoc; [done | cbn; lia | done | by rewrite A3].
    + apply Forall_app. split; [done|]. constructor; [done|constructor].
  - injection E as <- <- <-. done.
  - injection E as <- <- <-. destruct HL. cbn. split_and!; [done | done | lia | lia].
  - destruct HL as (Hl & -> & Hc). destruct (_ <? _); [by injection E as <- <- <-|].
    destruct ((next h =? cur) && _); injection E as <- <- <-.
    + exists (Block (aligned cur (align l)) l). split; [|done]. apply elem_of_app. right. by left.
    + cbn. split_and!; [done | done | lia | lia].
Qed.

Lemma heap_reach ts c :
  Forall (fun t => exists l sp, t = AStart l sp /\ layout_ok l) ts ->
  ireach tstep (IConf (init new start size0) ts []) c ->
  heap_inv (imem c) (ilog c) /\
  (forall k t, ipool c !! k = Some t -> thread_ok (imem c) (ilog c) k t).
Proof using heap_low.
  intros Hs. apply (ireach_inv tstep heap_inv thread_ok).
  - rewrite init_eq. unfold heap_inv. cbn. split_and!; try done; try lia.
  - intros k t Hk. rewrite Forall_lookup in Hs. destruct (Hs k t Hk) as (l & sp & -> & Hl). done.
  - apply heap_step_inv.
Qed.

End Heap.

(** ** Theorems *)

(** C34. Concurrent [alloc] calls on an initialised heap below 2^63, in any
    interleaving and with any spurious exchange failures: every returned
    pointer starts a block aligned as its layout asks, inside the heap, and
    the blocks of different allocations do not overlap. *)
Theorem heap_blocks_disjoint start size0 ts c :
  0 <= start /\ 0 <= size0 /\ start + size0 < 2 ^ 63 ->
  Forall (fun t => exists l sp, t = AStart l sp /\ layout_ok l) ts ->
  ireach tstep (IConf (init new start size0) ts []) c ->
  (forall k p, ipool c !! k = Some (ADone (Some p)) -> exists x, (k, x) ∈ ilog c /\ b_ptr x = p) /\
  (forall k x, (k, x) ∈ ilog c ->
     b_ptr x mod align (b_layout x) = 0 /\ start <= b_ptr x /\
     b_ptr x + size (b_layout x) <= start + size0) /\
  (forall i j k m x y, ilog c !! i = Some (k, x) -> ilog c !! j = Some (m, y) -> (i < j)%nat ->
     b_ptr x + size (b_layout x) <= b_ptr y).
Proof.
  intros Hh Hs Hr. destruct (heap_reach start size0 Hh ts c Hs Hr) as ((_ & _ & I3 & I4 & I5) & HL).
  assert (Hlk : forall i (k : nat) x, ilog c !! i = Some (k, x) -> (ilog c).*2 !! i = Some x).
  { intros i k x Hi. by rewrite list_lookup_fmap, Hi. }
  split_and!.
  - intros k p Hk. apply (HL k _ Hk).
  - intros k x (i & Hi%Hlk)%list_elem_of_lookup. rewrite Forall_lookup in I5.
    pose proof (ordered_lookup _ _ _ _ _ I4 Hi). split; [by eapply I5|]. lia.
  - intros i j k m x y Hi%Hlk Hj%Hlk Hij. by eapply ordered_disjoint; eauto.
Qed.

(** [alloc] alone: it fails exactly when the rounded-up block does not fit,
    and is its thread run without interference or spurious failure; before
    [init] every non-empty request fails. *)
Theorem heap_alloc_spec h l :
  0 <= next h < 2 ^ 63 -> layout_ok l ->
  (alloc h l).1 = (if heap_end h <? aligned (next h) (align l) + size l then None
                   else Some (aligned (next h) (align l))) /\
  isolo tstep h (AStart l []) (alloc h l).2 (ADone (alloc h l).1) /\
  (0 < size l -> (alloc new l).1 = None).
Proof.
  intros Hn Hl. destruct (aligned_spec (next h) l Hl Hn) as (_ & _ & E).
  split_and!.
  - unfold alloc. rewrite E. by destruct (_ <? _).
  - eapply isolo_step; [done|]. eapply isolo_step; [done|]. cbn [tstep].
    unfold alloc. destruct (heap_end h <? new_next (next h) l) eqn:El.
    + eapply isolo_step; [cbn; by rewrite El|]. apply isolo_refl.
    + eapply isolo_step; [cbn; by rewrite El, Z.eqb_refl|]. apply isolo_refl.
  - intros Hs. unfold alloc. cbn [heap_end next new].
    destruct (aligned_spec 0 l Hl) as (A1 & _ & A3); [lia|]. rewrite A3.
    by rewrite (proj2 (Z.ltb_lt _ _)) by lia.
Qed.

Lemma heap_blocks_disjoint_witness :
  exists c, ireach tstep (IConf (init new 4097 HEAP_SIZE)
              [AStart (mkLayout 10 8) []; AStart (mkLayout 3 1) [true]] []) c /\
    ipool c = [ADone (Some 4104); ADone (Some 4114)] /\
    (forall i j k m x y, ilog c !! i = Some (k, x) -> ilog c !! j = Some (m, y) -> (i < j)%nat ->
       b_ptr x + size (b_layout x) <= b_ptr y).
Proof.
  eexists. assert (R : ireach tstep (IConf (init new 4097 HEAP_SIZE)
              [AStart (mkLayout 10 8) []; AStart (mkLayout 3 1) [true]] [])
     (IConf (mkHeap 4097 20481 4117) [ADone (Some 4104); ADone (Some 4114)]
            [(0%nat, Block 4104 (mkLayout 10 8)); (1%nat, Block 4114 (mkLayout 3 1))])).
  { eapply (irun_reach tstep [0; 1; 0; 1; 0; 1; 1]%nat); [apply ireach_refl|]. by vm_compute. }
  split; [exact R|]. split; [reflexivity|].
  eapply (heap_blocks_disjoint 4097 HEAP_SIZE); [unfold HEAP_SIZE; lia | | exact R].
  repeat constructor; eexists _, _; (split; [reflexivity|]).
  - split; [exists 3; split; [lia | reflexivity] | cbn; lia].
  - split; [exists 0; split; [lia | reflexivity] | cbn; lia].
Defined.

Lemma heap_alloc_spec_witness :
  (alloc (init new 4097 HEAP_SIZE) (mkLayout 10 8)).1 = Some 4104.
Proof.
  destruct (heap_alloc_spec (init new 4097 HEAP_SIZE) (mkLayout 10 8)) as (E & _).
  - cbn. lia.
  - split; [exists 3; split; [lia | reflexivity] | cbn; lia].
  - rewrite E. reflexivity.
Defined.
