(* ===== verification/Hwinv.v ===== *)
(** * PCI inventory and device identity ([kernel/boot/src/hwinv.rs])

    The enumeration of PCI configuration space, the bounded hardware tuple,
    its sixty-dimensional projection and the serial rows.  The hardware is
    a parameter: the data port's answer for each address.  ([sha256] of
    this source file is [Sha256.v].) *)

From S2P Require Import Prelude Sha256.

Module Hwinv.

#[local] Open Scope Z_scope.

(** *** Rows: the first bytes of a zeroed buffer of [cap] bytes, written
    left to right; an index past the end panics. *)

Definition put_bytes (cap : Z) (row s : bytes) : comp unit bytes :=
  if cap <? zlen row + zlen s then CPanic else CRet (row ++ s).

Fixpoint put_all (cap : Z) (row : bytes) (parts : list bytes) : comp unit bytes :=
  match parts with
  | [] => CRet row
  | s :: parts' => row' ← put_bytes cap row s; put_all cap row' parts'
  end.

Definition hex16 (v : Z) : bytes := hex_pair (Z.land (Z.shiftr v 8) 255) ++ hex_pair (Z.land v 255).

(** The digit loops of [put_u32] and [put_u64]: [tmp] is filled from the
    lowest digit and copied backwards. *)
Fixpoint tmp_digits (fuel : nat) (x : Z) : bytes :=
  match fuel with
  | O => []
  | S f => if 0 <? x then (48 + x mod 10) :: tmp_digits f (x / 10) else []
  end.

Definition put_u32 (v : Z) : bytes := if v =? 0 then lit "0" else rev (tmp_digits 10 v).
Definition put_u64 (v : Z) : bytes := if v =? 0 then lit "0" else rev (tmp_digits 20 v).

(** *** The tuple *)

Definition TUPLE_CAP : Z := 512.

(** [t_bytes] is [buf[..len]]. *)
Record HwTuple := mkTuple { t_bytes : bytes; count : Z; t_rst_vmd : bool; t_ahci : bool; storage : bool }.

Definition new : HwTuple := mkTuple [] 0 false false false.

Definition entry (vendor device class subclass : Z) : bytes :=
  [Z.land (Z.shiftr vendor 8) 255; Z.land vendor 255; Z.land (Z.shiftr device 8) 255; Z.land device 255;
   class; subclass].

Definition push (t : HwTuple) (vendor device class subclass prog_if : Z) : HwTuple :=
  let b := entry vendor device class subclass in
  mkTuple (if zlen (t_bytes t) + zlen b <=? TUPLE_CAP then t_bytes t ++ b else t_bytes t)
    (wrap 32 (count t + 1))
    (if (vendor =? 0x8086) && (device =? 0x282A) then true else t_rst_vmd t)
    (if (class =? 1) && (subclass =? 6) && (prog_if =? 1) then true else t_ahci t)
    (if class =? 1 then true else storage t).

(** *** The projection *)

(** Sixteen ten-bit glyphs of a digest. *)
Fixpoint glyphs (h : bytes) : list Z :=
  match h with
  | a :: b :: h' => Z.land (Z.lor (Z.shiftl a 8) b) 0x03FF :: glyphs h'
  | _ => []
  end.

(** The outer loop, [sel] filled so far; every round adds a glyph, so sixty
    rounds are enough. *)
Fixpoint project_loop (fuel : nat) (tuple : bytes) (counter : Z) (sel : list Z) : list Z :=
  match fuel with
  | O => sel
  | S f =>
      if zlen sel <? 60 then
        let h := BootSha.sha256 (tuple ++ be_bytes 4 counter) in
        project_loop f tuple (wrap 32 (counter + 1)) (sel ++ take (60 - length sel) (glyphs h))
      else sel
  end.

Definition project_60d (tuple : bytes) : list Z :=
  project_loop 60 (if TUPLE_CAP <? zlen tuple then take (Z.to_nat TUPLE_CAP) tuple else tuple) 0 [].

Definition coord_bytes (coord : list Z) : bytes :=
  flat_map (fun g => [Z.land (Z.shiftr g 8) 255; Z.land g 255]) coord.

Definition device_digest_of (t : HwTuple) : bytes := BootSha.sha256 (coord_bytes (project_60d (t_bytes t))).

Definition flag (b : bool) : bytes := if b then lit "1" else lit "0".

(** The six leading glyphs, dot-separated. *)
Definition coord_prefix (coord : list Z) : list bytes :=
  match map put_u32 (take 6 coord) with
  | [] => []
  | g :: gs => g :: flat_map (fun x => [lit "."; x]) gs
  end.

Definition crlf : bytes := [13; 10].

Definition ROW_CAP : Z := 448.

(** The pieces [emit_device_pid] writes to its row. *)
Definition bootpid_parts (t : HwTuple) (seat : bytes) : list bytes :=
  let coord := project_60d (t_bytes t) in
  let d := device_digest_of t in
  [lit "  BOOTPID|device_pid="; hex_of (take 8 d); lit "|device_pid_full="; hex_of d;
   lit "|hw_tuple_pid_full="; hex_of (BootSha.sha256 (t_bytes t)); lit "|hw_devices="; put_u32 (count t);
   lit "|rst_vmd="; flag (t_rst_vmd t); lit "|ahci="; flag (t_ahci t); lit "|storage="; flag (storage t);
   lit "|seat="; seat; lit "|colony="; seat;
   lit "|behcs=1024|dims=60|derived_from=60d_coordinate|coord_prefix="]
  ++ coord_prefix coord ++ [lit "|e=0|fire=0|json=0"; crlf].

(** The row printed and the digest returned. *)
Definition emit_device_pid (t : HwTuple) (seat : bytes) : comp unit (bytes * bytes) :=
  row ← put_all ROW_CAP [] (bootpid_parts t seat); mret (row, device_digest_of t).

(** *** The scan *)

Record HwSummary := mkSummary { device_digest : bytes; rst_vmd : bool; ahci : bool }.

Section WithPci.
(** The data port's 32-bit answer after the address is written. *)
Context (pci : Z -> Z).

Definition cfg_read32 (bus dev func off : Z) : Z :=
  wrap 32 (pci (Z.lor (Z.lor (Z.lor (Z.lor 0x80000000 (Z.shiftl bus 16)) (Z.shiftl dev 11)) (Z.shiftl func 8))
                     (Z.land off 0xFC))).

Record scan_state := mkScan { serial : list bytes; tuple : HwTuple }.

Definition LINE_CAP : Z := 48.

Definition line_parts (bus dev func vendor device class subclass prog_if : Z) : list bytes :=
  [lit "  PCI "; hex_pair bus; lit ":"; hex_pair dev; lit "."; [48 + func]; lit "  "; hex16 vendor; lit ":";
   hex16 device; lit " class="; hex_pair class; lit ":"; hex_pair subclass; lit ":"; hex_pair prog_if; crlf].

(** One function of a slot; the flag tells that the cap was reached. *)
Definition scan_func (s : scan_state) (bus dev func : Z) : comp unit (scan_state * bool) :=
  let id := cfg_read32 bus dev func 0x00 in
  let vendor := Z.land id 0xFFFF in
  if vendor =? 0xFFFF then CRet (s, false)
  else
    let device := Z.shiftr id 16 in
    let class_reg := cfg_read32 bus dev func 0x08 in
    let class := Z.land (Z.shiftr class_reg 24) 0xFF in
    let subclass := Z.land (Z.shiftr class_reg 16) 0xFF in
    let prog_if := Z.land (Z.shiftr class_reg 8) 0xFF in
    line ← put_all LINE_CAP [] (line_parts bus dev func vendor device class subclass prog_if);
    let t := push (tuple s) vendor device class subclass prog_if in
    mret (mkScan (serial s ++ [line]) t, 64 <=? count t).

Fixpoint scan_funcs (s : scan_state) (bus dev : Z) (funcs : list Z) : comp unit (scan_state * bool) :=
  match funcs with
  | [] => CRet (s, false)
  | f :: funcs' =>
      '(s', capped) ← scan_func s bus dev f;
      if capped : bool then CRet (s', true) else scan_funcs s' bus dev funcs'
  end.

Definition max_func (bus dev : Z) : Z :=
  let header_type := Z.land (Z.shiftr (cfg_read32 bus dev 0 0x0C) 16) 0xFF in
  if negb (Z.land header_type 0x80 =? 0) then 8 else 1.

Definition scan_slot (s : scan_state) (bus dev : Z) : comp unit (scan_state * bool) :=
  if Z.land (cfg_read32 bus dev 0 0x00) 0xFFFF =? 0xFFFF then CRet (s, false)
  else scan_funcs s bus dev (seqZ 0 (max_func bus dev)).

Fixpoint scan_devs (s : scan_state) (bus : Z) (devs : list Z) : comp unit (scan_state * bool) :=
  match devs with
  | [] => CRet (s, false)
  | d :: devs' =>
      '(s', capped) ← scan_slot s bus d;
      if capped : bool then CRet (s', true) else scan_devs s' bus devs'
  end.

Fixpoint scan_buses (s : scan_state) (buses : list Z) : comp unit (scan_state * bool) :=
  match buses with
  | [] => CRet (s, false)
  | b :: buses' =>
      '(s', capped) ← scan_devs s b (seqZ 0 32);
      if capped : bool then CRet (s', true) else scan_buses s' buses'
  end.

(** The rows printed and the summary. *)
Definition pci_scan (seat : bytes) : comp unit (list bytes * HwSummary) :=
  let start := mkScan [lit "  hwinv . PCI enumeration (0xCF8/0xCFC, read-only)" ++ crlf] new in
  '(s, capped) ← scan_buses start (seqZ 0 256);
  '(row, digest) ← emit_device_pid (tuple s) seat;
  let note := if capped : bool then lit "  hwinv . (capped at 64 device-functions)" ++ crlf
              else lit "  hwinv . PCI scan complete" ++ crlf in
  mret (serial s ++ [note; row], mkSummary digest (t_rst_vmd (tuple s)) (t_ahci (tuple s))).

(** *** Reference: the functions a machine presents, in bus order

    Written from the configuration mechanism and not from the scan: the
    address of a register is the enable bit, bus, device, function and
    offset at their places; the vendor is the low half of the first dword;
    bit 7 of the header-type byte, which is bit 23 of the dword at 0x0C,
    marks a device of several functions. *)

Record pci_fn := mkFn { f_bus : Z; f_dev : Z; f_func : Z }.

Definition fn_dword (f : pci_fn) (off : Z) : Z :=
  pci (2 ^ 31 + f_bus f * 2 ^ 16 + f_dev f * 2 ^ 11 + f_func f * 2 ^ 8 + off) mod 2 ^ 32.

Definition fn_vendor (f : pci_fn) : Z := fn_dword f 0 mod 2 ^ 16.
Definition fn_device (f : pci_fn) : Z := fn_dword f 0 / 2 ^ 16.
Definition fn_class (f : pci_fn) : Z := fn_dword f 8 / 2 ^ 24.
Definition fn_subclass (f : pci_fn) : Z := fn_dword f 8 / 2 ^ 16 mod 2 ^ 8.
Definition fn_prog_if (f : pci_fn) : Z := fn_dword f 8 / 2 ^ 8 mod 2 ^ 8.

Definition fn_zero (f : pci_fn) : pci_fn := mkFn (f_bus f) (f_dev f) 0.

Definition responds (f : pci_fn) : Prop := fn_vendor f <> 65535.
Definition multi_function (f : pci_fn) : Prop := Z.testbit (fn_dword f 12) 23 = true.

(** A function is there when it answers, and, unless it is function 0, when
    function 0 of its device answers too and says there are several. *)
Definition there (f : pci_fn) : Prop :=
  responds f /\ (f_func f = 0 \/ responds (fn_zero f) /\ multi_function (fn_zero f)).

#[global] Instance responds_dec f : Decision (responds f).
Proof. unfold responds. apply _. Defined.
#[global] Instance multi_function_dec f : Decision (multi_function f).
Proof. unfold multi_function. apply _. Defined.
#[global] Instance there_dec f : Decision (there f).
Proof. unfold there. apply _. Defined.

(** All addresses, in bus, device, function order. *)
Definition all_fns : list pci_fn :=
  flat_map (fun bus => flat_map (fun dev => map (mkFn bus dev) (seqZ 0 8)) (seqZ 0 32)) (seqZ 0 256).

Definition present : list pci_fn := filter there all_fns.

Definition fn_entry (f : pci_fn) : bytes :=
  [fn_vendor f / 2 ^ 8; fn_vendor f mod 2 ^ 8; fn_device f / 2 ^ 8; fn_device f mod 2 ^ 8;
   fn_class f; fn_subclass f].

(** The identity of a hardware tuple: sixty glyphs of ten bits, sixteen of
    every digest of the tuple with a counter, each a pair of digest bytes;
    the digest of their big-endian pairs. *)
Definition identity_glyph (hw : bytes) (n : nat) : Z :=
  let h := BootSha.sha256 (hw ++ be_bytes 4 (Z.of_nat (n / 16))) in
  (2 ^ 8 * h !!! (2 * (n mod 16))%nat + h !!! (2 * (n mod 16) + 1)%nat) mod 2 ^ 10.

Definition identity (hw : bytes) : bytes :=
  BootSha.sha256 (flat_map (fun n => [identity_glyph hw n / 2 ^ 8; identity_glyph hw n mod 2 ^ 8]) (seq 0 60)).

(** The tuple of a list of functions, without caps. *)
Definition tuple_of (fs : list pci_fn) : HwTuple :=
  mkTuple (flat_map fn_entry fs) (zlen fs)
    (existsb (fun f => (fn_vendor f =? 0x8086) && (fn_device f =? 0x282A)) fs)
    (existsb (fun f => (fn_class f =? 1) && (fn_subclass f =? 6) && (fn_prog_if f =? 1)) fs)
    (existsb (fun f => fn_class f =? 1) fs).

End WithPci.

End Hwinv.

Import Hwinv.

#[local] Open Scope Z_scope.

(** ** Rows *)

Lemma put_all_spec cap row parts :
  put_all cap row parts =
  (if (zlen (row ++ concat parts) <=? cap) || bool_decide (parts = []) then CRet (row ++ concat parts) else CPanic).
Proof.
  revert row. induction parts as [|s parts IH]; intros row; cbn [put_all concat].
  { by rewrite app_nil_r, orb_true_r. }
  unfold put_bytes. rewrite bool_decide_eq_false_2, orb_false_r by done.
  destruct (Z.ltb_spec cap (zlen row + zlen s)) as [L|L]; cbn [mbind comp_bind].
  - rewrite !zlen_app. pose proof (zlen_nonneg (concat parts)).
    by rewrite (proj2 (Z.leb_gt _ _)) by lia.
  - rewrite IH, <- app_assoc. case_bool_decide as Ep; [|by rewrite orb_false_r].
    subst parts. rewrite orb_true_r. cbn [concat]. rewrite app_nil_r.
    by rewrite (proj2 (Z.leb_le _ _)) by (rewrite zlen_app; lia).
Qed.

Lemma put_all_fits cap parts : zlen (concat parts) <= cap -> put_all cap [] parts = CRet (concat parts).
Proof. intros H. rewrite put_all_spec. cbn [app]. by rewrite (proj2 (Z.leb_le _ _)) by done. Qed.

Lemma tmp_digits_length f x : 0 <= x -> (length (tmp_digits f x) <= f)%nat.
Proof.
  revert x. induction f as [|f IH]; intros x Hx; cbn [tmp_digits]; [cbn; lia|].
  destruct (0 <? x); cbn; [|lia]. apply le_n_S, IH, Z.div_pos; lia.
Qed.

Lemma tmp_digits_bound f x k : 0 <= x < 10 ^ Z.of_nat k -> (length (tmp_digits f x) <= k)%nat.
Proof.
  revert x k. induction f as [|f IH]; intros x k Hx; cbn [tmp_digits]; [cbn; lia|].
  destruct (Z.ltb_spec 0 x); cbn; [|lia]. destruct k as [|k]; [cbn in Hx; lia|].
  rewrite Nat2Z.inj_succ, Z.pow_succ_r in Hx by lia. apply le_n_S, IH.
  split; [apply Z.div_pos; lia | apply Z.div_lt_upper_bound; lia].
Qed.

Lemma put_u32_length x k : 0 <= x < 10 ^ Z.of_nat k -> (0 < k)%nat -> 1 <= zlen (put_u32 x) <= Z.of_nat k.
Proof.
  intros Hx Hk. unfold put_u32. destruct (Z.eqb_spec x 0) as [->|]; [unfold zlen; cbn; lia|].
  unfold zlen. rewrite length_rev. pose proof (tmp_digits_bound 10 x k Hx).
  assert (0 < length (tmp_digits 10 x))%nat; [|lia].
  cbn [tmp_digits]. rewrite (proj2 (Z.ltb_lt 0 x)) by lia. cbn. lia.
Qed.

(** ** The scan is a walk over the present functions *)

Section Scan.
Context (pci : Z -> Z).

Definition fn_line (f : pci_fn) : bytes :=
  concat (line_parts (f_bus f) (f_dev f) (f_func f) (fn_vendor pci f) (fn_device pci f)
            (fn_class pci f) (fn_subclass pci f) (fn_prog_if pci f)).

Definition absorb_one (s : scan_state) (f : pci_fn) : scan_state :=
  mkScan (serial s ++ [fn_line f])
    (push (tuple s) (fn_vendor pci f) (fn_device pci f) (fn_class pci f) (fn_subclass pci f) (fn_prog_if pci f)).

Fixpoint absorb (s : scan_state) (fs : list pci_fn) : scan_state * bool :=
  match fs with
  | [] => (s, false)
  | f :: fs' =>
      let s' := absorb_one s f in
      if 64 <=? count (tuple s') then (s', true) else absorb s' fs'
  end.

Lemma absorb_app s a b :
  absorb s (a ++ b) = (let '(s', c) := absorb s a in if c : bool then (s', true) else absorb s' b).
Proof.
  revert s. induction a as [|f a IH]; intros s; cbn; [done|].
  destruct (64 <=? _); [done|]. apply IH.
Qed.

Lemma line_fits bus dev func v d c sc p :
  put_all LINE_CAP [] (line_parts bus dev func v d c sc p) = CRet (concat (line_parts bus dev func v d c sc p)).
Proof.
  apply put_all_fits. transitivity 41; [|by vm_compute]. apply Z.eq_le_incl. reflexivity.
Qed.

(** *** The registers the scan reads are those of the reference *)

Definition in_range (f : pci_fn) : Prop := 0 <= f_bus f < 256 /\ 0 <= f_dev f < 32 /\ 0 <= f_func f < 8.

Lemma lor_add x y n : 0 <= n -> 0 <= y < 2 ^ n -> Z.lor (x * 2 ^ n) y = x * 2 ^ n + y.
Proof. intros Hn Hy. rewrite <- (lor_low x y n) by done. by rewrite Z.shiftl_mul_pow2. Qed.

Lemma cfg_read_dword f off : in_range f -> off = 0 \/ off = 8 \/ off = 12 ->
  cfg_read32 pci (f_bus f) (f_dev f) (f_func f) off = fn_dword pci f off.
Proof.
  intros (Hb & Hd & Hf) Ho. unfold cfg_read32, fn_dword, wrap. do 2 f_equal.
  assert (E : Z.land off 0xFC = off) by (destruct Ho as [-> |[-> | ->]]; done). rewrite E.
  rewrite !Z.shiftl_mul_pow2 by lia.
  change 0x80000000 with (128 * 2 ^ 24). rewrite lor_add by lia.
  replace (128 * 2 ^ 24 + f_bus f * 2 ^ 16) with ((128 * 2 ^ 8 + f_bus f) * 2 ^ 16) by lia.
  rewrite lor_add by lia.
  replace ((128 * 2 ^ 8 + f_bus f) * 2 ^ 16 + f_dev f * 2 ^ 11)
    with (((128 * 2 ^ 8 + f_bus f) * 2 ^ 5 + f_dev f) * 2 ^ 11) by lia.
  rewrite lor_add by lia.
  replace (((128 * 2 ^ 8 + f_bus f) * 2 ^ 5 + f_dev f) * 2 ^ 11 + f_func f * 2 ^ 8)
    with ((((128 * 2 ^ 8 + f_bus f) * 2 ^ 5 + f_dev f) * 2 ^ 3 + f_func f) * 2 ^ 8) by lia.
  rewrite lor_add by lia. lia.
Qed.

Lemma fn_dword_range f off : 0 <= fn_dword pci f off < 2 ^ 32.
Proof. apply Z.mod_pos_bound. lia. Qed.

Lemma low_half w : Z.land w 0xFFFF = w mod 2 ^ 16.
Proof. by rewrite <- (Z.land_ones w 16). Qed.
Lemma byte_at w n : 0 <= n -> Z.land (Z.shiftr w n) 0xFF = w / 2 ^ n mod 2 ^ 8.
Proof. intros Hn. rewrite Z.shiftr_div_pow2 by done. by rewrite <- (Z.land_ones _ 8). Qed.

Lemma class_byte f : Z.land (Z.shiftr (fn_dword pci f 8) 24) 0xFF = fn_class pci f.
Proof.
  rewrite byte_at by done. pose proof (fn_dword_range f 8). apply Z.mod_small.
  split; [apply Z.div_pos; lia | apply Z.div_lt_upper_bound; lia].
Qed.

Lemma entry_fn f : entry (fn_vendor pci f) (fn_device pci f) (fn_class pci f) (fn_subclass pci f) = fn_entry pci f.
Proof.
  unfold entry, fn_entry. change 255 with (Z.ones 8). rewrite !Z.land_ones, !Z.shiftr_div_pow2 by done.
  pose proof (fn_dword_range f 0). pose proof (Z.mod_pos_bound (fn_dword pci f 0) (2 ^ 16) ltac:(lia)).
  rewrite !(Z.mod_small (_ / 2 ^ 8)); [done| |].
  - unfold fn_device. split; [apply Z.div_pos; [apply Z.div_pos; lia | lia]|].
    do 2 (apply Z.div_lt_upper_bound; [lia|]). lia.
  - unfold fn_vendor. split; [apply Z.div_pos; lia | apply Z.div_lt_upper_bound; lia].
Qed.

Lemma land_bit7 x : Z.land x 0x80 = 0 <-> Z.testbit x 7 = false.
Proof.
  split.
  - intros E. apply (f_equal (fun z => Z.testbit z 7)) in E. rewrite Z.land_spec, Z.bits_0 in E.
    by rewrite andb_true_r in E.
  - intros E. apply Z.bits_inj'. intros n Hn. rewrite Z.land_spec, Z.bits_0. change 0x80 with (2 ^ 7).
    destruct (decide (n = 7)) as [->|Hne]; [by rewrite E|].
    by rewrite Z.pow2_bits_false, andb_false_r by lia.
Qed.

Lemma max_func_multi f : in_range f ->
  max_func pci (f_bus f) (f_dev f) = if decide (multi_function pci (fn_zero f)) then 8 else 1.
Proof.
  intros (Hb & Hd & Hf). unfold max_func, multi_function.
  pose proof (cfg_read_dword (fn_zero f) 12) as E. cbn [fn_zero f_bus f_dev f_func] in E. rewrite E.
  2:{ unfold in_range; cbn; lia. } 2:{ auto. } clear E. set (w := fn_dword pci (fn_zero f) 12).
  assert (B : Z.testbit (Z.land (Z.shiftr w 16) 0xFF) 7 = Z.testbit w 23).
  { rewrite Z.land_spec, Z.shiftr_spec by lia. by rewrite andb_true_r. }
  destruct (Z.eqb_spec (Z.land (Z.land (Z.shiftr w 16) 0xFF) 0x80) 0) as [Z0|Z0]; cbn [negb].
  - apply land_bit7 in Z0. rewrite B in Z0. by rewrite decide_False by congruence.
  - rewrite decide_True; [done|]. rewrite <- B. rewrite land_bit7 in Z0. by apply not_false_iff_true.
Qed.

Lemma scan_func_absorb s bus dev func : in_range (mkFn bus dev func) ->
  scan_func pci s bus dev func =
  CRet (if decide (responds pci (mkFn bus dev func))
        then let s' := absorb_one s (mkFn bus dev func) in (s', 64 <=? count (tuple s')) else (s, false)).
Proof.
  intros R. pose proof (fun o => cfg_read_dword (mkFn bus dev func) o R) as C. cbn [f_bus f_dev f_func] in C.
  unfold scan_func. rewrite !C by auto. rewrite low_half.
  change (fn_dword pci (mkFn bus dev func) 0 mod 2 ^ 16) with (fn_vendor pci (mkFn bus dev func)).
  unfold responds. destruct (Z.eqb_spec (fn_vendor pci (mkFn bus dev func)) 0xFFFF) as [E|E].
  - by rewrite decide_False by tauto.
  - rewrite decide_True by done. rewrite line_fits, class_byte, !byte_at, Z.shiftr_div_pow2 by done. done.
Qed.

Lemma scan_funcs_absorb s bus dev funcs : Forall (fun f => in_range (mkFn bus dev f)) funcs ->
  scan_funcs pci s bus dev funcs = CRet (absorb s (filter (responds pci) (map (mkFn bus dev) funcs))).
Proof.
  intros R. revert s. induction R as [|f funcs Rf _ IH]; intros s; [done|]. cbn [scan_funcs map]. rewrite filter_cons.
  rewrite scan_func_absorb by done. cbn [mbind comp_bind].
  destruct (decide (responds pci (mkFn bus dev f))); [|apply IH].
  cbn [absorb]. cbv zeta. destruct (64 <=? _); [done|]. apply IH.
Qed.

Lemma filter_map_ext {A B} (P Q : B -> Prop) `{forall x, Decision (P x)} `{forall x, Decision (Q x)}
    (g : A -> B) l :
  (forall k, k ∈ l -> P (g k) <-> Q (g k)) -> filter P (map g l) = filter Q (map g l).
Proof.
  induction l as [|k l IH]; intros E; [done|]. cbn [map]. rewrite !filter_cons.
  rewrite IH by (intros; apply E; by right).
  assert (P (g k) <-> Q (g k)) by (apply E; by left). repeat case_decide; tauto || done.
Qed.

Lemma filter_map_none {A B} (P : B -> Prop) `{forall x, Decision (P x)} (g : A -> B) l :
  (forall k, k ∈ l -> ~ P (g k)) -> filter P (map g l) = [].
Proof.
  induction l as [|k l IH]; intros E; [done|]. cbn [map]. rewrite filter_cons_False by (apply E; by left).
  apply IH. intros. apply E. by right.
Qed.

Definition slot_fns (bus dev : Z) : list pci_fn := filter (there pci) (map (mkFn bus dev) (seqZ 0 8)).

(** What the slot's loop walks over is what is there. *)
Lemma slot_fns_walk bus dev : 0 <= bus < 256 -> 0 <= dev < 32 ->
  slot_fns bus dev =
  if decide (responds pci (mkFn bus dev 0))
  then filter (responds pci) (map (mkFn bus dev) (seqZ 0 (max_func pci bus dev))) else [].
Proof.
  intros Hb Hd. pose proof (max_func_multi (mkFn bus dev 0)) as M. cbn [f_bus f_dev fn_zero] in M.
  unfold slot_fns. rewrite M by (unfold in_range; cbn; lia). clear M.
  assert (Tn : forall k, k <> 0 -> there pci (mkFn bus dev k) <->
      responds pci (mkFn bus dev k) /\ responds pci (mkFn bus dev 0) /\ multi_function pci (mkFn bus dev 0)).
  { intros k Hk. unfold there. cbn [f_func fn_zero f_bus f_dev]. naive_solver. }
  destruct (decide (responds pci (mkFn bus dev 0))) as [R0|R0].
  - destruct (decide (multi_function pci (fn_zero (mkFn bus dev 0)))) as [Mu|Mu].
    + apply filter_map_ext. intros k _.
      destruct (decide (k = 0)) as [->|Hk]; [|rewrite Tn by done; tauto].
      unfold there. cbn [f_func]. tauto.
    + change (seqZ 0 8) with (0 :: seqZ 1 7). change (seqZ 0 1) with [0]. cbn [map].
      rewrite !filter_cons, !decide_True by (try done; by split; [|left]). rewrite filter_nil. f_equal.
      apply filter_map_none. intros k Hk%elem_of_seqZ.
      rewrite Tn by lia. tauto.
  - apply filter_map_none. intros k _.
    destruct (decide (k = 0)) as [->|Hk]; [|rewrite Tn by done; tauto]. by intros [? _].
Qed.

Lemma scan_slot_absorb s bus dev : 0 <= bus < 256 -> 0 <= dev < 32 ->
  scan_slot pci s bus dev = CRet (absorb s (slot_fns bus dev)).
Proof.
  intros Hb Hd. rewrite slot_fns_walk by done. unfold scan_slot.
  pose proof (cfg_read_dword (mkFn bus dev 0) 0) as C. cbn [f_bus f_dev f_func] in C.
  rewrite C, low_half by (auto; unfold in_range; cbn; lia). clear C.
  unfold responds at 1. change (fn_dword pci (mkFn bus dev 0) 0 mod 2 ^ 16) with (fn_vendor pci (mkFn bus dev 0)).
  destruct (Z.eqb_spec (fn_vendor pci (mkFn bus dev 0)) 0xFFFF) as [E|E].
  - by rewrite decide_False by naive_solver.
  - rewrite decide_True by done. apply scan_funcs_absorb. apply Forall_forall. intros k Hk%elem_of_seqZ.
    assert (max_func pci bus dev <= 8) by (unfold max_func; by destruct (negb _)). unfold in_range; cbn; lia.
Qed.

Lemma scan_devs_absorb s bus devs : 0 <= bus < 256 -> Forall (fun d => 0 <= d < 32) devs ->
  scan_devs pci s bus devs = CRet (absorb s (flat_map (slot_fns bus) devs)).
Proof.
  intros Hb R. revert s. induction R as [|d devs Hd _ IH]; intros s; [done|]. cbn [scan_devs flat_map].
  rewrite scan_slot_absorb, absorb_app by done. cbn [mbind comp_bind].
  destruct (absorb s _) as [s' []]; [done|]. apply IH.
Qed.

Lemma scan_buses_absorb s buses : Forall (fun b => 0 <= b < 256) buses ->
  scan_buses pci s buses =
  CRet (absorb s (flat_map (fun bus => flat_map (slot_fns bus) (seqZ 0 32)) buses)).
Proof.
  intros R. revert s. induction R as [|b buses Hb _ IH]; intros s; [done|]. cbn [scan_buses].
  rewrite scan_devs_absorb by (done || by apply Forall_forall; intros d Hd%elem_of_seqZ; lia).
  change (flat_map ?f (b :: buses)) with (f b ++ flat_map f buses). cbn beta. rewrite absorb_app.
  cbn [mbind comp_bind]. destruct (absorb s _) as [s' []]; [done|]. apply IH.
Qed.

Lemma filter_flat_map {A B} (P : B -> Prop) `{forall x, Decision (P x)} (g : A -> list B) l :
  filter P (flat_map g l) = flat_map (fun x => filter P (g x)) l.
Proof.
  induction l as [|x l IH]; [done|]. change (flat_map ?h (x :: l)) with (h x ++ flat_map h l). cbn beta.
  by rewrite filter_app, IH.
Qed.

Lemma present_slots : present pci = flat_map (fun bus => flat_map (slot_fns bus) (seqZ 0 32)) (seqZ 0 256).
Proof.
  unfold present, all_fns. rewrite filter_flat_map. apply flat_map_ext. intros bus.
  rewrite filter_flat_map. by apply flat_map_ext.
Qed.

Lemma entries_length fs : zlen (flat_map (fn_entry pci) fs) = 6 * zlen fs.
Proof.
  induction fs as [|f fs IH]; [done|]. cbn [flat_map]. rewrite zlen_app, zlen_cons, IH.
  change (zlen (fn_entry pci f)) with 6. lia.
Qed.

Lemma if_orb (c b : bool) : (if c then true else b) = b || c.
Proof. by destruct c, b. Qed.

Lemma push_tuple_of fs f : zlen fs < 64 ->
  push (tuple_of pci fs) (fn_vendor pci f) (fn_device pci f) (fn_class pci f) (fn_subclass pci f) (fn_prog_if pci f)
  = tuple_of pci (fs ++ [f]).
Proof.
  intros H. pose proof (zlen_nonneg fs). unfold push, tuple_of. cbn [t_bytes count t_rst_vmd t_ahci storage].
  rewrite entries_length, entry_fn. change (zlen (fn_entry pci f)) with 6.
  rewrite (proj2 (Z.leb_le _ _)) by (unfold TUPLE_CAP; lia).
  rewrite flat_map_app, zlen_snoc, !existsb_app, !if_orb. cbn [existsb flat_map].
  rewrite !orb_false_r, app_nil_r, wrap_id; [done|]. unfold is_u. change (2 ^ 32) with 4294967296. lia.
Qed.

Lemma absorb_spec s pre fs : tuple s = tuple_of pci pre -> zlen pre < 64 ->
  absorb s fs =
  (let k := take (Z.to_nat (64 - zlen pre)) fs in
   (mkScan (serial s ++ map fn_line k) (tuple_of pci (pre ++ k)), 64 <=? zlen pre + zlen fs)).
Proof.
  revert s pre. induction fs as [|f fs IH]; intros s pre Hs Hp; pose proof (zlen_nonneg pre); cbn [absorb].
  { cbv zeta. rewrite take_nil, !app_nil_r, zlen_nil, <- Hs. cbn [map]. rewrite ?app_nil_r.
    rewrite (proj2 (Z.leb_gt _ _)) by lia. by destruct s. }
  unfold absorb_one. cbn [tuple]. rewrite Hs, push_tuple_of by done.
  change (count (tuple_of pci (pre ++ [f]))) with (zlen (pre ++ [f])). rewrite zlen_snoc, zlen_cons.
  pose proof (zlen_nonneg fs).
  replace (Z.to_nat (64 - zlen pre)) with (S (Z.to_nat (63 - zlen pre))) by lia. cbn [take].
  destruct (Z.leb_spec 64 (zlen pre + 1)) as [L|L].
  - replace (Z.to_nat (63 - zlen pre)) with 0%nat by lia. cbv zeta. cbn [take map].
    by rewrite (proj2 (Z.leb_le _ _)) by lia.
  - rewrite (IH _ (pre ++ [f])); [|done|rewrite zlen_snoc; lia]. cbv zeta. cbn [serial map].
    rewrite zlen_snoc. replace (64 - (zlen pre + 1)) with (63 - zlen pre) by lia.
    rewrite <- !app_assoc, <- Z.add_assoc. done.
Qed.

End Scan.

(** ** The projection *)

Lemma glyphs_length h : length (glyphs h) = (length h / 2)%nat.
Proof.
  cut (forall n h, (length h <= n)%nat -> length (glyphs h) = (length h / 2)%nat); [eauto|].
  clear h. induction n as [|n IH]; intros [|a [|b h]] L; try done; cbn in L; try lia.
  cbn [glyphs length]. rewrite IH by lia. change (S (S (length h))) with (2 + length h)%nat.
  replace (2 + length h)%nat with (length h + 1 * 2)%nat by lia. rewrite Nat.div_add by lia. lia.
Qed.

Lemma glyphs_range h : Forall (fun g => 0 <= g <= 1023) (glyphs h).
Proof.
  cut (forall n h, (length h <= n)%nat -> Forall (fun g => 0 <= g <= 1023) (glyphs h)); [eauto|].
  clear h. induction n as [|n IH]; intros [|a [|b h]] L; try by constructor; cbn in L; try lia.
  cbn [glyphs]. constructor; [|apply IH; cbn in L; lia].
  change 1023 with (Z.ones 10). rewrite Z.land_ones by lia.
  pose proof (Z.mod_pos_bound (Z.lor (Z.shiftl a 8) b) (2 ^ 10) eq_refl) as B.
  change (2 ^ 10) with 1024 in *. change (Z.ones 10) with 1023. lia.
Qed.

(** Sixty glyphs from the first four counter-salted digests. *)
Definition projection (tuple : bytes) : list Z :=
  take 60 (flat_map (fun k => glyphs (BootSha.sha256 (tuple ++ be_bytes 4 k))) [0; 1; 2; 3]).

Lemma digest_glyphs x : length (glyphs (BootSha.sha256 x)) = 16%nat.
Proof. by rewrite glyphs_length, BootSha.sha256_len. Qed.

#[local] Strategy opaque [BootSha.sha256].

Lemma project_loop_step f t c sel k : c = k -> zlen sel < 60 ->
  project_loop (S f) t c sel =
  project_loop f t (wrap 32 (k + 1)) (sel ++ take (60 - length sel) (glyphs (BootSha.sha256 (t ++ be_bytes 4 k)))).
Proof. intros -> H. cbn [project_loop]. by rewrite (proj2 (Z.ltb_lt _ _)) by done. Qed.

Lemma project_loop_done f t c sel : 60 <= zlen sel -> project_loop (S f) t c sel = sel.
Proof. intros H. cbn [project_loop]. by rewrite (proj2 (Z.ltb_ge _ _)) by done. Qed.

Lemma project_60d_spec t : zlen t <= TUPLE_CAP -> project_60d t = projection t.
Proof.
  intros H. unfold project_60d. rewrite (proj2 (Z.ltb_ge _ _)) by done.
  unfold projection. cbn [flat_map].
  pose proof (digest_glyphs (t ++ be_bytes 4 0)) as L0. pose proof (digest_glyphs (t ++ be_bytes 4 1)) as L1.
  pose proof (digest_glyphs (t ++ be_bytes 4 2)) as L2. pose proof (digest_glyphs (t ++ be_bytes 4 3)) as L3.
  set (g0 := glyphs (BootSha.sha256 (t ++ be_bytes 4 0))) in *.
  set (g1 := glyphs (BootSha.sha256 (t ++ be_bytes 4 1))) in *.
  set (g2 := glyphs (BootSha.sha256 (t ++ be_bytes 4 2))) in *.
  set (g3 := glyphs (BootSha.sha256 (t ++ be_bytes 4 3))) in *.
  rewrite (project_loop_step 59 t 0 [] 0) by done. fold g0. rewrite (take_ge g0) by (cbn; lia). cbn [app].
  change (wrap 32 (0 + 1)) with 1. rewrite (project_loop_step 58 t 1 _ 1) by (done || (unfold zlen; lia)). fold g1.
  rewrite (take_ge g1) by lia. change (wrap 32 (1 + 1)) with 2.
  rewrite (project_loop_step 57 t 2 _ 2) by (done || (unfold zlen; rewrite length_app; lia)). fold g2.
  rewrite (take_ge g2) by (rewrite length_app; lia). change (wrap 32 (2 + 1)) with 3.
  rewrite (project_loop_step 56 t 3 _ 3) by (done || (unfold zlen; rewrite !length_app; lia)). fold g3.
  rewrite (project_loop_done 55) by (unfold zlen; rewrite !length_app, length_take, L0, L1, L2, L3; lia).
  clearbody g0 g1 g2 g3.
  rewrite app_nil_r, <- !app_assoc, !take_app, L0, L1, L2. cbn [Nat.sub].
  rewrite (take_ge g0), (take_ge g1), (take_ge g2) by lia. rewrite !length_app, L0, L1, L2. done.
Qed.

(** The projection glyph by glyph. *)
Definition ten_bits (h : bytes) (i : nat) : Z := (2 ^ 8 * h !!! (2 * i)%nat + h !!! (2 * i + 1)%nat) mod 2 ^ 10.

Lemma ten_bits_cons a b h i : ten_bits (a :: b :: h) (S i) = ten_bits h i.
Proof. unfold ten_bits. replace (2 * S i)%nat with (S (S (2 * i))) by lia. done. Qed.

Lemma glyphs_ten_bits n h : length h = (2 * n)%nat -> Forall is_byte h -> glyphs h = map (ten_bits h) (seq 0 n).
Proof.
  revert h. induction n as [|n IH]; intros h L B; [by destruct h|].
  destruct h as [|a [|b h]]; cbn in L; try lia. apply Forall_cons in B as [Ba [Bb B]%Forall_cons].
  cbn [glyphs seq map]. rewrite <- seq_shift, map_map, IH by (done || lia).
  f_equal; [|apply map_ext; intros i; by rewrite ten_bits_cons].
  unfold ten_bits. cbn. change 1023 with (Z.ones 10). rewrite Z.land_ones by lia.
  rewrite lor_low by (unfold is_byte in Bb; lia). f_equal. lia.
Qed.

Lemma sixty_chunks (g : nat -> nat -> Z) :
  take 60 (flat_map (fun k => map (g k) (seq 0 16)) [0; 1; 2; 3]%nat) =
  map (fun n => g (n / 16)%nat (n mod 16)%nat) (seq 0 60).
Proof. reflexivity. Qed.

Lemma projection_glyphs t : projection t = map (identity_glyph t) (seq 0 60).
Proof.
  etransitivity; [|exact (sixty_chunks (fun k i => ten_bits (BootSha.sha256 (t ++ be_bytes 4 (Z.of_nat k))) i))].
  unfold projection. cbn [flat_map]. change (Z.of_nat 0) with 0. change (Z.of_nat 1) with 1.
  change (Z.of_nat 2) with 2. change (Z.of_nat 3) with 3.
  rewrite !(glyphs_ten_bits 16) by (apply BootSha.sha256_len || apply BootSha.sha256_all_bytes). done.
Qed.

Lemma identity_glyph_range hw n : 0 <= identity_glyph hw n < 2 ^ 10.
Proof. apply Z.mod_pos_bound. lia. Qed.

Lemma device_digest_identity t : zlen (t_bytes t) <= TUPLE_CAP -> device_digest_of t = identity (t_bytes t).
Proof.
  intros H. unfold device_digest_of, identity. rewrite project_60d_spec, projection_glyphs by done.
  apply (f_equal BootSha.sha256). unfold coord_bytes. rewrite !flat_map_concat_map, map_map.
  apply (f_equal (@concat Z)), map_ext. intros n. generalize (identity_glyph_range (t_bytes t) n).
  generalize (identity_glyph (t_bytes t) n). intros g R.
  change 255 with (Z.ones 8). rewrite !Z.land_ones, Z.shiftr_div_pow2 by lia.
  rewrite (Z.mod_small (_ / _)); [done|].
  split; [apply Z.div_pos; lia | apply Z.div_lt_upper_bound; lia].
Qed.

(** ** The identity row *)

Lemma projection_length t : length (projection t) = 60%nat.
Proof.
  unfold projection. cbn [flat_map]. rewrite length_take, !length_app, !digest_glyphs. reflexivity.
Qed.

Lemma projection_range t : Forall (fun g => 0 <= g <= 1023) (projection t).
Proof.
  unfold projection. apply Forall_take. cbn [flat_map].
  repeat (apply Forall_app; split); try apply glyphs_range. constructor.
Qed.

Lemma coord_prefix_bounds coord :
  length coord = 60%nat -> Forall (fun g => 0 <= g <= 1023) coord ->
  11 <= zlen (concat (coord_prefix coord)) <= 29.
Proof.
  intros L F. do 6 (destruct coord as [|? coord]; [discriminate L|]).
  assert (G : forall g, 0 <= g <= 1023 -> 1 <= zlen (put_u32 g) <= 4).
  { intros g Hg. apply (put_u32_length g 4); [|lia]. change (10 ^ Z.of_nat 4) with 10000. lia. }
  repeat (inversion F as [|? ? ?%G F']; subst; clear F; rename F' into F).
  unfold coord_prefix. replace (take 6 _) with [z; z0; z1; z2; z3; z4] by reflexivity.
  cbn [map flat_map app concat].
  rewrite !zlen_app. change (zlen (lit ".")) with 1. change (zlen (@nil Z)) with 0. lia.
Qed.

Lemma hex_of_zlen l : zlen (hex_of l) = 2 * zlen l.
Proof. unfold zlen. rewrite hex_of_length. lia. Qed.

Lemma sha256_zlen x : zlen (BootSha.sha256 x) = 32.
Proof. unfold zlen. by rewrite BootSha.sha256_len. Qed.

Lemma digest8_zlen x : zlen (take 8 (BootSha.sha256 x)) = 8.
Proof. unfold zlen. by rewrite length_take, BootSha.sha256_len. Qed.

Lemma flag_zlen b : zlen (flag b) = 1.
Proof. by destruct b. Qed.

Lemma bootpid_length t seat : zlen (t_bytes t) <= TUPLE_CAP -> 0 <= count t <= 64 ->
  347 + 2 * zlen seat <= zlen (concat (bootpid_parts t seat)) <= 366 + 2 * zlen seat.
Proof.
  intros Ht Hc. unfold bootpid_parts. cbv zeta. rewrite project_60d_spec by done.
  pose proof (coord_prefix_bounds (projection (t_bytes t)) (projection_length _) (projection_range _)) as P.
  assert (C : 1 <= zlen (put_u32 (count t)) <= 2).
  { apply (put_u32_length (count t) 2); [|lia]. change (10 ^ Z.of_nat 2) with 100. lia. }
  rewrite !concat_app, !zlen_app. cbn [concat]. rewrite !zlen_app, !hex_of_zlen, !flag_zlen.
  change (zlen (@nil Z)) with 0.
  unfold device_digest_of. rewrite !sha256_zlen, !digest8_zlen.
  repeat match goal with |- context [zlen (lit ?s)] => let n := eval vm_compute in (zlen (lit s)) in
    change (zlen (lit s)) with n end.
  change (zlen crlf) with 2. lia.
Qed.

Lemma emit_fits t seat : zlen (t_bytes t) <= TUPLE_CAP -> 0 <= count t <= 64 -> zlen seat <= 32 ->
  emit_device_pid t seat = CRet (concat (bootpid_parts t seat), device_digest_of t).
Proof.
  intros Ht Hc Hs. pose proof (bootpid_length t seat Ht Hc). unfold emit_device_pid.
  rewrite put_all_fits by (unfold ROW_CAP; lia). done.
Qed.

Lemma emit_overflows t seat : zlen (t_bytes t) <= TUPLE_CAP -> 0 <= count t <= 64 -> 51 <= zlen seat ->
  emit_device_pid t seat = CPanic.
Proof.
  intros Ht Hc Hs. pose proof (bootpid_length t seat Ht Hc). unfold emit_device_pid.
  rewrite put_all_spec. cbn [app]. rewrite (proj2 (Z.leb_gt _ _)) by (unfold ROW_CAP; lia). done.
Qed.

(** What follows the walk in [pci_scan]. *)
Definition finish (seat : bytes) (sc : scan_state * bool) : comp unit (list bytes * HwSummary) :=
  let '(s, capped) := sc in
  '(row, digest) ← emit_device_pid (tuple s) seat;
  let note := if capped : bool then lit "  hwinv . (capped at 64 device-functions)" ++ crlf
              else lit "  hwinv . PCI scan complete" ++ crlf in
  mret (serial s ++ [note; row], mkSummary digest (t_rst_vmd (tuple s)) (t_ahci (tuple s))).

Definition scan_start : scan_state :=
  mkScan [lit "  hwinv . PCI enumeration (0xCF8/0xCFC, read-only)" ++ crlf] new.

Lemma pci_scan_finish pci seat :
  pci_scan pci seat = (scan_buses pci scan_start (seqZ 0 256) ≫= finish seat).
Proof. reflexivity. Qed.

Lemma finish_fits seat s capped :
  zlen (t_bytes (tuple s)) <= TUPLE_CAP -> 0 <= count (tuple s) <= 64 -> zlen seat <= 32 ->
  exists note, zlen note <= ROW_CAP /\ finish seat (s, capped) =
    CRet (serial s ++ [note; concat (bootpid_parts (tuple s) seat)],
          mkSummary (device_digest_of (tuple s)) (t_rst_vmd (tuple s)) (t_ahci (tuple s))).
Proof.
  intros Ht Hc Hs. unfold finish. rewrite emit_fits by done. cbn [mbind comp_bind mret comp_ret].
  eexists. split; [|reflexivity]. destruct capped; by vm_compute.
Qed.

Lemma finish_overflows seat s capped :
  zlen (t_bytes (tuple s)) <= TUPLE_CAP -> 0 <= count (tuple s) <= 64 -> 51 <= zlen seat ->
  finish seat (s, capped) = CPanic.
Proof. intros Ht Hc Hs. unfold finish. by rewrite emit_overflows. Qed.

Section ScanTotal.
Context (pci : Z -> Z).

(** The functions the scan sees. *)
Definition scanned : list pci_fn := take 64 (present pci).

Lemma scanned_tuple : zlen (t_bytes (tuple_of pci scanned)) <= TUPLE_CAP /\ 0 <= count (tuple_of pci scanned) <= 64.
Proof.
  cbn [t_bytes count tuple_of]. rewrite entries_length. unfold scanned, zlen. rewrite length_take.
  unfold TUPLE_CAP. lia.
Qed.

Lemma absorb_start fs :
  absorb pci scan_start fs =
  (mkScan (serial scan_start ++ map (fn_line pci) (take 64 fs)) (tuple_of pci (take 64 fs)), 64 <=? zlen fs).
Proof. by rewrite (absorb_spec pci _ []) by (done || by vm_compute). Qed.

Lemma scan_all :
  scan_buses pci scan_start (seqZ 0 256) =
  CRet (mkScan (serial scan_start ++ map (fn_line pci) scanned) (tuple_of pci scanned), 64 <=? zlen (present pci)).
Proof.
  rewrite scan_buses_absorb by (apply Forall_forall; intros b Hb%elem_of_seqZ; lia).
  by rewrite <- present_slots, absorb_start.
Qed.

End ScanTotal.

(** The scan completes, and what it reports. *)
Lemma pci_scan_total pci seat : zlen seat <= 32 -> exists rows hw, let t := tuple_of pci (scanned pci) in
  pci_scan pci seat = CRet (rows, hw) /\
  device_digest hw = device_digest_of t /\ rst_vmd hw = t_rst_vmd t /\ ahci hw = t_ahci t /\
  length rows = (length (scanned pci) + 3)%nat /\ Forall (fun r => zlen r <= ROW_CAP) rows.
Proof.
  intros Hs. destruct (scanned_tuple pci) as [Ht Hc]. rewrite pci_scan_finish, scan_all. cbn [mbind comp_bind].
  set (fs := scanned pci) in *. clearbody fs. generalize (64 <=? zlen (present pci)) as capped. intros capped.
  destruct (finish_fits seat (mkScan (serial scan_start ++ map (fn_line pci) fs) (tuple_of pci fs)) capped)
    as (note & Hn & E); [done..|].
  eexists _, _. split; [exact E|]. cbn [serial scan_start tuple]. split_and!; try done.
  - rewrite !length_app, length_map. cbn [length]. lia.
  - pose proof (bootpid_length _ seat Ht Hc) as B. apply Forall_app. split; [apply Forall_app; split|].
    + constructor; [by vm_compute | done].
    + apply Forall_map, Forall_forall. intros f _. transitivity 41; [apply Z.eq_le_incl; reflexivity | by vm_compute].
    + constructor; [done|]. constructor; [unfold ROW_CAP; lia | done].
Qed.

(** ** Theorems *)

(** C36. On any hardware, with a seat label the build script accepts (at most 32
    bytes), the scan completes without overrunning a row buffer and sees
    exactly the first 64 functions that are there, in bus, device, function
    order: a function is there when its vendor is not 0xFFFF and it is
    function 0, or function 0 answers too with bit 7 of its header type set.
    The tuple holds all their six-byte entries (the 512-byte cap truncates
    nothing), the gates tell whether one of them is the RST/VMD or an AHCI
    controller, and the identity is the digest of the sixty ten-bit glyphs
    of the counter-salted digests of that tuple.  A label of 51 bytes or
    more always overruns the identity row. *)
Theorem pci_scan_spec pci seat :
  (zlen seat <= 32 -> exists rows s, pci_scan pci seat = CRet (rows, s) /\
     device_digest s = identity (flat_map (fn_entry pci) (scanned pci)) /\
     (rst_vmd s = true <-> exists f, f ∈ scanned pci /\ fn_vendor pci f = 0x8086 /\ fn_device pci f = 0x282A) /\
     (ahci s = true <-> exists f, f ∈ scanned pci /\ fn_class pci f = 1 /\ fn_subclass pci f = 6 /\ fn_prog_if pci f = 1) /\
     length rows = (length (scanned pci) + 3)%nat /\ Forall (fun r => zlen r <= 448) rows) /\
  (51 <= zlen seat -> pci_scan pci seat = CPanic).
Proof.
  destruct (scanned_tuple pci) as [Ht Hc]. split; intros Hs.
  - destruct (pci_scan_total pci seat Hs) as (rows & hw & E & Ed & Ev & Ea & Hl & Hf).
    exists rows, hw. split; [exact E|]. rewrite Ed, Ev, Ea. split_and!; [| | |done|done].
    + by apply device_digest_identity.
    + cbn [t_rst_vmd tuple_of]. rewrite existsb_exists. split; intros (f & Hf' & R); exists f.
      * apply andb_true_iff in R as [R1%Z.eqb_eq R2%Z.eqb_eq]. split; [by apply list_elem_of_In | done].
      * destruct R as [-> ->]. split; [by apply list_elem_of_In | done].
    + cbn [t_ahci tuple_of]. rewrite existsb_exists. split; intros (f & Hf' & R); exists f.
      * rewrite !andb_true_iff, !Z.eqb_eq in R. destruct R as [[R1 R2] R3]. split; [by apply list_elem_of_In | done].
      * destruct R as (-> & -> & ->). split; [by apply list_elem_of_In | done].
  - rewrite pci_scan_finish, scan_all. cbn [mbind comp_bind]. by apply finish_overflows.
Qed.
