(* ===== verification/BootChain.v ===== *)
(** * The machine identity chain ([kernel/boot/build.rs], [rtc.rs],
      [bootproj.rs], [driver_rst_vmd.rs], [driver_ahci.rs], [main.rs])

    The seat label the build accepts, the clock read at boot, the per-boot
    identity and the driver rows, composed with the PCI inventory in the
    order [efi_main] runs them.  The CMOS and the time stamp counter are
    parameters. *)

From S2P Require Import Prelude Sha256 Hwinv.

Module BootChain.

Import Hwinv.
#[local] Open Scope Z_scope.

(** *** The build-time seat ([build.rs], after [trim]) *)

Definition seat_char (b : Z) : bool := is_ascii_lowercase b || is_ascii_digit b || (b =? 45).

Definition seat_accepted (seat : bytes) : bool :=
  negb (zlen seat =? 0) && (zlen seat <=? 32) && forallb seat_char seat.

(** *** The clock *)

Record BootTime := mkTime { year : Z; month : Z; day : Z; hour : Z; min : Z; sec : Z; tsc : Z }.

Definition bcd_to_bin (v : Z) : Z := wrap 8 (Z.land v 0x0F + wrap 8 (Z.shiftr v 4 * 10)).

Definition put_2 (v : Z) : bytes := [48 + (v / 10) mod 10; 48 + v mod 10].

Definition put_u4 (v : Z) : bytes :=
  [48 + wrap 8 ((v / 1000) mod 10); 48 + wrap 8 ((v / 100) mod 10); 48 + wrap 8 ((v / 10) mod 10);
   48 + wrap 8 (v mod 10)].

(** The twenty bytes [write_utc] writes. *)
Definition write_utc (t : BootTime) : bytes :=
  put_u4 (year t) ++ lit "-" ++ put_2 (month t) ++ lit "-" ++ put_2 (day t) ++ lit "T"
  ++ put_2 (hour t) ++ lit ":" ++ put_2 (min t) ++ lit ":" ++ put_2 (sec t) ++ lit "Z".

(** Read number [n] of register [reg] gives [cmos n reg]; every access
    counts.  The wait stops when bit 7 of status A clears or after
    [fuel] polls. *)
Fixpoint wait_update (cmos : nat -> Z -> Z) (n fuel : nat) : nat :=
  match fuel with
  | O => S n
  | S f => if negb (Z.land (wrap 8 (cmos n 0x0A)) 0x80 =? 0) then wait_update cmos (S n) f else S n
  end.

Definition WAIT_POLLS : Z := 1000000.

Definition to_24h (is_12h pm : bool) (hour : Z) : Z :=
  if is_12h then
    let h := if hour =? 12 then 0 else hour in
    if pm then wrap 8 (h + 12) else h
  else hour.

(** The fields from the eight registers read after the wait, the first
    access being number [n]. *)
Definition decode_clock (cmos : nat -> Z -> Z) (n : nat) (tsc : Z) : BootTime :=
  let rd i reg := wrap 8 (cmos (n + i)%nat reg) in
  let raw_sec := rd 0%nat 0x00 in let raw_min := rd 1%nat 0x02 in let raw_hour := rd 2%nat 0x04 in
  let raw_day := rd 3%nat 0x07 in let raw_month := rd 4%nat 0x08 in let raw_year := rd 5%nat 0x09 in
  let raw_century := rd 6%nat 0x32 in let status_b := rd 7%nat 0x0B in
  let is_bcd := Z.land status_b 0x04 =? 0 in
  let is_12h := Z.land status_b 0x02 =? 0 in
  let conv v := if is_bcd then bcd_to_bin v else v in
  let pm := is_12h && negb (Z.land raw_hour 0x80 =? 0) in
  let yy := conv raw_year in
  let century := if negb (raw_century =? 0) then conv raw_century else 20 in
  mkTime (wrap 16 (wrap 16 (century * 100) + yy)) (conv raw_month) (conv raw_day)
    (to_24h is_12h pm (conv (Z.land raw_hour 0x7F))) (conv raw_min) (conv raw_sec) tsc.

Definition boottime_parts (t : BootTime) : list bytes :=
  [lit "  BOOTTIME|utc="; write_utc t; lit "|tsc="; put_u64 (tsc t); lit "|src=cmos_rtc+tsc|e=0|json=0"; crlf].

(** The clock and the row printed. *)
Definition read_boot_time (cmos : nat -> Z -> Z) (tsc : Z) : comp unit (BootTime * bytes) :=
  let t := decode_clock cmos (wait_update cmos 0 (Z.to_nat WAIT_POLLS)) tsc in
  row ← put_all 96 [] (boottime_parts t); mret (t, row).

(** *** The per-boot identity *)

Definition preimage (device_digest : bytes) (t : BootTime) : list bytes :=
  [device_digest; write_utc t; be_bytes 8 (tsc t)].

Definition bootproj_parts (device_digest boot_pid : bytes) (t : BootTime) : list bytes :=
  [lit "  BOOTPROJ|boot_pid="; hex_of boot_pid; lit "|device_pid="; hex_of (take 8 device_digest); lit "|utc=";
   write_utc t; lit "|volatile=1|stable_ref=device_pid|e=0|fire=0|json=0"; crlf].

(** [emit]: the eight-byte boot pid and the row. *)
Definition emit (device_digest : bytes) (t : BootTime) : comp unit (bytes * bytes) :=
  pre ← put_all 72 [] (preimage device_digest t);
  let boot_pid := take 8 (BootSha.sha256 pre) in
  row ← put_all 160 [] (bootproj_parts device_digest boot_pid t);
  mret (boot_pid, row).

(** *** The driver rows *)

Definition driver_parts (head : string) (hit : bool) (yes no : string) (hw : HwSummary) (boot_pid : bytes)
    (t : BootTime) (seat : bytes) : list bytes :=
  [lit head; hex_of (take 8 (device_digest hw)); lit "|boot_pid="; hex_of boot_pid; lit "|utc="; write_utc t;
   lit "|seat="; seat; lit "|status="; (if hit then lit yes else lit no); lit "|writes=0|e=0|fire=0|json=0"; crlf].

Definition probe_rst_vmd (hw : HwSummary) (boot_pid : bytes) (t : BootTime) (seat : bytes) : comp unit bytes :=
  put_all 256 [] (driver_parts "  BOOTDRIVER|driver=intel-rst-vmd|match=8086:282A|device_pid=" (rst_vmd hw)
    "GATED_MATCH|vmd_walk=TODO_next_step" "NOT_APPLICABLE|no_8086:282A_on_this_device" hw boot_pid t seat).

Definition probe_ahci (hw : HwSummary) (boot_pid : bytes) (t : BootTime) (seat : bytes) : comp unit bytes :=
  put_all 256 [] (driver_parts "  BOOTDRIVER|driver=sata-ahci|match=class01:06:01|device_pid=" (ahci hw)
    "GATED_MATCH|ahci_bringup=TODO_next_step" "NOT_APPLICABLE|no_sata_ahci_on_this_device" hw boot_pid t seat).

(** The five calls of [efi_main]; rows printed, clock and boot pid. *)
Definition identity_chain (pci : Z -> Z) (cmos : nat -> Z -> Z) (tsc : Z) (seat : bytes) :
    comp unit (list bytes * HwSummary * BootTime * bytes) :=
  '(rows, hw) ← pci_scan pci seat;
  '(t, time_row) ← read_boot_time cmos tsc;
  '(boot_pid, proj_row) ← emit (device_digest hw) t;
  vmd_row ← probe_rst_vmd hw boot_pid t seat;
  ahci_row ← probe_ahci hw boot_pid t seat;
  mret (rows ++ [time_row; proj_row; vmd_row; ahci_row], hw, t, boot_pid).

(** *** What the clock's registers hold at a given time *)

Definition bin_to_bcd (v : Z) : Z := v / 10 * 16 + v mod 10.

Record ClockMode := mkMode { binary : bool; hours24 : bool; century_register : bool }.

Definition field (m : ClockMode) (v : Z) : Z := if binary m then v else bin_to_bcd v.

Definition hour_field (m : ClockMode) (h : Z) : Z :=
  if hours24 m then field m h
  else
    let h12 := if h mod 12 =? 0 then 12 else h mod 12 in
    field m h12 + (if 12 <=? h then 128 else 0).

Definition clock_registers (m : ClockMode) (t : BootTime) (reg : Z) : Z :=
  if reg =? 0x00 then field m (sec t)
  else if reg =? 0x02 then field m (min t)
  else if reg =? 0x04 then hour_field m (hour t)
  else if reg =? 0x07 then field m (day t)
  else if reg =? 0x08 then field m (month t)
  else if reg =? 0x09 then field m (year t mod 100)
  else if reg =? 0x32 then (if century_register m then field m (year t / 100) else 0)
  else if reg =? 0x0B then (if binary m then 4 else 0) + (if hours24 m then 2 else 0)
  else 0.

End BootChain.

Import Hwinv BootChain.

#[local] Open Scope Z_scope.

(** ** The clock *)

(** A calendar time the registers can hold; without a century register the
    year must be in the century the decoder assumes. *)
Definition clock_ok (m : ClockMode) (t : BootTime) : Prop :=
  0 <= sec t < 60 /\ 0 <= min t < 60 /\ 0 <= hour t < 24 /\ 1 <= day t <= 31 /\ 1 <= month t <= 12 /\
  100 <= year t < 10000 /\ (century_register m = false -> 2000 <= year t < 2100).

Lemma z_forall (n : nat) (P : Z -> bool) v :
  forallb (fun k => P (Z.of_nat k)) (seq 0 n) = true -> 0 <= v < Z.of_nat n -> P v = true.
Proof.
  intros H Hv. rewrite forallb_forall in H. specialize (H (Z.to_nat v)).
  rewrite Z2Nat.id in H by lia. apply H, in_seq. lia.
Qed.

Lemma field_roundtrip m v : 0 <= v < 100 ->
  (if negb (binary m) then bcd_to_bin (wrap 8 (field m v)) else wrap 8 (field m v)) = v.
Proof.
  intros Hv. unfold field. destruct (binary m); cbn [negb].
  - apply Z.eqb_eq. apply (z_forall 100 (fun v => wrap 8 v =? v)); [by vm_compute | done].
  - apply Z.eqb_eq. apply (z_forall 100 (fun v => bcd_to_bin (wrap 8 (bin_to_bcd v)) =? v)); [by vm_compute | done].
Qed.

(** The decoded hour of the register contents for [h]. *)
Definition hour_read (m : ClockMode) (h : Z) : Z :=
  to_24h (negb (hours24 m)) (negb (hours24 m) && negb (Z.land (wrap 8 (hour_field m h)) 0x80 =? 0))
    (if negb (binary m) then bcd_to_bin (Z.land (wrap 8 (hour_field m h)) 0x7F)
     else Z.land (wrap 8 (hour_field m h)) 0x7F).

Lemma hour_roundtrip m h : 0 <= h < 24 -> hour_read m h = h.
Proof.
  intros Hh. apply Z.eqb_eq. apply (z_forall 24 (fun h => hour_read m h =? h)); [|done].
  destruct m as [[] [] []]; by vm_compute.
Qed.

Lemma century_nonzero m c : 1 <= c < 100 -> (wrap 8 (field m c) =? 0) = false.
Proof.
  intros Hc. assert (F : (c =? 0) || negb (wrap 8 (field m c) =? 0) = true).
  { apply (z_forall 100 (fun v => (v =? 0) || negb (wrap 8 (field m v) =? 0))); [|lia].
    destruct m as [[] b c']; by vm_compute. }
  rewrite (proj2 (Z.eqb_neq c 0)) in F by lia. by apply negb_true_iff in F.
Qed.

Lemma status_bits m :
  let b := wrap 8 ((if binary m then 4 else 0) + (if hours24 m then 2 else 0)) in
  (Z.land b 0x04 =? 0) = negb (binary m) /\ (Z.land b 0x02 =? 0) = negb (hours24 m).
Proof. by destruct m as [[] [] c]. Qed.

Lemma wait_ready cmos n fuel : Z.land (wrap 8 (cmos n 0x0A)) 0x80 = 0 -> wait_update cmos n fuel = S n.
Proof. intros H. destruct fuel; cbn [wait_update]; [done|]. by rewrite H. Qed.

(** ** The UTC text *)

Lemma write_utc_zlen t : zlen (write_utc t) = 20.
Proof. reflexivity. Qed.

Definition fields_ok (t : BootTime) : Prop :=
  0 <= year t < 10000 /\ 0 <= month t < 100 /\ 0 <= day t < 100 /\ 0 <= hour t < 100 /\ 0 <= min t < 100 /\
  0 <= sec t < 100.

Lemma put_2_inj a b : 0 <= a < 100 -> 0 <= b < 100 -> put_2 a = put_2 b -> a = b.
Proof.
  intros Ha Hb [= E1 E2]. pose proof (Z.div_mod a 10). pose proof (Z.div_mod b 10).
  rewrite !(Z.mod_small (_ / 10)) in E1 by (split; [apply Z.div_pos; lia | apply Z.div_lt_upper_bound; lia]). lia.
Qed.

Lemma put_u4_inj a b : 0 <= a < 10000 -> 0 <= b < 10000 -> put_u4 a = put_u4 b -> a = b.
Proof.
  intros Ha Hb [= E1 E2 E3 E4].
  assert (W : forall z, wrap 8 (z mod 10) = z mod 10).
  { intros z. apply wrap_id. pose proof (Z.mod_pos_bound z 10). unfold is_u. change (2 ^ 8) with 256. lia. }
  rewrite !W in *.
  assert (D : forall z, 0 <= z < 10000 -> z = (z / 1000 mod 10) * 1000 + (z / 100 mod 10) * 100 + (z / 10 mod 10) * 10 + z mod 10).
  { intros z Hz. rewrite (Z.mod_small (z / 1000)) by (split; [apply Z.div_pos; lia | apply Z.div_lt_upper_bound; lia]).
    pose proof (Z.div_mod z 10). pose proof (Z.div_mod (z / 10) 10). pose proof (Z.div_mod (z / 100) 10).
    rewrite !Z.div_div in * by lia. change (10 * 10) with 100 in *. change (100 * 10) with 1000 in *. lia. }
  rewrite (D a Ha), (D b Hb). lia.
Qed.

Lemma write_utc_inj t u : fields_ok t -> fields_ok u -> write_utc t = write_utc u ->
  year t = year u /\ month t = month u /\ day t = day u /\ hour t = hour u /\ min t = min u /\ sec t = sec u.
Proof.
  intros (Y & M & D & Hr & Mi & S) (Y' & M' & D' & Hr' & Mi' & S') E. unfold write_utc in E.
  repeat match type of E with _ ++ _ = _ ++ _ =>
    let F := fresh "F" in apply app_eq_len in E as [F E]; [|reflexivity] end.
  apply put_u4_inj in F; [|done..]. apply put_2_inj in F1, F3, F5, F7, F9; done.
Qed.

(** ** Row lengths *)

Lemma put_u64_zlen x : is_u 64 x -> zlen (put_u64 x) <= 20.
Proof.
  intros [H0 H]. unfold put_u64. destruct (x =? 0); [by vm_compute|].
  unfold zlen. rewrite length_rev. pose proof (tmp_digits_length 20 x H0). lia.
Qed.

Ltac lits := repeat match goal with |- context [zlen (lit ?s)] =>
  let n := eval vm_compute in (zlen (lit s)) in change (zlen (lit s)) with n end.

Lemma boottime_fits t : is_u 64 (tsc t) -> zlen (concat (boottime_parts t)) <= 96.
Proof.
  intros H%put_u64_zlen. unfold boottime_parts. cbn [concat]. rewrite !zlen_app, write_utc_zlen. lits.
  change (zlen (@nil Z)) with 0. change (zlen crlf) with 2. lia.
Qed.

Lemma bootproj_fits d p t : zlen d = 32 -> zlen p = 8 -> zlen (concat (bootproj_parts d p t)) <= 160.
Proof.
  intros Hd Hp. unfold bootproj_parts. cbn [concat]. rewrite !zlen_app, write_utc_zlen, !hex_of_zlen, Hp. lits.
  assert (zlen (take 8 d) = 8) as -> by (unfold zlen in *; rewrite length_take; lia).
  change (zlen (@nil Z)) with 0. change (zlen crlf) with 2. lia.
Qed.

Lemma driver_fits head hit yes no hw p t seat :
  zlen (device_digest hw) = 32 -> zlen p = 8 -> zlen seat <= 32 -> zlen (lit head) <= 61 ->
  zlen (lit yes) <= 42 -> zlen (lit no) <= 42 -> zlen (concat (driver_parts head hit yes no hw p t seat)) <= 256.
Proof.
  intros Hd Hp Hs Hh Hy Hn. unfold driver_parts. cbn [concat]. rewrite !zlen_app, write_utc_zlen, !hex_of_zlen, Hp.
  assert (zlen (take 8 (device_digest hw)) = 8) as -> by (unfold zlen in *; rewrite length_take; lia).
  assert (zlen (if hit then lit yes else lit no) <= 42) by by destruct hit.
  generalize dependent (lit head). generalize dependent (if hit then lit yes else lit no). intros w Hw h Hh.
  lits. change (zlen (@nil Z)) with 0. change (zlen crlf) with 2. lia.
Qed.

#[local] Strategy opaque [BootSha.sha256].

Lemma CRet_fst {A B} (a c : A) (b d : B) : @CRet unit _ (a, b) = CRet (c, d) -> a = c.
Proof. by intros [= -> _]. Qed.

(** ** Assembling the clock *)

Lemma wait_reaches cmos k fuel n :
  (forall i, (i < k)%nat -> Z.land (wrap 8 (cmos (n + i)%nat 0x0A)) 0x80 <> 0) ->
  Z.land (wrap 8 (cmos (n + k)%nat 0x0A)) 0x80 = 0 -> (k <= fuel)%nat ->
  wait_update cmos n fuel = (n + S k)%nat.
Proof.
  revert fuel n. induction k as [|k IH]; intros fuel n Hbusy Hready Hk.
  - rewrite Nat.add_0_r in Hready. rewrite wait_ready by done. lia.
  - destruct fuel as [|fuel]; [lia|]. cbn [wait_update].
    pose proof (Hbusy 0%nat ltac:(lia)) as B. rewrite Nat.add_0_r in B.
    rewrite (proj2 (Z.eqb_neq _ _) B). cbn [negb]. rewrite (IH fuel (S n)).
    + lia.
    + intros i Hi. replace (S n + i)%nat with (n + S i)%nat by lia. apply Hbusy. lia.
    + by replace (S n + k)%nat with (n + S k)%nat by lia.
    + lia.
Qed.

Lemma decode_clock_roundtrip m t cmos n :
  clock_ok m t -> (forall i reg, (n <= i)%nat -> cmos i reg = clock_registers m t reg) ->
  decode_clock cmos n (tsc t) = t.
Proof.
  intros (Hs & Hmi & Hh & Hd & Hmo & Hy & Hc) Hr. unfold decode_clock. rewrite !Hr by lia.
  change (clock_registers m t 0x00) with (field m (sec t)).
  change (clock_registers m t 0x02) with (field m (min t)).
  change (clock_registers m t 0x04) with (hour_field m (hour t)).
  change (clock_registers m t 0x07) with (field m (day t)).
  change (clock_registers m t 0x08) with (field m (month t)).
  change (clock_registers m t 0x09) with (field m (year t mod 100)).
  change (clock_registers m t 0x32) with (if century_register m then field m (year t / 100) else 0).
  change (clock_registers m t 0x0B) with ((if binary m then 4 else 0) + (if hours24 m then 2 else 0)).
  destruct (status_bits m) as [S1 S2]. cbv zeta in S1, S2 |- *. rewrite S1, S2.
  pose proof (hour_roundtrip m (hour t) Hh) as R. unfold hour_read in R. rewrite R.
  pose proof (Z.mod_pos_bound (year t) 100). pose proof (Z.div_mod (year t) 100).
  rewrite !field_roundtrip by lia.
  assert (C : (if negb (wrap 8 (if century_register m then field m (year t / 100) else 0) =? 0)
               then if negb (binary m) then bcd_to_bin (wrap 8 (if century_register m then field m (year t / 100) else 0))
                    else wrap 8 (if century_register m then field m (year t / 100) else 0)
               else 20) = year t / 100).
  { destruct (century_register m) eqn:Ec.
    - assert (1 <= year t / 100 < 100) by lia. rewrite century_nonzero by done. cbn [negb].
      by rewrite field_roundtrip by lia.
    - change (wrap 8 0 =? 0) with true. cbn [negb]. specialize (Hc eq_refl). lia. }
  rewrite C. rewrite (wrap_id 16 (year t / 100 * 100)) by (unfold is_u; change (2 ^ 16) with 65536; lia).
  rewrite (wrap_id 16) by (unfold is_u; change (2 ^ 16) with 65536; lia).
  destruct t as [y mo d h mi s ts]. cbn [year month day hour min sec tsc] in *. f_equal. lia.
Qed.

Lemma read_boot_time_eq cmos ts : is_u 64 ts ->
  let t := decode_clock cmos (wait_update cmos 0 (Z.to_nat WAIT_POLLS)) ts in
  read_boot_time cmos ts = CRet (t, concat (boottime_parts t)).
Proof.
  intros H t. unfold read_boot_time. fold t. rewrite put_all_fits by by apply boottime_fits. done.
Qed.

Lemma emit_eq d t : zlen d = 32 ->
  exists pid, pid = take 8 (BootSha.sha256 (concat (preimage d t))) /\ zlen pid = 8 /\
    emit d t = CRet (pid, concat (bootproj_parts d pid t)).
Proof.
  intros Hd. eexists. split; [reflexivity|]. split; [apply digest8_zlen|]. unfold emit.
  rewrite put_all_fits.
  - cbn [mbind comp_bind]. rewrite put_all_fits by (apply bootproj_fits; [done | apply digest8_zlen]). done.
  - unfold preimage. cbn [concat]. rewrite !zlen_app, Hd, write_utc_zlen. unfold zlen. rewrite be_bytes_length. done.
Qed.

(** ** Theorems *)

(** The clock read at boot is right: for every time the CMOS clock can
    hold, in binary or BCD, 12- or 24-hour mode, with or without a century
    register, if the update flag is set for at most a million polls and the
    registers are stable afterwards, the boot clock is that time (noon and
    midnight included). *)
Theorem clock_roundtrip m t cmos k :
  clock_ok m t -> is_u 64 (tsc t) -> (k <= Z.to_nat WAIT_POLLS)%nat ->
  (forall i, (i < k)%nat -> Z.land (wrap 8 (cmos i 0x0A)) 0x80 <> 0) ->
  (forall i reg, (k <= i)%nat -> cmos i reg = clock_registers m t reg) ->
  exists row, read_boot_time cmos (tsc t) = CRet (t, row).
Proof.
  intros Ht Hts Hk Hbusy Hstable. eexists. rewrite read_boot_time_eq by done.
  rewrite (wait_reaches cmos k) by (rewrite ?Hstable by lia; done).
  rewrite (decode_clock_roundtrip m t); [reflexivity | done |]. intros i reg Hi. apply Hstable. lia.
Qed.

(** With a seat the build accepts, the whole identity chain (inventory,
    clock, boot identity, both driver gates) runs to the end on any
    hardware, whatever its registers answer: no row overruns its buffer,
    one row is printed per scanned function plus seven, and the boot
    identity is the digest prefix of device digest, UTC text and tick. *)
Theorem identity_chain_total pci cmos ts seat :
  seat_accepted seat = true -> is_u 64 ts ->
  exists rows hw t pid, identity_chain pci cmos ts seat = CRet (rows, hw, t, pid) /\
    pci_scan pci seat = CRet (take (length (scanned pci) + 3) rows, hw) /\
    length rows = (length (scanned pci) + 7)%nat /\ Forall (fun r => zlen r <= ROW_CAP) rows /\
    tsc t = ts /\ pid = take 8 (BootSha.sha256 (device_digest hw ++ write_utc t ++ be_bytes 8 ts)).
Proof.
  unfold seat_accepted. intros [[_ Hs%Z.leb_le]%andb_true_iff _]%andb_true_iff Hts.
  destruct (pci_scan_total pci seat Hs) as (rows & hw & E & Hd & _ & _ & Hl & Hf).
  assert (Ld : zlen (device_digest hw) = 32) by (rewrite Hd; apply sha256_zlen). clear Hd.
  pose proof (read_boot_time_eq cmos ts Hts) as R. cbv zeta in R.
  set (t := decode_clock cmos _ ts) in R.
  destruct (emit_eq (device_digest hw) t Ld) as (pid & Ep & Lp & Ee).
  unfold identity_chain. rewrite E. cbn [mbind comp_bind]. rewrite R. cbn [mbind comp_bind]. rewrite Ee.
  cbn [mbind comp_bind]. unfold probe_rst_vmd, probe_ahci.
  rewrite put_all_fits by (apply driver_fits; first [done | by vm_compute]). cbn [mbind comp_bind].
  rewrite put_all_fits by (apply driver_fits; first [done | by vm_compute]). cbn [mbind comp_bind mret comp_ret].
  eexists _, hw, t, pid. split; [reflexivity|]. split_and!.
  - rewrite <- Hl, take_app_length. done.
  - rewrite length_app, Hl. cbn [length]. lia.
  - apply Forall_app. split; [done|]. unfold ROW_CAP.
    assert (B : is_u 64 (tsc t)) by exact Hts.
    pose proof (boottime_fits t B). pose proof (bootproj_fits (device_digest hw) pid t Ld Lp).
    repeat constructor; [lia | lia | |]; (etransitivity; [apply driver_fits; first [done | by vm_compute] | lia]).
  - done.
  - rewrite Ep. unfold preimage. cbn [concat]. by rewrite app_nil_r.
Qed.

(** The boot identity separates boots: equal boot identities mean the same
    device digest, calendar time and tick, or two different preimages whose
    digests share their first eight bytes. *)
Theorem boot_pid_binds d t d' t' :
  zlen d = 32 -> zlen d' = 32 -> fields_ok t -> fields_ok t' -> is_u 64 (tsc t) -> is_u 64 (tsc t') ->
  (exists row row' pid, emit d t = CRet (pid, row) /\ emit d' t' = CRet (pid, row')) ->
  (d = d' /\ t = t') \/
  exists x y, x <> y /\ take 8 (BootSha.sha256 x) = take 8 (BootSha.sha256 y).
Proof.
  intros Hd Hd' Ht Ht' Hts Hts' (row & row' & pid & E & E').
  destruct (emit_eq d t Hd) as (q & Eq & _ & F). destruct (emit_eq d' t' Hd') as (q' & Eq' & _ & F').
  rewrite F in E. rewrite F' in E'. apply CRet_fst in E. apply CRet_fst in E'.
  destruct (decide (concat (preimage d t) = concat (preimage d' t'))) as [Ec|Ec]; [left|right].
  - unfold preimage in Ec. cbn [concat] in Ec. apply app_eq_len in Ec as [-> Ec]; [|unfold zlen in *; lia].
    apply app_eq_len in Ec as [Eu Ec]; [|reflexivity]. rewrite !app_nil_r in Ec.
    apply be_bytes_inj in Ec; [|exact Hts | exact Hts'].
    destruct (write_utc_inj t t' Ht Ht' Eu) as (? & ? & ? & ? & ? & ?). split; [done|].
    destruct t, t'. cbn in *. congruence.
  - exists (concat (preimage d t)), (concat (preimage d' t')). split; [done|]. congruence.
Qed.

(** ** The theorems at concrete inputs *)

Definition sample_time : BootTime := mkTime 2026 7 11 23 5 9 123456789.

(** A BCD, twelve-hour clock that is updating at the first three polls. *)
Definition sample_mode : ClockMode := mkMode false false true.
Definition sample_cmos (i : nat) (reg : Z) : Z :=
  if Nat.ltb i 3 then 0x80 else clock_registers sample_mode sample_time reg.

Lemma clock_roundtrip_witness :
  exists row, read_boot_time sample_cmos 123456789 = CRet (sample_time, row).
Proof.
  apply (clock_roundtrip sample_mode sample_time sample_cmos 3).
  - unfold clock_ok. cbn. repeat split; lia || discriminate.
  - by vm_compute.
  - unfold WAIT_POLLS. lia.
  - intros i Hi. unfold sample_cmos. rewrite (proj2 (Nat.ltb_lt i 3)) by lia. by vm_compute.
  - intros i reg Hi. unfold sample_cmos. by rewrite (proj2 (Nat.ltb_ge i 3)) by lia.
Defined.

Lemma identity_chain_total_witness :
  exists rows hw t pid,
    identity_chain (fun _ => 0xFFFFFFFF) (fun _ _ => 0) 77 (lit "liris") = CRet (rows, hw, t, pid) /\ tsc t = 77.
Proof.
  destruct (identity_chain_total (fun _ => 0xFFFFFFFF) (fun _ _ => 0) 77 (lit "liris"))
    as (rows & hw & t & pid & E & _ & _ & _ & T & _).
  - reflexivity.
  - by vm_compute.
  - exists rows, hw, t, pid. split; [exact E | exact T].
Defined.

Lemma boot_pid_binds_witness :
  (replicate 32 7 = replicate 32 7 /\ sample_time = sample_time) \/
  exists x y, x <> y /\ take 8 (BootSha.sha256 x) = take 8 (BootSha.sha256 y).
Proof.
  apply (boot_pid_binds (replicate 32 7) sample_time (replicate 32 7) sample_time).
  - reflexivity.
  - reflexivity.
  - unfold fields_ok. cbn. lia.
  - unfold fields_ok. cbn. lia.
  - by vm_compute.
  - by vm_compute.
  - destruct (emit_eq (replicate 32 7) sample_time eq_refl) as (pid & _ & _ & E).
    eexists _, _, pid. split; exact E.
Defined.
