(* ===== verification/RowWriters.v ===== *)
(** * The row buffers of the boot program ([kernel/boot/src/hwinv.rs], [rtc.rs], [bootproj.rs], [driver_*.rs])

    [Hwinv.v] and [BootChain.v] give the boot rows as lists of pieces. Here
    the functions that write them run on their buffers: every store with its
    index and bounds check, the digit buffers of the two decimal writers, the
    sub-slices handed to [write_utc]. The rows come out as modelled there, a
    row panics exactly where its pieces overrun the buffer, and no digit
    buffer is ever overrun. *)

From S2P Require Import Prelude Sha256 Hwinv BootChain.

Import Hwinv BootChain.

#[local] Open Scope Z_scope.

Module RowWriters.

(** [buf[i] = v]. *)
Definition store (buf : bytes) (i : nat) (v : Z) : comp unit bytes :=
  if (i <? length buf)%nat then CRet (<[i := v]> buf) else CPanic.

(** A function from [&mut buf] and [i] to the next [i]. *)
Definition writer : Type := bytes -> nat -> comp unit (bytes * nat).

(** [buf[i] = v; i += 1]. *)
Definition put_1 (v : Z) : writer := fun buf i => buf ← store buf i v; CRet (buf, S i).

(** [i = p(buf, i); q(buf, i)] *)
Definition andthen (p q : writer) : writer := fun buf i => '(buf, i) ← p buf i; q buf i.

Definition nop : writer := fun buf i => CRet (buf, i).

Fixpoint puts (ws : list writer) : writer :=
  match ws with
  | [] => nop
  | w :: ws' => andthen w (puts ws')
  end.

Definition put_bytes (s : bytes) : writer := puts (map put_1 s).

Definition HEX : bytes := lit "0123456789abcdef".

(** [buf[i] = HEX[n]; i += 1]. *)
Definition put_digit (n : Z) : writer := fun buf i =>
  match HEX !! Z.to_nat n with Some c => put_1 c buf i | None => CPanic end.

Definition put_hex8 (v : Z) : writer := andthen (put_digit (Z.shiftr v 4)) (put_digit (Z.land v 0x0F)).

Definition put_hex16 (v : Z) : writer := andthen (put_hex8 (wrap8 (Z.shiftr v 8))) (put_hex8 (wrap8 (Z.land v 0xFF))).

(** [while x > 0] of the decimal writers: the digits in [tmp] and their
    number. [fuel] bounds the rounds. *)
Fixpoint fill_tmp (fuel : nat) (tmp : bytes) (n : nat) (x : Z) : comp unit (bytes * nat) :=
  match fuel with
  | O => CPanic
  | S f => if 0 <? x then tmp ← store tmp n (48 + wrap8 (x mod 10)); fill_tmp f tmp (S n) (x / 10) else CRet (tmp, n)
  end.

(** [while n > 0]: [n -= 1; buf[i] = tmp[n]; i += 1]. *)
Fixpoint copy_back (tmp : bytes) (n : nat) : writer := fun buf i =>
  match n with
  | O => CRet (buf, i)
  | S n' => match tmp !! n' with
            | None => CPanic
            | Some c => '(buf, i) ← put_1 c buf i; copy_back tmp n' buf i
            end
  end.

(** The decimal writers, with a digit buffer of [size] bytes. *)
Definition put_decimal (size : nat) (v : Z) : writer := fun buf i =>
  if v =? 0 then put_1 48 buf i
  else '(tmp, n) ← fill_tmp (S size) (replicate size 0) 0 v; copy_back tmp n buf i.

Definition put_u32 : Z -> writer := put_decimal 10.
Definition put_u64 : Z -> writer := put_decimal 20.

Definition put_2 (v : Z) : writer := andthen (put_1 (48 + (v / 10) mod 10)) (put_1 (48 + v mod 10)).

Definition put_u4 (v : Z) : writer :=
  puts [put_1 (48 + wrap8 ((v / 1000) mod 10)); put_1 (48 + wrap8 ((v / 100) mod 10));
        put_1 (48 + wrap8 ((v / 10) mod 10)); put_1 (48 + wrap8 (v mod 10))].

(** [BootTime::write_utc] from index 0 of its buffer. *)
Definition write_utc (t : BootTime) : writer :=
  puts [put_u4 (year t); put_1 45; put_2 (month t); put_1 45; put_2 (day t); put_1 84; put_2 (hour t); put_1 58;
        put_2 (min t); put_1 58; put_2 (sec t); put_1 90].

(** [i += w(&mut buf[i..])], [w] starting at index 0. *)
Definition in_slice (w : writer) : writer := fun buf i =>
  if (i <=? length buf)%nat
  then '(part, n) ← w (drop i buf) 0%nat; CRet (take i buf ++ part, (i + n)%nat)
  else CPanic.

(** [buf[i..i + s.len()].copy_from_slice(&s)]; [i += s.len()]. *)
Definition copy_slice (s : bytes) : writer := fun buf i =>
  if (i + length s <=? length buf)%nat then CRet (take i buf ++ s ++ drop (i + length s) buf, (i + length s)%nat)
  else CPanic.

(** A row: a zeroed buffer, the writers in order, [&row[..i]]. *)
Definition row (cap : nat) (ws : list writer) : comp unit bytes :=
  '(buf, i) ← puts ws (replicate cap 0) 0%nat;
  if (i <=? length buf)%nat then CRet (take i buf) else CPanic.

(** *** The rows *)

Definition line (bus dev func vendor device class subclass prog_if : Z) : comp unit bytes :=
  row 48 [put_bytes (lit "  PCI "); put_hex8 bus; put_1 58; put_hex8 dev; put_1 46; put_1 (wrap8 (48 + func));
          put_bytes (lit "  "); put_hex16 vendor; put_1 58; put_hex16 device; put_bytes (lit " class=");
          put_hex8 class; put_1 58; put_hex8 subclass; put_1 58; put_hex8 prog_if; put_bytes crlf].

(** [for &byte in s { i = put_hex8(&mut row, i, byte); }] *)
Definition put_hex (s : bytes) : writer := puts (map put_hex8 s).

Definition put_flag (b : bool) : writer := put_1 (if b then 49 else 48).

(** The glyphs from number [k] on, a dot in front of all but the first. *)
Fixpoint put_glyphs (k : nat) (coord : list Z) : writer :=
  match coord with
  | [] => nop
  | g :: coord' => andthen (match k with O => nop | _ => put_1 46 end) (andthen (put_u32 g) (put_glyphs (S k) coord'))
  end.

(** The stores [coord_bytes[k * 2]] and [coord_bytes[k * 2 + 1]]. *)
Fixpoint coord_stores (k : nat) (coord : list Z) (buf : bytes) : comp unit bytes :=
  match coord with
  | [] => CRet buf
  | g :: coord' =>
      buf ← store buf (k * 2) (wrap8 (Z.shiftr g 8));
      buf ← store buf (k * 2 + 1) (wrap8 (Z.land g 0xFF));
      coord_stores (S k) coord' buf
  end.

(** The row of [emit_device_pid] for given digests and coordinate. *)
Definition pid_row (device_digest hw_digest : bytes) (coord : list Z) (t : HwTuple) (seat : bytes) : comp unit bytes :=
  row 448 [put_bytes (lit "  BOOTPID|device_pid="); put_hex (take 8 device_digest);
           put_bytes (lit "|device_pid_full="); put_hex device_digest;
           put_bytes (lit "|hw_tuple_pid_full="); put_hex hw_digest;
           put_bytes (lit "|hw_devices="); put_u32 (count t);
           put_bytes (lit "|rst_vmd="); put_flag (t_rst_vmd t); put_bytes (lit "|ahci="); put_flag (t_ahci t);
           put_bytes (lit "|storage="); put_flag (storage t);
           put_bytes (lit "|seat="); put_bytes seat; put_bytes (lit "|colony="); put_bytes seat;
           put_bytes (lit "|behcs=1024|dims=60|derived_from=60d_coordinate|coord_prefix=");
           put_glyphs 0 (take 6 coord); put_bytes (lit "|e=0|fire=0|json=0" ++ crlf)].

Definition emit_device_pid (t : HwTuple) (seat : bytes) : comp unit (bytes * bytes) :=
  let hw_digest := BootSha.sha256 (t_bytes t) in
  let coord := project_60d (t_bytes t) in
  coord_bytes ← coord_stores 0 coord (replicate 120 0);
  let device_digest := BootSha.sha256 coord_bytes in
  r ← pid_row device_digest hw_digest coord t seat;
  CRet (r, device_digest).

Definition emit_boottime (t : BootTime) : comp unit bytes :=
  row 96 [put_bytes (lit "  BOOTTIME|utc="); in_slice (write_utc t); put_bytes (lit "|tsc="); put_u64 (tsc t);
          put_bytes (lit "|src=cmos_rtc+tsc|e=0|json=0" ++ crlf)].

Definition emit (device_digest : bytes) (t : BootTime) : comp unit (bytes * bytes) :=
  pre ← row 72 [copy_slice device_digest; in_slice (write_utc t); copy_slice (be_bytes 8 (tsc t))];
  let boot_pid := take 8 (BootSha.sha256 pre) in
  r ← row 160 [put_bytes (lit "  BOOTPROJ|boot_pid="); put_hex boot_pid; put_bytes (lit "|device_pid=");
               put_hex (take 8 device_digest); put_bytes (lit "|utc="); in_slice (write_utc t);
               put_bytes (lit "|volatile=1|stable_ref=device_pid|e=0|fire=0|json=0" ++ crlf)];
  CRet (boot_pid, r).

(** [probe] of either driver. *)
Definition probe (head : string) (hit : bool) (yes no : string) (hw : HwSummary) (boot_pid : bytes) (t : BootTime)
    (seat : bytes) : comp unit bytes :=
  row 256 [put_bytes (lit head); put_hex (take 8 (device_digest hw)); put_bytes (lit "|boot_pid="); put_hex boot_pid;
           put_bytes (lit "|utc="); in_slice (write_utc t); put_bytes (lit "|seat="); put_bytes seat;
           put_bytes (lit "|status="); (if hit then put_bytes (lit yes) else put_bytes (lit no));
           put_bytes (lit "|writes=0|e=0|fire=0|json=0" ++ crlf)].

End RowWriters.

Import RowWriters.

(** ** What a writer writes *)

(** [w] writes [s] at its index and panics when it does not fit. *)
Definition writes (w : writer) (s : bytes) : Prop := forall buf i, (i <= length buf)%nat ->
  w buf i = if (i + length s <=? length buf)%nat
            then CRet (take i buf ++ s ++ drop (i + length s) buf, (i + length s)%nat) else CPanic.

Lemma writes_nop : writes nop [].
Proof.
  intros buf i Hi. cbn [length app]. rewrite Nat.add_0_r, (proj2 (Nat.leb_le _ _)) by done. by rewrite take_drop.
Qed.

Lemma writes_put_1 v : writes (put_1 v) [v].
Proof.
  intros buf i Hi. unfold put_1, store. cbn [length]. rewrite Nat.add_1_r.
  destruct (Nat.ltb_spec i (length buf)) as [L|L].
  - rewrite (proj2 (Nat.leb_le _ _)) by lia. cbn [mbind comp_bind]. do 2 f_equal.
    rewrite insert_take_drop by lia. reflexivity.
  - by rewrite (proj2 (Nat.leb_gt _ _)) by lia.
Qed.

Lemma writes_andthen p q s t : writes p s -> writes q t -> writes (andthen p q) (s ++ t).
Proof.
  intros Hp Hq buf i Hi. unfold andthen. rewrite Hp by done. rewrite length_app, Nat.add_assoc.
  destruct (Nat.leb_spec (i + length s) (length buf)) as [L|L]; cbn [mbind comp_bind].
  - assert (Lb : length (take i buf ++ s ++ drop (i + length s) buf) = length buf)
      by (rewrite !length_app, length_take, length_drop; lia).
    rewrite Hq by lia. rewrite Lb. destruct (_ <=? length buf)%nat; [|done]. do 2 f_equal.
    assert (Lp : length (take i buf ++ s) = (i + length s)%nat) by (rewrite length_app, length_take; lia).
    rewrite (app_assoc (take i buf) s), take_app_length' by lia. rewrite drop_app_ge by lia. rewrite drop_drop, <- app_assoc.
    rewrite <- (app_assoc s). do 4 f_equal. lia.
  - by rewrite (proj2 (Nat.leb_gt _ _)) by lia.
Qed.

Lemma writes_puts ws ss : Forall2 writes ws ss -> writes (puts ws) (concat ss).
Proof. induction 1; cbn [puts concat]; [apply writes_nop | by apply writes_andthen]. Qed.

Lemma writes_map {A} (f : A -> writer) (g : A -> bytes) l :
  (forall a, a ∈ l -> writes (f a) (g a)) -> writes (puts (map f l)) (flat_map g l).
Proof.
  intros H. rewrite flat_map_concat_map. apply writes_puts. induction l as [|a l IH]; constructor.
  - apply H. by left.
  - apply IH. intros b Hb. apply H. by right.
Qed.

Lemma writes_bytes s : writes (put_bytes s) s.
Proof.
  assert (E : flat_map (fun v => [v]) s = s) by (induction s as [|b s IH]; cbn; by rewrite ?IH).
  rewrite <- E at 2. apply writes_map. intros v _. apply writes_put_1.
Qed.

Lemma writes_digit n : 0 <= n < 16 -> writes (put_digit n) [hex_digit n].
Proof.
  intros Hn. unfold put_digit.
  assert (E : HEX !! Z.to_nat n = Some (hex_digit n)).
  { assert (C : forallb (fun k => bool_decide (HEX !! k = Some (hex_digit (Z.of_nat k)))) (seq 0 16) = true) by by vm_compute.
    rewrite forallb_forall in C. specialize (C (Z.to_nat n)). rewrite Z2Nat.id in C by lia.
    specialize (C ltac:(apply in_seq; lia)). by apply bool_decide_eq_true in C. }
  rewrite E. apply writes_put_1.
Qed.

Lemma writes_hex8 v : is_byte v -> writes (put_hex8 v) (hex_pair v).
Proof.
  intros Hv. unfold is_byte in Hv. apply (writes_andthen _ _ [_] [_]); apply writes_digit.
  - rewrite Z.shiftr_div_pow2 by lia. change (2 ^ 4) with 16.
    split; [apply Z.div_pos; lia | apply Z.div_lt_upper_bound; lia].
  - change 15 with (Z.ones 4). rewrite Z.land_ones by lia. apply Z.mod_pos_bound. lia.
Qed.

Lemma writes_hex s : Forall is_byte s -> writes (put_hex s) (hex_of s).
Proof. intros H. apply writes_map. intros v Hv. rewrite Forall_forall in H. by apply writes_hex8, H. Qed.

Lemma land_255 z : Z.land z 255 = z mod 256.
Proof. change 255 with (Z.ones 8). by rewrite Z.land_ones by lia. Qed.

Lemma writes_hex16 v : writes (put_hex16 v) (hex16 v).
Proof.
  unfold put_hex16, hex16. apply writes_andthen.
  - rewrite land_255. apply writes_hex8. unfold wrap, is_byte. apply Z.mod_pos_bound. lia.
  - rewrite land_255, wrap_id by (unfold is_u; apply Z.mod_pos_bound; lia).
    apply writes_hex8. apply Z.mod_pos_bound. lia.
Qed.

(** ** Decimal numbers: no digit buffer is overrun *)

(** The round that stores digit [n] appends it to the digits so far. *)
Lemma fill_tmp_digits f size ds x :
  0 <= x < 10 ^ Z.of_nat (size - length ds) -> (length ds <= size)%nat -> (size - length ds < f)%nat ->
  fill_tmp f (ds ++ replicate (size - length ds) 0) (length ds) x =
  CRet (let ds' := ds ++ tmp_digits (size - length ds) x in
        (ds' ++ replicate (size - length ds') 0, length ds')).
Proof.
  revert ds x. induction f as [|f IH]; intros ds x Hx Hl Hf; [lia|]. cbn [fill_tmp].
  destruct (Z.ltb_spec 0 x) as [L|L].
  - destruct (size - length ds)%nat as [|k] eqn:Ek; [cbn in Hx; lia|].
    rewrite Nat2Z.inj_succ, Z.pow_succ_r in Hx by lia.
    unfold store. rewrite (proj2 (Nat.ltb_lt _ _)) by (rewrite length_app, length_replicate; lia).
    cbn [mbind comp_bind tmp_digits]. rewrite (proj2 (Z.ltb_lt 0 x)) by done.
    assert (W : 48 + wrap8 (x mod 10) = 48 + x mod 10).
    { rewrite wrap_id; [done|]. pose proof (Z.mod_pos_bound x 10). unfold is_u. lia. }
    rewrite W. rewrite insert_app_r_alt by lia. rewrite Nat.sub_diag. cbn [replicate list_insert insert].
    specialize (IH (ds ++ [48 + x mod 10]) (x / 10)). rewrite length_app in IH. cbn [length] in IH.
    replace (size - (length ds + 1))%nat with k in IH by lia.
    rewrite cons_middle, app_assoc. replace (S (length ds)) with (length ds + 1)%nat by lia. rewrite IH.
    + by rewrite <- (app_assoc ds [_]).
    + split; [apply Z.div_pos; lia | apply Z.div_lt_upper_bound; lia].
    + lia.
    + lia.
  - assert (x = 0) as -> by lia. assert (E : tmp_digits (size - length ds) 0 = []) by (by destruct (size - length ds)%nat).
    cbv zeta. rewrite E, app_nil_r. done.
Qed.

Lemma writes_copy_back tmp ds rest : tmp = ds ++ rest -> writes (copy_back tmp (length ds)) (rev ds).
Proof.
  intros ->. revert rest. induction ds as [|d ds IH] using rev_ind; intros rest; [exact writes_nop|].
  intros buf i Hi. rewrite length_app, Nat.add_1_r, <- app_assoc. cbn [copy_back length].
  rewrite (list_lookup_middle ds ([] ++ rest) d) by done. rewrite rev_app_distr.
  exact (writes_andthen _ _ _ _ (writes_put_1 d) (IH ([d] ++ rest)) buf i Hi).
Qed.

Lemma writes_decimal size v : (0 < size)%nat -> 0 <= v < 10 ^ Z.of_nat size ->
  writes (put_decimal size v) (if v =? 0 then lit "0" else rev (tmp_digits size v)).
Proof.
  intros Hs Hv buf i Hi. unfold put_decimal. destruct (Z.eqb_spec v 0) as [->|N]; [by apply (writes_put_1 48)|].
  pose proof (fill_tmp_digits (S size) size [] v) as F. cbn [length app] in F. rewrite Nat.sub_0_r in F.
  rewrite F by lia. cbn [mbind comp_bind]. by eapply writes_copy_back.
Qed.

Lemma writes_u32 v : is_u 32 v -> writes (RowWriters.put_u32 v) (Hwinv.put_u32 v).
Proof. intros Hv. apply writes_decimal; [lia|]. unfold is_u in Hv. lia. Qed.

Lemma writes_u64 v : is_u 64 v -> writes (RowWriters.put_u64 v) (Hwinv.put_u64 v).
Proof. intros Hv. apply writes_decimal; [lia|]. unfold is_u in Hv. lia. Qed.

(** ** Times, sub-slices and rows *)

Lemma writes_2 v : writes (RowWriters.put_2 v) (BootChain.put_2 v).
Proof. apply (writes_andthen _ _ [_] [_]); apply writes_put_1. Qed.

Lemma writes_u4 v : writes (RowWriters.put_u4 v) (BootChain.put_u4 v).
Proof. apply (writes_puts _ [[_]; [_]; [_]; [_]]). repeat constructor; apply writes_put_1. Qed.

Lemma writes_utc t : writes (RowWriters.write_utc t) (BootChain.write_utc t).
Proof.
  apply (writes_puts _ [BootChain.put_u4 (year t); lit "-"; BootChain.put_2 (month t); lit "-"; BootChain.put_2 (day t);
    lit "T"; BootChain.put_2 (hour t); lit ":"; BootChain.put_2 (min t); lit ":"; BootChain.put_2 (sec t); lit "Z"]).
  repeat constructor; first [apply writes_u4 | apply writes_2 | apply writes_put_1].
Qed.

Lemma writes_in_slice w s : writes w s -> writes (in_slice w) s.
Proof.
  intros Hw buf i Hi. unfold in_slice. rewrite (proj2 (Nat.leb_le _ _)) by done. rewrite Hw by lia.
  rewrite length_drop, Nat.add_0_l.
  destruct (Nat.leb_spec (i + length s) (length buf)).
  - rewrite (proj2 (Nat.leb_le _ _)) by lia. cbn [mbind comp_bind]. by rewrite drop_drop.
  - by rewrite (proj2 (Nat.leb_gt _ _)) by lia.
Qed.

Lemma writes_copy s : writes (copy_slice s) s.
Proof. by intros buf i Hi. Qed.

(** A row is its pieces, or a panic when they overrun the buffer. *)
Lemma row_put_all cap ws ss parts :
  Forall2 writes ws ss -> concat ss = concat parts -> parts <> [] ->
  row cap ws = put_all (Z.of_nat cap) [] parts.
Proof.
  intros H E N. unfold row. rewrite (writes_puts _ _ H) by lia. rewrite put_all_spec, E, length_replicate, Nat.add_0_l.
  rewrite bool_decide_eq_false_2, orb_false_r by done. cbn [app]. unfold zlen.
  destruct (Nat.leb_spec (length (concat parts)) cap).
  - rewrite (proj2 (Z.leb_le _ _)) by lia. cbn [mbind comp_bind]. rewrite take_0, app_nil_l.
    rewrite (proj2 (Nat.leb_le _ _)) by (rewrite length_app; lia). by rewrite take_app_length.
  - by rewrite (proj2 (Z.leb_gt _ _)) by lia.
Qed.

(** Finds the text of each writer of a row. *)
Ltac written :=
  repeat first
    [ apply List.Forall2_nil
    | apply List.Forall2_cons;
      [first [ apply writes_bytes | apply writes_put_1 | apply writes_hex16 | apply writes_copy
             | apply writes_in_slice, writes_utc | by apply writes_hex8 | by apply writes_hex
             | by apply writes_u32 | by apply writes_u64 | eassumption ] |] ].

Lemma line_rows bus dev func vendor device class subclass prog_if :
  is_byte bus -> is_byte dev -> 0 <= func < 8 -> is_byte class -> is_byte subclass -> is_byte prog_if ->
  line bus dev func vendor device class subclass prog_if =
  put_all LINE_CAP [] (line_parts bus dev func vendor device class subclass prog_if).
Proof.
  intros. eapply (row_put_all 48); [written | | done].
  rewrite wrap_id by (unfold is_u; lia). reflexivity.
Qed.

Lemma boottime_rows t : is_u 64 (tsc t) -> emit_boottime t = put_all 96 [] (boottime_parts t).
Proof. intros. eapply (row_put_all 96); [written | | done]. cbn [concat boottime_parts]. by rewrite <- ?app_assoc. Qed.

#[local] Strategy opaque [BootSha.sha256 Hwinv.project_60d].

Lemma emit_rows device_digest t : Forall is_byte device_digest -> is_u 64 (tsc t) ->
  RowWriters.emit device_digest t = BootChain.emit device_digest t.
Proof.
  intros Hd Ht. unfold RowWriters.emit, BootChain.emit.
  erewrite (row_put_all 72 _ _ (preimage device_digest t)); [|written | reflexivity | done].
  change (Z.of_nat 72) with 72. destruct (put_all 72 [] (preimage device_digest t)) as [pre| |]; [|done..].
  cbn [mbind comp_bind].
  assert (Hb : Forall is_byte (take 8 (BootSha.sha256 pre))) by (apply Forall_take, BootSha.sha256_all_bytes).
  assert (Hd8 : Forall is_byte (take 8 device_digest)) by (by apply Forall_take).
  erewrite (row_put_all 160 _ _ (bootproj_parts device_digest (take 8 (BootSha.sha256 pre)) t));
    [done | written | | done].
  unfold bootproj_parts. cbn [concat]. by rewrite <- ?app_assoc.
Qed.

Lemma probe_rows head hit yes no hw boot_pid t seat :
  Forall is_byte (device_digest hw) -> Forall is_byte boot_pid ->
  probe head hit yes no hw boot_pid t seat = put_all 256 [] (driver_parts head hit yes no hw boot_pid t seat).
Proof.
  intros Hd Hp. assert (Hd8 : Forall is_byte (take 8 (device_digest hw))) by (by apply Forall_take).
  assert (Hs : writes (if hit then put_bytes (lit yes) else put_bytes (lit no)) (if hit then lit yes else lit no))
    by (destruct hit; apply writes_bytes).
  eapply (row_put_all 256); [written | | done]. unfold driver_parts. cbn [concat]. by rewrite <- ?app_assoc.
Qed.

Lemma store_mid pre x rest i v : i = length pre -> store (pre ++ x :: rest) i v = CRet (pre ++ v :: rest).
Proof.
  intros ->. unfold store. rewrite (proj2 (Nat.ltb_lt _ _)) by (rewrite length_app; cbn; lia).
  by rewrite insert_app_r_alt, Nat.sub_diag by lia.
Qed.

Lemma coord_stores_bytes coord pre : Forall (fun g => 0 <= g <= 1023) coord ->
  coord_stores (length pre) coord (coord_bytes pre ++ replicate (2 * length coord) 0) =
  CRet (coord_bytes (pre ++ coord)).
Proof.
  intros H. revert pre. induction H as [|g coord Hg _ IH]; intros pre; cbn [coord_stores].
  { cbn. by rewrite !app_nil_r. }
  assert (L : length (coord_bytes pre) = (length pre * 2)%nat).
  { unfold coord_bytes. induction pre as [|x pre IHp]; cbn; lia. }
  assert (R : replicate (2 * length (g :: coord)) 0 = 0 :: 0 :: replicate (2 * length coord) 0).
  { cbn [length]. replace (2 * S (length coord))%nat with (S (S (2 * length coord))) by lia. done. }
  rewrite R, (store_mid (coord_bytes pre)) by (by rewrite L). cbn [mbind comp_bind].
  rewrite (cons_middle _ (coord_bytes pre)), (app_assoc (coord_bytes pre)), store_mid
    by (rewrite length_app, L; cbn; lia). cbn [mbind comp_bind].
  assert (G : wrap8 (Z.land g 255) = Z.land g 255).
  { rewrite land_255. apply wrap_id. apply Z.mod_pos_bound. lia. }
  assert (G' : wrap8 (Z.shiftr g 8) = Z.land (Z.shiftr g 8) 255) by (by rewrite land_255).
  rewrite G, G', (cons_middle g), (app_assoc pre), <- IH, length_app, Nat.add_1_r. f_equal.
  unfold coord_bytes. rewrite flat_map_app. cbn [flat_map app]. by rewrite <- !app_assoc.
Qed.

Lemma writes_glyphs k coord : Forall (is_u 32) coord ->
  writes (put_glyphs k coord)
    (flat_map (fun p => (match p.1 with O => [] | _ => lit "." end) ++ Hwinv.put_u32 p.2) (zip (seq k (length coord)) coord)).
Proof.
  intros H. revert k. induction H as [|g coord Hg _ IH]; intros k; cbn [put_glyphs length seq zip zip_with flat_map];
    [apply writes_nop|].
  cbn [fst snd]. rewrite <- app_assoc. apply writes_andthen; [destruct k; [apply writes_nop | apply writes_put_1]|].
  apply writes_andthen; [by apply writes_u32 | apply IH].
Qed.

Lemma glyph_texts k gs :
  flat_map (fun p => (match p.1 with O => [] | _ => lit "." end) ++ Hwinv.put_u32 p.2) (zip (seq (S k) (length gs)) gs) =
  concat (flat_map (fun x => [lit "."; x]) (map Hwinv.put_u32 gs)).
Proof.
  revert k. induction gs as [|g gs IH]; intros k; [done|]. cbn [length seq zip zip_with flat_map map fst snd app concat].
  by rewrite IH, <- app_assoc.
Qed.

Lemma writes_coord_prefix coord : Forall (is_u 32) coord ->
  writes (put_glyphs 0 (take 6 coord)) (concat (coord_prefix coord)).
Proof.
  intros H. assert (H6 : Forall (is_u 32) (take 6 coord)) by (by apply Forall_take).
  pose proof (writes_glyphs 0 _ H6) as W. unfold coord_prefix. destruct (take 6 coord) as [|g gs]; [exact W|].
  cbn [length seq zip zip_with flat_map fst snd app map concat] in *. by rewrite glyph_texts in W.
Qed.

(** Its pieces. *)
Definition pid_parts (device_digest hw_digest : bytes) (coord : list Z) (t : HwTuple) (seat : bytes) : list bytes :=
  [lit "  BOOTPID|device_pid="; hex_of (take 8 device_digest); lit "|device_pid_full="; hex_of device_digest;
   lit "|hw_tuple_pid_full="; hex_of hw_digest; lit "|hw_devices="; Hwinv.put_u32 (count t);
   lit "|rst_vmd="; flag (t_rst_vmd t); lit "|ahci="; flag (t_ahci t); lit "|storage="; flag (storage t);
   lit "|seat="; seat; lit "|colony="; seat;
   lit "|behcs=1024|dims=60|derived_from=60d_coordinate|coord_prefix="]
  ++ coord_prefix coord ++ [lit "|e=0|fire=0|json=0"; crlf].

Lemma pid_row_parts device_digest hw_digest coord t seat :
  Forall is_byte device_digest -> Forall is_byte hw_digest -> Forall (is_u 32) coord -> is_u 32 (count t) ->
  pid_row device_digest hw_digest coord t seat =
  put_all ROW_CAP [] (pid_parts device_digest hw_digest coord t seat).
Proof.
  intros Hd Hw Hg Hc. pose proof (writes_coord_prefix _ Hg) as W.
  assert (Hd8 : Forall is_byte (take 8 device_digest)) by (by apply Forall_take).
  assert (F : forall b, writes (put_flag b) (flag b)) by (intros []; apply writes_put_1).
  eapply (row_put_all 448); [| | unfold pid_parts; discriminate].
  - repeat first [apply List.Forall2_nil | apply List.Forall2_cons;
      [first [apply F | exact W | apply writes_bytes | by apply writes_hex | by apply writes_u32] |]].
  - unfold pid_parts. rewrite !concat_app. cbn [concat]. by rewrite ?app_nil_r, <- ?app_assoc.
Qed.

Lemma coord_buffer coord : length coord = 60%nat -> Forall (fun g => 0 <= g <= 1023) coord ->
  coord_stores 0 coord (replicate 120 0) = CRet (coord_bytes coord).
Proof. intros L R. pose proof (coord_stores_bytes coord [] R) as C. by rewrite L in C. Qed.

Lemma coordinate_ok t : zlen (t_bytes t) <= TUPLE_CAP ->
  length (project_60d (t_bytes t)) = 60%nat /\ Forall (fun g => 0 <= g <= 1023) (project_60d (t_bytes t)).
Proof. intros H. rewrite project_60d_spec by exact H. split; [apply projection_length | apply projection_range]. Qed.

Definition pid_result (hd : bytes) (coord : list Z) (t : HwTuple) (seat : bytes) : comp unit (bytes * bytes) :=
  let dd := BootSha.sha256 (coord_bytes coord) in r ← put_all ROW_CAP [] (pid_parts dd hd coord t seat); mret (r, dd).

Lemma pid_result_eq t seat :
  Hwinv.emit_device_pid t seat = pid_result (BootSha.sha256 (t_bytes t)) (project_60d (t_bytes t)) t seat.
Proof. reflexivity. Qed.

Definition pid_writing (hd : bytes) (coord : list Z) (t : HwTuple) (seat : bytes) : comp unit (bytes * bytes) :=
  coord_bytes ← coord_stores 0 coord (replicate 120 0);
  let dd := BootSha.sha256 coord_bytes in r ← pid_row dd hd coord t seat; CRet (r, dd).

Lemma pid_writing_result hd coord t seat :
  length coord = 60%nat -> Forall (fun g => 0 <= g <= 1023) coord -> Forall is_byte hd -> is_u 32 (count t) ->
  pid_writing hd coord t seat = pid_result hd coord t seat.
Proof.
  intros L R Hw Hc. unfold pid_writing, pid_result. rewrite coord_buffer by done. cbn [mbind comp_bind].
  pose proof (BootSha.sha256_all_bytes (coord_bytes coord)) as Hd. cbv zeta.
  set (dd := BootSha.sha256 (coord_bytes coord)) in *. clearbody dd. rewrite pid_row_parts; [done.. | | done].
  eapply Forall_impl; [exact R|]. unfold is_u. lia.
Qed.

Lemma device_pid_rows t seat : zlen (t_bytes t) <= TUPLE_CAP -> is_u 32 (count t) ->
  RowWriters.emit_device_pid t seat = Hwinv.emit_device_pid t seat.
Proof.
  intros Ht Hc. rewrite pid_result_eq.
  change (pid_writing (BootSha.sha256 (t_bytes t)) (project_60d (t_bytes t)) t seat =
          pid_result (BootSha.sha256 (t_bytes t)) (project_60d (t_bytes t)) t seat).
  destruct (coordinate_ok t Ht) as [L R]. apply pid_writing_result; [exact L | exact R | apply BootSha.sha256_all_bytes | exact Hc].
Qed.

(** ** Theorem *)

(** C40. Store by store, on the buffers the code declares: each of the six rows
    of the boot comes out as its pieces, and panics exactly when they do not
    fit; the digit buffers of ten and twenty bytes suffice for every [u32]
    and [u64], and no store of the coordinate misses its buffer. *)
Theorem rows_agree :
  (forall bus dev func vendor device class subclass prog_if,
     is_byte bus -> is_byte dev -> 0 <= func < 8 -> is_byte class -> is_byte subclass -> is_byte prog_if ->
     line bus dev func vendor device class subclass prog_if =
     put_all LINE_CAP [] (line_parts bus dev func vendor device class subclass prog_if)) /\
  (forall t seat, zlen (t_bytes t) <= TUPLE_CAP -> is_u 32 (count t) ->
     RowWriters.emit_device_pid t seat = Hwinv.emit_device_pid t seat) /\
  (forall t, is_u 64 (tsc t) -> emit_boottime t = put_all 96 [] (boottime_parts t)) /\
  (forall digest t, Forall is_byte digest -> is_u 64 (tsc t) ->
     RowWriters.emit digest t = BootChain.emit digest t) /\
  (forall hw boot_pid t seat, Forall is_byte (device_digest hw) -> Forall is_byte boot_pid ->
     probe "  BOOTDRIVER|driver=intel-rst-vmd|match=8086:282A|device_pid=" (rst_vmd hw)
       "GATED_MATCH|vmd_walk=TODO_next_step" "NOT_APPLICABLE|no_8086:282A_on_this_device" hw boot_pid t seat =
     probe_rst_vmd hw boot_pid t seat /\
     probe "  BOOTDRIVER|driver=sata-ahci|match=class01:06:01|device_pid=" (ahci hw)
       "GATED_MATCH|ahci_bringup=TODO_next_step" "NOT_APPLICABLE|no_sata_ahci_on_this_device" hw boot_pid t seat =
     probe_ahci hw boot_pid t seat).
Proof.
  split; [exact line_rows|]. split; [exact device_pid_rows|]. split; [exact boottime_rows|].
  split; [exact emit_rows|]. intros hw boot_pid t seat Hd Hp. split; by apply probe_rows.
Qed.

(** A machine with an AHCI controller, booted with a seat that fills its
    rows and with one that does not fit. *)
Lemma rows_agree_witness :
  let hw := mkSummary (replicate 32 171) false true in
  let t := mkTime 2026 7 8 9 10 11 12345 in
  probe_ahci hw (replicate 8 205) t (lit "relic") =
  probe "  BOOTDRIVER|driver=sata-ahci|match=class01:06:01|device_pid=" true
    "GATED_MATCH|ahci_bringup=TODO_next_step" "NOT_APPLICABLE|no_sata_ahci_on_this_device" hw (replicate 8 205) t (lit "relic") /\
  emit_boottime t = CRet (concat (boottime_parts t)) /\
  probe_ahci hw (replicate 8 205) t (replicate 100 97) = CPanic.
Proof.
  intros hw t. split; [|split; by vm_compute].
  destruct rows_agree as (_ & _ & _ & _ & P).
  destruct (P hw (replicate 8 205) t (lit "relic")) as [_ A].
  - repeat constructor; by vm_compute.
  - repeat constructor; by vm_compute.
  - symmetry. exact A.
Defined.
