(* ===== verification/BootScreen.v ===== *)
(** * The boot screen ([kernel/boot/src/main.rs], [efi_main])

    What the boot program learns from the graphics output protocol, the
    observation it reports, and the raw framebuffer writes of the boot
    banner.  The firmware tables are parameters: each pointer that may be
    null is an option. *)

From S2P Require Import Prelude BootLines.

Module BootScreen.

Import LineWriter BootDiag.
#[local] Open Scope Z_scope.

(** [GopModeInfo] and [GopMode], as far as they are read. *)
Record GopMode := mkGop {
  horizontal_resolution : Z; vertical_resolution : Z; gop_pixel_format : Z; pixels_per_scan_line : Z;
  framebuffer_base : Z; framebuffer_size : Z
}.

(** The system table: console and boot services pointers, and what
    [LocateProtocol] gives: nothing, or a protocol with or without a mode. *)
Record SystemTable := mkTable { con_out : bool; boot_services : bool; gop : option (option GopMode) }.

Definition pixel_format_of (fmt : Z) : PixelFormat :=
  if fmt =? 0 then Rgb else if fmt =? 1 then Bgr else if fmt =? 2 then Bitmask
  else if fmt =? 3 then BltOnly else PixelUnknown.

Definition min_framebuffer_bytes (m : GopMode) : Z :=
  sat_mul 64 (sat_mul 64 (pixels_per_scan_line m) (vertical_resolution m)) 4.

Definition layout_ok (m : GopMode) : bool :=
  (horizontal_resolution m <=? pixels_per_scan_line m) && (min_framebuffer_bytes m <=? framebuffer_size m).

Definition fb_observation (m : GopMode) : FramebufferObservation :=
  mkFb (horizontal_resolution m) (vertical_resolution m) (pixel_format_of (gop_pixel_format m))
    (framebuffer_size m) (negb (framebuffer_base m =? 0)) (layout_ok m).

Definition boot_obs (st : option SystemTable) : BootObservations :=
  let present := match st with Some _ => true | None => false end in
  let con := match st with Some t => con_out t | None => false end in
  let bs := match st with Some t => boot_services t | None => false end in
  let located := match st with Some t => if boot_services t then gop t else None | None => None end in
  let fb := match located with Some (Some m) => fb_observation m | _ => ABSENT end in
  mkObs present con bs (match located with Some _ => true | None => false end) fb SbUnknown LoaderUnknown.

(** The guard in front of the painting. *)
Definition paints (m : GopMode) : bool :=
  negb (framebuffer_base m =? 0) && layout_ok m && is_direct_framebuffer (pixel_format_of (gop_pixel_format m))
  && (320 <=? horizontal_resolution m) && (200 <=? vertical_resolution m).

Definition pack (fmt r g b : Z) : Z :=
  if fmt =? 0 then Z.lor (Z.lor (wrap 32 (Z.shiftl b 16)) (wrap 32 (Z.shiftl g 8))) r
  else Z.lor (Z.lor (wrap 32 (Z.shiftl r 16)) (wrap 32 (Z.shiftl g 8))) b.

Definition glyph (c : Z) : list Z :=
  if c =? 65 then [0x38; 0x6C; 0xC6; 0xC6; 0xFE; 0xC6; 0xC6; 0x00]
  else if c =? 83 then [0x7C; 0xC6; 0xC0; 0x7C; 0x06; 0xC6; 0x7C; 0x00]
  else if c =? 79 then [0x7C; 0xC6; 0xC6; 0xC6; 0xC6; 0xC6; 0x7C; 0x00]
  else if c =? 76 then [0xC0; 0xC0; 0xC0; 0xC0; 0xC0; 0xC6; 0xFE; 0x00]
  else if c =? 82 then [0xFC; 0xC6; 0xC6; 0xFC; 0xD8; 0xCC; 0xC6; 0x00]
  else if c =? 73 then [0x7C; 0x18; 0x18; 0x18; 0x18; 0x18; 0x7C; 0x00]
  else [0; 0; 0; 0; 0; 0; 0; 0].

(** A write of a color at a pixel index from the framebuffer base. *)
Definition fb_write : Type := (Z * Z)%type.

Definition fb_fill (pps w h color : Z) : list fb_write :=
  flat_map (fun y => map (fun x => (wrap 32 (y * pps) + x, color)) (seqZ 0 w)) (seqZ 0 h).

Definition pixel (pps px py color : Z) : fb_write := (wrap 32 (wrap 32 (py * pps) + px), color).

(** The points [(px, py)] of one glyph row, then of a string. *)
Definition row_points (bits cx y0 row scale : Z) : list (Z * Z) :=
  flat_map (fun col =>
    if negb (Z.land bits (Z.shiftr 0x80 col) =? 0) then
      flat_map (fun dy => map (fun dx => (wrap 32 (cx + col * scale + dx), wrap 32 (y0 + row * scale + dy)))
                            (seqZ 0 scale)) (seqZ 0 scale)
    else []) (seqZ 0 8).

Fixpoint glyph_points (rows : list Z) (cx y0 row scale : Z) : list (Z * Z) :=
  match rows with
  | [] => []
  | bits :: rows' => row_points bits cx y0 row scale ++ glyph_points rows' cx y0 (row + 1) scale
  end.

Fixpoint string_points (s : bytes) (cx y0 scale : Z) : list (Z * Z) :=
  match s with
  | [] => []
  | c :: s' => glyph_points (glyph c) cx y0 0 scale ++ string_points s' (wrap 32 (cx + 9 * scale)) y0 scale
  end.

Definition fb_string (pps : Z) (s : bytes) (x0 y0 scale color : Z) : list fb_write :=
  map (fun p => pixel pps p.1 p.2 color) (string_points s x0 y0 scale).

Definition TITLE : bytes := lit "ASOLARIA ASI OS".

Definition scale_of (w : Z) : Z := if 1024 <=? w then 8 else 4.
Definition title_width (w : Z) : Z := wrap 32 (wrap 32 (zlen TITLE * 9) * scale_of w).
Definition title_x (w : Z) : Z := sat_sub w (title_width w) / 2.
Definition title_y (w h : Z) : Z := wrap 32 (h / 2 - 4 * scale_of w).
Definition bar_top (w h : Z) : Z := sat_sub (title_y w h) (3 * scale_of w).

Definition bar_points (w h : Z) : list (Z * Z) :=
  flat_map (fun yy => map (fun xx => (xx, yy)) (seqZ (title_x w) (title_width w)))
    (seqZ (bar_top w h) (scale_of w)).

Definition title_points (w h : Z) : list (Z * Z) := string_points TITLE (title_x w) (title_y w h) (scale_of w).

(** All framebuffer writes of the boot screen, in order. *)
Definition paint (m : GopMode) : list fb_write :=
  if paints m then
    let w := horizontal_resolution m in let h := vertical_resolution m in
    let pps := pixels_per_scan_line m in let fmt := gop_pixel_format m in
    fb_fill pps w h (pack fmt 0x05 0x07 0x0D)
    ++ map (fun p => pixel pps p.1 p.2 (pack fmt 0xFF 0xB4 0x54)) (bar_points w h)
    ++ fb_string pps TITLE (title_x w) (title_y w h) (scale_of w) (pack fmt 0x43 0xE8 0xD8)
  else [].

(** The diagnostic row: rendered into 384 bytes, or the fallback row. *)
Definition diag_row (st : option SystemTable) : bytes :=
  match render_status_line (boot_obs st) (replicate 384 0) with
  | (Ok n, Some buf) => take (Z.to_nat n) buf
  | _ => lit "ASOBTDIAG|format=hbpish|evidence=MEASURED_BOOT|source=uefi|seat=unknown|receipt=unsealed|tuple=boot:diag:early|stage=render-buffer-too-small"
  end.

End BootScreen.

Import LineWriter BootDiag BootScreen.

#[local] Open Scope Z_scope.

(** ** Points and indices *)

Definition mode_wf (m : GopMode) : Prop :=
  is_u 32 (horizontal_resolution m) /\ is_u 32 (vertical_resolution m) /\ is_u 32 (pixels_per_scan_line m) /\
  is_u 64 (framebuffer_size m).

Lemma wrap_le w z : 0 <= w -> 0 <= z -> 0 <= wrap w z <= z.
Proof.
  intros Hw Hz. unfold wrap. assert (0 < 2 ^ w) by (apply Z.pow_pos_nonneg; lia).
  pose proof (Z.mod_pos_bound z (2 ^ w)). split; [lia|]. by apply Z.mod_le.
Qed.

(** A rectangle that holds all the points of a list. *)
Definition within (x0 x1 y0 y1 : Z) (l : list (Z * Z)) : Prop :=
  Forall (fun p => x0 <= p.1 < x1 /\ y0 <= p.2 < y1) l.

Lemma within_app x0 x1 y0 y1 a b : within x0 x1 y0 y1 a -> within x0 x1 y0 y1 b -> within x0 x1 y0 y1 (a ++ b).
Proof. apply Forall_app_2. Qed.

Lemma within_flat_map {A} (f : A -> list (Z * Z)) l x0 x1 y0 y1 :
  (forall a, a ∈ l -> within x0 x1 y0 y1 (f a)) -> within x0 x1 y0 y1 (flat_map f l).
Proof.
  induction l as [|a l IH]; intros H; cbn; [constructor|].
  apply within_app; [apply H; by left | apply IH; intros b Hb; apply H; by right].
Qed.

Lemma row_points_within bits cx y0 row scale :
  0 <= cx -> 0 <= y0 -> 0 <= row -> 1 <= scale -> cx + 8 * scale <= 2 ^ 32 -> y0 + (row + 1) * scale <= 2 ^ 32 ->
  within cx (cx + 8 * scale) (y0 + row * scale) (y0 + (row + 1) * scale) (row_points bits cx y0 row scale).
Proof.
  intros Hc Hy Hr Hs Hx1 Hy1. unfold row_points. apply within_flat_map. intros col Hcol.
  apply elem_of_seqZ in Hcol. destruct (negb _); [|constructor].
  apply within_flat_map. intros dy Hdy. apply elem_of_seqZ in Hdy.
  apply Forall_map, Forall_forall. intros dx Hdx. apply elem_of_seqZ in Hdx. cbn [fst snd].
  rewrite !wrap_id by (unfold is_u; nia). nia.
Qed.

Lemma within_weaken x0 x1 y0 y1 a0 a1 b0 b1 l :
  within x0 x1 y0 y1 l -> a0 <= x0 -> x1 <= a1 -> b0 <= y0 -> y1 <= b1 -> within a0 a1 b0 b1 l.
Proof. intros H ? ? ? ?. eapply Forall_impl; [exact H|]. cbn. intros p ?. lia. Qed.

Lemma glyph_points_within rows cx y0 row scale :
  0 <= cx -> 0 <= y0 -> 0 <= row -> 1 <= scale -> cx + 8 * scale <= 2 ^ 32 ->
  y0 + (row + zlen rows) * scale <= 2 ^ 32 ->
  within cx (cx + 8 * scale) y0 (y0 + (row + zlen rows) * scale) (glyph_points rows cx y0 row scale).
Proof.
  revert row. induction rows as [|bits rows IH]; intros row Hc Hy Hr Hs Hx1 Hy1; cbn [glyph_points]; [constructor|].
  rewrite zlen_cons in *. pose proof (zlen_nonneg rows). apply within_app.
  - eapply within_weaken; [apply row_points_within; [lia..|nia] | lia | lia | nia | nia].
  - eapply within_weaken; [apply IH; [lia..|] | lia | lia | lia |].
    all: replace (row + 1 + zlen rows) with (row + (1 + zlen rows)) by lia; lia.
Qed.

Lemma glyph_zlen c : zlen (glyph c) = 8.
Proof. unfold glyph. by repeat destruct (_ =? _). Qed.

Lemma string_points_within s cx y0 scale :
  0 <= cx -> 0 <= y0 -> 1 <= scale -> cx + zlen s * (9 * scale) < 2 ^ 32 -> y0 + 8 * scale < 2 ^ 32 ->
  within cx (cx + zlen s * (9 * scale)) y0 (y0 + 8 * scale) (string_points s cx y0 scale).
Proof.
  revert cx. induction s as [|c s IH]; intros cx Hc Hy Hs Hx Hy1; cbn [string_points]; [constructor|].
  rewrite zlen_cons in *. pose proof (zlen_nonneg s). apply within_app.
  - eapply within_weaken; [apply glyph_points_within; rewrite ?glyph_zlen; nia | lia | nia | lia |].
    rewrite glyph_zlen. lia.
  - rewrite wrap_id by (unfold is_u; nia).
    eapply within_weaken; [apply IH; nia | lia | nia | lia | lia].
Qed.

Lemma title_within w h : is_u 32 w -> is_u 32 h -> 320 <= w -> 200 <= h ->
  let s := scale_of w in
  title_width w = 135 * s /\ title_y w h = h / 2 - 4 * s /\ bar_top w h = h / 2 - 7 * s /\
  within (title_x w) (title_x w + 135 * s) (h / 2 - 4 * s) (h / 2 + 4 * s) (title_points w h) /\
  within (title_x w) (title_x w + 135 * s) (h / 2 - 7 * s) (h / 2 - 6 * s) (bar_points w h).
Proof.
  intros [_ Hw] [_ Hh] Hw1 Hh1 s. change (2 ^ 32) with 4294967296 in *.
  pose proof (Z.div_mod h 2 ltac:(lia)) as Dh. pose proof (Z.mod_pos_bound h 2 ltac:(lia)).
  assert (Ss : 4 <= s <= 8) by (unfold s, scale_of; destruct (1024 <=? w); lia).
  assert (T : title_width w = 135 * s).
  { unfold title_width. change (zlen TITLE) with 15. fold s.
    rewrite (wrap_id 32 (15 * 9)), wrap_id by (unfold is_u; change (2 ^ 32) with 4294967296; lia). lia. }
  assert (Y : title_y w h = h / 2 - 4 * s).
  { unfold title_y. fold s. apply wrap_id. unfold is_u. change (2 ^ 32) with 4294967296. lia. }
  assert (B : bar_top w h = h / 2 - 7 * s) by (unfold bar_top, sat_sub; rewrite Y; fold s; lia).
  assert (X : 0 <= title_x w /\ 2 * title_x w <= w).
  { unfold title_x, sat_sub. rewrite T. pose proof (Z.div_mod (Z.max 0 (w - 135 * s)) 2 ltac:(lia)).
    pose proof (Z.mod_pos_bound (Z.max 0 (w - 135 * s)) 2 ltac:(lia)). lia. }
  split_and!; try done.
  - unfold title_points. fold s. rewrite Y. eapply within_weaken; [apply string_points_within|..].
    all: change (zlen TITLE) with 15; change (2 ^ 32) with 4294967296; lia.
  - unfold bar_points. fold s. rewrite B, T. apply within_flat_map. intros yy Hyy%elem_of_seqZ.
    apply Forall_map, Forall_forall. intros xx Hxx%elem_of_seqZ. cbn [fst snd]. lia.
Qed.

Lemma pixel_bound pps h px py : 0 <= pps -> 0 <= px -> 0 <= py -> py * pps + px < pps * h ->
  0 <= wrap 32 (wrap 32 (py * pps) + px) < Z.min (pps * h) (2 ^ 32).
Proof.
  intros Hp Hx Hy Hb. assert (0 <= py * pps) by nia.
  pose proof (wrap_le 32 (py * pps) ltac:(lia) ltac:(lia)).
  pose proof (wrap_le 32 (wrap 32 (py * pps) + px) ltac:(lia) ltac:(lia)).
  pose proof (wrap_range 32 (wrap 32 (py * pps) + px) ltac:(lia)) as [_ R]. lia.
Qed.

(** Points of the banner stay in the framebuffer even where they leave the
    screen on the right. *)
Lemma banner_index pps w h px py (points : list (Z * Z)) :
  is_u 32 w -> is_u 32 h -> 320 <= w -> 200 <= h -> w <= pps ->
  (px, py) ∈ title_points w h ++ bar_points w h ->
  0 <= px /\ 0 <= py /\ px < 2 * pps /\ py + 2 <= h /\ (135 * scale_of w <= w -> px < w) /\ py * pps + px < pps * h.
Proof.
  intros Uw Uh Hw Hh Hp Hin. destruct (title_within w h Uw Uh Hw Hh) as (_ & _ & _ & Wt & Wb). cbv zeta in *.
  pose proof (Z.div_mod h 2 ltac:(lia)). pose proof (Z.mod_pos_bound h 2 ltac:(lia)).
  assert (Ss : scale_of w = 8 /\ 1024 <= w \/ scale_of w = 4 /\ w < 1024).
  { unfold scale_of. destruct (Z.leb_spec 1024 w); lia. }
  assert (X : 0 <= title_x w /\ 2 * title_x w <= Z.max 0 (w - 135 * scale_of w)).
  { destruct (title_within w h Uw Uh Hw Hh) as (T & _). unfold title_x, sat_sub. rewrite T.
    pose proof (Z.div_mod (Z.max 0 (w - 135 * scale_of w)) 2 ltac:(lia)).
    pose proof (Z.mod_pos_bound (Z.max 0 (w - 135 * scale_of w)) 2 ltac:(lia)). lia. }
  assert (B : title_x w <= px < title_x w + 135 * scale_of w /\
              h / 2 - 7 * scale_of w <= py < h / 2 + 4 * scale_of w).
  { unfold within in *. rewrite Forall_forall in Wt, Wb.
    apply elem_of_app in Hin as [Hin|Hin]; [specialize (Wt _ Hin) | specialize (Wb _ Hin)]; cbn in *; lia. }
  split_and!; try lia. assert (py * pps + px < (py + 2) * pps) by nia. nia.
Qed.

Lemma paints_guard m : paints m = true ->
  layout_ok m = true /\ is_direct_framebuffer (pixel_format_of (gop_pixel_format m)) = true /\
  framebuffer_base m <> 0 /\ 320 <= horizontal_resolution m /\ 200 <= vertical_resolution m /\
  horizontal_resolution m <= pixels_per_scan_line m /\ min_framebuffer_bytes m <= framebuffer_size m.
Proof.
  unfold paints, layout_ok. rewrite !andb_true_iff, !Z.leb_le, negb_true_iff, Z.eqb_neq. intuition.
Qed.

(** ** The report *)

Lemma boot_obs_wf st :
  (forall t m, st = Some t -> gop t = Some (Some m) -> mode_wf m) -> obs_wf (boot_obs st).
Proof.
  intros Hwf. unfold obs_wf, boot_obs. cbn [framebuffer].
  destruct st as [[con bs [[m|]|]]|]; try (destruct bs); cbn; unfold is_u; try lia.
  destruct (Hwf _ m eq_refl eq_refl) as ([? ?] & [? ?] & _ & [? ?]). lia.
Qed.

(** The 384 bytes of the boot program hold the line of any observation. *)
Lemma diag_renders o : obs_wf o ->
  render_status_line o (replicate 384 0) =
  (Ok (zlen (status_line o)), Some (status_line o ++ drop (length (status_line o)) (replicate 384 0))).
Proof.
  intros W. pose proof (status_line_bound o W) as B. rewrite render_status_line_eq by done. unfold rendered.
  fold (status_line o). by rewrite (proj2 (Z.leb_le _ _)) by exact B.
Qed.

(** ** Theorems *)

(** Memory safety of the boot screen: with a mode whose framebuffer the
    guard accepts, every raw pixel write (background, accent bar, title)
    lies inside the framebuffer, although the banner can be wider than the
    screen and the 32-bit index arithmetic can wrap. *)
Theorem screen_writes_in_bounds m :
  mode_wf m -> forall i c, (i, c) ∈ paint m -> 0 <= i /\ 4 * (i + 1) <= framebuffer_size m.
Proof.
  intros (Uw & Uh & Up & Uf) i c. unfold paint. destruct (paints m) eqn:Ep; [|by intros ?%elem_of_nil].
  apply paints_guard in Ep as (_ & _ & _ & Hw & Hh & Hwp & Hf).
  set (w := horizontal_resolution m) in *. set (h := vertical_resolution m) in *.
  set (pps := pixels_per_scan_line m) in *. cbv zeta. intros Hin.
  assert (Hi : 0 <= i < Z.min (pps * h) (2 ^ 33)).
  { destruct Up as [Up1 Up2]. assert (E33 : 2 ^ 33 = 2 * 2 ^ 32) by done.
    apply elem_of_app in Hin as [Hin|Hin].
    - apply list_elem_of_In, in_flat_map in Hin as (y & Hy & Hin). apply list_elem_of_In, elem_of_seqZ in Hy.
      apply in_map_iff in Hin as (x & [= <- <-] & Hx). apply list_elem_of_In, elem_of_seqZ in Hx.
      pose proof (wrap_range 32 (y * pps) ltac:(lia)) as [_ R].
      pose proof (wrap_le 32 (y * pps) ltac:(lia) ltac:(nia)). destruct Uw as [_ Uw].
      assert (y * pps + x < pps * h) by nia. lia.
    - assert (exists px py, (px, py) ∈ title_points w h ++ bar_points w h /\
                i = wrap 32 (wrap 32 (py * pps) + px)) as (px & py & Hpt & ->).
      { apply elem_of_app in Hin as [Hin|Hin]; apply list_elem_of_In, in_map_iff in Hin as ([px py] & [= <- _] & Hp);
          apply list_elem_of_In in Hp; exists px, py; (split; [|done]); apply elem_of_app; [by right | by left]. }
      destruct (banner_index pps w h px py [] Uw Uh Hw Hh Hwp Hpt) as (? & ? & _ & _ & _ & ?).
      pose proof (pixel_bound pps h px py). lia. }
  split; [lia|]. destruct Up as [Up1 Up2], Uh as [Uh1 Uh2].
  assert (pps * h < 2 ^ 32 * 2 ^ 32) by nia. change (2 ^ 32 * 2 ^ 32) with 18446744073709551616 in *.
  unfold min_framebuffer_bytes, sat_mul in Hf. fold pps h in Hf.
  change (2 ^ 64 - 1) with 18446744073709551615 in Hf. change (2 ^ 33) with 8589934592 in Hi. lia.
Qed.

(** Where the banner lands: if the screen is at least as wide as the banner
    (540 pixels below 1024, 1080 from 1024 on) every title and bar point is
    on the screen and, for framebuffers of at most 2^32 pixels, written at
    its own place; on screens from 1024 to 1063 pixels wide (and from 320
    to 531) part of the title lies beyond the right edge, so with a scan
    line of that width it is painted into the next line. *)
Theorem title_layout m :
  mode_wf m -> paints m = true ->
  let w := horizontal_resolution m in let h := vertical_resolution m in
  let pps := pixels_per_scan_line m in
  (135 * scale_of w <= w -> forall px py, (px, py) ∈ title_points w h ++ bar_points w h ->
     0 <= px < w /\ 0 <= py < h /\
     (pps * h <= 2 ^ 32 -> forall c, pixel pps px py c = (py * pps + px, c))) /\
  (1024 <= w < 1064 \/ 320 <= w < 532 -> exists px py, (px, py) ∈ title_points w h /\ w <= px).
Proof.
  intros (Uw & Uh & Up & Uf) Ep. apply paints_guard in Ep as (_ & _ & _ & Hw & Hh & Hwp & _). cbv zeta.
  set (w := horizontal_resolution m) in *. set (h := vertical_resolution m) in *.
  set (pps := pixels_per_scan_line m) in *. split.
  - intros Hfit px py Hpt.
    destruct (banner_index pps w h px py [] Uw Uh Hw Hh Hwp Hpt) as (? & ? & _ & ? & Hx & Hb).
    specialize (Hx Hfit). split; [lia|]. split; [lia|]. intros Hs c. unfold pixel.
    assert (0 <= py * pps) by nia. rewrite (wrap_id 32 (py * pps)), wrap_id by (unfold is_u; lia). done.
  - intros Hr.
    assert (E : exists n, w <= n /\ existsb (Z.eqb n) (map fst (title_points w h)) = true).
    { unfold title_points, title_x. destruct (title_within w h Uw Uh Hw Hh) as (T & _). rewrite T.
      generalize (title_y w h) as y0. intros y0. unfold scale_of.
      destruct (Z.leb_spec 1024 w) as [L|L].
      - assert (sat_sub w (135 * 8) / 2 = 0) as -> by (unfold sat_sub; by rewrite Z.max_l by lia).
        exists 1063. split; [lia|]. vm_compute. reflexivity.
      - assert (sat_sub w (135 * 4) / 2 = 0) as -> by (unfold sat_sub; by rewrite Z.max_l by lia).
        exists 531. split; [lia|]. vm_compute. reflexivity. }
    destruct E as (n & Hn & Ex). apply existsb_exists in Ex as (k & Hk & <-%Z.eqb_eq).
    apply in_map_iff in Hk as ([px py] & <- & Hp). exists px, py. split; [by apply list_elem_of_In | done].
Qed.

(** The row the boot program prints is the full diagnostic line of its
    observation (the fallback row is never printed); the observation never
    claims a stage above a plain framebuffer, since neither Secure Boot nor
    the loader path is read, and the screen is painted only when a direct
    framebuffer is reported. *)
Theorem boot_report st :
  (forall t m, st = Some t -> gop t = Some (Some m) -> mode_wf m) ->
  diag_row st = status_line (boot_obs st) /\
  classify_boot_stage (boot_obs st) ∈ [NoUefi; UefiTable; UefiConsole; BootServices; GraphicsOutput; Framebuffer] /\
  (forall t m, st = Some t -> boot_services t = true -> gop t = Some (Some m) -> paint m <> [] ->
     mode_wf m -> classify_boot_stage (boot_obs st) = Framebuffer).
Proof.
  intros Hwf. assert (W := boot_obs_wf st Hwf).
  split_and!.
  - unfold diag_row. rewrite diag_renders by done. unfold zlen. rewrite Nat2Z.id. by apply take_app_length.
  - unfold classify_boot_stage. cbn [loader_path secure_boot boot_obs].
    repeat match goal with |- context [if ?b then _ else _] => destruct b end; rewrite !elem_of_cons; tauto.
  - intros t m -> Hbs Hg Hp (_ & _ & _ & Uf). unfold paint in Hp. destruct (paints m) eqn:Ep; [|done].
    apply paints_guard in Ep as (Hl & Hd & Hb & Hw & Hh & Hwp & Hm).
    unfold classify_boot_stage, has_direct_framebuffer, boot_obs.
    cbn [uefi_system_table_present gop_located framebuffer loader_path secure_boot]. rewrite Hbs, Hg.
    unfold is_direct_complete, fb_observation. cbn [width height byte_len base_present layout_verified pixel_format].
    assert (0 < framebuffer_size m).
    { unfold min_framebuffer_bytes, sat_mul in Hm. change (2 ^ 64 - 1) with 18446744073709551615 in Hm.
      assert (1 <= pixels_per_scan_line m * vertical_resolution m) by nia. lia. }
    rewrite Hd, Hl, !(proj2 (Z.eqb_neq _ _)) by lia. done.
Qed.

(** ** The theorems at concrete inputs *)

(** A 1024 by 768 BGR mode with tight scan lines. *)
Definition xga : GopMode := mkGop 1024 768 1 1024 0x80000000 (1024 * 768 * 4).

Lemma xga_wf : mode_wf xga.
Proof. unfold mode_wf, is_u. cbn. lia. Qed.

Lemma screen_writes_in_bounds_witness :
  paints xga = true /\ forall i c, (i, c) ∈ paint xga -> 0 <= i /\ 4 * (i + 1) <= 1024 * 768 * 4.
Proof. split; [reflexivity|]. apply (screen_writes_in_bounds xga xga_wf). Defined.

Lemma title_layout_witness : exists px py, (px, py) ∈ title_points 1024 768 /\ 1024 <= px.
Proof.
  destruct (title_layout xga xga_wf eq_refl) as [_ R]. apply R. left. split; [apply Z.le_refl | reflexivity].
Defined.

Lemma boot_report_witness :
  diag_row (Some (mkTable true true (Some (Some xga))))
  = status_line (boot_obs (Some (mkTable true true (Some (Some xga))))).
Proof.
  apply (boot_report (Some (mkTable true true (Some (Some xga))))).
  intros t m [= <-] [= <-]. apply xga_wf.
Defined.
