(* ===== verification/UefiLayout.v ===== *)
(** * The firmware tables in memory ([kernel/boot/src/main.rs])

    The boot program declares the UEFI structures as [repr(C)] structs cut
    off behind the last field it uses. This file computes the [repr(C)]
    layout, reads the tables through it down to the records [BootScreen.v]
    and [Boot.v] start from, and compares the cut structs with the whole
    tables of the UEFI specification. *)

From S2P Require Import Prelude BootLines BootScreen.

#[local] Open Scope Z_scope.

(** ** [repr(C)] on x86-64 *)

#[warnings="-register-all"]
Inductive cty := Prim (width : Z) | Arr (t : cty) (n : Z) | Struct (fs : list (string * cty)).

Abbreviation U8 := (Prim 1).
Abbreviation U16 := (Prim 2).
Abbreviation U32 := (Prim 4).
Abbreviation U64 := (Prim 8).
Abbreviation Usize := (Prim 8).
Abbreviation Ptr := (Prim 8).

Definition align_up (off a : Z) : Z := (off + a - 1) / a * a.

Fixpoint align_of (t : cty) : Z :=
  match t with
  | Prim w => w
  | Arr t _ => align_of t
  | Struct fs => fold_right (fun f a => Z.max (align_of f.2) a) 1 fs
  end.

Fixpoint size_of (t : cty) : Z :=
  match t with
  | Prim w => w
  | Arr t n => size_of t * n
  | Struct fs => align_up (fold_left (fun off f => align_up off (align_of f.2) + size_of f.2) fs 0) (align_of t)
  end.

(** Each field with its offset, the first at [off] or behind. *)
Fixpoint offsets_from (off : Z) (fs : list (string * cty)) : list (string * (Z * cty)) :=
  match fs with
  | [] => []
  | (name, t) :: fs' =>
      let o := align_up off (align_of t) in (name, (o, t)) :: offsets_from (o + size_of t) fs'
  end.

Definition place (fs : list (string * cty)) (name : string) : option (Z * cty) :=
  snd <$> List.find (fun f => bool_decide (f.1 = name)) (offsets_from 0 fs).

Module Uefi.

(** The bytes of [GOP_GUID] in memory. *)
Definition GOP_GUID : bytes :=
  le_bytes 4 0x9042a9de ++ le_bytes 2 0x23dc ++ le_bytes 2 0x4a38 ++
   [0x96; 0xfb; 0x7a; 0xde; 0xd0; 0x80; 0x51; 0x6a].

#[local] Open Scope string_scope.

Definition EfiTableHeader : list (string * cty) :=
  [("signature", U64); ("revision", U32); ("header_size", U32); ("crc32", U32); ("reserved", U32)].

Definition SimpleTextOutput : list (string * cty) := [("reset", Usize); ("output_string", Ptr)].

Definition EfiSystemTable : list (string * cty) :=
  [("hdr", Struct EfiTableHeader); ("firmware_vendor", Ptr); ("firmware_revision", U32); ("console_in_handle", Ptr);
   ("con_in", Ptr); ("console_out_handle", Ptr); ("con_out", Ptr); ("standard_error_handle", Ptr); ("std_err", Ptr);
   ("runtime_services", Ptr); ("boot_services", Ptr)].

Definition EfiGuid : list (string * cty) := [("d1", U32); ("d2", U16); ("d3", U16); ("d4", Arr U8 8)].

Definition BootServices : list (string * cty) :=
  [("hdr", Struct EfiTableHeader); ("_pad", Arr Usize 37); ("locate_protocol", Ptr)].

Definition GopModeInfo : list (string * cty) :=
  [("version", U32); ("horizontal_resolution", U32); ("vertical_resolution", U32); ("pixel_format", U32);
   ("pixel_information", Arr U32 4); ("pixels_per_scan_line", U32)].

Definition GopMode : list (string * cty) :=
  [("max_mode", U32); ("mode", U32); ("info", Ptr); ("size_of_info", Usize); ("framebuffer_base", U64);
   ("framebuffer_size", Usize)].

Definition GraphicsOutputProtocol : list (string * cty) :=
  [("query_mode", Usize); ("set_mode", Usize); ("blt", Usize); ("mode", Ptr)].

Section Reading.
(** Memory by bytes, and what calling a [LocateProtocol] pointer with
    [GOP_GUID] returns: the status and the protocol pointer. *)
Context (mem : Z -> Z) (locate : Z -> bytes -> Z * Z).

Definition load (a : Z) (n : nat) : Z := le_value (map (fun k => mem (a + Z.of_nat k)%Z) (seq 0 n)).

(** The field [name] of the struct at [base]. *)
Definition get (base : Z) (fs : list (string * cty)) (name : string) : Z :=
  match place fs name with Some (o, t) => load (base + o) (Z.to_nat (size_of t)) | None => 0%Z end.

(** The mode a protocol pointer leads to, unless a pointer is null. *)
Definition read_mode (gop : Z) : option BootScreen.GopMode :=
  let mode := get gop GraphicsOutputProtocol "mode" in
  if (mode =? 0)%Z then None
  else
    let info := get mode GopMode "info" in
    if (info =? 0)%Z then None
    else Some (BootScreen.mkGop (get info GopModeInfo "horizontal_resolution") (get info GopModeInfo "vertical_resolution")
                 (get info GopModeInfo "pixel_format") (get info GopModeInfo "pixels_per_scan_line")
                 (get mode GopMode "framebuffer_base") (get mode GopMode "framebuffer_size")).

(** The system table pointer, down to the mode. *)
Definition read_system_table (st : Z) : option BootScreen.SystemTable :=
  if (st =? 0)%Z then None
  else
    let bs := get st EfiSystemTable "boot_services" in
    let gop :=
      if (bs =? 0)%Z then None
      else
        let '(status, gop_ptr) := locate (get bs BootServices "locate_protocol") GOP_GUID in
        if (status =? 0)%Z && negb (gop_ptr =? 0)%Z then Some (read_mode gop_ptr) else None in
    Some (BootScreen.mkTable (negb (get st EfiSystemTable "con_out" =? 0)%Z) (negb (bs =? 0)%Z) gop).

End Reading.
End Uefi.

Import Uefi.

(** ** The tables of the specification (UEFI 2.10, 4.2 to 4.4, 12.4, 12.9) *)

Module Spec.

#[local] Open Scope string_scope.

Definition EfiSystemTable : list (string * cty) :=
  Uefi.EfiSystemTable ++ [("number_of_table_entries", Usize); ("configuration_table", Ptr)].

Definition SimpleTextOutput : list (string * cty) :=
  [("reset", Ptr); ("output_string", Ptr); ("test_string", Ptr); ("query_mode", Ptr); ("set_mode", Ptr);
   ("set_attribute", Ptr); ("clear_screen", Ptr); ("set_cursor_position", Ptr); ("enable_cursor", Ptr); ("mode", Ptr)].

Definition services : list string :=
  ["raise_tpl"; "restore_tpl"; "allocate_pages"; "free_pages"; "get_memory_map"; "allocate_pool"; "free_pool";
   "create_event"; "set_timer"; "wait_for_event"; "signal_event"; "close_event"; "check_event";
   "install_protocol_interface"; "reinstall_protocol_interface"; "uninstall_protocol_interface"; "handle_protocol";
   "reserved"; "register_protocol_notify"; "locate_handle"; "locate_device_path"; "install_configuration_table";
   "load_image"; "start_image"; "exit"; "unload_image"; "exit_boot_services"; "get_next_monotonic_count"; "stall";
   "set_watchdog_timer"; "connect_controller"; "disconnect_controller"; "open_protocol"; "close_protocol";
   "open_protocol_information"; "protocols_per_handle"; "locate_handle_buffer"; "locate_protocol";
   "install_multiple_protocol_interfaces"; "uninstall_multiple_protocol_interfaces"; "calculate_crc32"; "copy_mem";
   "set_mem"; "create_event_ex"].

Definition BootServices : list (string * cty) :=
  ("hdr", Struct EfiTableHeader) :: map (fun s => (s, Ptr)) services.

Definition GopModeInfo : list (string * cty) :=
  [("version", U32); ("horizontal_resolution", U32); ("vertical_resolution", U32); ("pixel_format", U32);
   ("pixel_information", Struct [("red_mask", U32); ("green_mask", U32); ("blue_mask", U32); ("reserved_mask", U32)]);
   ("pixels_per_scan_line", U32)].

End Spec.

(** Cutting a struct off behind a field moves no field in front. *)
Lemma offsets_from_app off fs more :
  exists rest, offsets_from off (fs ++ more) = offsets_from off fs ++ rest.
Proof.
  revert off. induction fs as [|[name t] fs IH]; intros off; [by eexists|].
  cbn [app offsets_from]. destruct (IH (align_up off (align_of t) + size_of t)) as [rest ->]. by exists rest.
Qed.

Lemma find_app {A} (f : A -> bool) l l' x : List.find f l = Some x -> List.find f (l ++ l') = Some x.
Proof. induction l as [|y l IH]; [done|]. cbn. by destruct (f y). Qed.

Lemma place_prefix fs more name p : place fs name = Some p -> place (fs ++ more) name = Some p.
Proof.
  unfold place. destruct (offsets_from_app 0 fs more) as [rest ->].
  destruct (List.find _ (offsets_from 0 fs)) as [x|] eqn:E; [|done]. by rewrite (find_app _ _ _ _ E).
Qed.

(** ** Theorems *)

(** Memory holds a table of the specification: every field of [fs] has its
    value [v] at the offset and width the specification gives it. *)
Definition holds (mem : Z -> Z) (base : Z) (fs : list (string * cty)) (v : string -> Z) : Prop :=
  forall name o t, place fs name = Some (o, t) -> load mem (base + o) (Z.to_nat (size_of t)) = v name.

(** The fields the boot program reads lie where the specification puts
    them. *)
Lemma read_offsets :
  place EfiSystemTable "con_out" = place Spec.EfiSystemTable "con_out" /\
  place EfiSystemTable "boot_services" = place Spec.EfiSystemTable "boot_services" /\
  place SimpleTextOutput "output_string" = place Spec.SimpleTextOutput "output_string" /\
  place BootServices "locate_protocol" = place Spec.BootServices "locate_protocol" /\
  (forall name, name <> "pixel_information"%string -> place GopModeInfo name = place Spec.GopModeInfo name) /\
  size_of (Struct GopModeInfo) = size_of (Struct Spec.GopModeInfo) /\ size_of (Struct EfiGuid) = zlen GOP_GUID.
Proof.
  split_and!; try by vm_compute. intros name Hn. unfold place.
  assert (E : forall l l' : list (string * (Z * cty)), Forall2 (fun a c => a.1 = c.1 /\ (a.1 <> "pixel_information"%string -> a = c)) l l' ->
    snd <$> List.find (fun f => bool_decide (f.1 = name)) l = snd <$> List.find (fun f => bool_decide (f.1 = name)) l').
  { induction 1 as [|a c l l' [E1 E2] _ IH]; [done|]. cbn. rewrite <- E1.
    destruct (bool_decide (a.1 = name)) eqn:B; [|done]. apply bool_decide_eq_true in B.
    rewrite E2 by congruence. done. }
  apply E. vm_compute. repeat constructor; done.
Qed.

Lemma get_spec mem base fs spec name v :
  place fs name = place spec name -> is_Some (place spec name) -> holds mem base spec v -> get mem base fs name = v name.
Proof. intros E [[o t] Hp] H. unfold get. rewrite E, Hp. by apply H. Qed.

(** On memory that holds the tables of the specification, with a console
    and a graphics protocol, the boot program reads exactly their values:
    whether there is a console, the mode's geometry and its framebuffer. *)
Lemma read_firmware mem locate st gop_ptr vt vb vg vm vi :
  holds mem st Spec.EfiSystemTable vt -> holds mem (vt "boot_services"%string) Spec.BootServices vb ->
  holds mem gop_ptr GraphicsOutputProtocol vg -> holds mem (vg "mode"%string) GopMode vm ->
  holds mem (vm "info"%string) Spec.GopModeInfo vi ->
  st <> 0 -> vt "boot_services"%string <> 0 -> gop_ptr <> 0 -> vg "mode"%string <> 0 -> vm "info"%string <> 0 ->
  locate (vb "locate_protocol"%string) GOP_GUID = (0, gop_ptr) ->
  read_system_table mem locate st =
  Some (BootScreen.mkTable (negb (vt "con_out"%string =? 0)) true (Some (Some
    (BootScreen.mkGop (vi "horizontal_resolution"%string) (vi "vertical_resolution"%string) (vi "pixel_format"%string)
       (vi "pixels_per_scan_line"%string) (vm "framebuffer_base"%string) (vm "framebuffer_size"%string))))).
Proof.
  intros Ht Hb Hg Hm Hi N1 N2 N3 N4 N5 Hl. destruct read_offsets as (P1 & P2 & _ & P4 & P5 & _).
  assert (S : forall fs name, bool_decide (is_Some (place fs name)) = true -> is_Some (place fs name))
    by (intros fs name H; by apply bool_decide_eq_true in H).
  pose proof (get_spec _ _ _ _ _ _ P1 ltac:(by apply S) Ht) as E1.
  pose proof (get_spec _ _ _ _ _ _ P2 ltac:(by apply S) Ht) as E2.
  pose proof (get_spec _ _ _ _ _ _ P4 ltac:(by apply S) Hb) as E4.
  assert (G : forall name, bool_decide (is_Some (place Spec.GopModeInfo name)) = true -> name <> "pixel_information"%string ->
    get mem (vm "info"%string) GopModeInfo name = vi name).
  { intros name H1 H2. by apply (get_spec _ _ _ Spec.GopModeInfo); [apply P5 | apply S |]. }
  assert (M : forall name, bool_decide (is_Some (place GopMode name)) = true -> get mem (vg "mode"%string) GopMode name = vm name).
  { intros name H1. by apply (get_spec _ _ _ GopMode); [|apply S|]. }
  assert (P : get mem gop_ptr GraphicsOutputProtocol "mode" = vg "mode"%string).
  { by apply (get_spec _ _ _ GraphicsOutputProtocol); [|apply S|]. }
  apply Z.eqb_neq in N1, N2, N3, N4, N5.
  unfold read_system_table. rewrite E1, E2, E4, Hl, N1, N2, N3. cbn [Z.eqb negb andb].
  unfold read_mode. rewrite P, N4, !M by (by vm_compute). rewrite N5.
  by rewrite !G by (by vm_compute).
Qed.

(** A memory image: the tables one behind the other from address 4096. *)
Example read_image :
  let zeros n := replicate (Z.to_nat n) 0 in
  let word n := le_bytes 8 n in
  let image :=
    zeros 64 ++ word 1 ++ zeros 24 ++ word 4224 ++ zeros 24 ++
    zeros 320 ++ word 7 ++
    zeros 24 ++ word 4584 ++
    zeros 8 ++ word 4624 ++ zeros 8 ++ word 0xC0000000 ++ word 3145728 ++
    zeros 4 ++ le_bytes 4 1024 ++ le_bytes 4 768 ++ le_bytes 4 1 ++ zeros 16 ++ le_bytes 4 1024 in
  let mem a := nth (Z.to_nat (a - 4096)) image 0 in
  read_system_table mem (fun f g => if (f =? 7) && bytes_eqb g GOP_GUID then (0, 4552) else (1, 0)) 4096 =
  Some (BootScreen.mkTable true true (Some (Some (BootScreen.mkGop 1024 768 1 1024 0xC0000000 3145728)))).
Proof. by vm_compute. Qed.
