(* ===== verification/Boot.v ===== *)
(** * The boot program at its ports ([kernel/boot/src/main.rs], [hwinv.rs], [rtc.rs])

    [efi_main] as a program on bare hardware: the serial port, the firmware
    console, the framebuffer, the configuration ports of the PCI bus, the
    CMOS clock and the time stamp counter, instruction by instruction, up
    to the init task, which touches no hardware. The texts it prints are
    those of the other boot files; here is when and through which ports
    they leave, for every environment, and that on a machine that answers
    as documented they leave completely. *)

From S2P Require Import Prelude Digest Sha256 Access CosignChain SyscallTypes Hookwall Gnn Envelope Queue FrameAlloc Vfs.
From S2P Require Import AgentRuntime AgentRegistry Syscall Init BootLines BumpAlloc Hwinv BootChain BootScreen Hardware.
From ITree Require Import Core.ITreeDefinition.

Module Boot.

Import LineWriter BootDiag Hwinv BootChain BootScreen.
#[local] Open Scope Z_scope.

Abbreviation prog := (itree hwE).

Definition outb (port val : Z) : prog unit := ITree.trigger (Outb port val).
Definition inb (port : Z) : prog Z := ITree.trigger (Inb port).
Definition outl (port val : Z) : prog unit := ITree.trigger (Outl port val).
Definition inl32 (port : Z) : prog Z := ITree.trigger (Inl port).

(** The panic handler: [hlt] for ever. *)
Definition panic {A} : prog A := ITree.iter (fun _ : unit => ITree.trigger Hlt;; mret (inl tt)) tt.

(** A computation that may panic, as part of the program. *)
Definition of_comp {A} (c : comp unit A) : prog A := match c with CRet a => mret a | _ => panic end.

(** *** The serial port *)

Definition COM1 : Z := 0x3F8.

Definition serial_init : prog unit :=
  outb (COM1 + 1) 0x00;; outb (COM1 + 3) 0x80;; outb COM1 0x03;; outb (COM1 + 1) 0x00;;
  outb (COM1 + 3) 0x03;; outb (COM1 + 2) 0xC7;; outb (COM1 + 4) 0x0B.

(** [while inb(COM1 + 5) & 0x20 == 0 {}]. *)
Definition wait_empty : prog unit :=
  ITree.iter (fun _ : unit => v ← inb (COM1 + 5); mret (if Z.land v 0x20 =? 0 then inl tt else inr tt)) tt.

Fixpoint serial_print (msg : bytes) : prog unit :=
  match msg with
  | [] => mret tt
  | b :: msg' => wait_empty;; outb COM1 b;; serial_print msg'
  end.

(** *** The firmware console: the 1024-entry buffer, at most 1023 of them
    the message, the rest zero. *)
Definition console_buffer (msg : bytes) : list Z :=
  let n := Nat.min (length msg) 1023 in take n msg ++ replicate (1024 - n) 0.

Definition uefi_print (st : option SystemTable) (msg : bytes) : prog unit :=
  match st with
  | None => mret tt
  | Some t => if con_out t then ITree.trigger (OutputString (console_buffer msg)) else mret tt
  end.

(** *** The framebuffer *)

Fixpoint pokes (ws : list fb_write) : prog unit :=
  match ws with
  | [] => mret tt
  | (i, c) :: ws' => ITree.trigger (Poke i c);; pokes ws'
  end.

(** The mode found through [LocateProtocol]. *)
Definition located_mode (st : option SystemTable) : option GopMode :=
  match st with
  | Some t => if boot_services t then match gop t with Some (Some m) => Some m | _ => None end else None
  | None => None
  end.

Definition painting (st : option SystemTable) : list fb_write :=
  match located_mode st with Some m => paint m | None => [] end.

(** *** The PCI bus *)

Definition PCI_CFG_ADDR : Z := 0xCF8.
Definition PCI_CFG_DATA : Z := 0xCFC.

Definition config_address (bus dev func off : Z) : Z :=
  Z.lor (Z.lor (Z.lor (Z.lor 0x80000000 (Z.shiftl bus 16)) (Z.shiftl dev 11)) (Z.shiftl func 8)) (Z.land off 0xFC).

Definition cfg_read32 (bus dev func off : Z) : prog Z :=
  outl PCI_CFG_ADDR (config_address bus dev func off);; inl32 PCI_CFG_DATA.

(** One function of a slot: its line is printed, its entry pushed; the flag
    tells that the cap was reached. *)
Definition scan_func (t : HwTuple) (bus dev func : Z) : prog (HwTuple * bool) :=
  id ← cfg_read32 bus dev func 0x00;
  let vendor := Z.land id 0xFFFF in
  if vendor =? 0xFFFF then mret (t, false)
  else
    let device := Z.shiftr id 16 in
    class_reg ← cfg_read32 bus dev func 0x08;
    let class := Z.land (Z.shiftr class_reg 24) 0xFF in
    let subclass := Z.land (Z.shiftr class_reg 16) 0xFF in
    let prog_if := Z.land (Z.shiftr class_reg 8) 0xFF in
    line ← of_comp (put_all LINE_CAP [] (line_parts bus dev func vendor device class subclass prog_if));
    serial_print line;;
    let t' := push t vendor device class subclass prog_if in
    mret (t', 64 <=? count t').

Fixpoint scan_funcs (t : HwTuple) (bus dev : Z) (funcs : list Z) : prog (HwTuple * bool) :=
  match funcs with
  | [] => mret (t, false)
  | f :: funcs' =>
      r ← scan_func t bus dev f;
      if r.2 : bool then mret (r.1, true) else scan_funcs r.1 bus dev funcs'
  end.

Definition scan_slot (t : HwTuple) (bus dev : Z) : prog (HwTuple * bool) :=
  id0 ← cfg_read32 bus dev 0 0x00;
  if Z.land id0 0xFFFF =? 0xFFFF then mret (t, false)
  else
    header ← cfg_read32 bus dev 0 0x0C;
    let header_type := Z.land (Z.shiftr header 16) 0xFF in
    scan_funcs t bus dev (seqZ 0 (if negb (Z.land header_type 0x80 =? 0) then 8 else 1)).

Fixpoint scan_devs (t : HwTuple) (bus : Z) (devs : list Z) : prog (HwTuple * bool) :=
  match devs with
  | [] => mret (t, false)
  | d :: devs' =>
      r ← scan_slot t bus d;
      if r.2 : bool then mret (r.1, true) else scan_devs r.1 bus devs'
  end.

Fixpoint scan_buses (t : HwTuple) (buses : list Z) : prog (HwTuple * bool) :=
  match buses with
  | [] => mret (t, false)
  | b :: buses' =>
      r ← scan_devs t b (seqZ 0 32);
      if r.2 : bool then mret (r.1, true) else scan_buses r.1 buses'
  end.

Definition emit_device_pid (t : HwTuple) (seat : bytes) : prog bytes :=
  r ← of_comp (Hwinv.emit_device_pid t seat); serial_print r.1;; mret r.2.

Definition pci_scan (seat : bytes) : prog HwSummary :=
  serial_print (lit "  hwinv . PCI enumeration (0xCF8/0xCFC, read-only)" ++ crlf);;
  r ← scan_buses new (seqZ 0 256);
  serial_print (if r.2 : bool then lit "  hwinv . (capped at 64 device-functions)" ++ crlf
                else lit "  hwinv . PCI scan complete" ++ crlf);;
  digest ← emit_device_pid r.1 seat;
  mret (mkSummary digest (t_rst_vmd r.1) (t_ahci r.1)).

(** *** The clock *)

Definition cmos_read (reg : Z) : prog Z := outb 0x70 (Z.land reg 0x7F);; inb 0x71.

Definition rdtsc : prog Z := r ← ITree.trigger Rdtsc; mret (Z.lor (Z.shiftl r.1 32) r.2).

(** The poll of the update flag, [guard] of the polls counted so far. *)
Definition poll_clock (guard : Z) : prog unit :=
  ITree.iter (fun guard : Z =>
    a ← cmos_read 0x0A;
    mret (if negb (Z.land a 0x80 =? 0) && (guard <? WAIT_POLLS) then inl (guard + 1) else inr tt)) guard.

Fixpoint cmos_registers (regs : list Z) : prog (list Z) :=
  match regs with
  | [] => mret []
  | r :: regs' => v ← cmos_read r; vs ← cmos_registers regs'; mret (v :: vs)
  end.

(** Second, minute, hour, day, month, year, century, status B. *)
Definition CLOCK_REGISTERS : list Z := [0x00; 0x02; 0x04; 0x07; 0x08; 0x09; 0x32; 0x0B].

Definition read_boot_time : prog BootTime :=
  poll_clock 0;;
  raw ← cmos_registers CLOCK_REGISTERS;
  tick ← rdtsc;
  let bt := decode_clock (fun i _ => nth i raw 0) 0 tick in
  row ← of_comp (put_all 96 [] (boottime_parts bt));
  serial_print row;; mret bt.

(** *** The boot identity and the driver rows *)

Definition bootproj_emit (device_digest : bytes) (bt : BootTime) : prog bytes :=
  r ← of_comp (emit device_digest bt); serial_print r.2;; mret r.1.

Definition driver_probe (row : comp unit bytes) : prog unit := r ← of_comp row; serial_print r.

(** *** [efi_main] *)

Definition BANNER : bytes := crlf ++ lit "  ASOLARIA ASI OS   .   kernel 0.2.0-phase3-scaffold   .   booting" ++ crlf.
Definition BANNER2 : bytes := lit "  federation-1024   .   envelope-REPL init   .   E=0   .   fire=0" ++ crlf ++ crlf.
Definition RENDER_FALLBACK : bytes :=
  lit "ASOBTDIAG|format=hbpish|evidence=MEASURED_BOOT|source=uefi|seat=unknown|receipt=unsealed|tuple=boot:diag:early|stage=render-buffer-too-small" ++ crlf.

(** The row [build.rs] bakes in for a seat. *)
Definition BOOT_SEAT_ROW (seat : bytes) : bytes :=
  lit "ASOBTID|format=hbpish|evidence=BUILD_TIME_SEAT_CONTEXT|source=uefi|seat=" ++ seat ++
  lit "|device_identity=runtime-pci-60d|boot_identity=runtime-rtc-tsc|authority=unsealed|e=0|fire=0|json=0".

Definition print_both (st : option SystemTable) (row : bytes) : prog unit :=
  serial_print row;; serial_print crlf;; uefi_print st row;; uefi_print st crlf.

Definition report (st : option SystemTable) : prog unit :=
  match render_status_line (boot_obs st) (replicate 384 0) with
  | (Ok n, Some buf) => print_both st (take (Z.to_nat n) buf)
  | _ => serial_print RENDER_FALLBACK
  end.

(** [efi_main] up to the init task, which it hands a fresh heap. *)
Definition boot (st : option SystemTable) (seat : bytes) (heap : Z) : prog BumpAlloc.BumpAllocator :=
  serial_init;; serial_print BANNER;; serial_print BANNER2;;
  uefi_print st BANNER;; uefi_print st BANNER2;;
  pokes (painting st);;
  report st;;
  print_both st (BOOT_SEAT_ROW seat);;
  hw ← pci_scan seat;
  boot_time ← read_boot_time;
  boot_pid ← bootproj_emit (device_digest hw) boot_time;
  driver_probe (probe_rst_vmd hw boot_pid boot_time seat);;
  driver_probe (probe_ahci hw boot_pid boot_time seat);;
  mret (BumpAlloc.init BumpAlloc.new heap BumpAlloc.HEAP_SIZE).

Section Main.
Context `{Digest} {Q : Type} `{ByteQueue Q}.
Import Syscall.

(** [init::run]: its loop, and [sys_exit], which spins. *)
Definition init_run {A} (k : Kernel Q) : prog A :=
  s ← ITree.iter (fun s => match Init.loop_step s with
                           | Init.Cont s' => mret (inl s')
                           | Init.Exited status _ => mret (inr status)
                           end) (Init.run_start k);
  ITree.iter (fun status : Z => mret (inl status)) s.

Definition efi_main {A} (st : option SystemTable) (seat : bytes) (heap : Z) (k : Kernel Q) : prog A :=
  boot st seat heap;; init_run k.

End Main.
End Boot.

Import LineWriter BootDiag Hwinv BootChain BootScreen Boot.
#[local] Open Scope Z_scope.

(** ** What leaves the machine *)

(** The divisor latch of the serial port, the bytes transmitted, the reads
    of the clock so far, the strings given to the console, the pixels
    written. While the latch is open, the data port holds the divisor. *)
Record seen := Seen {
  latch : bool; sent : bytes; clock_reads : nat; shown : list (list Z); drawn : list fb_write
}.

Definition print (s : bytes) (v : seen) : seen := Seen (latch v) (sent v ++ s) (clock_reads v) (shown v) (drawn v).
Definition set_latch (b : bool) (v : seen) : seen := Seen b (sent v) (clock_reads v) (shown v) (drawn v).
Definition tick_clock (n : nat) (v : seen) : seen := Seen (latch v) (sent v) (clock_reads v + n) (shown v) (drawn v).
Definition at_read (n : nat) (v : seen) : seen := Seen (latch v) (sent v) n (shown v) (drawn v).
Definition show (bufs : list (list Z)) (v : seen) : seen :=
  Seen (latch v) (sent v) (clock_reads v) (shown v ++ bufs) (drawn v).
Definition has_console (st : option SystemTable) : bool := match st with Some t => con_out t | None => false end.
Definition on_console (st : option SystemTable) (msgs : list bytes) (v : seen) : seen :=
  show (if has_console st then map console_buffer msgs else []) v.
(** The rows of [efi_main] before the identity chain. *)
Definition printed_rows (st : option SystemTable) (seat : bytes) : list bytes :=
  [status_line (boot_obs st); crlf; BOOT_SEAT_ROW seat; crlf].

Definition draw (ws : list fb_write) (v : seen) : seen :=
  Seen (latch v) (sent v) (clock_reads v) (shown v) (drawn v ++ ws).

Definition see (v : seen) (a : access) : seen :=
  match a with
  | Did e _ =>
      match e with
      | Outb p b => if p =? COM1 then if latch v then v else print [b] v
                    else if p =? COM1 + 3 then set_latch (negb (Z.land b 0x80 =? 0)) v else v
      | Inb p => if p =? 0x71 then tick_clock 1 v else v
      | OutputString buf => show [buf] v
      | Poke i c => draw [(i, c)] v
      | _ => v
      end
  end.

(** [latch0]: how the firmware left the latch. *)
Fixpoint seen_after (latch0 : bool) (h : list access) : seen :=
  match h with
  | [] => Seen latch0 [] 0 [] []
  | a :: h' => see (seen_after latch0 h') a
  end.

(** The line status register, polled again and again, shows an empty
    transmitter at last. *)
Inductive empties (env : environment) (h : list access) : Prop :=
| empties_now : Z.land (env h _ (Inb (COM1 + 5))) 0x20 <> 0 -> empties env h
| empties_later : empties env (Did (Inb (COM1 + 5)) (env h _ (Inb (COM1 + 5))) :: h) -> empties env h.

(** A machine that answers as documented: the configuration data port gives
    the register addressed just before, the clock's data port the register
    selected just before, the time stamp counter its two halves, and the
    serial port does not hold back for ever. *)
Record machine_ok (latch0 : bool) (env : environment) (pci : Z -> Z) (cmos : nat -> Z -> Z) (ts : Z) : Prop := {
  mo_pci h a : env (Did (Outl PCI_CFG_ADDR a) tt :: h) _ (Inl PCI_CFG_DATA) = wrap 32 (pci a);
  mo_cmos h r : env (Did (Outb 0x70 r) tt :: h) _ (Inb 0x71) = wrap 8 (cmos (clock_reads (seen_after latch0 h)) r);
  mo_tsc h : env h _ Rdtsc = (Z.shiftr ts 32, Z.land ts (Z.ones 32));
  mo_uart h : empties env h
}.

Lemma CRet_pair {E A B} (a a' : A) (b b' : B) : @CRet E _ (a, b) = CRet (a', b') -> a = a' /\ b = b'.
Proof. by intros [= -> ->]. Qed.

Lemma CRet_quad {E A B C D} (a a' : A) (b b' : B) (c c' : C) (d d' : D) :
  @CRet E _ (a, b, c, d) = CRet (a', b', c', d') -> a = a' /\ b = b' /\ c = c' /\ d = d'.
Proof. by intros [= -> -> -> ->]. Qed.

Lemma print_nil v : print [] v = v.
Proof. destruct v. unfold print. cbn. by rewrite app_nil_r. Qed.

Lemma print_print a b v : print b (print a v) = print (a ++ b) v.
Proof. unfold print. cbn. by rewrite app_assoc. Qed.

Lemma print_tick a n v : print a (tick_clock n v) = tick_clock n (print a v).
Proof. done. Qed.

Lemma tick_zero v : tick_clock 0 v = v.
Proof. destruct v. unfold tick_clock. cbn. by rewrite Nat.add_0_r. Qed.

Lemma tick_tick a b v : tick_clock b (tick_clock a v) = tick_clock (a + b) v.
Proof. unfold tick_clock. cbn. by rewrite Nat.add_assoc. Qed.

Lemma on_console_app st a b v : on_console st b (on_console st a v) = on_console st (a ++ b) v.
Proof. unfold on_console, show. cbn. destruct (has_console st); by rewrite ?map_app, ?app_nil_r, ?app_assoc. Qed.

(** ** Runs on such a machine *)

Section Runs.
Context (latch0 : bool) (env : environment) (pci : Z -> Z) (cmos : nat -> Z -> Z) (ts : Z).
Context (OK : machine_ok latch0 env pci cmos ts).
#[local] Set Default Proof Using "All".

(** From any history seen as [v], the program finishes with [a], seen as [v']. *)
Definition big {A} (v : seen) (t : prog A) (a : A) (v' : seen) : Prop :=
  forall h, seen_after latch0 h = v -> exists h', does env h t h' a /\ seen_after latch0 h' = v'.

Lemma big_ret {A} v (a : A) : big v (mret a) a v.
Proof. intros h Hh. exists h. split; [apply does_ret | done]. Qed.

Lemma big_bind {A B} v (t : prog A) (k : A -> prog B) v1 a v2 b :
  big v t a v1 -> big v1 (k a) b v2 -> big v (t ≫= k) b v2.
Proof.
  intros Ht Hk h Hh. destruct (Ht h Hh) as (h1 & D1 & E1). destruct (Hk h1 E1) as (h2 & D2 & E2).
  exists h2. split; [by eapply does_bind | done].
Qed.

(** Printing [msg], then [rest]. *)
Lemma big_bind_print {A B} v (t : prog A) (k : A -> prog B) msg rest a b :
  big v t a (print msg v) -> big (print msg v) (k a) b (print rest (print msg v)) ->
  big v (t ≫= k) b (print (msg ++ rest) v).
Proof. rewrite print_print. apply big_bind. Qed.

Lemma big_event v (e : hwE unit) : big v (ITree.trigger e) tt (see v (Did e tt)).
Proof.
  intros h <-. pose proof (does_trigger env h e) as D. destruct (env h unit e). eexists. split; [exact D | done].
Qed.

Lemma big_cfg_read v bus dev func off :
  big v (cfg_read32 bus dev func off) (Hwinv.cfg_read32 pci bus dev func off) v.
Proof.
  intros h Hh. set (a := config_address bus dev func off).
  pose proof (does_trigger env h (Outl PCI_CFG_ADDR a)) as D. destruct (env h unit _).
  pose proof (does_trigger env (Did (Outl PCI_CFG_ADDR a) tt :: h) (Inl PCI_CFG_DATA)) as D2.
  rewrite (mo_pci _ _ _ _ _ OK) in D2. eexists. split; [eapply does_bind; [exact D | exact D2] | done].
Qed.

Lemma big_cmos_read v r :
  big v (cmos_read r) (wrap 8 (cmos (clock_reads v) (Z.land r 0x7F))) (tick_clock 1 v).
Proof.
  intros h <-. set (a := Z.land r 0x7F).
  pose proof (does_trigger env h (Outb 0x70 a)) as D. destruct (env h unit _).
  pose proof (does_trigger env (Did (Outb 0x70 a) tt :: h) (Inb 0x71)) as D2.
  rewrite (mo_cmos _ _ _ _ _ OK) in D2. eexists. split; [eapply does_bind; [exact D | exact D2] | done].
Qed.

Lemma big_rdtsc v : 0 <= ts -> big v rdtsc ts v.
Proof.
  intros Hts h Hh. pose proof (does_trigger env h Rdtsc) as D. rewrite (mo_tsc _ _ _ _ _ OK) in D.
  exists (Did Rdtsc (Z.shiftr ts 32, Z.land ts (Z.ones 32)) :: h). split; [|done].
  eapply does_bind; [exact D|]. cbn [fst snd].
  assert (E : Z.lor (Z.shiftl (Z.shiftr ts 32) 32) (Z.land ts (Z.ones 32)) = ts).
  { apply Z.bits_inj'. intros n Hn. rewrite Z.lor_spec, Z.land_spec. destruct (Z.ltb_spec n 32).
    - rewrite Z.shiftl_spec_low, Z.ones_spec_low by lia. by rewrite andb_true_r.
    - rewrite Z.shiftl_spec, Z.shiftr_spec, Z.ones_spec_high by lia. rewrite andb_false_r, orb_false_r.
      f_equal. lia. }
  rewrite E. apply does_ret.
Qed.

(** *** The serial port *)

Lemma big_wait_empty v : big v wait_empty tt v.
Proof.
  intros h Hh. induction (mo_uart _ _ _ _ _ OK h) as [h Hr|h _ IH]; set (x := env h _ (Inb (COM1 + 5))) in *.
  - exists (Did (Inb (COM1 + 5)) x :: h). split; [|exact Hh].
    eapply does_iter; [eapply does_bind; [apply does_trigger | apply does_ret]|]. fold x.
    by rewrite (proj2 (Z.eqb_neq _ _)) by exact Hr.
  - destruct (Z.eqb_spec (Z.land x 0x20) 0) as [E|E].
    + destruct IH as (h' & D & E'); [exact Hh|]. exists h'. split; [|done].
      eapply does_iter; [eapply does_bind; [apply does_trigger | apply does_ret]|]. fold x. by rewrite E.
    + exists (Did (Inb (COM1 + 5)) x :: h). split; [|exact Hh].
      eapply does_iter; [eapply does_bind; [apply does_trigger | apply does_ret]|]. fold x.
      by rewrite (proj2 (Z.eqb_neq _ _)) by exact E.
Qed.

Lemma big_serial_print msg v : latch v = false -> big v (serial_print msg) tt (print msg v).
Proof.
  revert v. induction msg as [|b msg IH]; intros v Hl; cbn [serial_print].
  - rewrite print_nil. apply big_ret.
  - eapply big_bind; [apply big_wait_empty|]. eapply big_bind; [apply big_event|].
    cbn [see]. rewrite Z.eqb_refl, Hl. specialize (IH (print [b] v) Hl). by rewrite print_print in IH.
Qed.

Lemma big_serial_init v : big v serial_init tt (set_latch false v).
Proof.
  unfold serial_init. do 6 (eapply big_bind; [apply big_event|]). pose proof (big_event) as He.
  specialize (He (see (see (see (see (see (see v (Did (Outb (COM1 + 1) 0) tt)) (Did (Outb (COM1 + 3) 0x80) tt))
    (Did (Outb COM1 3) tt)) (Did (Outb (COM1 + 1) 0) tt)) (Did (Outb (COM1 + 3) 3) tt)) (Did (Outb (COM1 + 2) 0xC7) tt))
    (Outb (COM1 + 4) 0x0B)). by destruct v.
Qed.

(** *** The console and the screen *)

Lemma big_uefi_print st msg v : big v (uefi_print st msg) tt (on_console st [msg] v).
Proof.
  unfold on_console. destruct st as [t|]; cbn [uefi_print has_console]; [destruct (con_out t)|];
    [apply (big_event v (OutputString (console_buffer msg))) | |];
    unfold show; rewrite app_nil_r; destruct v; apply big_ret.
Qed.

Lemma big_print_both st row v : latch v = false ->
  big v (print_both st row) tt (on_console st [row; crlf] (print (row ++ crlf) v)).
Proof.
  intros Hl. unfold print_both. eapply big_bind; [by apply big_serial_print|].
  eapply big_bind; [by apply big_serial_print|]. rewrite print_print.
  eapply big_bind; [apply big_uefi_print|]. rewrite <- (on_console_app st [row] [crlf]). apply big_uefi_print.
Qed.

Lemma big_pokes ws v : big v (pokes ws) tt (draw ws v).
Proof.
  revert v. induction ws as [|[i c] ws IH]; intros v; cbn [pokes].
  - assert (E : draw [] v = v) by (destruct v; unfold draw; cbn; by rewrite app_nil_r). rewrite E. apply big_ret.
  - eapply big_bind; [apply big_event|]. cbn [see]. specialize (IH (draw [(i, c)] v)). unfold draw in *. cbn in *.
    by rewrite <- app_assoc in IH.
Qed.

(** *** The PCI scan *)

(** The program finishes with the tuple of [s'], having printed the lines
    [s'] has more than [s]. *)
Definition scans (s : scan_state) (t : prog (HwTuple * bool)) (s' : scan_state) (capped : bool) : Prop :=
  exists lines, serial s' = serial s ++ lines /\
    forall v, latch v = false -> big v t (tuple s', capped) (print (concat lines) v).

Lemma scans_ret s : scans s (mret (tuple s, false)) s false.
Proof. exists []. split; [by rewrite app_nil_r|]. intros v _. cbn [concat]. rewrite print_nil. apply big_ret. Qed.

Lemma scans_bind s t s1 c1 (k : HwTuple * bool -> prog (HwTuple * bool)) s2 c2 :
  scans s t s1 c1 -> scans s1 (k (tuple s1, c1)) s2 c2 -> scans s (t ≫= k) s2 c2.
Proof.
  intros (l1 & E1 & H1) (l2 & E2 & H2). exists (l1 ++ l2). split; [by rewrite E2, E1, app_assoc|].
  intros v Hv. rewrite concat_app, <- print_print. eapply big_bind; [by apply H1 | by apply H2].
Qed.

Lemma scans_read s bus dev func off (k : Z -> prog (HwTuple * bool)) s' c :
  scans s (k (Hwinv.cfg_read32 pci bus dev func off)) s' c -> scans s (cfg_read32 bus dev func off ≫= k) s' c.
Proof.
  intros (l & E & H). exists l. split; [done|]. intros v Hv. eapply big_bind; [apply big_cfg_read | by apply H].
Qed.

Lemma scan_func_scans s bus dev func s' c :
  Hwinv.scan_func pci s bus dev func = CRet (s', c) -> scans s (scan_func (tuple s) bus dev func) s' c.
Proof.
  unfold Hwinv.scan_func, scan_func. intros E. apply scans_read. destruct (_ =? 0xFFFF).
  { simplify_eq. apply scans_ret. }
  apply scans_read. rewrite line_fits in E. rewrite line_fits. cbn [mbind comp_bind] in E.
  unfold mret, comp_ret in E. simplify_eq. eexists [_]. split; [reflexivity|]. intros v Hv. cbn [concat tuple]. rewrite app_nil_r.
  eapply big_bind; [apply big_ret|]. eapply big_bind; [by apply big_serial_print | apply big_ret].
Qed.

(** Going through a list of functions, devices or buses. *)
Lemma scans_next s t s1 c1 (k : HwTuple -> prog (HwTuple * bool))
    (f : scan_state -> comp unit (scan_state * bool)) s' c :
  scans s t s1 c1 ->
  (if c1 then CRet (s1, true) else f s1) = CRet (s', c) ->
  (f s1 = CRet (s', c) -> scans s1 (k (tuple s1)) s' c) ->
  scans s (r ← t; if r.2 : bool then mret (r.1, true) else k r.1) s' c.
Proof.
  intros Ht E Hk. eapply scans_bind; [exact Ht|]. cbn [fst snd]. destruct c1; [|by apply Hk].
  simplify_eq. exists []. split; [by rewrite app_nil_r|]. intros v _. cbn [concat]. rewrite print_nil. apply big_ret.
Qed.

Lemma scan_funcs_scans s bus dev funcs s' c :
  Hwinv.scan_funcs pci s bus dev funcs = CRet (s', c) -> scans s (scan_funcs (tuple s) bus dev funcs) s' c.
Proof.
  revert s. induction funcs as [|f funcs IH]; intros s E; cbn in E |- *; [simplify_eq; apply scans_ret|].
  destruct (Hwinv.scan_func pci s bus dev f) as [[s1 c1]| |] eqn:E1; try done.
  refine (scans_next s _ s1 c1 (fun t => scan_funcs t bus dev funcs) (fun s => Hwinv.scan_funcs pci s bus dev funcs) s' c _ E (IH s1)).
  by apply scan_func_scans.
Qed.

Lemma scan_slot_scans s bus dev s' c :
  Hwinv.scan_slot pci s bus dev = CRet (s', c) -> scans s (scan_slot (tuple s) bus dev) s' c.
Proof.
  unfold Hwinv.scan_slot, scan_slot. intros E. apply scans_read. destruct (_ =? 0xFFFF).
  { simplify_eq. apply scans_ret. }
  apply scans_read. by apply scan_funcs_scans.
Qed.

Lemma scan_devs_scans s bus devs s' c :
  Hwinv.scan_devs pci s bus devs = CRet (s', c) -> scans s (scan_devs (tuple s) bus devs) s' c.
Proof.
  revert s. induction devs as [|d devs IH]; intros s E; cbn in E |- *; [simplify_eq; apply scans_ret|].
  destruct (Hwinv.scan_slot pci s bus d) as [[s1 c1]| |] eqn:E1; try done.
  refine (scans_next s _ s1 c1 (fun t => scan_devs t bus devs) (fun s => Hwinv.scan_devs pci s bus devs) s' c _ E (IH s1)).
  by apply scan_slot_scans.
Qed.

Lemma scan_buses_scans s buses s' c :
  Hwinv.scan_buses pci s buses = CRet (s', c) -> scans s (scan_buses (tuple s) buses) s' c.
Proof.
  revert s. induction buses as [|b buses IH]; intros s E; cbn in E |- *; [simplify_eq; apply scans_ret|].
  destruct (Hwinv.scan_devs pci s b (seqZ 0 32)) as [[s1 c1]| |] eqn:E1; try done.
  refine (scans_next s _ s1 c1 (fun t => scan_buses t buses) (fun s => Hwinv.scan_buses pci s buses) s' c _ E (IH s1)).
  by apply scan_devs_scans.
Qed.

Lemma big_pci_scan seat rows hw v : latch v = false ->
  Hwinv.pci_scan pci seat = CRet (rows, hw) -> big v (pci_scan seat) hw (print (concat rows) v).
Proof.
  intros Hv. rewrite pci_scan_finish. destruct (Hwinv.scan_buses _ _ _) as [[s c]| |] eqn:E; try done.
  cbn [mbind comp_bind]. unfold Hwinv.finish.
  destruct (Hwinv.emit_device_pid (tuple s) seat) as [[row digest]| |] eqn:Ee; try done.
  cbn [mbind comp_bind]. unfold mret, comp_ret. intros [<- <-]%CRet_pair.
  apply scan_buses_scans in E as (lines & El & H). unfold pci_scan. change new with (tuple scan_start).
  rewrite El. cbn [serial scan_start]. rewrite <- app_assoc. cbn [app concat].
  eapply big_bind_print; [by apply big_serial_print|]. rewrite concat_app.
  eapply big_bind_print; [by apply H|]. cbn [fst snd concat]. rewrite app_nil_r.
  eapply big_bind_print; [by apply big_serial_print|]. unfold emit_device_pid. rewrite Ee. cbn [of_comp].
  eapply big_bind; [|apply big_ret]. eapply big_bind; [apply big_ret|].
  eapply big_bind; [by apply big_serial_print | apply big_ret].
Qed.

(** *** The clock *)

Lemma big_iter {I R} v (f : I -> prog (I + R)) i v1 r v2 b :
  big v (f i) r v1 ->
  match r with inl j => big v1 (ITree.iter f j) b v2 | inr r => v2 = v1 /\ b = r end ->
  big v (ITree.iter f i) b v2.
Proof.
  intros Hf Hr h Hh. destruct (Hf h Hh) as (h1 & D & E1). destruct r as [j|r].
  - destruct (Hr h1 E1) as (h2 & D2 & E2). exists h2. split; [by eapply does_iter | done].
  - destruct Hr as [-> ->]. exists h1. split; [by eapply does_iter | done].
Qed.

Lemma big_poll_clock fuel g v : fuel = Z.to_nat (WAIT_POLLS - g) ->
  big v (poll_clock g) tt (at_read (wait_update cmos (clock_reads v) fuel) v).
Proof.
  revert v g. induction fuel as [|fuel IH]; intros v g Hg; unfold poll_clock;
    (eapply big_iter; [eapply big_bind; [apply big_cmos_read | apply big_ret]|]);
    change (Z.land 0x0A 0x7F) with 0x0A; cbn [wait_update].
  - rewrite (proj2 (Z.ltb_ge _ _)), andb_false_r by lia. split; [|done].
    unfold tick_clock, at_read. f_equal. lia.
  - rewrite (proj2 (Z.ltb_lt _ _)), andb_true_r by lia. destruct (negb _); [|split; [|done]].
    + specialize (IH (tick_clock 1 v) (g + 1) ltac:(lia)). cbn [clock_reads tick_clock] in IH.
      by rewrite Nat.add_comm in IH.
    + unfold tick_clock, at_read. f_equal. lia.
Qed.

Lemma big_cmos_registers regs v :
  big v (cmos_registers regs) (imap (fun i r => wrap 8 (cmos (clock_reads v + i)%nat (Z.land r 0x7F))) regs)
    (tick_clock (length regs) v).
Proof.
  revert v. induction regs as [|r regs IH]; intros v; cbn [cmos_registers length].
  - rewrite tick_zero. apply big_ret.
  - rewrite imap_cons. replace (clock_reads v + 0)%nat with (clock_reads v) by lia.
    eapply big_bind; [apply big_cmos_read|]. specialize (IH (tick_clock 1 v)). rewrite tick_tick in IH.
    eapply big_bind; [exact IH|]. erewrite imap_ext; [apply big_ret|].
    intros i x _. cbn. by replace (clock_reads v + S i)%nat with (clock_reads v + 1 + i)%nat by lia.
Qed.

Lemma wrap_wrap w z : 0 <= w -> wrap w (wrap w z) = wrap w z.
Proof. intros. by apply wrap_id, wrap_range. Qed.

(** The registers in the order they are read decode to the clock. *)
Lemma decode_registers n :
  decode_clock (fun i _ => nth i (imap (fun i r => wrap 8 (cmos (n + i)%nat (Z.land r 0x7F))) CLOCK_REGISTERS) 0) 0 ts
  = decode_clock cmos n ts.
Proof.
  change (imap _ _) with (map (fun p => wrap 8 (cmos (n + p.1)%nat p.2)) (zip (seq 0 8) CLOCK_REGISTERS)).
  unfold decode_clock, CLOCK_REGISTERS. cbn [map zip zip_with seq nth fst snd Nat.add].
  rewrite !wrap_wrap by lia. reflexivity.
Qed.

Lemma big_read_boot_time v t row : latch v = false -> clock_reads v = 0%nat -> 0 <= ts ->
  BootChain.read_boot_time cmos ts = CRet (t, row) ->
  exists n, big v read_boot_time t (print row (at_read n v)).
Proof.
  intros Hl Hc Hts E. unfold BootChain.read_boot_time in E. set (n := wait_update _ _ _) in E.
  destruct (put_all 96 [] _) as [r| |] eqn:Er; try done. cbn [mbind comp_bind] in E.
  unfold mret, comp_ret in E. apply CRet_pair in E as [<- <-].
  exists (n + 8)%nat. unfold read_boot_time.
  eapply big_bind; [by apply (big_poll_clock (Z.to_nat (WAIT_POLLS - 0)))|]. rewrite Hc, Z.sub_0_r. fold n.
  eapply big_bind; [apply big_cmos_registers|]. eapply big_bind; [by apply big_rdtsc|].
  cbn [clock_reads at_read]. rewrite decode_registers, Er. cbn [of_comp].
  eapply big_bind; [apply big_ret|]. eapply big_bind; [by apply big_serial_print | apply big_ret].
Qed.

(** *** The whole program *)

Lemma big_report st v : latch v = false -> obs_wf (boot_obs st) ->
  big v (report st) tt
    (on_console st [status_line (boot_obs st); crlf] (print (status_line (boot_obs st) ++ crlf) v)).
Proof.
  intros Hl W. unfold report. rewrite diag_renders by done. unfold zlen. rewrite Nat2Z.id, take_app_length.
  by apply big_print_both.
Qed.

Lemma big_row (c : comp unit bytes) row v : latch v = false -> c = CRet row -> big v (driver_probe c) tt (print row v).
Proof. intros Hl ->. eapply big_bind; [apply big_ret | by apply big_serial_print]. Qed.

Lemma big_chain seat heap rows hw t pid v :
  latch v = false -> clock_reads v = 0%nat -> 0 <= ts -> identity_chain pci cmos ts seat = CRet (rows, hw, t, pid) ->
  exists n, big v
    (hw ← pci_scan seat; boot_time ← read_boot_time; boot_pid ← bootproj_emit (device_digest hw) boot_time;
     driver_probe (probe_rst_vmd hw boot_pid boot_time seat);;
     driver_probe (probe_ahci hw boot_pid boot_time seat);;
     mret (BumpAlloc.init BumpAlloc.new heap BumpAlloc.HEAP_SIZE))
    (BumpAlloc.init BumpAlloc.new heap BumpAlloc.HEAP_SIZE) (print (concat rows) (at_read n v)).
Proof.
  intros Hl Hc Hts. unfold identity_chain.
  destruct (Hwinv.pci_scan pci seat) as [[rows1 hw1]| |] eqn:E1; try done. cbn [mbind comp_bind].
  destruct (BootChain.read_boot_time cmos ts) as [[t1 row1]| |] eqn:E2; try done. cbn [mbind comp_bind].
  destruct (emit (device_digest hw1) t1) as [[pid1 row2]| |] eqn:E3; try done. cbn [mbind comp_bind].
  destruct (probe_rst_vmd hw1 pid1 t1 seat) as [row3| |] eqn:E4; try done. cbn [mbind comp_bind].
  destruct (probe_ahci hw1 pid1 t1 seat) as [row4| |] eqn:E5; try done. cbn [mbind comp_bind].
  intros (<- & <- & <- & <-)%CRet_quad.
  set (v1 := print (concat rows1) v).
  destruct (big_read_boot_time v1 t1 row1 Hl Hc Hts E2) as [n Ht]. exists n.
  rewrite concat_app. cbn [concat]. rewrite app_nil_r.
  set (w := at_read n v1) in *. eapply big_bind; [by apply big_pci_scan|].
  replace (print (concat rows1 ++ row1 ++ row2 ++ row3 ++ row4) (at_read n v))
    with (print (row1 ++ row2 ++ row3 ++ row4) w) by (unfold w, v1, print; cbn; by rewrite <- !app_assoc).
  rewrite <- (print_print row1). eapply big_bind; [exact Ht|].
  eapply big_bind_print.
  { unfold bootproj_emit. rewrite E3. eapply big_bind; [apply big_ret|].
    eapply big_bind; [by apply big_serial_print | apply big_ret]. }
  eapply big_bind_print; [by apply big_row|].
  eapply big_bind; [by apply big_row | apply big_ret].
Qed.

Lemma big_boot st seat heap rows hw t pid v :
  clock_reads v = 0%nat -> 0 <= ts -> obs_wf (boot_obs st) ->
  identity_chain pci cmos ts seat = CRet (rows, hw, t, pid) ->
  exists v', big v (boot st seat heap) (BumpAlloc.init BumpAlloc.new heap BumpAlloc.HEAP_SIZE) v' /\
    sent v' = sent v ++ concat (BANNER :: BANNER2 :: printed_rows st seat ++ rows) /\
    shown v' = shown v ++ (if has_console st then map console_buffer (BANNER :: BANNER2 :: printed_rows st seat) else []) /\
    drawn v' = drawn v ++ painting st.
Proof.
  intros Hc Hts W E. unfold boot.
  set (v1 := on_console st [BANNER; BANNER2] (print (BANNER ++ BANNER2) (set_latch false v))).
  set (v2 := on_console st (printed_rows st seat) (print (concat (printed_rows st seat)) (draw (painting st) v1))).
  destruct (big_chain seat heap rows hw t pid v2 eq_refl Hc Hts E) as [n Hn].
  exists (print (concat rows) (at_read n v2)). split.
  - eapply big_bind; [apply big_serial_init|]. eapply big_bind; [by apply big_serial_print|].
    eapply big_bind; [by apply big_serial_print|]. rewrite print_print.
    eapply big_bind; [apply big_uefi_print|]. eapply big_bind; [apply big_uefi_print|].
    rewrite on_console_app. fold v1. eapply big_bind; [apply big_pokes|].
    eapply big_bind; [apply big_report; [reflexivity | done]|].
    eapply big_bind; [apply big_print_both; reflexivity|]. 
    match goal with |- big ?w _ _ _ => assert (w = v2) as -> end.
    { unfold v2, v1, printed_rows, on_console, show, print, draw, set_latch.
      cbn [latch sent clock_reads shown drawn concat].
      f_equal; [by rewrite app_nil_r, <- !app_assoc|].
      by destruct (has_console st); rewrite ?app_nil_r, <- ?app_assoc. }
    exact Hn.
  - unfold v2, v1, on_console, show, print, draw, set_latch, at_read. cbn [latch sent clock_reads shown drawn].
    split_and!; [|by destruct (has_console st); rewrite ?app_nil_r, <- ?app_assoc|done].
    cbn [concat]. by rewrite concat_app, <- !app_assoc.
Qed.


End Runs.

(** ** The texts *)

(** What the firmware shows of a buffer: up to the terminator. *)
Fixpoint console_text (buf : list Z) : bytes :=
  match buf with
  | [] => []
  | c :: buf' => if c =? 0 then [] else c :: console_text buf'
  end.

Definition plain_text (s : bytes) : Prop := 0 ∉ s /\ (length s <= 1023)%nat.

Lemma console_text_buffer msg : plain_text msg -> console_text (console_buffer msg) = msg.
Proof.
  intros [H0 Hl]. unfold console_buffer. rewrite Nat.min_l, take_ge by lia.
  destruct (1024 - length msg)%nat as [|k] eqn:Ek; [lia|]. clear Hl Ek.
  cbn [replicate]. generalize (replicate k 0) as rest. intros rest.
  induction msg as [|b msg IH]; [done|]. apply not_elem_of_cons in H0 as [Hb H0]. cbn.
  rewrite (proj2 (Z.eqb_neq _ _)) by done. by rewrite IH.
Qed.

Lemma status_line_plain o : obs_wf o -> plain_text (status_line o).
Proof.
  intros W. pose proof (status_line_bound o W) as B. split; [|unfold zlen in B; lia].
  destruct W as (Hw & Hh & Hb). unfold status_line, status_pushes. cbn [concat]. rewrite !not_elem_of_app.
  split_and!; first
    [ apply decimal_no; [first [done | by apply is_u_32_64] | done]
    | apply (bool_decide_unpack _); by vm_compute
    | match goal with |- _ ∉ ?f ?x => generalize x end; intros []; apply (bool_decide_unpack _); by vm_compute ].
Qed.

Lemma seat_row_plain seat : seat_accepted seat = true -> plain_text (BOOT_SEAT_ROW seat).
Proof.
  unfold seat_accepted. rewrite !andb_true_iff, Z.leb_le, forallb_forall. intros [[_ Hl] Hc]. split.
  - unfold BOOT_SEAT_ROW. rewrite !not_elem_of_app. split_and!; [apply (bool_decide_unpack _); by vm_compute| |
      apply (bool_decide_unpack _); by vm_compute].
    intros H0%list_elem_of_In%Hc. done.
  - unfold BOOT_SEAT_ROW. rewrite !length_app. unfold zlen in Hl.
    match goal with |- (?a + (_ + ?b) <= _)%nat => let x := eval vm_compute in a in let y := eval vm_compute in b in
      change a with x; change b with y end. lia.
Qed.

Lemma printed_plain st seat : seat_accepted seat = true -> obs_wf (boot_obs st) ->
  map console_text (map console_buffer (BANNER :: BANNER2 :: printed_rows st seat)) = BANNER :: BANNER2 :: printed_rows st seat.
Proof.
  intros Hs W. unfold printed_rows. cbn [map].
  assert (P : forall s, bool_decide (0 ∉ s /\ (length s <= 1023)%nat) = true -> plain_text s).
  { by intros s ?%bool_decide_eq_true. }
  rewrite !console_text_buffer;
    [done | by apply seat_row_plain | apply P; by vm_compute | by apply status_line_plain |
     apply P; by vm_compute | apply P; by vm_compute].
Qed.

(** ** Every access, on any machine *)

(** The newest access is a poll of the line status that found the
    transmitter empty; one that selected [port]. *)
Definition found_empty (h : list access) : Prop :=
  match h with
  | Did e x :: _ =>
      match e in hwE X return X -> Prop with
      | Inb p => fun v => p = COM1 + 5 /\ Z.land v 0x20 <> 0
      | _ => fun _ => False
      end x
  | [] => False
  end.

Definition just_selected (port : Z) (h : list access) : Prop :=
  match h with
  | Did (Outb p _) _ :: _ | Did (Outl p _) _ :: _ => p = port
  | _ => False
  end.

(** What the boot program may do after [h]: a byte to the serial data port
    only with the transmitter found empty just before, or with the latch
    open; the other serial registers; a clock register with the top bit
    clear, and its value right after; an enabled configuration address,
    and its value right after; whole terminated strings; pixels inside the
    framebuffer. *)
Definition allowed (latch0 : bool) (st : option SystemTable) (h : list access) (a : access) : Prop :=
  match a with
  | Did e _ =>
      match e with
      | Outb p b =>
          if p =? COM1 then latch (seen_after latch0 h) = true \/ found_empty h
          else COM1 < p <= COM1 + 4 \/ p = 0x70 /\ 0 <= b < 0x80
      | Inb p => p = COM1 + 5 \/ p = 0x71 /\ just_selected 0x70 h
      | Outl p v => p = PCI_CFG_ADDR /\ Z.testbit v 31 = true
      | Inl p => p = PCI_CFG_DATA /\ just_selected PCI_CFG_ADDR h
      | OutputString buf => length buf = 1024%nat /\ 0 ∈ buf /\ has_console st = true
      | Poke i _ => exists m, located_mode st = Some m /\ 0 <= i /\ 4 * (i + 1) <= framebuffer_size m
      | Rdtsc | Hlt => True
      end
  end.

Section Allowed.
Context (latch0 : bool) (env : environment) (st : option SystemTable).

Abbreviation always := (fun _ : list access => True).
Abbreviation ok := (allowed latch0 st).

(** Allowed from every history. *)
Definition fine {A} (t : prog A) : Prop := safe env ok always t (fun _ => always).

Lemma fine_ret {A} (a : A) : fine (mret a).
Proof. by apply safe_ret. Qed.

Lemma fine_bind {A B} (t : prog A) (k : A -> prog B) : fine t -> (forall a, fine (k a)) -> fine (t ≫= k).
Proof. intros Ht Hk. by eapply safe_bind. Qed.

Lemma fine_event {X} (e : hwE X) : (forall h x, ok h (Did e x)) -> fine (ITree.trigger e).
Proof. intros He. apply safe_trigger. intros h _. split; [apply He | done]. Qed.

Lemma fine_panic {A} : fine (panic : prog A).
Proof.
  apply safe_iter with (J := fun _ => always). intros _. eapply safe_bind; [by apply fine_event|].
  intros a. by apply safe_ret.
Qed.

Lemma fine_comp {A} (c : comp unit A) : fine (of_comp c).
Proof. destruct c; [apply fine_ret | apply fine_panic ..]. Qed.

(** An access and the one it enables. *)
Lemma fine_pair {X Y} (e : hwE X) (f : hwE Y) :
  (forall h x, ok h (Did e x)) -> (forall h x y, ok (Did e x :: h) (Did f y)) ->
  fine (ITree.trigger e ≫= fun _ => ITree.trigger f).
Proof.
  intros He Hf. eapply safe_bind with (R := fun _ h => exists h' x, h = Did e x :: h').
  - apply safe_trigger. intros h _. split; [apply He | by eexists _, _].
  - intros a. apply safe_trigger. intros h (h' & x & ->). split; [apply Hf | done].
Qed.

Lemma wait_empty_safe : safe env ok always wait_empty (fun _ => found_empty).
Proof.
  apply safe_iter with (J := fun _ => always). intros _.
  eapply safe_bind with (R := fun v h => exists h', h = Did (Inb (COM1 + 5)) v :: h').
  - apply safe_trigger. intros h _. split; [by left | by eexists].
  - intros v. apply safe_ret. intros h (h' & ->). destruct (Z.eqb_spec (Z.land v 0x20) 0); [done | by split].
Qed.

Lemma fine_serial_print msg : fine (serial_print msg).
Proof.
  induction msg as [|b msg IH]; cbn [serial_print]; [apply fine_ret|].
  eapply safe_bind; [apply wait_empty_safe|]. intros []. eapply safe_bind; [|intros a; exact IH].
  apply safe_trigger. intros h Hh. split; [by right | done].
Qed.

Lemma fine_serial_init : fine serial_init.
Proof.
  unfold serial_init, outb.
  apply fine_bind; [apply fine_event; by left|]. intros _.
  eapply safe_bind with (R := fun _ h => latch (seen_after latch0 h) = true).
  { apply safe_trigger. intros h _. split; [by left | done]. }
  intros _. eapply safe_bind with (R := fun _ => always).
  { apply safe_trigger. intros h Hh. split; [by left | done]. }
  intros _. repeat (apply fine_bind; [apply fine_event; by left | intros _]). apply fine_event. by left.
Qed.

Lemma fine_uefi_print msg : fine (uefi_print st msg).
Proof.
  unfold fine. destruct st as [t|]; cbn [uefi_print]; [|by apply safe_ret].
  destruct (con_out t) eqn:Ec; [|by apply safe_ret].
  apply safe_trigger. intros h _. split; [|done]. unfold console_buffer. cbn. split_and!; [| |exact Ec].
  - rewrite length_app, length_take, length_replicate. lia.
  - apply elem_of_app. right. apply elem_of_replicate. split; [done | lia].
Qed.

Lemma fine_pokes ws :
  (forall i c, (i, c) ∈ ws -> exists m, located_mode st = Some m /\ 0 <= i /\ 4 * (i + 1) <= framebuffer_size m) ->
  fine (pokes ws).
Proof.
  induction ws as [|[i c] ws IH]; intros Hw; cbn [pokes]; [apply fine_ret|].
  apply fine_bind; [apply fine_event; intros h x; apply (Hw i c); by left|].
  intros _. apply IH. intros j d Hj. apply (Hw j d). by right.
Qed.

Lemma fine_print_both row : fine (print_both st row).
Proof.
  unfold print_both. repeat (apply fine_bind; [first [apply fine_serial_print | apply fine_uefi_print] | intros _]).
  apply fine_uefi_print.
Qed.

Lemma fine_cfg_read bus dev func off : 0 <= bus -> 0 <= dev -> 0 <= func -> fine (cfg_read32 bus dev func off).
Proof.
  intros Hb Hd Hf. apply fine_pair; [|by split]. intros h x. split; [done|]. unfold config_address.
  rewrite !Z.lor_spec. by rewrite orb_true_l.
Qed.

Lemma fine_cmos_read reg : fine (cmos_read reg).
Proof.
  apply fine_pair; [|by right]. intros h x. right. split; [done|]. change 0x7F with (Z.ones 7).
  rewrite Z.land_ones by lia. by apply Z.mod_pos_bound.
Qed.

Lemma fine_scan_func t bus dev func : 0 <= bus -> 0 <= dev -> 0 <= func -> fine (scan_func t bus dev func).
Proof.
  intros Hb Hd Hf. apply fine_bind; [by apply fine_cfg_read|]. intros id. cbv zeta. destruct (_ =? 0xFFFF); [apply fine_ret|].
  apply fine_bind; [by apply fine_cfg_read|]. intros cr. apply fine_bind; [apply fine_comp|]. intros line.
  apply fine_bind; [apply fine_serial_print|]. intros _. apply fine_ret.
Qed.

(** A list of numbers gone through until the cap is reached. *)
Lemma fine_next (t : prog (HwTuple * bool)) (k : HwTuple -> prog (HwTuple * bool)) :
  fine t -> (forall u, fine (k u)) -> fine (r ← t; if r.2 : bool then mret (r.1, true) else k r.1).
Proof. intros Ht Hk. apply fine_bind; [done|]. intros [u c]. destruct c; [apply fine_ret | apply Hk]. Qed.

Lemma fine_scan_funcs t bus dev funcs :
  0 <= bus -> 0 <= dev -> Forall (Z.le 0) funcs -> fine (scan_funcs t bus dev funcs).
Proof.
  intros Hb Hd Hf. revert t. induction Hf as [|f funcs Hf _ IH]; intros t; [apply fine_ret|].
  apply (fine_next _ (fun u => scan_funcs u bus dev funcs)); [by apply fine_scan_func | apply IH].
Qed.

Lemma seqZ_nonneg n : Forall (Z.le 0) (seqZ 0 n).
Proof. apply Forall_forall. intros x Hx%elem_of_seqZ. lia. Qed.

Lemma fine_scan_slot t bus dev : 0 <= bus -> 0 <= dev -> fine (scan_slot t bus dev).
Proof.
  intros Hb Hd. apply fine_bind; [by apply fine_cfg_read|]. intros id. cbv zeta. destruct (_ =? 0xFFFF); [apply fine_ret|].
  apply fine_bind; [by apply fine_cfg_read|]. intros header. apply fine_scan_funcs; [done..|apply seqZ_nonneg].
Qed.

Lemma fine_scan_devs t bus devs : 0 <= bus -> Forall (Z.le 0) devs -> fine (scan_devs t bus devs).
Proof.
  intros Hb Hd. revert t. induction Hd as [|d devs Hd _ IH]; intros t; [apply fine_ret|].
  apply (fine_next _ (fun u => scan_devs u bus devs)); [by apply fine_scan_slot | apply IH].
Qed.

Lemma fine_scan_buses t buses : Forall (Z.le 0) buses -> fine (scan_buses t buses).
Proof.
  intros Hb. revert t. induction Hb as [|b buses Hb _ IH]; intros t; [apply fine_ret|].
  apply (fine_next _ (fun u => scan_buses u buses)); [|apply IH]. apply fine_scan_devs; [done | apply seqZ_nonneg].
Qed.

Lemma fine_pci_scan seat : fine (pci_scan seat).
Proof.
  apply fine_bind; [apply fine_serial_print|]. intros _.
  apply fine_bind; [apply fine_scan_buses, seqZ_nonneg|]. intros r.
  apply fine_bind; [apply fine_serial_print|]. intros _. apply fine_bind; [|intros; apply fine_ret].
  apply fine_bind; [apply fine_comp|]. intros [row digest].
  apply fine_bind; [apply fine_serial_print | intros; apply fine_ret].
Qed.

Lemma fine_cmos_registers regs : fine (cmos_registers regs).
Proof.
  induction regs as [|r regs IH]; [apply fine_ret|]. apply fine_bind; [apply fine_cmos_read|]. intros v.
  apply fine_bind; [exact IH | intros; apply fine_ret].
Qed.

Lemma fine_read_boot_time : fine read_boot_time.
Proof.
  apply fine_bind.
  { apply safe_iter with (J := fun _ => always). intros g. eapply safe_bind; [apply fine_cmos_read|].
    intros a. apply safe_ret. intros h _. by destruct (negb _ && _). }
  intros _. apply fine_bind; [apply fine_cmos_registers|]. intros raw.
  apply fine_bind; [apply fine_bind; [by apply fine_event | intros; apply fine_ret]|]. intros tick.
  apply fine_bind; [apply fine_comp|]. intros row.
  apply fine_bind; [apply fine_serial_print | intros; apply fine_ret].
Qed.

Lemma fine_driver_probe c : fine (driver_probe c).
Proof. apply fine_bind; [apply fine_comp | intros; apply fine_serial_print]. Qed.

Lemma fine_boot seat heap :
  (forall t m, st = Some t -> gop t = Some (Some m) -> mode_wf m) -> fine (boot st seat heap).
Proof.
  intros Hwf. unfold boot. apply fine_bind; [apply fine_serial_init|]. intros _.
  do 2 (apply fine_bind; [apply fine_serial_print|]; intros _).
  do 2 (apply fine_bind; [apply fine_uefi_print|]; intros _).
  apply fine_bind.
  { apply fine_pokes. unfold painting. destruct (located_mode st) as [m|] eqn:Em; [|by intros ? ? ?%elem_of_nil].
    intros i c Hi. exists m. split; [done|]. refine (screen_writes_in_bounds m _ i c Hi).
    unfold located_mode in Em. destruct st as [t|]; [|done]. destruct (boot_services t), (gop t) as [[m'|]|] eqn:Eg; try done.
    simplify_eq. by apply (Hwf t). }
  intros _. apply fine_bind.
  { unfold report. destruct (render_status_line _ _) as [[n|e] [buf|]];
      [apply fine_print_both | apply fine_serial_print ..]. }
  intros _. apply fine_bind; [apply fine_print_both|]. intros _.
  apply fine_bind; [apply fine_pci_scan|]. intros hw. apply fine_bind; [apply fine_read_boot_time|]. intros t.
  apply fine_bind.
  { apply fine_bind; [apply fine_comp|]. intros r. apply fine_bind; [apply fine_serial_print | intros; apply fine_ret]. }
  intros pid. do 2 (apply fine_bind; [apply fine_driver_probe|]; intros _). apply fine_ret.
Qed.

End Allowed.

(** ** A serial port that never empties *)

Definition quiet (v : seen) : Prop := sent v = [] /\ shown v = [] /\ drawn v = [].

Section Stuck.
Context (latch0 : bool) (env : environment).
Context (Hstuck : forall h, Z.land (env h _ (Inb (COM1 + 5))) 0x20 = 0).

Definition stays_quiet (h : list access) (a : access) : Prop :=
  quiet (seen_after latch0 h) -> quiet (see (seen_after latch0 h) a).

Lemma trace_quiet h : trace_ok stays_quiet h -> quiet (seen_after latch0 h).
Proof. induction h as [|a h IH]; [done|]. intros [Ha Hh]. by apply Ha, IH. Qed.

Lemma wait_stuck : safe env stays_quiet (fun _ => True) wait_empty (fun _ _ => False).
Proof using Hstuck.
  apply safe_iter with (J := fun _ _ => True). intros _.
  eapply safe_bind with (R := fun v _ => Z.land v 0x20 = 0).
  - apply safe_trigger. intros h _. split; [by intros Hq | apply Hstuck].
  - intros v. apply safe_ret. by intros h ->.
Qed.

Lemma init_quiet : safe env stays_quiet (fun _ => True) serial_init (fun _ _ => True).
Proof.
  assert (F : forall p b, p <> COM1 -> safe env stays_quiet (fun _ => True) (outb p b) (fun _ _ => True)).
  { intros p b Hp. apply safe_trigger. intros h _. split; [|done]. intros Hq. cbn.
    rewrite (proj2 (Z.eqb_neq _ _)) by done. by destruct (_ =? _). }
  unfold serial_init. eapply safe_bind with (R := fun _ _ => True); [by apply F|]. intros _.
  eapply safe_bind with (R := fun _ h => latch (seen_after latch0 h) = true).
  { apply safe_trigger. intros h _. split; [by intros Hq | done]. }
  intros _. eapply safe_bind with (R := fun _ _ => True).
  { apply safe_trigger. intros h Hl. split; [|done]. intros Hq. cbn. by rewrite Hl. }
  intros _. do 3 (eapply safe_bind with (R := fun _ _ => True); [by apply F|]; intros _). by apply F.
Qed.

Lemma boot_stuck st seat heap : safe env stays_quiet (fun _ => True) (boot st seat heap) (fun _ _ => False).
Proof using Hstuck.
  eapply safe_bind; [apply init_quiet|]. intros u.
  eapply safe_bind with (R := fun _ _ => False); [|intros; apply safe_never].
  change BANNER with (13 :: tl BANNER). cbn [serial_print].
  eapply safe_bind; [apply wait_stuck | intros; apply safe_never].
Qed.

End Stuck.

Section Main.
Context `{Digest} {Q : Type} `{ByteQueue Q}.

(** The init task touches no port. *)
Lemma init_silent {A} env (k : Syscall.Kernel Q) : silent env (init_run k : prog A).
Proof.
  apply silent_loop.
  - intros s. destruct (Init.loop_step s); eauto.
  - intros r. apply silent_iter. eauto.
Qed.

(** C20. On a machine that answers as documented, booting ends in the init task,
    and what has left the machine by then is all that ever will: the serial
    port carries the two banners, the diagnostic line, the seat row and
    every row of the identity chain, completely and in this order; the
    console, where there is one, shows the same texts up to the identity
    chain, each whole; the framebuffer gets exactly the painting. *)
Theorem boot_transcript latch0 (env : environment) pci cmos ts st seat heap (k : Syscall.Kernel Q) :
  machine_ok latch0 env pci cmos ts -> seat_accepted seat = true -> is_u 64 ts ->
  (forall t m, st = Some t -> gop t = Some (Some m) -> mode_wf m) ->
  exists h rows hw t pid,
    (exists n, forall m, exec env (n + m) [] (efi_main st seat heap k : prog Empty_set) = (h, None)) /\
    identity_chain pci cmos ts seat = CRet (rows, hw, t, pid) /\
    let texts := [BANNER; BANNER2; status_line (boot_obs st); crlf; BOOT_SEAT_ROW seat; crlf] in
    let v := seen_after latch0 h in
    sent v = concat (texts ++ rows) /\
    map console_text (shown v) = (if has_console st then texts else []) /\
    drawn v = painting st.
Proof.
  intros OK Hs Hts Hwf. assert (W := boot_obs_wf st Hwf).
  destruct (identity_chain_total pci cmos ts seat Hs Hts) as (rows & hw & t & pid & E & _).
  assert (Hts0 : 0 <= ts) by by destruct Hts.
  destruct (big_boot latch0 env pci cmos ts OK st seat heap rows hw t pid (Seen latch0 [] 0 [] []) eq_refl Hts0 W E)
    as (v' & Hb & Es & Ec & Ed).
  destruct (Hb [] eq_refl) as (h & Hd & <-).
  exists h, rows, hw, t, pid. split; [by apply (does_silent env [] _ (fun _ => init_run k) h _ Hd (init_silent env k))|].
  split; [done|]. cbv zeta. rewrite Es, Ec, Ed. cbn [sent shown drawn app]. split; [done|]. split; [|done].
  destruct (has_console st); [by apply printed_plain | done].
Qed.

(** C21. On any machine at all, however it answers and however far the boot gets,
    every access is an allowed one. Bytes go to the serial port only when it
    has just been found empty, the buses are only read (no configuration
    data, no clock register is ever written, and the clock's index keeps its
    top bit clear), every console string is terminated inside its buffer,
    and every pixel lies in the framebuffer. *)
Theorem boot_accesses_allowed latch0 (env : environment) st seat heap (k : Syscall.Kernel Q) n :
  (forall t m, st = Some t -> gop t = Some (Some m) -> mode_wf m) ->
  trace_ok (allowed latch0 st) (exec env n [] (efi_main st seat heap k : prog Empty_set)).1.
Proof.
  intros Hwf. assert (F : fine latch0 env st (efi_main st seat heap k : prog Empty_set)).
  { unfold efi_main. apply fine_bind; [by apply fine_boot|]. intros heap'. apply safe_silent, init_silent. }
  exact (proj1 (F n [] I I)).
Qed.

(** C33. A serial port whose status never shows an empty transmitter stops the
    boot for good before anything is printed, shown or painted, although
    the serial lane is meant to be independent of the console. *)
Theorem stuck_port_hangs latch0 (env : environment) st seat heap (k : Syscall.Kernel Q) n :
  (forall h, Z.land (env h _ (Inb (COM1 + 5))) 0x20 = 0) ->
  let r := exec env n [] (efi_main st seat heap k : prog Empty_set) in
  r.2 = None /\ quiet (seen_after latch0 r.1).
Proof.
  intros Hs r. assert (F : safe env (stays_quiet latch0) (fun _ => True) (efi_main st seat heap k : prog Empty_set) (fun _ _ => False)).
  { eapply safe_bind; [by apply boot_stuck | intros; apply safe_never]. }
  destruct (F n [] I I) as [Ht Hn]. fold r in Ht, Hn. split; [|by apply trace_quiet].
  destruct r.2 as [[]|]. done.
Qed.

End Main.

(** ** The theorems at concrete machines *)

#[local] Existing Instance boot_digest.

(** A machine with an empty PCI bus, a clock and a serial port that is
    always ready. *)
Definition sample_machine (pci : Z -> Z) (cmos : nat -> Z -> Z) (ts : Z) : environment :=
  fun h X e =>
    match e with
    | Inb p =>
        if p =? 0x71 then
          match h with
          | Did (Outb _ r) _ :: h' => wrap 8 (cmos (clock_reads (seen_after false h')) r)
          | _ => 0
          end
        else 0x20
    | Inl _ => match h with Did (Outl _ a) _ :: _ => wrap 32 (pci a) | _ => 0 end
    | Rdtsc => (Z.shiftr ts 32, Z.land ts (Z.ones 32))
    | Outb _ _ | Outl _ _ | OutputString _ | Poke _ _ | Hlt => tt
    end.

Lemma sample_machine_ok pci cmos ts : machine_ok false (sample_machine pci cmos ts) pci cmos ts.
Proof. split; try done. intros h. by apply empties_now. Qed.

Definition no_device (a : Z) : Z := 0xFFFFFFFF.

Lemma boot_transcript_witness :
  exists h rows,
    sent (seen_after false h) =
      concat ([BANNER; BANNER2; status_line (boot_obs (Some (mkTable true true None))); crlf;
               BOOT_SEAT_ROW (lit "liris"); crlf] ++ rows) /\
    length (shown (seen_after false h)) = 6%nat.
Proof.
  assert (Hs : seat_accepted (lit "liris") = true) by by vm_compute.
  assert (Ht : is_u 64 123456789) by by vm_compute.
  assert (Hm : forall t m, Some (mkTable true true None) = Some t -> gop t = Some (Some m) -> mode_wf m) by (by intros t m [= <-]).
  destruct (boot_transcript false (sample_machine no_device sample_cmos 123456789) no_device sample_cmos 123456789
    (Some (mkTable true true None)) (lit "liris") 0 (Syscall.boot_kernel) (sample_machine_ok _ _ _) Hs Ht Hm)
    as (h & rows & hw & t & pid & _ & _ & Es & Ec & _).
  exists h, rows. split; [exact Es|]. rewrite <- (length_map console_text), Ec. reflexivity.
Defined.

Lemma boot_accesses_allowed_witness :
  trace_ok (allowed true (Some (mkTable true true (Some (Some xga)))))
    (exec (fun _ _ e => match e with Inb _ => 0x20 | Inl _ => 0 | Rdtsc => (0, 0) | _ => tt end) 100 []
      (efi_main (Some (mkTable true true (Some (Some xga)))) (lit "acer") 0 Syscall.boot_kernel : prog Empty_set)).1.
Proof.
  apply boot_accesses_allowed. intros t m [= <-] [= <-]. exact xga_wf.
Defined.

Lemma stuck_port_hangs_witness :
  (exec (fun _ _ e => match e with Inb _ => 0 | Inl _ => 0 | Rdtsc => (0, 0) | _ => tt end) 1000 []
     (efi_main None (lit "relic") 0 Syscall.boot_kernel : prog Empty_set)).2 = None.
Proof. apply (stuck_port_hangs true _ None (lit "relic") 0 Syscall.boot_kernel 1000). intros h. reflexivity. Defined.
