(* ===== verification/BusFabric.v ===== *)
(** * Bus fabric ([kernel/core/src/bus_fabric/mod.rs])

    Port labels over the 1024-glyph alphabet, their byte form, and the
    64-bit destination handle a label resolves to. *)

From S2P Require Import Prelude.

#[local] Open Scope Z_scope.

Module BusFabric.

Definition BEHCS1024_ALPHABET_SIZE : Z := 1024.

(** The [while] loop that fills the table, over the entries still to set. *)
Definition BEHCS1024_ALPHABET_TABLE : list Z :=
  fold_left (fun t i => <[i := wrap32 (Z.of_nat i)]> t) (seq 0 1024) (replicate 1024 0).

Definition PREFIX_TREE_BRANCH : Z := BEHCS1024_ALPHABET_SIZE.
Definition PREFIX_TREE_MAX_DEPTH : Z := 20.
Definition ADDRESSABLE_CEILING_LOG10 : Z := 60.

(** [pub mod throughput]. *)
Definition T1_MICRO_ENVELOPES_PER_SEC : Z := 100.
Definition T2_COSIGN_ENVELOPES_PER_SEC : Z := 10.
Definition T3_FIRMWARE_ENVELOPES_PER_SEC : Z := 1.
Definition GC_TRIGGER_EVERY_N_ENVELOPES : Z := 2000.

Inductive BusFabricErr := LabelTooDeep | GlyphOutOfRange | BranchEmpty | Unimplemented.

#[export] Instance BusFabricErr_eq_dec : EqDecision BusFabricErr.
Proof. solve_decision. Defined.

Record PortLabel := mkLabel { levels : list Z }.

Definition glyphs_in_range (ls : list Z) : bool :=
  forallb (fun g => negb (BEHCS1024_ALPHABET_SIZE <=? g)) ls.

Definition from_levels (ls : list Z) : result BusFabricErr PortLabel :=
  if wrap32 (zlen ls) >? PREFIX_TREE_MAX_DEPTH then Err LabelTooDeep
  else if negb (glyphs_in_range ls) then Err GlyphOutOfRange
  else Ok (mkLabel ls).

Definition depth (l : PortLabel) : Z := zlen (levels l).

Definition glyph_bytes (g : Z) : bytes := [wrap8 (Z.shiftr g 8); Z.land g 255].

Definition canonical_glyph_bytes (l : PortLabel) : bytes := flat_map glyph_bytes (levels l).

Definition fnv_step (h b : Z) : Z := wrap64 (Z.lxor h b * 1099511628211).

Definition fnv1a_64 (bs : bytes) : Z := fold_left fnv_step bs 14695981039346656037.

Definition RESERVED_HANDLE_ZERO : Z := 0.

(** The zero handle is folded away for a non-empty label. *)
Definition nonzero_handle (h : Z) (bs : bytes) : Z :=
  if (h =? RESERVED_HANDLE_ZERO) && negb (zlen bs =? 0) then 9223372036854775808 else h.

Definition resolve_label (l : PortLabel) : result BusFabricErr Z :=
  if wrap32 (depth l) >? PREFIX_TREE_MAX_DEPTH then Err LabelTooDeep
  else if negb (glyphs_in_range (levels l)) then Err GlyphOutOfRange
  else let bs := canonical_glyph_bytes l in Ok (nonzero_handle (fnv1a_64 bs) bs).

Definition prefix_tree_walk (l : PortLabel) : result BusFabricErr Z := resolve_label l.

Definition label_for_handle (handle : Z) : result BusFabricErr PortLabel := Err BranchEmpty.

End BusFabric.

Import BusFabric.

(** ** Byte form *)

Definition glyphs_ok (ls : list Z) : Prop := Forall (fun g => 0 <= g < 1024) ls.

Lemma glyphs_in_range_spec ls : Forall (is_u 16) ls ->
  glyphs_in_range ls = true <-> glyphs_ok ls.
Proof.
  unfold glyphs_in_range, glyphs_ok, BEHCS1024_ALPHABET_SIZE. intros Hu.
  induction Hu as [|g ls Hg _ IH]; cbn [forallb]; [split; [constructor|done]|].
  rewrite andb_true_iff, negb_true_iff, Z.leb_gt, IH, Forall_cons. unfold is_u in Hg. intuition lia.
Qed.

Lemma glyph_bytes_eq g : 0 <= g < 1024 -> glyph_bytes g = [g / 256; g mod 256].
Proof.
  intros Hg. unfold glyph_bytes. change 255 with (Z.ones 8).
  rewrite Z.land_ones, Z.shiftr_div_pow2 by lia. change (2 ^ 8) with 256.
  rewrite wrap_id; [done|]. unfold is_u.
  split; [apply Z.div_pos; lia | apply Z.div_lt_upper_bound; lia].
Qed.

Lemma glyph_bytes_inj g g' :
  0 <= g < 1024 -> 0 <= g' < 1024 -> glyph_bytes g = glyph_bytes g' -> g = g'.
Proof.
  intros Hg Hg'. rewrite !glyph_bytes_eq by done. intros [= E1 E2].
  rewrite (Z.div_mod g 256), (Z.div_mod g' 256), E1, E2 by lia. done.
Qed.

Lemma canonical_inj ls ls' : glyphs_ok ls -> glyphs_ok ls' ->
  flat_map glyph_bytes ls = flat_map glyph_bytes ls' -> ls = ls'.
Proof.
  intros H. revert ls'. induction H as [|g ls Hg _ IH]; intros [|g' ls'] H' E; try done.
  apply Forall_cons in H' as [Hg' H']. cbn [flat_map] in E.
  apply app_eq_len in E as [E1 E2]; [|done]. f_equal; [by apply glyph_bytes_inj | by apply IH].
Qed.

(** ** The hash *)

Lemma fnv_step_range h b : is_u 64 (fnv_step h b).
Proof. by apply wrap_range. Qed.

Lemma fnv_range bs : is_u 64 (fnv1a_64 bs).
Proof.
  unfold fnv1a_64. assert (is_u 64 14695981039346656037) as H by (by vm_compute).
  revert H. generalize 14695981039346656037. induction bs as [|b bs IH]; intros h H; [done|].
  cbn [fold_left]. apply IH, fnv_step_range.
Qed.

Lemma lxor_cancel_l b x y : Z.lxor b x = Z.lxor b y -> x = y.
Proof. rewrite !(Z.lxor_comm b). apply lxor_cancel. Qed.

Lemma prime_odd z m :
  z * 1099511628211 = m * 2 ^ 63 -> exists j, z = j * 2 ^ 63.
Proof.
  intros E. exists (m * 5662801919009527163 - z * 675058593899).
  assert (m * 2 ^ 63 * 5662801919009527163 = z * (1 + 675058593899 * 2 ^ 63)) by (rewrite <- E; lia).
  lia.
Qed.

Lemma prime_sparse d e j :
  -8 < d < 8 -> -512 < e < 512 -> d * 1099511628211 + e = j * 2 ^ 63 -> d = 0 /\ e = 0.
Proof. intros. assert (j = 0) as -> by lia. lia. Qed.

Lemma wrap64_eq z : exists q, wrap64 z = z + q * 2 ^ 64.
Proof.
  exists (- (z / 2 ^ 64)). unfold wrap. pose proof (Z.div_mod z (2 ^ 64) ltac:(lia)). lia.
Qed.

(** Two more bytes, the first below 4: even modulo 2^63 the result tells
    which bytes they were. *)
Lemma fnv_two_bytes h a b a' b' k :
  0 <= a < 4 -> 0 <= b < 256 -> 0 <= a' < 4 -> 0 <= b' < 256 ->
  fnv_step (fnv_step h a) b = fnv_step (fnv_step h a') b' + k * 2 ^ 63 -> a = a' /\ b = b'.
Proof.
  intros Ha Hb Ha' Hb' E.
  pose proof (lxor_near h a 2 ltac:(lia) ltac:(lia)) as Na.
  pose proof (lxor_near h a' 2 ltac:(lia) ltac:(lia)) as Na'.
  pose proof (lxor_near (fnv_step h a) b 8 ltac:(lia) ltac:(lia)) as Nb.
  pose proof (lxor_near (fnv_step h a') b' 8 ltac:(lia) ltac:(lia)) as Nb'.
  unfold fnv_step at 1 3 in E.
  destruct (wrap64_eq (Z.lxor (fnv_step h a) b * 1099511628211)) as [p Ep].
  destruct (wrap64_eq (Z.lxor (fnv_step h a') b' * 1099511628211)) as [p' Ep'].
  destruct (wrap64_eq (Z.lxor h a * 1099511628211)) as [q Eq].
  destruct (wrap64_eq (Z.lxor h a' * 1099511628211)) as [q' Eq'].
  destruct (prime_odd (Z.lxor (fnv_step h a) b - Z.lxor (fnv_step h a') b') (k + 2 * (p' - p))) as [j Ej]; [lia|].
  fold (fnv_step h a) in Eq. fold (fnv_step h a') in Eq'.
  destruct (prime_sparse (Z.lxor h a - Z.lxor h a')
    ((Z.lxor (fnv_step h a) b - fnv_step h a) - (Z.lxor (fnv_step h a') b' - fnv_step h a'))
    (j + 2 * (q' - q))) as [Ex Ey]; [lia..|].
  assert (a = a') as <- by (apply (lxor_cancel_l h); lia). split; [done|].
  apply (lxor_cancel_l (fnv_step h a)). lia.
Qed.

(** ** Theorems *)

Definition label_ok (ls : list Z) : Prop := glyphs_ok ls /\ zlen ls <= 20.

Lemma label_checks ls : Forall (is_u 16) ls -> zlen ls < 2 ^ 32 ->
  from_levels ls =
    (if zlen ls <=? 20 then if glyphs_in_range ls then Ok (mkLabel ls) else Err GlyphOutOfRange
     else Err LabelTooDeep) /\
  is_ok (resolve_label (mkLabel ls)) = is_ok (from_levels ls) /\
  (is_ok (from_levels ls) = true <-> label_ok ls).
Proof.
  intros Hu Hl. unfold from_levels, resolve_label, depth, PREFIX_TREE_MAX_DEPTH, label_ok; cbn [levels].
  rewrite wrap_id by (pose proof (zlen_nonneg ls); unfold is_u; lia).
  rewrite <- glyphs_in_range_spec by done. rewrite Z.gtb_ltb.
  destruct (Z.ltb_spec 20 (zlen ls)), (Z.leb_spec (zlen ls) 20); try lia;
    destruct (glyphs_in_range ls); cbn; intuition (done || lia).
Qed.

Lemma resolve_ok ls : label_ok ls ->
  resolve_label (mkLabel ls) =
    Ok (nonzero_handle (fnv1a_64 (flat_map glyph_bytes ls)) (flat_map glyph_bytes ls)).
Proof.
  intros [Hg Hl]. unfold resolve_label, depth, PREFIX_TREE_MAX_DEPTH; cbn [levels].
  rewrite wrap_id, Z.gtb_ltb by (pose proof (zlen_nonneg ls); unfold is_u; lia).
  destruct (Z.ltb_spec 20 (zlen ls)); [lia|].
  destruct (glyphs_in_range ls) eqn:E; [done|]. apply not_true_iff_false in E. destruct E.
  apply glyphs_in_range_spec; [|done]. eapply Forall_impl; [exact Hg|]. unfold is_u. lia.
Qed.

Lemma label_snoc_ok p g : label_ok (p ++ [g]) <-> glyphs_ok p /\ 0 <= g < 1024 /\ zlen p + 1 <= 20.
Proof. unfold label_ok, glyphs_ok. rewrite Forall_app, Forall_singleton, zlen_snoc. tauto. Qed.

Lemma glyph_byte_bounds g : 0 <= g < 1024 -> 0 <= g / 256 < 4 /\ 0 <= g mod 256 < 256.
Proof.
  intros Hg. split; [|by apply Z.mod_pos_bound].
  split; [apply Z.div_pos; lia | apply Z.div_lt_upper_bound; lia].
Qed.

Lemma siblings_differ p g g' : label_ok (p ++ [g]) -> 0 <= g' < 1024 -> g <> g' ->
  resolve_label (mkLabel (p ++ [g])) <> resolve_label (mkLabel (p ++ [g'])).
Proof.
  intros Hok Hg' Hne Heq. apply Hne.
  assert (Hok' : label_ok (p ++ [g'])) by (apply label_snoc_ok; apply label_snoc_ok in Hok; tauto).
  rewrite !resolve_ok in Heq by done. apply label_snoc_ok in Hok as (_ & Hg & _).
  injection Heq as Heq. rewrite !flat_map_app in Heq. cbn [flat_map] in Heq.
  rewrite !app_nil_r, !glyph_bytes_eq in Heq by done. unfold fnv1a_64 in Heq.
  rewrite !fold_left_app in Heq. cbn [fold_left] in Heq.
  set (h := fold_left fnv_step _ _) in Heq.
  assert (exists k, fnv_step (fnv_step h (g / 256)) (g mod 256) =
    fnv_step (fnv_step h (g' / 256)) (g' mod 256) + k * 2 ^ 63) as [k Ek].
  { unfold nonzero_handle, RESERVED_HANDLE_ZERO in Heq. repeat split_if_in Heq;
      [exists 0 | exists (-1) | exists 1 | exists 0]; lia. }
  pose proof (glyph_byte_bounds g Hg). pose proof (glyph_byte_bounds g' Hg').
  apply fnv_two_bytes in Ek as [E1 E2]; [|tauto..].
  rewrite (Z.div_mod g 256), (Z.div_mod g' 256), E1, E2 by lia. done.
Qed.

(** C39. A sequence of u16 glyphs (fewer than 2^32 of them) is accepted as a
    port label exactly when it has 20 levels at most, all below 1024, and
    resolving rechecks just that. Distinct labels have distinct byte forms;
    a non-empty label resolves to a nonzero u64; and two labels that differ
    in their last level only never resolve to the same handle, the folding
    of the zero hash included. *)
Theorem resolve_label_siblings ls :
  Forall (is_u 16) ls -> zlen ls < 2 ^ 32 ->
  (is_ok (from_levels ls) = true <-> label_ok ls) /\
  is_ok (resolve_label (mkLabel ls)) = is_ok (from_levels ls) /\
  (label_ok ls -> forall ls', label_ok ls' ->
     canonical_glyph_bytes (mkLabel ls) = canonical_glyph_bytes (mkLabel ls') -> ls = ls') /\
  (forall h, ls <> [] -> resolve_label (mkLabel ls) = Ok h -> is_u 64 h /\ h <> RESERVED_HANDLE_ZERO) /\
  (forall p g g', ls = p ++ [g] -> label_ok ls -> 0 <= g' < 1024 -> g <> g' ->
     resolve_label (mkLabel (p ++ [g])) <> resolve_label (mkLabel (p ++ [g']))).
Proof.
  intros Hu Hl. destruct (label_checks ls Hu Hl) as (_ & E & Hok). split_and!; [done|done|..].
  - intros [H _] ls' [H' _]. by apply canonical_inj.
  - intros h Hne Hr. assert (label_ok ls) as H by (apply Hok; by rewrite <- E, Hr).
    rewrite (resolve_ok ls H) in Hr. injection Hr as <-. unfold nonzero_handle, RESERVED_HANDLE_ZERO.
    pose proof (fnv_range (flat_map glyph_bytes ls)).
    assert (zlen (flat_map glyph_bytes ls) =? 0 = false) as ->.
    { destruct ls; [done|]. apply Z.eqb_neq. cbn [flat_map]. rewrite zlen_app.
      pose proof (zlen_nonneg (flat_map glyph_bytes ls)). change (zlen (glyph_bytes z)) with 2. lia. }
    rewrite andb_true_r. destruct (Z.eqb_spec (fnv1a_64 (flat_map glyph_bytes ls)) 0); [by vm_compute | done].
  - intros p g g' -> Hls Hg' Hne. by apply siblings_differ.
Qed.

Lemma resolve_label_siblings_witness :
  label_ok [1; 2; 3] /\
  resolve_label (mkLabel [1; 2; 3]) <> resolve_label (mkLabel [1; 2; 4]).
Proof.
  assert (Hu : Forall (is_u 16) [1; 2; 3]) by (repeat constructor; by vm_compute).
  assert (Hl : zlen [1; 2; 3] < 2 ^ 32) by by vm_compute.
  assert (Hok : label_ok [1; 2; 3]) by (split; [repeat constructor; lia | by vm_compute]).
  split; [exact Hok|].
  destruct (resolve_label_siblings [1; 2; 3] Hu Hl) as (_ & _ & _ & _ & H).
  exact (H [1; 2] 3 4 eq_refl Hok ltac:(lia) ltac:(lia)).
Defined.

(** The table is the identity on its indices, as its test says. *)
Lemma alphabet_table_identity : BEHCS1024_ALPHABET_TABLE = map Z.of_nat (seq 0 1024).
Proof. by vm_compute. Qed.
