(* ===== verification/GlyphGenesis.v ===== *)
(** * Glyph genesis ([kernel/core/src/glyph_genesis/mod.rs])

    The eight-glyph word of a key, sentences of glyph words, and the test
    alphabet. *)

From S2P Require Import Prelude Digest Sha256.

#[local] Open Scope Z_scope.

Module GlyphGenesis.

Definition BEHCS256_ALPHABET_SIZE : Z := 256.

Inductive GlyphErr := AlphabetSizeMismatch.

(** The big-endian word of the first eight digest bytes. *)
Definition digest_word (digest : bytes) : Z :=
  fold_left (fun v i => Z.lor (wrap64 (Z.shiftl v 8)) (digest !!! i)) (seq 0 8) 0.

(** The output loop: [n] rounds left. The index is below 256, the length
    of the alphabet array. *)
Fixpoint push_glyphs (n : nat) (alphabet : list bytes) (v : Z) (out : bytes) : bytes :=
  match n with
  | O => out
  | S n' =>
      push_glyphs n' alphabet (v / BEHCS256_ALPHABET_SIZE)
        (out ++ alphabet !!! Z.to_nat (v mod BEHCS256_ALPHABET_SIZE))
  end.

Record SentenceWord := mkWord { dim : bytes; tuple : bytes; word_glyph : bytes }.

Section WithDigest.
Context `{Digest}.

Definition glyph (key : bytes) (alphabet : list bytes) : bytes :=
  push_glyphs 8 alphabet (digest_word (sha256 key)) [].

Definition sentence (fields : list (bytes * bytes)) (alphabet : list bytes) : list SentenceWord :=
  map (fun '(d, v) =>
    let t := d ++ lit ":" ++ v in
    mkWord d t (glyph t alphabet)) fields.

End WithDigest.

Definition ASCII_TABLE : list bytes :=
  map lit [" "; "!"]%string ++ [[34]] ++ map lit
  [ "#"; "$"; "%"; "&"; "'"; "("; ")"; "*"; "+"; ","; "-"; "."; "/"; "0"; "1";
    "2"; "3"; "4"; "5"; "6"; "7"; "8"; "9"; ":"; ";"; "<"; "="; ">"; "?"; "@"; "A"; "B"; "C";
    "D"; "E"; "F"; "G"; "H"; "I"; "J"; "K"; "L"; "M"; "N"; "O"; "P"; "Q"; "R"; "S"; "T"; "U";
    "V"; "W"; "X"; "Y"; "Z"; "["; "\"; "]"; "^"; "_"; "`"; "a"; "b"; "c"; "d"; "e"; "f"; "g";
    "h"; "i"; "j"; "k"; "l"; "m"; "n"; "o"; "p"; "q"; "r"; "s"; "t"; "u"; "v"; "w"; "x"; "y";
    "z"; "{"; "|"; "}"; "~" ]%string.

Definition test_alphabet_v0_1 : list bytes :=
  fold_left (fun arr i => <[i := ASCII_TABLE !!! i]> arr) (seq 0 95) (replicate 256 (lit "?")).

End GlyphGenesis.

Import GlyphGenesis.

(** ** The word and its digits *)

Lemma shift_or v d : 0 <= v < 2 ^ 56 -> is_byte d -> Z.lor (wrap64 (Z.shiftl v 8)) d = 256 * v + d.
Proof.
  unfold is_byte. intros Hv Hd. rewrite wrap_id, lor_low; [lia..|].
  unfold is_u. rewrite Z.shiftl_mul_pow2 by lia. lia.
Qed.

Lemma be_fold l : Forall is_byte l -> (length l <= 8)%nat ->
  fold_left (fun v b => Z.lor (wrap64 (Z.shiftl v 8)) b) l 0 = be_value l.
Proof.
  induction l as [|b l IH] using rev_ind; intros Hb Hl; [done|].
  apply Forall_app in Hb as [Hb Hd]. apply Forall_cons in Hd as [Hd _].
  rewrite length_app in Hl. cbn in Hl. rewrite fold_left_app, IH by (done || lia). cbn [fold_left].
  pose proof (le_value_range (rev l) (List.Forall_rev Hb)) as R.
  unfold zlen in R. rewrite length_rev in R.
  assert (256 ^ Z.of_nat (length l) <= 256 ^ 7) by (apply Z.pow_le_mono_r; lia).
  unfold be_value. rewrite rev_unit, shift_or; [cbn [le_value]; lia| |done].
  change (2 ^ 56) with (256 ^ 7). lia.
Qed.

Lemma fold_seq_take {A} (f : A -> Z -> A) l n a : (n <= length l)%nat ->
  fold_left (fun v i => f v (l !!! i)) (seq 0 n) a = fold_left f (take n l) a.
Proof.
  induction n as [|n IH]; intros Hn; [done|].
  destruct (lookup_lt_is_Some_2 l n) as [b Hb]; [lia|].
  rewrite seq_S, fold_left_app, IH, (take_S_r _ _ _ Hb), fold_left_app by lia.
  cbn [fold_left]. by rewrite (list_lookup_total_correct _ _ _ Hb).
Qed.

Lemma digest_word_eq digest :
  length digest = 32%nat -> Forall is_byte digest -> digest_word digest = le_value (rev (take 8 digest)).
Proof.
  intros Hl Hb. change (le_value (rev (take 8 digest))) with (be_value (take 8 digest)).
  rewrite <- be_fold by (by apply Forall_take || (rewrite length_take; lia)).
  apply (fold_seq_take (fun v b => Z.lor (wrap64 (Z.shiftl v 8)) b)). lia.
Qed.

Lemma push_glyphs_eq n alphabet v out :
  push_glyphs n alphabet v out =
  out ++ concat (map (fun b => alphabet !!! Z.to_nat b) (le_bytes n v)).
Proof.
  revert v out. induction n as [|n IH]; intros v out; cbn; [by rewrite app_nil_r|].
  by rewrite IH, <- app_assoc.
Qed.

Lemma glyph_eq `{Digest} key alphabet :
  glyph key alphabet =
  concat (map (fun b => alphabet !!! Z.to_nat b) (rev (take 8 (sha256 key)))).
Proof.
  unfold glyph. rewrite push_glyphs_eq, digest_word_eq by auto using sha256_length, sha256_bytes.
  cbn [app]. rewrite <- (le_bytes_value (rev (take 8 (sha256 key)))) at 2.
  - by rewrite length_rev, length_take, sha256_length.
  - apply List.Forall_rev, sha256_take_bytes.
Qed.

(** No entry of the alphabet is a prefix of another one. *)
Definition prefix_free (alphabet : list bytes) : Prop :=
  forall i j r, 0 <= i < 256 -> 0 <= j < 256 ->
    alphabet !!! Z.to_nat i = alphabet !!! Z.to_nat j ++ r -> i = j.

Lemma word_inj alphabet l l' :
  prefix_free alphabet -> Forall is_byte l -> Forall is_byte l' -> length l = length l' ->
  concat (map (fun b => alphabet !!! Z.to_nat b) l) = concat (map (fun b => alphabet !!! Z.to_nat b) l') ->
  l = l'.
Proof.
  intros Hp Hl. revert l'. induction Hl as [|b l Hb _ IH]; intros [|b' l'] Hl' Hlen E; try done.
  apply Forall_cons in Hl' as [Hb' Hl']. cbn [map concat] in E.
  assert (b = b') as <-.
  { apply app_eq_inv in E as [(k & E & _)|(k & E & _)].
    - by apply (Hp _ _ k).
    - symmetry. by apply (Hp _ _ k). }
  apply app_inv_head in E. f_equal. apply IH; [done| |done]. by injection Hlen.
Qed.

(** ** Theorems *)

(** A key's glyph word spells the first eight bytes of its SHA-256,
    last byte first, one alphabet entry per byte. Over an alphabet in which
    no entry is a prefix of another, two keys get the same word exactly when
    those eight digest bytes agree. A sentence gives each field its own
    word, of the text [dim:value]. *)
Theorem glyph_spells_digest `{Digest} alphabet key key' fields :
  glyph key alphabet =
    concat (map (fun b => alphabet !!! Z.to_nat b) (rev (take 8 (sha256 key)))) /\
  (prefix_free alphabet ->
     (glyph key alphabet = glyph key' alphabet <-> take 8 (sha256 key) = take 8 (sha256 key'))) /\
  map dim (sentence fields alphabet) = map fst fields /\
  Forall2 (fun f w => tuple w = f.1 ++ lit ":" ++ f.2 /\ word_glyph w = glyph (tuple w) alphabet)
    fields (sentence fields alphabet).
Proof.
  split_and!.
  - apply glyph_eq.
  - intros Hp. rewrite !glyph_eq. split; [|by intros ->]. intros E.
    apply word_inj in E; [| done | apply List.Forall_rev, sha256_take_bytes..|].
    + apply (f_equal (@rev Z)) in E. by rewrite !rev_involutive in E.
    + by rewrite !length_rev, !length_take, !sha256_length.
  - unfold sentence. rewrite map_map. apply map_ext. by intros [d v].
  - induction fields as [|[d v] fields IH]; constructor; [done | exact IH].
Qed.

(** The test alphabet: the printable characters, then question marks. *)
Lemma test_alphabet_entries :
  length ASCII_TABLE = 95%nat /\
  test_alphabet_v0_1 = map (fun i => [32 + Z.of_nat i]) (seq 0 95) ++ replicate 161 [63].
Proof. by vm_compute. Qed.

(** One distinct byte per entry. *)
Definition byte_alphabet : list bytes := map (fun i => [Z.of_nat i]) (seq 0 256).

Lemma byte_alphabet_free : prefix_free byte_alphabet.
Proof.
  assert (L : forall i, 0 <= i < 256 -> byte_alphabet !!! Z.to_nat i = [i]).
  { intros i Hi. apply list_lookup_total_correct. unfold byte_alphabet.
    rewrite list_lookup_fmap, lookup_seq_lt by lia. cbn. by rewrite Z2Nat.id by lia. }
  intros i j r Hi Hj. rewrite !L by done. by intros [= -> _].
Qed.

Lemma glyph_spells_digest_witness :
  let _ := boot_digest in
  glyph (lit "a") byte_alphabet = rev (take 8 (sha256 (lit "a"))) /\
  glyph (lit "a") byte_alphabet <> glyph (lit "b") byte_alphabet.
Proof.
  intros d. destruct (glyph_spells_digest byte_alphabet (lit "a") (lit "b") []) as (_ & H & _).
  split; [by vm_compute|]. rewrite (H byte_alphabet_free). intros E. by vm_compute in E.
Defined.
