(* ===== verification/Atlas.v ===== *)
(** * Atlas ([kernel/core/src/atlas/mod.rs])

    The lookup tables from a BEHCS-1024 codepoint to its domain, supervisor
    and lane, and the embedding into the 256-codepoint subset, against the
    band table of the module's documentation. *)

From S2P Require Import Prelude.

#[local] Open Scope Z_scope.

Module Atlas.

Definition BEHCS_1024_CP_COUNT : Z := 1024.
Definition BEHCS_1024_MAX_CP : Z := BEHCS_1024_CP_COUNT - 1.
Definition BEHCS_256_CP_COUNT : Z := 256.

Definition is_valid_cp (cp : Z) : bool := cp <? BEHCS_1024_CP_COUNT.

Definition subset_embedding_cp (cp : Z) : option Z :=
  if BEHCS_1024_CP_COUNT <=? cp then None else Some (wrap8 (cp mod BEHCS_256_CP_COUNT)).

Inductive AtlasDomain :=
| LegacySubset256 | Sovereignty | Sequencing | LanguageGlyph
| HilbertCube | BuildProof | Federation | EmergentResidual.

Inductive AtlasSupervisor :=
| CubeCubedSealer | Gaia | Helm | Vector | Rook | Forge | Falcon | LiveFree.

Inductive AtlasLane := Memory | Skeletal | Muscular | Nervous | Circulatory.

(** The pattern [lo..=hi]. *)
Definition within_incl (lo hi cp : Z) : bool := (lo <=? cp) && (cp <=? hi).

Definition domain_for_cp (cp : Z) : option AtlasDomain :=
  if within_incl 0 255 cp then Some LegacySubset256
  else if within_incl 256 383 cp then Some Sovereignty
  else if within_incl 384 479 cp then Some Sequencing
  else if within_incl 480 575 cp then Some LanguageGlyph
  else if within_incl 576 703 cp then Some HilbertCube
  else if within_incl 704 799 cp then Some BuildProof
  else if within_incl 800 895 cp then Some Federation
  else if within_incl 896 1023 cp then Some EmergentResidual
  else None.

Definition supervisor_for_cp (cp : Z) : option AtlasSupervisor :=
  if within_incl 0 255 cp then Some CubeCubedSealer
  else if within_incl 256 383 cp then Some Gaia
  else if within_incl 384 479 cp then Some Helm
  else if within_incl 480 575 cp then Some Vector
  else if within_incl 576 703 cp then Some Rook
  else if within_incl 704 799 cp then Some Forge
  else if within_incl 800 895 cp then Some Falcon
  else if within_incl 896 1023 cp then Some LiveFree
  else None.

Definition lane_for_cp (cp : Z) : option AtlasLane :=
  if within_incl 0 255 cp then Some Memory
  else if within_incl 256 383 cp then Some Skeletal
  else if within_incl 384 479 cp then Some Muscular
  else if within_incl 480 575 cp then Some Nervous
  else if within_incl 576 703 cp then Some Circulatory
  else if within_incl 704 799 cp then Some Muscular
  else if within_incl 800 895 cp then Some Nervous
  else if within_incl 896 1023 cp then Some Memory
  else None.

End Atlas.

Import Atlas.

(** ** The documented band table *)

Record band := Band { first_cp : Z; last_cp : Z; supervisor : AtlasSupervisor; lane : AtlasLane }.

Definition band_of (d : AtlasDomain) : band :=
  match d with
  | LegacySubset256 => Band 0 255 CubeCubedSealer Memory
  | Sovereignty => Band 256 383 Gaia Skeletal
  | Sequencing => Band 384 479 Helm Muscular
  | LanguageGlyph => Band 480 575 Vector Nervous
  | HilbertCube => Band 576 703 Rook Circulatory
  | BuildProof => Band 704 799 Forge Muscular
  | Federation => Band 800 895 Falcon Nervous
  | EmergentResidual => Band 896 1023 LiveFree Memory
  end.

(** The three tables are one table: a codepoint has a domain exactly
    when it is below 1024, exactly the one whose documented band contains
    it, and its supervisor and lane are that band's. The subset embedding
    is defined on the same codepoints, is the codepoint modulo 256, and
    fixes exactly the legacy domain. *)
Theorem atlas_single_table cp :
  is_u 16 cp ->
  (is_valid_cp cp = true <-> exists d, domain_for_cp cp = Some d) /\
  (forall d, domain_for_cp cp = Some d <-> first_cp (band_of d) <= cp <= last_cp (band_of d)) /\
  supervisor_for_cp cp = (fun d => supervisor (band_of d)) <$> domain_for_cp cp /\
  lane_for_cp cp = (fun d => lane (band_of d)) <$> domain_for_cp cp /\
  subset_embedding_cp cp = (fun _ => cp mod 256) <$> domain_for_cp cp /\
  (subset_embedding_cp cp = Some cp <-> domain_for_cp cp = Some LegacySubset256).
Proof.
  unfold is_u, is_valid_cp, subset_embedding_cp, domain_for_cp, supervisor_for_cp, lane_for_cp, within_incl.
  unfold BEHCS_1024_CP_COUNT, BEHCS_256_CP_COUNT. intros Hcp.
  pose proof (Z.mod_pos_bound cp 256 ltac:(lia)) as Hm.
  rewrite (wrap_id 8) by (unfold is_u; lia).
  pose proof (Z.div_mod cp 256 ltac:(lia)) as Hd.
  repeat match goal with |- context [?a <=? ?b] => destruct (Z.leb_spec a b); cbn [andb] end; try lia.
  all: rewrite ?(proj2 (Z.ltb_lt cp 1024)) by lia.
  all: rewrite ?(proj2 (Z.ltb_ge cp 1024)) by lia.
  all: split_and!; try done; try (intros []; cbn; split; (done || lia)).
  all: try (split; [eauto|done]); try (split; [done|by intros []]).
  1: split; [done|]; intros _; f_equal; apply Z.mod_small; lia.
  all: intros [= E]; exfalso; lia.
Qed.

Lemma atlas_single_table_witness :
  domain_for_cp 260 = Some Sovereignty /\ lane_for_cp 260 = Some Skeletal /\
  subset_embedding_cp 260 = Some 4.
Proof.
  destruct (atlas_single_table 260) as (_ & H & _ & L & S & _); [by vm_compute|].
  assert (D : domain_for_cp 260 = Some Sovereignty) by (apply H; cbn; lia).
  rewrite L, S, D. done.
Defined.
