(* ===== verification/BusAndKick.v ===== *)
(** * Bus and kick ([kernel/core/src/bus_and_kick/mod.rs])

    The verb classifier that decides between bus-only delivery and a
    wake-kick, and the composition of an envelope's fields. *)

From S2P Require Import Prelude.

Module BusAndKick.

Definition BUS_AND_KICK_HILBERT_ROOM : Z := 29.
Definition BUS_AND_KICK_PROF : bytes := lit "PROF-BUS-AND-KICK-SUPERVISOR".

Inductive ActionClass := BusOnly | KickOnly | PostAndKick | Heartbeat.

Inductive BatkErr := UnknownPeer | BearerMissing | NonceMintFailed | Unimplemented.

Record ComposedEnvelope := mkComposed {
  id : bytes; from : bytes; to : bytes; mode : bytes; actor : bytes;
  target : bytes; ts_iso : bytes; verb : bytes; payload : bytes
}.

Definition compose (envelope_id_hint : option bytes)
    (from to actor target ts_iso verb payload : bytes) : ComposedEnvelope :=
  let id := match envelope_id_hint with
            | Some s => s
            | None => from ++ lit "-batk-" ++ ts_iso
            end in
  mkComposed id from to (lit "real") actor target ts_iso verb payload.

Section WithCase.
Context `{UnicodeCase}.

Definition classify_verb (verb : bytes) : ActionClass :=
  let v := to_uppercase verb in
  if contains (lit "HEARTBEAT") v || contains (lit "PULSE_LOOP") v || contains (lit "STEADY") v
  then Heartbeat
  else if contains (lit "ACTIONABLE") v || contains (lit "DIRECTIVE") v || contains (lit "WAKE") v
          || contains (lit "ALERT") v || contains (lit "KICK_REQUIRED") v
  then PostAndKick
  else BusOnly.

Definition heartbeat_verb_for (host : bytes) : bytes :=
  lit "EVT-" ++ to_uppercase host ++ lit "-HEARTBEAT".

End WithCase.

End BusAndKick.

Import BusAndKick.

(** ** Theorems *)

Definition CALM_WORDS : list bytes := map lit ["HEARTBEAT"; "PULSE_LOOP"; "STEADY"]%string.
Definition KICK_WORDS : list bytes :=
  map lit ["ACTIONABLE"; "DIRECTIVE"; "WAKE"; "ALERT"; "KICK_REQUIRED"]%string.

Definition says (words : list bytes) (verb : bytes) : bool :=
  existsb (fun w => contains w (map to_ascii_upper verb)) words.

Lemma upper_ascii s : forallb is_ascii s = true -> forallb is_ascii (map to_ascii_upper s) = true.
Proof.
  rewrite !forallb_forall. intros H b (c & <- & Hc)%in_map_iff. specialize (H c Hc).
  unfold is_ascii, to_ascii_upper, is_ascii_lowercase in *. to_prop.
  split_if; to_prop; rewrite andb_true_iff, Z.leb_le, Z.ltb_lt; lia.
Qed.

Lemma upper_idem s : map to_ascii_upper (map to_ascii_upper s) = map to_ascii_upper s.
Proof.
  rewrite map_map. apply map_ext. intros b. unfold to_ascii_upper, is_ascii_lowercase.
  repeat split_if; to_prop; lia.
Qed.

Lemma classify_cases `{UnicodeCase} verb : forallb is_ascii verb = true ->
  classify_verb verb =
    if says CALM_WORDS verb then Heartbeat else if says KICK_WORDS verb then PostAndKick else BusOnly.
Proof.
  intros Ha. unfold classify_verb, says, CALM_WORDS, KICK_WORDS. rewrite to_uppercase_ascii by done.
  cbn [map existsb]. by rewrite !orb_false_r, !orb_assoc.
Qed.

(** On ASCII verbs the class is decided by the words the verb contains,
    in any case: a wake-kick needs one of the action words and is vetoed by
    any of the heartbeat words; the kick-only class is never produced; the
    verb minted for a host's heartbeat is classified as heartbeat whatever
    the host is called. *)
Theorem classify_verb_spec `{UnicodeCase} verb :
  forallb is_ascii verb = true ->
  (classify_verb verb = Heartbeat <-> says CALM_WORDS verb = true) /\
  (classify_verb verb = PostAndKick <-> says CALM_WORDS verb = false /\ says KICK_WORDS verb = true) /\
  (classify_verb verb = BusOnly <-> says CALM_WORDS verb = false /\ says KICK_WORDS verb = false) /\
  classify_verb (map to_ascii_upper verb) = classify_verb verb /\
  classify_verb (heartbeat_verb_for verb) = Heartbeat.
Proof.
  intros Ha. rewrite !classify_cases by auto using upper_ascii. split_and!.
  1-3: destruct (says CALM_WORDS verb), (says KICK_WORDS verb); intuition congruence.
  - unfold says. by rewrite upper_idem.
  - unfold heartbeat_verb_for. rewrite to_uppercase_ascii by done.
    rewrite classify_cases by (by rewrite !forallb_app, upper_ascii).
    assert (says CALM_WORDS (lit "EVT-" ++ map to_ascii_upper verb ++ lit "-HEARTBEAT") = true) as ->; [|done].
    unfold says, CALM_WORDS. cbn [map existsb]. apply orb_true_iff. left.
    rewrite !map_app, app_assoc.
    change (map to_ascii_upper (lit "-HEARTBEAT")) with (lit "-" ++ lit "HEARTBEAT" ++ []).
    rewrite app_assoc. apply contains_mid.
Qed.

Lemma classify_verb_spec_witness :
  let _ := ascii_case in
  classify_verb (lit "wake_liris_now") = PostAndKick /\
  classify_verb (heartbeat_verb_for (lit "wake-host")) = Heartbeat.
Proof.
  intros c. split.
  - destruct (classify_verb_spec (lit "wake_liris_now") eq_refl) as (_ & H & _).
    apply H. by vm_compute.
  - exact (proj2 (proj2 (proj2 (proj2 (classify_verb_spec (lit "wake-host") eq_refl))))).
Defined.
