(* ===== verification/SurfaceText.v ===== *)
(** * Text of the front-end shell ([surface/src/main.rs])

    The encoders and parsers the shell is made of: base64, decimal ids,
    white-space trimming, request and response framing, lossy UTF-8, the
    seat identity and the status block. *)

From S2P Require Import Prelude Utf8.

#[local] Open Scope Z_scope.

Module SurfaceText.

(** ** base64 *)

Definition T : bytes := lit "ABCDEFGHIJKLMNOPQRSTUVWXYZabcdefghijklmnopqrstuvwxyz0123456789+/".

(** [data.chunks(3)] *)
Fixpoint chunks3 (data : bytes) : list bytes :=
  match data with
  | a :: b :: c :: rest => [a; b; c] :: chunks3 rest
  | [] => []
  | _ => [data]
  end.

(** One round of the loop; the indices are below 64. *)
Definition encode_chunk (chunk : bytes) : bytes :=
  let b0 := chunk !!! 0%nat in
  let b1 := default 0 (chunk !! 1%nat) in
  let b2 := default 0 (chunk !! 2%nat) in
  [ T !!! Z.to_nat (Z.shiftr b0 2);
    T !!! Z.to_nat (Z.lor (wrap8 (Z.shiftl (Z.land b0 3) 4)) (Z.shiftr b1 4));
    (if zlen chunk >? 1
     then T !!! Z.to_nat (Z.lor (wrap8 (Z.shiftl (Z.land b1 15) 2)) (Z.shiftr b2 6)) else 61);
    (if zlen chunk >? 2 then T !!! Z.to_nat (Z.land b2 63) else 61) ].

Definition base64 (data : bytes) : bytes := flat_map encode_chunk (chunks3 data).

(** ** Decimal numbers: [str::parse] at [u64] and [usize] *)

Fixpoint parse_digits (acc : Z) (s : bytes) : option Z :=
  match s with
  | [] => Some acc
  | c :: s' =>
      if negb (is_ascii_digit c) then None
      else if acc * 10 >? U64_MAX then None
      else if acc * 10 + (c - 48) >? U64_MAX then None
      else parse_digits (acc * 10 + (c - 48)) s'
  end.

(** One leading plus sign is accepted before digits. *)
Definition parse_u64 (s : bytes) : option Z :=
  match s with
  | [] => None
  | [c] => if (c =? 43) || (c =? 45) then None else parse_digits 0 s
  | c :: s' => if c =? 43 then parse_digits 0 s' else parse_digits 0 s
  end.

(** [str::strip_prefix] *)
Definition strip_prefix (p s : bytes) : option bytes :=
  if starts_with p s then Some (drop (length p) s) else None.

Fixpoint query_scan (pieces : list bytes) : Z :=
  match pieces with
  | [] => 0
  | kv :: rest =>
      match strip_prefix (lit "id=") kv with
      | Some v => default 0 (parse_u64 v)
      | None => query_scan rest
      end
  end.

Definition query_id (query : bytes) : Z := query_scan (split_on 38 query).

(** ** White space ([char::is_whitespace], in UTF-8) *)

Definition ws1 (x : Z) : bool := between 9 13 x || (x =? 32).
Definition ws2 (x y : Z) : bool := (x =? 194) && ((y =? 133) || (y =? 160)).
Definition ws3 (x y z : Z) : bool :=
  (x =? 225) && (y =? 154) && (z =? 128)
  || (x =? 226) && (y =? 128) && (between 128 138 z || (z =? 168) || (z =? 169) || (z =? 175))
  || (x =? 226) && (y =? 129) && (z =? 159)
  || (x =? 227) && (y =? 128) && (z =? 128).

(** The bytes of the white-space character at the head, 0 if none. *)
Definition ws_len (s : bytes) : nat :=
  match s with
  | [] => 0
  | x :: r =>
      if ws1 x then 1
      else match r with
           | [] => 0
           | y :: r' =>
               if ws2 x y then 2
               else match r' with
                    | [] => 0
                    | z :: _ => if ws3 x y z then 3 else 0
                    end
           end
  end%nat.

(** The same at the tail of the text whose reverse is [r]. *)
Definition ws_len_rev (r : bytes) : nat :=
  match r with
  | [] => 0
  | z :: r =>
      if ws1 z then 1
      else match r with
           | [] => 0
           | y :: r' =>
               if ws2 y z then 2
               else match r' with
                    | [] => 0
                    | x :: _ => if ws3 x y z then 3 else 0
                    end
           end
  end%nat.

(** Drop what [ws] recognises, [skip] bytes of a character still to drop. *)
Fixpoint trim_with (ws : bytes -> nat) (skip : nat) (s : bytes) : bytes :=
  match s with
  | [] => []
  | _ :: s' =>
      match skip with
      | S k => trim_with ws k s'
      | O => match ws s with
             | O => s
             | S k => trim_with ws k s'
             end
      end
  end.

Definition trim_start (s : bytes) : bytes := trim_with ws_len 0 s.
Definition trim_end (s : bytes) : bytes := rev (trim_with ws_len_rev 0 (rev s)).
Definition trim (s : bytes) : bytes := trim_end (trim_start s).

(** [str::split_whitespace] *)
Definition flush (cur : bytes) : list bytes := match cur with [] => [] | _ => [cur] end.

Fixpoint words (skip : nat) (cur s : bytes) : list bytes :=
  match s with
  | [] => flush cur
  | b :: s' =>
      match skip with
      | S k => words k cur s'
      | O => match ws_len s with
             | O => words 0 (cur ++ [b]) s'
             | S k => flush cur ++ words k [] s'
             end
      end
  end.

Definition split_whitespace (s : bytes) : list bytes := words 0 [] s.

(** ** [String::from_utf8_lossy] *)

(** The bytes of the next sequence and whether it is well-formed; reading
    past the end gives 0. *)
Definition lossy_step (s : bytes) : nat * bool :=
  let get i := default 0 (s !! i) in
  let cont i := Z.land (get i) 192 =? 128 in
  let b := get 0%nat in
  if b <? 128 then (1%nat, true)
  else if between 194 223 b then
    if cont 1%nat then (2%nat, true) else (1%nat, false)
  else if between 224 239 b then
    if negb ((b =? 224) && between 160 191 (get 1%nat)
             || between 225 236 b && between 128 191 (get 1%nat)
             || (b =? 237) && between 128 159 (get 1%nat)
             || between 238 239 b && between 128 191 (get 1%nat))
    then (1%nat, false)
    else if cont 2%nat then (3%nat, true) else (2%nat, false)
  else if between 240 244 b then
    if negb ((b =? 240) && between 144 191 (get 1%nat)
             || between 241 243 b && between 128 191 (get 1%nat)
             || (b =? 244) && between 128 143 (get 1%nat))
    then (1%nat, false)
    else if negb (cont 2%nat) then (2%nat, false)
    else if cont 3%nat then (4%nat, true) else (3%nat, false)
  else (1%nat, false).

Fixpoint lossy (fuel : nat) (s : bytes) : bytes :=
  match fuel with
  | O => []
  | S f =>
      match s with
      | [] => []
      | _ =>
          let '(n, ok) := lossy_step s in
          (if ok then take n s else [239; 191; 189]) ++ lossy f (drop n s)
      end
  end.

Definition from_utf8_lossy (s : bytes) : bytes := lossy (length s) s.

(** ** Responses *)

Definition CRLF : bytes := [13; 10].

Definition status_text (code : Z) : bytes :=
  if code =? 200 then lit "200 OK"
  else if code =? 404 then lit "404 Not Found"
  else lit "500 Internal Server Error".

(** The bytes [write_resp] sends. *)
Definition write_resp (code : Z) (ctype body : bytes) : bytes :=
  lit "HTTP/1.1 " ++ status_text code ++ CRLF ++ lit "Content-Type: " ++ ctype ++ CRLF ++
  lit "Content-Length: " ++ dec (zlen body) ++ CRLF ++ lit "Cache-Control: no-store" ++ CRLF ++
  lit "Connection: close" ++ CRLF ++ CRLF ++ body.

Definition http_response_body (resp : bytes) : bytes :=
  match find_sub (CRLF ++ CRLF) resp with
  | Some i => drop (i + 4) resp
  | None => resp
  end.

(** What [http_get] makes of the bytes it read before the end of the stream
    or an error. *)
Definition http_answer (buf : bytes) : option bytes :=
  if zlen buf =? 0 then None else Some (http_response_body (from_utf8_lossy buf)).

(** ** Identity and ports *)

(** The value and the paths read; [read_file] is [fs::read_to_string]. *)
Definition resolve_ident (env_value home : option bytes) (file dflt : bytes)
    (read_file : bytes -> option bytes) : bytes * list bytes :=
  let from_file :=
    match home with
    | Some h =>
        if negb (zlen h =? 0) then
          let p := h ++ lit "/.asolaria/" ++ file in
          match read_file p with
          | Some s => let s := trim s in if negb (zlen s =? 0) then (s, [p]) else (dflt, [p])
          | None => (dflt, [p])
          end
        else (dflt, [])
    | None => (dflt, [])
    end in
  match env_value with
  | Some v => if negb (zlen (trim v) =? 0) then (trim v, []) else from_file
  | None => from_file
  end.

Definition fabric_port_for_context (seat : bytes) (host : option bytes) : Z :=
  let seat := map to_ascii_lower seat in
  let host := map to_ascii_lower (default [] host) in
  if contains (lit "liris") seat || contains (lit "ptsqtie") host || contains (lit "liris") host
  then 4944 else 4949.

(** ** The status block *)

(** [str::lines] *)
Definition drop_cr (l : bytes) : bytes :=
  match rev l with
  | c :: r => if c =? 13 then rev r else l
  | [] => l
  end.

Fixpoint lines_of (pieces : list bytes) : list bytes :=
  match pieces with
  | [] => []
  | [p] => flush p
  | p :: rest => drop_cr p :: lines_of rest
  end.

Definition lines (s : bytes) : list bytes := lines_of (split_on 10 s).

(** The fields of a kernel line update the version and the anchor. *)
Definition kernel_field (st : bytes * bytes) (f : bytes) : bytes * bytes :=
  let st := match strip_prefix (lit "version=") f with Some v => (v, st.2) | None => st end in
  match strip_prefix (lit "anchor_pid=") f with Some v => (st.1, v) | None => st end.

Definition kernel_line (st : bytes * bytes) (line : bytes) : bytes * bytes :=
  match strip_prefix (lit "HOST8KERNEL|") line with
  | Some rest => fold_left kernel_field (split_on 124 rest) st
  | None => st
  end.

Fixpoint take_digits (s : bytes) : bytes :=
  match s with
  | [] => []
  | c :: s' => if is_ascii_digit c then c :: take_digits s' else []
  end.

(** The name between its quotes, with the colon. *)
Definition INBOX_KEY : bytes := [34] ++ lit "inbox_depth" ++ [34] ++ lit ":".

Definition inbox_of (bus : bytes) : bytes :=
  match find_sub INBOX_KEY bus with
  | Some i =>
      let n := take_digits (drop (i + 14) bus) in
      if negb (zlen n =? 0) then n else lit "-"
  | None => lit "-"
  end.

Definition b (v : bool) : Z := if v then 1 else 0.

Definition is_some {A} (o : option A) : bool := match o with Some _ => true | None => false end.

(** [http_get host port path]: the answers of the local services. *)
Definition live_status (http_get : Z -> bytes -> option bytes) (seat : bytes) (host : option bytes)
    (now_unix : Z) : bytes :=
  let kernel := default [] (http_get 5088 (lit "/health.hbp")) in
  let '(kver, kanchor) := fold_left kernel_line (lines kernel) (lit "-", lit "-") in
  let kernel_up := negb (zlen kernel =? 0) in
  let recall_up := is_some (http_get 4796 (lit "/api/health")) in
  let bus := default [] (http_get 4947 (lit "/behcs/health")) in
  let bus_up := negb (zlen bus =? 0) in
  let inbox := inbox_of bus in
  let fabric_port := fabric_port_for_context seat host in
  let fabric_up := is_some (http_get fabric_port (lit "/health")) in
  lit "ASIOSLIVE|ts_unix=" ++ dec now_unix ++ lit "|seat=" ++ seat ++ [10] ++
  lit "KERNEL|port=5088|up=" ++ dec (b kernel_up) ++ lit "|version=" ++ kver ++
    lit "|anchor=" ++ kanchor ++ [10] ++
  lit "RECALL|port=4796|up=" ++ dec (b recall_up) ++ lit "|role=local-inverted-index-vault" ++ [10] ++
  lit "BUS|port=4947|up=" ++ dec (b bus_up) ++ lit "|inbox_depth=" ++ inbox ++ [10] ++
  lit "FABRIC|port=" ++ dec fabric_port ++ lit "|up=" ++ dec (b fabric_up) ++
    lit "|role=super-dashboard" ++ [10] ++
  lit "SOVLINUX|role=local-sovereignty-vault|present=unprobed|evidence=UNVERIFIED|gate=operator-witness" ++
    [10].

End SurfaceText.

Import SurfaceText.

Example base64_vectors :
  base64 (lit "f") = lit "Zg==" /\ base64 (lit "foobar") = lit "Zm9vYmFy" /\
  base64 [0; 1; 2; 253; 254; 255] = lit "AAEC/f7/".
Proof. by vm_compute. Qed.

Example query_vectors :
  query_id (lit "x=1&id=7&y=2") = 7 /\ query_id (lit "id=not-a-number") = 0 /\ query_id (lit "xid=5") = 0
  /\ query_id (lit "id=+7") = 7 /\ query_id (lit "id=18446744073709551616") = 0.
Proof. by vm_compute. Qed.

Example trim_vectors :
  trim (lit "  SEAT-A  " ++ [10; 227; 128; 128]) = lit "SEAT-A" /\
  split_whitespace (lit "GET /x?y  HTTP/1.1" ++ CRLF) = [lit "GET"; lit "/x?y"; lit "HTTP/1.1"] /\
  from_utf8_lossy ([104; 240; 159; 33; 195; 169]) = [104; 239; 191; 189; 33; 195; 169].
Proof. by vm_compute. Qed.

(** ** base64 decodes *)

(** The value of a base64 character. *)
Definition sextet (c : Z) : Z :=
  if between 65 90 c then c - 65
  else if between 97 122 c then c - 71
  else if between 48 57 c then c + 4
  else if c =? 43 then 62
  else if c =? 47 then 63
  else -1.

(** The reference decoder: groups of four, padding with [=]. *)
Fixpoint unbase64 (s : bytes) : bytes :=
  match s with
  | p :: q :: r :: t :: rest =>
      let x := sextet p * 4 + sextet q / 16 in
      let y := sextet q mod 16 * 16 + sextet r / 4 in
      let z := sextet r mod 4 * 64 + sextet t in
      (if r =? 61 then [x] else if t =? 61 then [x; y] else [x; y; z]) ++ unbase64 rest
  | _ => []
  end.

Definition base64_char (c : Z) : bool := (0 <=? sextet c) || (c =? 61).

Lemma T_sextet n : 0 <= n < 64 -> sextet (T !!! Z.to_nat n) = n /\ (T !!! Z.to_nat n =? 61) = false.
Proof.
  intros Hn.
  assert (H : forallb (fun m => (sextet (T !!! Z.to_nat m) =? m) && negb (T !!! Z.to_nat m =? 61))
                (map Z.of_nat (seq 0 64)) = true) by (by vm_compute).
  rewrite forallb_forall in H.
  assert (Hin : In n (map Z.of_nat (seq 0 64))).
  { apply in_map_iff. exists (Z.to_nat n). split; [lia|]. apply in_seq. lia. }
  apply H in Hin. to_prop. split; [done|]. by apply Z.eqb_neq.
Qed.

Lemma T_char n : 0 <= n < 64 -> base64_char (T !!! Z.to_nat n) = true.
Proof. intros Hn. unfold base64_char. destruct (T_sextet n Hn) as [-> ->]. lia. Qed.

(** The four indices of a chunk. *)
Lemma chunk_indices x y z : is_byte x -> is_byte y -> is_byte z ->
  Z.shiftr x 2 = x / 4 /\
  Z.lor (wrap8 (Z.shiftl (Z.land x 3) 4)) (Z.shiftr y 4) = x mod 4 * 16 + y / 16 /\
  Z.lor (wrap8 (Z.shiftl (Z.land y 15) 2)) (Z.shiftr z 6) = y mod 16 * 4 + z / 64 /\
  Z.land z 63 = z mod 64.
Proof.
  unfold is_byte. intros Hx Hy Hz.
  change 3 with (Z.ones 2). change 15 with (Z.ones 4). change 63 with (Z.ones 6).
  rewrite !Z.land_ones, !Z.shiftr_div_pow2 by lia.
  change (2 ^ 2) with 4. change (2 ^ 4) with 16. change (2 ^ 6) with 64.
  pose proof (Z.mod_pos_bound x 4 ltac:(lia)). pose proof (Z.mod_pos_bound y 16 ltac:(lia)).
  pose proof (Z.div_mod y 16 ltac:(lia)). pose proof (Z.div_mod z 64 ltac:(lia)).
  pose proof (Z.mod_pos_bound z 64 ltac:(lia)).
  rewrite !wrap_id by (unfold is_u; rewrite Z.shiftl_mul_pow2 by lia; lia).
  split; [done|]. rewrite !lor_low by lia. done.
Qed.

Lemma byte_parts x : is_byte x ->
  0 <= x / 4 < 64 /\ 0 <= x mod 4 < 4 /\ 0 <= x / 16 < 16 /\ 0 <= x mod 16 < 16 /\
  0 <= x / 64 < 4 /\ 0 <= x mod 64 < 64 /\
  x = 4 * (x / 4) + x mod 4 /\ x = 16 * (x / 16) + x mod 16 /\ x = 64 * (x / 64) + x mod 64.
Proof.
  unfold is_byte. intros Hx.
  pose proof (Z.mod_pos_bound x 4 ltac:(lia)). pose proof (Z.mod_pos_bound x 16 ltac:(lia)).
  pose proof (Z.mod_pos_bound x 64 ltac:(lia)). pose proof (Z.div_mod x 4 ltac:(lia)).
  pose proof (Z.div_mod x 16 ltac:(lia)). pose proof (Z.div_mod x 64 ltac:(lia)). lia.
Qed.

Definition chunk_ok (c : bytes) : Prop := Forall is_byte c /\ (1 <= length c <= 3)%nat.

Lemma chunks3_ok data : Forall is_byte data -> Forall chunk_ok (chunks3 data) /\ concat (chunks3 data) = data.
Proof.
  remember (length data) as n eqn:Hn. revert data Hn.
  induction n as [n IH] using lt_wf_ind. intros data -> Hb.
  destruct data as [|x [|y [|z rest]]]; cbn [chunks3 concat].
  - split; [constructor|done].
  - split; [|done]. constructor; [|constructor]. split; [done|cbn; lia].
  - split; [|done]. constructor; [|constructor]. split; [done|cbn; lia].
  - assert (Hr : Forall is_byte rest) by (by do 3 (apply Forall_cons in Hb as [_ Hb])).
    destruct (IH (length rest) ltac:(cbn; lia) rest eq_refl Hr) as [H1 H2].
    split; [|by rewrite H2]. constructor; [|done]. split; [|cbn; lia].
    do 3 (apply Forall_cons in Hb as [? Hb]). by rewrite !Forall_cons, Forall_nil.
Qed.

Lemma unpack a v k : 0 <= v < k -> (a * k + v) / k = a /\ (a * k + v) mod k = v.
Proof.
  intros Hv. rewrite Z.add_comm, Z.div_add, Z.mod_add by lia.
  by rewrite Z.div_small, Z.mod_small by lia.
Qed.

Lemma chunks3_count data : zlen (chunks3 data) = (zlen data + 2) / 3.
Proof.
  remember (length data) as n eqn:Hn. revert data Hn.
  induction n as [n IH] using lt_wf_ind. intros data ->.
  destruct data as [|x [|y [|z rest]]]; [done..|]. cbn [chunks3].
  rewrite !zlen_cons, (IH (length rest) ltac:(cbn; lia) rest eq_refl).
  replace (1 + (1 + (1 + zlen rest)) + 2) with (zlen rest + 2 + 1 * 3) by lia.
  rewrite Z.div_add by lia. lia.
Qed.

Lemma encode_chunk_spec c rest : chunk_ok c ->
  unbase64 (encode_chunk c ++ rest) = c ++ unbase64 rest /\
  length (encode_chunk c) = 4%nat /\ forallb base64_char (encode_chunk c) = true.
Proof.
  intros [Hb Hl].
  assert (exists x y z, is_byte x /\ is_byte y /\ is_byte z /\
    (c = [x] /\ y = 0 /\ z = 0 \/ c = [x; y] /\ z = 0 \/ c = [x; y; z])) as (x & y & z & Hx & Hy & Hz & Hc).
  { assert (is_byte 0) by (unfold is_byte; lia).
    destruct c as [|x [|y [|z [|? ?]]]]; cbn in Hl; try lia;
      repeat match goal with H : Forall _ (_ :: _) |- _ => apply Forall_cons in H as [? H] end;
      [exists x, 0, 0 | exists x, y, 0 | exists x, y, z]; tauto. }
  destruct (chunk_indices x y z Hx Hy Hz) as (I0 & I1 & I2 & I3).
  destruct (byte_parts x Hx) as (? & ? & ? & ? & ? & ? & ? & ? & ?).
  destruct (byte_parts y Hy) as (? & ? & ? & ? & ? & ? & ? & ? & ?).
  destruct (byte_parts z Hz) as (? & ? & ? & ? & ? & ? & ? & ? & ?).
  destruct (T_sextet (x / 4)) as [S0 _]; [lia|].
  destruct (T_sextet (x mod 4 * 16 + y / 16)) as [S1 _]; [lia|].
  destruct (T_sextet (y mod 16 * 4 + z / 64)) as [S2 N2]; [lia|].
  destruct (T_sextet (z mod 64)) as [S3 N3]; [lia|].
  assert (E : encode_chunk c = [T !!! Z.to_nat (x / 4); T !!! Z.to_nat (x mod 4 * 16 + y / 16);
    (if zlen c >? 1 then T !!! Z.to_nat (y mod 16 * 4 + z / 64) else 61);
    (if zlen c >? 2 then T !!! Z.to_nat (z mod 64) else 61)]).
  { rewrite <- I0, <- I1, <- I2, <- I3.
    destruct Hc as [(-> & -> & ->)|[(-> & ->)| ->]]; reflexivity. }
  rewrite E. split; [|split; [done|]].
  2:{ cbn [forallb]. rewrite !T_char by lia. repeat split_if; by rewrite ?T_char by lia. }
  destruct (unpack (x mod 4) (y / 16) 16) as [U1 V1]; [lia|].
  destruct (unpack (y mod 16) (z / 64) 4) as [U2 V2]; [lia|].
  cbn [app unbase64]. rewrite S0, S1, U1, V1.
  destruct Hc as [(-> & -> & ->)|[(-> & ->)| ->]].
  - change (zlen [x] >? 1) with false. change (zlen [x] >? 2) with false.
    rewrite Z.eqb_refl. cbn [app]. f_equal. lia.
  - change (zlen [x; y] >? 1) with true. change (zlen [x; y] >? 2) with false. cbv iota.
    rewrite N2, S2, U2, Z.eqb_refl. cbn [app]. f_equal; [lia|]. f_equal. lia.
  - change (zlen [x; y; z] >? 1) with true. change (zlen [x; y; z] >? 2) with true. cbv iota.
    rewrite N2, N3, S2, S3, U2, V2. cbn [app]. f_equal; [lia|]. f_equal; [lia|]. f_equal. lia.
Qed.

Lemma base64_spec data : Forall is_byte data ->
  unbase64 (base64 data) = data /\ forallb base64_char (base64 data) = true /\
  zlen (base64 data) = 4 * zlen (chunks3 data).
Proof.
  intros Hb. destruct (chunks3_ok data Hb) as [Hc Hd].
  unfold base64. rewrite <- Hd at 2. clear Hd Hb. induction Hc as [|c cs H1 _ (IH1 & IH2 & IH3)]; [done|].
  cbn [flat_map concat]. destruct (encode_chunk_spec c (flat_map encode_chunk cs) H1) as (E & L & C).
  rewrite E, IH1, forallb_app, C, IH2, zlen_app, zlen_cons, IH3. unfold zlen at 1. rewrite L.
  split_and!; [done..|lia].
Qed.

(** C38. What the shell streams as base64 decodes, with the ordinary decoder,
    to exactly the terminal bytes; the text is four characters per three
    bytes, rounded up, all from the base64 alphabet or padding, so that it
    holds no line break and cannot end its event early. *)
Theorem base64_roundtrip data :
  Forall is_byte data ->
  unbase64 (base64 data) = data /\
  zlen (base64 data) = 4 * ((zlen data + 2) / 3) /\
  forallb base64_char (base64 data) = true /\ 10 ∉ base64 data.
Proof.
  intros Hb. destruct (base64_spec data Hb) as (H1 & H2 & H3). split_and!; [done| |done|].
  - rewrite H3. f_equal. apply chunks3_count.
  - intros Hin. rewrite forallb_forall in H2. by apply list_elem_of_In, H2 in Hin.
Qed.

Lemma base64_roundtrip_witness : unbase64 (base64 [27; 91; 50; 74; 10]) = [27; 91; 50; 74; 10].
Proof.
  apply (base64_roundtrip [27; 91; 50; 74; 10]). repeat constructor; by vm_compute.
Defined.

(** ** Session ids in queries *)

Definition all_digits (s : bytes) : Prop := forallb is_ascii_digit s = true.

Lemma dec_value_aux_ge acc s : 0 <= acc -> all_digits s -> acc <= dec_value_aux acc s.
Proof.
  revert acc. induction s as [|c s IH]; intros acc Ha Hs; cbn [dec_value_aux]; [lia|].
  unfold all_digits in *. cbn [forallb] in Hs. to_prop. unfold is_ascii_digit in *. to_prop.
  specialize (IH (10 * acc + (c - 48)) ltac:(lia) ltac:(done)). lia.
Qed.

Lemma parse_digits_spec acc s n : 0 <= acc <= U64_MAX ->
  parse_digits acc s = Some n <-> all_digits s /\ dec_value_aux acc s = n /\ n <= U64_MAX.
Proof.
  revert acc. induction s as [|c s IH]; intros acc Ha; cbn [parse_digits dec_value_aux].
  { split; [intros [= <-]; by split_and!; [|done|lia]|by intros (_ & -> & _)]. }
  unfold all_digits in *. cbn [forallb]. destruct (is_ascii_digit c) eqn:Ec; cbn [negb andb].
  2:{ split; [done|by intros (? & _)]. }
  assert (0 <= c - 48 <= 9) by (unfold is_ascii_digit in Ec; to_prop; lia).
  rewrite (Z.mul_comm acc 10).
  assert (Hge : all_digits s -> 10 * acc + (c - 48) <= dec_value_aux (10 * acc + (c - 48)) s).
  { intros Hs. apply dec_value_aux_ge; [lia|done]. }
  unfold all_digits in Hge.
  destruct (Z.gtb_spec (10 * acc) U64_MAX); [split; [done|intros (? & <- & ?); specialize (Hge ltac:(done)); lia]|].
  destruct (Z.gtb_spec (10 * acc + (c - 48)) U64_MAX);
    [split; [done|intros (? & <- & ?); specialize (Hge ltac:(done)); lia]|].
  apply IH. lia.
Qed.

Lemma parse_u64_spec s n :
  parse_u64 s = Some n <->
  exists ds, (s = ds \/ s = 43 :: ds) /\ ds <> [] /\ all_digits ds /\ dec_value ds = n /\ n <= U64_MAX.
Proof.
  assert (Hd : forall ds, parse_digits 0 ds = Some n <-> all_digits ds /\ dec_value ds = n /\ n <= U64_MAX)
    by (intros; by apply parse_digits_spec).
  assert (Hp : forall ds, all_digits (43 :: ds) -> False) by done.
  unfold parse_u64. destruct s as [|c [|c2 s]].
  - split; [done|]. intros (ds & [<-|E] & Hne & _); [done|discriminate E].
  - destruct ((c =? 43) || (c =? 45)) eqn:E; [split; [done|]|rewrite Hd; split].
    + intros (ds & [<-|[= -> <-]] & Hne & Ha & _); [|done].
      unfold all_digits in Ha. cbn [forallb] in Ha. unfold is_ascii_digit in Ha. to_prop.
      destruct E; to_prop; lia.
    + intros (? & ? & ?). exists [c]. split_and!; auto.
    + intros (ds & [<-|[= -> <-]] & Hne & ?); [done|]. discriminate E.
  - destruct (Z.eqb_spec c 43) as [->|Hc]; rewrite Hd; split.
    + intros (? & ? & ?). exists (c2 :: s). split_and!; auto.
    + intros (ds & [<-|[= <-]] & _ & Ha & ?); [by destruct (Hp (c2 :: s))|done].
    + intros (? & ? & ?). exists (c :: c2 :: s). split_and!; auto.
    + intros (ds & [<-|[= -> <-]] & _ & ?); done.
Qed.

Lemma parse_dec n : is_u 64 n -> parse_u64 (dec n) = Some n.
Proof.
  intros Hn. destruct (dec_spec n Hn) as (V & Ne & _ & D). apply parse_u64_spec.
  exists (dec n). split_and!; [by left|done..|]. unfold is_u in Hn. unfold U64_MAX. lia.
Qed.

Definition is_id_piece (kv : bytes) : bool := starts_with (lit "id=") kv.

Lemma query_scan_skip pre rest :
  Forall (fun kv => is_id_piece kv = false) pre -> query_scan (pre ++ rest) = query_scan rest.
Proof.
  unfold is_id_piece. induction 1 as [|kv pre H _ IH]; [done|].
  cbn [app query_scan]. unfold strip_prefix. by rewrite H.
Qed.

Lemma split_join c ps : ps <> [] -> Forall (fun p => c ∉ p) ps -> split_on c (join_with c ps) = ps.
Proof.
  intros Hne H. induction H as [|p ps Hp Hps IH]; [done|].
  destruct ps as [|q ps]; [by apply split_on_single|].
  cbn [join_with]. rewrite split_on_app by done. f_equal. by apply IH.
Qed.

Lemma query_id_dec n : is_u 64 n -> query_id (lit "id=" ++ dec n) = n.
Proof.
  intros Hn. unfold query_id. rewrite split_on_single.
  - cbn [query_scan]. unfold strip_prefix. by rewrite starts_with_app, drop_app_length, parse_dec.
  - rewrite not_elem_of_app. split; [by apply (bool_decide_unpack _); vm_compute|].
    apply (digits_no_sep 38); [done|]. by destruct (dec_spec n Hn) as (_ & _ & _ & ?).
Qed.

(** Session ids survive the query string: whatever other parameters come
    first, the number printed after [id=] is read back; only the first [id]
    counts; a missing or malformed one, a sign or an overflow included, is
    session 0; and the result always is a u64. *)
Theorem query_id_spec pre post v :
  Forall (fun kv => is_id_piece kv = false) pre -> Forall (fun p => 38 ∉ p) (pre ++ [v] ++ post) ->
  (is_id_piece v = false -> query_id (join_with 38 (pre ++ [v])) = 0) /\
  (forall n, is_u 64 n -> v = lit "id=" ++ dec n ->
     query_id (join_with 38 (pre ++ [v] ++ post)) = n) /\
  (forall w, v = lit "id=" ++ w ->
     let r := query_id (join_with 38 (pre ++ [v] ++ post)) in
     is_u 64 r /\ (r <> 0 -> exists ds, (w = ds \/ w = 43 :: ds) /\ all_digits ds /\ dec_value ds = r)).
Proof.
  intros Hpre Hamp.
  assert (Hid : forall w, query_scan ((lit "id=" ++ w) :: post) = default 0 (parse_u64 w)).
  { intros w. cbn [query_scan]. unfold strip_prefix. rewrite starts_with_app.
    by rewrite drop_app_length. }
  assert (Hq : query_id (join_with 38 (pre ++ [v] ++ post)) = query_scan (v :: post)).
  { unfold query_id. rewrite split_join by (done || by destruct pre). by apply query_scan_skip. }
  split_and!.
  - intros Hv. rewrite app_assoc, Forall_app in Hamp. destruct Hamp as [Hamp _].
    unfold query_id. rewrite split_join by (done || by destruct pre).
    rewrite query_scan_skip by done. cbn [query_scan]. unfold strip_prefix, is_id_piece in *. by rewrite Hv.
  - intros n Hn ->. by rewrite Hq, Hid, parse_dec.
  - intros w -> r. unfold r. rewrite Hq, Hid. destruct (parse_u64 w) as [n|] eqn:E; [|by vm_compute].
    apply parse_u64_spec in E as (ds & Hw & Hne & Hd & <- & Hmax).
    pose proof (dec_value_aux_ge 0 ds ltac:(lia) Hd) as Hge. fold (dec_value ds) in Hge. simpl.
    split; [unfold is_u, U64_MAX in *; lia|]. intros _. by exists ds.
Qed.

Lemma query_id_spec_witness :
  query_id (join_with 38 ([lit "x=1"] ++ [lit "id=" ++ dec 7] ++ [lit "id=9"])) = 7.
Proof.
  assert (A : Forall (fun kv => is_id_piece kv = false) [lit "x=1"]) by (repeat constructor).
  assert (B : Forall (fun p => 38 ∉ p) ([lit "x=1"] ++ [lit "id=" ++ dec 7] ++ [lit "id=9"])).
  { repeat constructor; apply (bool_decide_unpack _); by vm_compute. }
  destruct (query_id_spec [lit "x=1"] [lit "id=9"] (lit "id=" ++ dec 7) A B) as (_ & H & _).
  apply (H 7); [by vm_compute|done].
Defined.

(** ** Lossy decoding keeps well-formed text *)

Lemma cont_byte c : between 128 191 c = true -> (Z.land c 192 =? 128) = true.
Proof.
  intros Hc. assert (is_byte c) as Hb by (apply between_true in Hc; unfold is_byte; lia).
  apply (byte_forall (fun c => negb (between 128 191 c) || (Z.land c 192 =? 128))) in Hb; [|by vm_compute].
  by rewrite Hc in Hb.
Qed.

(** The well-formed sequence at the head of a text. *)
Lemma lossy_step_valid x s : utf8_valid (x :: s) = true ->
  exists n, lossy_step (x :: s) = (S n, true) /\ (n <= length s)%nat /\ utf8_valid (drop n s) = true.
Proof.
  intros H. cbn [utf8_valid] in H. destruct (between 0 127 x) eqn:E0.
  { apply between_true in E0. exists 0%nat. rewrite drop_0. unfold lossy_step. cbn [lookup list_lookup default from_option id].
    rewrite (proj2 (Z.ltb_lt x 128)) by lia. split_and!; [done|lia|done]. }
  destruct s as [|c s2]; [done|].
  assert (Hx : 128 <= x -> (x <? 128) = false) by (intros; apply Z.ltb_ge; lia).
  destruct (between 194 223 x) eqn:E1.
  { to_prop. exists 1%nat. unfold lossy_step. cbn [lookup list_lookup default from_option id].
    rewrite E1, Hx, cont_byte by (done || (apply between_true in E1; lia)). split_and!; [done|cbn; lia|done]. }
  destruct s2 as [|d s3]; [done|]. destruct (between 224 239 x) eqn:E2.
  { to_prop. exists 2%nat. unfold lossy_step. cbn [lookup list_lookup default from_option id].
    rewrite E1, E2, Hx, cont_byte by (done || (apply between_true in E2; lia)).
    assert (negb ((x =? 224) && between 160 191 c || between 225 236 x && between 128 191 c
      || (x =? 237) && between 128 159 c || between 238 239 x && between 128 191 c) = false) as ->;
      [|split_and!; [done|cbn; lia|done]].
    apply between_true in E2. destruct (Z.eqb_spec x 224); [by rewrite H|].
    destruct (Z.eqb_spec x 237); [rewrite H; cbn; by rewrite orb_true_r|].
    rewrite H. unfold between. destruct (Z.leb_spec 225 x), (Z.leb_spec x 236), (Z.leb_spec 238 x); try lia.
    all: rewrite ?(proj2 (Z.leb_le x 239)) by lia; cbn; by rewrite ?orb_true_r. }
  destruct s3 as [|e s4]; [done|]. to_prop. exists 3%nat. unfold lossy_step.
  cbn [lookup list_lookup default from_option id].
  rewrite E1, E2, H, Hx, !cont_byte by (done || (apply between_true in H; lia)).
  assert (negb ((x =? 240) && between 144 191 c || between 241 243 x && between 128 191 c
    || (x =? 244) && between 128 143 c) = false) as ->; [|split_and!; [done|cbn; lia|done]].
  apply between_true in H. destruct (Z.eqb_spec x 240); [by rewrite H3|].
  destruct (Z.eqb_spec x 244); [rewrite H3; cbn; by rewrite orb_true_r|].
  rewrite H3. unfold between. rewrite (proj2 (Z.leb_le 241 x)), (proj2 (Z.leb_le x 243)) by lia.
  cbn. by rewrite ?orb_true_r.
Qed.

Lemma lossy_valid s : utf8_valid s = true -> from_utf8_lossy s = s.
Proof.
  unfold from_utf8_lossy. assert (H : forall f t, (length t <= f)%nat -> utf8_valid t = true -> lossy f t = t).
  { induction f as [|f IH]; intros [|x t] Hl Hv; [done|cbn in Hl; lia|done|]. cbn [lossy].
    destruct (lossy_step_valid x t Hv) as (n & -> & Hn & Hd). cbn [take drop app].
    rewrite IH; [by rewrite take_drop|rewrite length_drop; cbn in Hl; lia|done]. }
  by apply H.
Qed.

Lemma lossy_step_pos s : exists n, (lossy_step s).1 = S n.
Proof.
  unfold lossy_step. cbv zeta. repeat match goal with |- context [if ?c then _ else _] => destruct c end; by eexists.
Qed.

(** The length of the text is fuel enough. *)
Lemma lossy_fuel f s : (length s <= f)%nat -> lossy f s = from_utf8_lossy s.
Proof.
  intros Hf. unfold from_utf8_lossy.
  assert (H : forall f g t, (length t <= f)%nat -> (length t <= g)%nat -> lossy f t = lossy g t).
  { clear. induction f as [|f IH]; intros [|g] [|x t] H1 H2; cbn in H1, H2; try lia; try done.
    cbn [lossy]. destruct (lossy_step_pos (x :: t)) as [n En].
    destruct (lossy_step (x :: t)) as [k ok]. cbn in En. subst k. f_equal.
    apply IH; rewrite length_drop; cbn; lia. }
  by apply H.
Qed.

(** ** Response framing *)

Definition find_body (s : bytes) : option bytes :=
  (fun i => drop (i + 4) s) <$> find_sub (CRLF ++ CRLF) s.

Lemma find_body_skip x s : x <> 13 -> find_body (x :: s) = find_body s.
Proof.
  intros Hx. unfold find_body, CRLF. cbn [app find_sub starts_with].
  rewrite (proj2 (Z.eqb_neq 13 x)) by done. cbn [andb]. by destruct (find_sub _ s).
Qed.

Lemma find_body_text l s : 13 ∉ l -> find_body (l ++ s) = find_body s.
Proof.
  induction l as [|x l IH]; intros H; [done|]. apply not_elem_of_cons in H as [Hx Hl].
  cbn [app]. rewrite find_body_skip by congruence. by apply IH.
Qed.

Lemma find_body_line x s : x <> 13 -> find_body (CRLF ++ x :: s) = find_body (x :: s).
Proof.
  intros Hx. rewrite <- (find_body_skip 10 (x :: s)) by done. unfold find_body, CRLF. cbn [app].
  cbn [find_sub starts_with]. rewrite (proj2 (Z.eqb_neq 13 x)) by done.
  cbn [andb]. rewrite !Z.eqb_refl. cbn [andb]. by destruct (find_sub _ s).
Qed.

Lemma find_body_end body : find_body (CRLF ++ CRLF ++ body) = Some body.
Proof. done. Qed.

Definition block (ls : list bytes) : bytes := flat_map (fun l => l ++ CRLF) ls.

Lemma find_body_block ls l body :
  Forall (fun l => l <> [] /\ 13 ∉ l) (l :: ls) -> find_body (block (l :: ls) ++ CRLF ++ body) = Some body.
Proof.
  revert l. induction ls as [|k ls IH]; intros l H; apply Forall_cons in H as [[Hne Hl] H].
  - unfold block. cbn [flat_map]. rewrite app_nil_r, <- !app_assoc, find_body_text by done. apply find_body_end.
  - unfold block in *. cbn [flat_map] in *. rewrite <- !app_assoc, find_body_text by done.
    specialize (IH k H). apply Forall_cons in H as [[Hk Hk13] _].
    destruct k as [|x k]; [done|]. cbn [app] in *. rewrite find_body_line.
    + rewrite <- !app_assoc in IH. exact IH.
    + intros ->. by destruct Hk13; left.
Qed.

Definition response_lines (code : Z) (ctype body : bytes) : list bytes :=
  [ lit "HTTP/1.1 " ++ status_text code; lit "Content-Type: " ++ ctype;
    lit "Content-Length: " ++ dec (zlen body); lit "Cache-Control: no-store"; lit "Connection: close" ].

Lemma write_resp_block code ctype body :
  write_resp code ctype body = block (response_lines code ctype body) ++ CRLF ++ body.
Proof. unfold write_resp, block, response_lines. cbn [flat_map]. by rewrite app_nil_r, <- !app_assoc. Qed.

Lemma not_in_lit13 s : bool_decide (13 ∉ lit s) = true -> 13 ∉ lit s.
Proof. apply bool_decide_eq_true. Qed.

Lemma not_in_app13 (a c : bytes) : 13 ∉ a -> 13 ∉ c -> 13 ∉ a ++ c.
Proof. intros Ha Hc [|]%elem_of_app; done. Qed.

Lemma response_body code ctype body : 13 ∉ ctype -> is_u 64 (zlen body) ->
  http_response_body (write_resp code ctype body) = body.
Proof.
  intros Hct Hlen.
  assert (F : find_body (write_resp code ctype body) = Some body).
    { rewrite write_resp_block. apply find_body_block. destruct (dec_spec _ Hlen) as (_ & _ & _ & D).
      repeat (apply Forall_cons; split; [split; [done|]|]); [..|by apply Forall_nil].
      all: try apply not_in_app13; try (apply not_in_lit13; by vm_compute); try done.
      - unfold status_text. repeat split_if; apply not_in_lit13; by vm_compute.
      - by apply (digits_no_sep 13). }
    unfold find_body in F. unfold http_response_body.
    destruct (find_sub _ _) as [i|]; [by injection F|done].
Qed.

(** The shell's own client reads what the shell's server writes: the body
    of a response is found behind its headers, whatever the body holds (its
    own blank lines included), as long as the content type holds no carriage
    return; a well-formed UTF-8 response is decoded unchanged; and the
    announced length is the body's. *)
Theorem response_roundtrip code ctype body :
  13 ∉ ctype -> is_u 64 (zlen body) ->
  http_response_body (write_resp code ctype body) = body /\
  (utf8_valid (write_resp code ctype body) = true ->
     http_answer (write_resp code ctype body) = Some body) /\
  exists a r, write_resp code ctype body = a ++ lit "Content-Length: " ++ dec (zlen body) ++ CRLF ++ r
    /\ parse_u64 (dec (zlen body)) = Some (zlen body).
Proof.
  intros Hct Hlen.
  assert (E : http_response_body (write_resp code ctype body) = body) by (by apply response_body).
  split_and!; [done| |].
  - intros Hv. unfold http_answer. rewrite lossy_valid by done.
    assert (zlen (write_resp code ctype body) =? 0 = false) as ->; [|by f_equal].
    apply Z.eqb_neq. unfold write_resp. rewrite zlen_app.
    pose proof (zlen_nonneg (status_text code ++ CRLF ++ lit "Content-Type: " ++ ctype ++ CRLF ++
      lit "Content-Length: " ++ dec (zlen body) ++ CRLF ++ lit "Cache-Control: no-store" ++ CRLF ++
      lit "Connection: close" ++ CRLF ++ CRLF ++ body)).
    change (zlen (lit "HTTP/1.1 ")) with 9. lia.
  - exists (lit "HTTP/1.1 " ++ status_text code ++ CRLF ++ lit "Content-Type: " ++ ctype ++ CRLF).
    eexists. unfold write_resp. rewrite <- !app_assoc. split; [reflexivity|]. by apply parse_dec.
Qed.

Lemma response_roundtrip_witness :
  http_answer (write_resp 200 (lit "text/plain") (lit "a" ++ CRLF ++ CRLF ++ lit "b")) =
    Some (lit "a" ++ CRLF ++ CRLF ++ lit "b").
Proof.
  apply (response_roundtrip 200 (lit "text/plain") (lit "a" ++ CRLF ++ CRLF ++ lit "b")).
  - apply (bool_decide_unpack _). by vm_compute.
  - by vm_compute.
  - by vm_compute.
Defined.

(** ** Trimming *)

Lemma trim_with_clean ws skip s : ws [] = 0%nat -> ws (trim_with ws skip s) = 0%nat.
Proof.
  intros Hw. revert skip. induction s as [|x s IH]; intros [|k]; cbn [trim_with]; [done..| |apply IH].
  destruct (ws (x :: s)) eqn:E; [done|apply IH].
Qed.

Lemma trim_with_suffix ws skip s : exists pre, s = pre ++ trim_with ws skip s.
Proof.
  revert skip. induction s as [|x s IH]; intros [|k]; cbn [trim_with]; [by exists []..| |].
  - destruct (ws (x :: s)) as [|n]; [by exists []|]. destruct (IH n) as [pre E].
    exists (x :: pre). cbn. by f_equal.
  - destruct (IH k) as [pre E]. exists (x :: pre). cbn. by f_equal.
Qed.

Lemma ws_len_prefix a c : ws_len (a ++ c) = 0%nat -> ws_len a = 0%nat.
Proof.
  destruct a as [|x [|y [|z a]]]; cbn; [done|..]; destruct (ws1 x); try done.
  by destruct (ws2 x y).
Qed.

(** Text with no white space at either end. *)
Definition trimmed (s : bytes) : Prop := ws_len s = 0%nat /\ ws_len_rev (rev s) = 0%nat.

Lemma trim_spec s : trimmed (trim s) /\ exists a c, s = a ++ trim s ++ c.
Proof.
  destruct (trim_with_suffix ws_len 0 s) as [a Ea].
  destruct (trim_with_suffix ws_len_rev 0 (rev (trim_start s))) as [c Ec].
  assert (E : trim_start s = trim s ++ rev c).
  { unfold trim, trim_end. apply (f_equal (@rev Z)) in Ec. by rewrite rev_involutive, rev_app_distr in Ec. }
  split.
  - split.
    + apply (ws_len_prefix _ (rev c)). rewrite <- E. by apply trim_with_clean.
    + unfold trim, trim_end. rewrite rev_involutive. by apply trim_with_clean.
  - exists a, (rev c). by rewrite <- E.
Qed.

(** The seat identity: a non-blank environment value wins, trimmed, and
    no file is touched; otherwise one file at most is read, the named one
    under the home directory, and its trimmed content is used when it is not
    blank; the default otherwise. With a proper default the identity is
    never blank and has no white space at its ends. *)
Theorem resolve_ident_spec env_value home file dflt read_file :
  let '(r, paths) := resolve_ident env_value home file dflt read_file in
  (forall v, env_value = Some v -> trim v <> [] -> r = trim v /\ paths = []) /\
  (paths = [] \/ exists h, home = Some h /\ h <> [] /\ paths = [h ++ lit "/.asolaria/" ++ file]) /\
  (r = dflt \/ (exists v, env_value = Some v /\ r = trim v) \/
     exists p s, paths = [p] /\ read_file p = Some s /\ r = trim s) /\
  (trimmed dflt -> dflt <> [] -> trimmed r /\ r <> []).
Proof.
  assert (Hz : forall s : bytes, negb (zlen s =? 0) = bool_decide (s <> [])).
  { intros [|x s]; [done|]. rewrite zlen_cons. pose proof (zlen_nonneg s).
    by rewrite (proj2 (Z.eqb_neq _ _)) by lia. }
  unfold resolve_ident. cbv zeta.
  set (F := match home with Some _ => _ | None => _ end).
  assert (HF : let '(r, paths) := F in
    (paths = [] \/ exists h, home = Some h /\ h <> [] /\ paths = [h ++ lit "/.asolaria/" ++ file]) /\
    (r = dflt \/ exists p s, paths = [p] /\ read_file p = Some s /\ r = trim s /\ r <> [])).
  { subst F. destruct home as [h|]; [|by auto]. rewrite Hz. case_bool_decide as Hh; [|by auto].
    destruct (read_file _) as [s|] eqn:E; [|naive_solver]. rewrite Hz.
    case_bool_decide; (split; [right; by exists h|]); [right|by left].
    eexists _, s. split_and!; [done|exact E|done..]. }
  destruct env_value as [v|]; [rewrite Hz; case_bool_decide as Hv|].
  - split_and!; [by intros ? [= ->]|by left|right; left; by exists v|].
    intros _ _. split; [apply trim_spec|done].
  - destruct F as [r paths]. destruct HF as [H1 H2].
    split_and!; [by intros ? [= ->] ?|done|naive_solver|].
    intros Hd Hn. destruct H2 as [->|(p & s & _ & _ & -> & H2)]; [done|]. split; [apply trim_spec|done].
  - destruct F as [r paths]. destruct HF as [H1 H2].
    split_and!; [done|done|naive_solver|].
    intros Hd Hn. destruct H2 as [->|(p & s & _ & _ & -> & H2)]; [done|]. split; [apply trim_spec|done].
Qed.

(** ** The status block *)

Definition clean (s : bytes) : Prop := 124 ∉ s /\ 10 ∉ s.

Lemma not_in_drop c n (s : bytes) : c ∉ s -> c ∉ drop n s.
Proof. intros H Hin. apply H. rewrite <- (take_drop n s). apply elem_of_app. by right. Qed.

Lemma strip_prefix_not_in c p s v : c ∉ s -> strip_prefix p s = Some v -> c ∉ v.
Proof. unfold strip_prefix. intros H. destruct (starts_with p s); [|done]. intros [= <-]. by apply not_in_drop. Qed.

Lemma split_on_sub c d s : d ∉ s -> Forall (fun p => d ∉ p) (split_on c s).
Proof.
  induction s as [|x s IH]; intros H; cbn [split_on].
  { constructor; [apply not_elem_of_nil|done]. }
  apply not_elem_of_cons in H as [Hx H]. specialize (IH H).
  destruct (x =? c); [constructor; [apply not_elem_of_nil|done]|].
  destruct (split_on c s) as [|p ps]; [constructor; [|done]|apply Forall_cons in IH as [? ?]; constructor; [|done]].
  all: rewrite not_elem_of_cons; split; [done|]; by try apply not_elem_of_nil.
Qed.

Lemma drop_cr_not_in c l : c ∉ l -> c ∉ drop_cr l.
Proof.
  intros H. unfold drop_cr. destruct (rev l) as [|x r] eqn:E; [done|].
  destruct (x =? 13); [|done]. intros Hin. apply H.
  rewrite <- (rev_involutive l), E. cbn [rev]. apply elem_of_app. by left.
Qed.

Lemma lines_not_in s : Forall (fun l => 10 ∉ l) (lines s).
Proof.
  unfold lines. generalize (split_on_no_sep 10 s). generalize (split_on 10 s).
  induction l as [|p ps IH]; intros H; [constructor|]. apply Forall_cons in H as [Hp H].
  destruct ps as [|q ps]; cbn [lines_of]; [destruct p; cbn; by repeat constructor|].
  constructor; [by apply drop_cr_not_in|by apply IH].
Qed.

Lemma kernel_fields_clean fs st : Forall clean fs -> clean st.1 -> clean st.2 ->
  clean (fold_left kernel_field fs st).1 /\ clean (fold_left kernel_field fs st).2.
Proof.
  intros Hf. revert st. induction Hf as [|f fs [H1 H2] _ IH]; intros st Hs Hs'; [done|].
  cbn [fold_left]. unfold kernel_field at 2 4.
  destruct (strip_prefix (lit "version=") f) as [v|] eqn:E1,
    (strip_prefix (lit "anchor_pid=") f) as [w|] eqn:E2; apply IH; cbn [fst snd]; try done.
  all: split; by eapply strip_prefix_not_in.
Qed.

Lemma kernel_lines_clean ls st : Forall (fun l => 10 ∉ l) ls -> clean st.1 -> clean st.2 ->
  clean (fold_left kernel_line ls st).1 /\ clean (fold_left kernel_line ls st).2.
Proof.
  intros Hl. revert st. induction Hl as [|l ls H _ IH]; intros st Hs Hs'; [done|].
  cbn [fold_left]. unfold kernel_line at 2 4.
  destruct (strip_prefix (lit "HOST8KERNEL|") l) as [r|] eqn:E; [|by apply IH].
  assert (Forall clean (split_on 124 r)) as Hc.
  { apply strip_prefix_not_in with (c := 10) in E; [|done].
    pose proof (split_on_no_sep 124 r) as A. pose proof (split_on_sub 124 10 r E) as B.
    rewrite Forall_forall in *. intros p Hp. split; auto. }
  destruct (kernel_fields_clean _ st Hc Hs Hs'). by apply IH.
Qed.

Lemma take_digits_digits s : all_digits (take_digits s).
Proof.
  induction s as [|c s IH]; [done|]. cbn [take_digits]. destruct (is_ascii_digit c) eqn:E; [|done].
  unfold all_digits in *. cbn [forallb]. by rewrite E.
Qed.

Lemma inbox_clean bus : inbox_of bus = lit "-" \/ all_digits (inbox_of bus).
Proof.
  unfold inbox_of. destruct (find_sub _ _); [|by left]. destruct (negb _); [right; apply take_digits_digits|by left].
Qed.

Lemma clean_lit s : bool_decide (124 ∉ lit s /\ 10 ∉ lit s) = true -> clean (lit s).
Proof. apply bool_decide_eq_true. Qed.

Lemma clean_app a c : clean a -> clean c -> clean (a ++ c).
Proof. unfold clean. rewrite !not_elem_of_app. tauto. Qed.

Lemma clean_digits s : all_digits s -> clean s.
Proof. intros H. split; by apply (digits_no_sep _ s). Qed.

Lemma clean_dec n : is_u 64 n -> clean (dec n).
Proof. intros Hn. apply clean_digits. by destruct (dec_spec n Hn) as (_ & _ & _ & ?). Qed.

(** The fields the block is meant to carry, line by line. *)
Definition status_fields (ts seat ku kver kanchor ru bu inbox port fu : bytes) : list (list bytes) :=
  [ [lit "ASIOSLIVE"; lit "ts_unix=" ++ ts; lit "seat=" ++ seat];
    [lit "KERNEL"; lit "port=5088"; lit "up=" ++ ku; lit "version=" ++ kver; lit "anchor=" ++ kanchor];
    [lit "RECALL"; lit "port=4796"; lit "up=" ++ ru; lit "role=local-inverted-index-vault"];
    [lit "BUS"; lit "port=4947"; lit "up=" ++ bu; lit "inbox_depth=" ++ inbox];
    [lit "FABRIC"; lit "port=" ++ port; lit "up=" ++ fu; lit "role=super-dashboard"];
    [lit "SOVLINUX"; lit "role=local-sovereignty-vault"; lit "present=unprobed";
     lit "evidence=UNVERIFIED"; lit "gate=operator-witness"] ].

Lemma fields_split fs :
  Forall (Forall clean) fs -> Forall (fun l => l <> []) fs ->
  map (split_on 124) (split_on 10 (join_with 10 (map (join_with 124) fs ++ [[]]))) = fs ++ [[[]]].
Proof.
  intros Hc Hne. rewrite split_join.
  - rewrite map_app, map_map. f_equal. rewrite <- (map_id fs) at 2. apply map_ext_in.
    intros l Hl%list_elem_of_In. rewrite Forall_forall in Hc, Hne. apply split_join; [by apply Hne|].
    eapply Forall_impl; [by apply Hc|]. by intros x [? _].
  - by destruct (map (join_with 124) fs).
  - apply Forall_app. split; [|repeat constructor; apply not_elem_of_nil]. apply Forall_map.
    eapply Forall_impl; [exact Hc|]. intros l Hl. induction Hl as [|x l [Hx Hx'] Hl IH]; [apply not_elem_of_nil|].
    destruct l as [|y l]; [done|]. cbn [join_with]. rewrite not_elem_of_app, not_elem_of_cons.
    split_and!; [done|done|exact IH].
Qed.

(** The status block cannot be forged by the probed services: whatever
    they answer, as long as the seat name holds no bar and no line break the
    block reads back as its six lines with their fixed fields; the version
    and anchor are single fields, the inbox depth is a number or a dash, a
    service is up exactly when its probe has an answer (the kernel and the
    bus a non-empty one), and what a silent one would tell is a dash. *)
Theorem status_block_fields http_get seat host now :
  clean seat -> is_u 64 now ->
  let up p path := dec (b (is_some (http_get p path))) in
  let said p path := dec (b (negb (zlen (default [] (http_get p path)) =? 0))) in
  let port := fabric_port_for_context seat host in
  exists kver kanchor inbox,
    map (split_on 124) (split_on 10 (live_status http_get seat host now)) =
      status_fields (dec now) seat (said 5088 (lit "/health.hbp")) kver kanchor (up 4796 (lit "/api/health"))
        (said 4947 (lit "/behcs/health")) inbox (dec port) (up port (lit "/health")) ++ [[[]]] /\
    (inbox = lit "-" \/ all_digits inbox) /\ (port = 4944 \/ port = 4949) /\
    (http_get 5088 (lit "/health.hbp") = None -> kver = lit "-" /\ kanchor = lit "-") /\
    (http_get 4947 (lit "/behcs/health") = None -> inbox = lit "-").
Proof.
  intros Hseat Hnow up said port. unfold live_status, up, said.
  set (kernel := default [] (http_get 5088 _)). set (bus := default [] (http_get 4947 _)).
  fold port.
  pose proof (kernel_lines_clean (lines kernel) (lit "-", lit "-") (lines_not_in _)
    ltac:(by apply clean_lit) ltac:(by apply clean_lit)) as [Hv Ha].
  destruct (fold_left kernel_line (lines kernel) _) as [kver kanchor] eqn:Ek. cbn [fst snd] in Hv, Ha.
  set (ku := dec (b (negb (zlen kernel =? 0)))). set (ru := dec (b (is_some (http_get 4796 _)))).
  set (bu := dec (b (negb (zlen bus =? 0)))). set (fu := dec (b (is_some (http_get port _)))).
  assert (Hb : forall v, clean (dec (b v))) by (intros []; apply clean_dec; by vm_compute).
  assert (Hport : dec port = lit "4944" \/ dec port = lit "4949").
  { unfold port, fabric_port_for_context. destruct (_ || _); [by left|by right]. }
  exists kver, kanchor, (inbox_of bus). split_and!.
  - rewrite <- fields_split.
    + f_equal. f_equal. unfold status_fields. cbn [map app join_with].
      clearbody ku ru bu fu. generalize (dec now), (dec port), (inbox_of bus). intros.
      cbn [lit app]. repeat first [rewrite <- app_assoc | progress cbn [app]]. reflexivity.
    + pose proof (inbox_clean bus) as Hi.
      assert (clean (inbox_of bus)) by (destruct Hi as [->|]; [by apply clean_lit|by apply clean_digits]).
      assert (clean (dec port)) by (destruct Hport as [->| ->]; by apply clean_lit).
      unfold status_fields. repeat (apply Forall_cons; split); try by apply Forall_nil.
      all: repeat apply clean_app; first [by apply clean_lit | done | by apply Hb | by apply clean_dec].
    + by repeat constructor.
  - apply inbox_clean.
  - unfold port, fabric_port_for_context. destruct (_ || _); auto.
  - intros Hnone. unfold kernel in Ek. rewrite Hnone in Ek. cbn in Ek. by injection Ek as <- <-.
  - intros Hnone. unfold bus. by rewrite Hnone.
Qed.

Lemma status_block_fields_witness :
  exists kver kanchor inbox,
    map (split_on 124) (split_on 10 (live_status (fun _ _ => None) (lit "NODE") None 7)) =
      status_fields (dec 7) (lit "NODE") (lit "0") kver kanchor (lit "0") (lit "0") inbox (lit "4949") (lit "0")
        ++ [[[]]] /\ kver = lit "-".
Proof.
  destruct (status_block_fields (fun _ _ => None) (lit "NODE") None 7) as (kver & kanchor & inbox & H & _ & _ & D & _).
  - by apply clean_lit.
  - by vm_compute.
  - exists kver, kanchor, inbox. split; [exact H|]. by apply D.
Defined.
