(* ===== verification/AtlasGen.v ===== *)
(** * The atlas generator ([kernel/core/build.rs])

    The build script that turns the atlas file into three generated lookup
    functions: the parsing of the atlas rows, the emitted source text, and a
    reader of that text as the compiler sees it, which relates the generated
    functions to the hand-written tables of [Atlas.v]. *)

From S2P Require Import Prelude Utf8 SurfaceText Atlas.

Import SurfaceText.

#[local] Open Scope Z_scope.

Module AtlasGen.

Definition hbp_path : bytes := lit "C:/HyperBEHCS/store/atlas-canonical-1024.hbp".

Record Row := mkRow { cp : Z; domain : bytes; supervisor : bytes; lane : bytes }.

(** [str::parse] at [u16]. *)
Definition parse_u16 (s : bytes) : option Z :=
  match parse_u64 s with
  | Some n => if n <=? 65535 then Some n else None
  | None => None
  end.

(** One round of the loop over [line.split('|')]. *)
Definition field (r : Row) (part : bytes) : Row :=
  match find_sub (lit "=") part with
  | None => r
  | Some eq =>
      let key := take eq part in
      let val := drop (eq + 1) part in
      if bytes_eqb key (lit "cp") then mkRow (default 0 (parse_u16 val)) (domain r) (supervisor r) (lane r)
      else if bytes_eqb key (lit "domain") then mkRow (cp r) val (supervisor r) (lane r)
      else if bytes_eqb key (lit "supervisor") then mkRow (cp r) (domain r) val (lane r)
      else if bytes_eqb key (lit "lane") then mkRow (cp r) (domain r) (supervisor r) val
      else r
  end.

Definition parse_row (line : bytes) : Row := fold_left field (split_on 124 line) (mkRow 0 [] [] []).

Definition is_row (line : bytes) : bool := starts_with (lit "HATLASCP|") line.

Definition parse_rows (content : bytes) : list Row :=
  map parse_row (filter (fun l => is_row l = true) (lines content)).

(** *** The emitted text; [nl] and [quote] are the escapes of the literals *)

Definition nl : bytes := [10].
Definition quote : bytes := [34].

Definition arm (c : Z) (s : bytes) : bytes :=
  lit "        " ++ dec c ++ lit " => Some(" ++ quote ++ s ++ quote ++ lit ")," ++ nl.

Definition table_head (name : bytes) : bytes :=
  lit "pub const fn " ++ name ++ lit "_for_cp_generated(cp: u16) -> Option<&'static str> {" ++ nl ++
  lit "    match cp {" ++ nl.

Definition table_default : bytes := lit "        _ => None," ++ nl.

Definition table_tail : bytes := lit "    }" ++ nl ++ lit "}" ++ nl.

Definition table (name : bytes) (f : Row -> bytes) (rows : list Row) : bytes :=
  table_head name ++ flat_map (fun r => arm (cp r) (f r)) rows ++ table_default ++ table_tail.

Definition preamble : bytes :=
  lit "// AUTO-GENERATED by build.rs from atlas-canonical-1024.hbp; do not edit by hand." ++ nl ++ nl ++
  lit "pub const ATLAS_CP_COUNT_FROM_HBP: u16 = ".

Definition generated (rows : list Row) : bytes :=
  preamble ++ dec (zlen rows) ++ lit ";" ++ nl ++ nl ++
  table (lit "domain") domain rows ++ nl ++
  table (lit "supervisor") supervisor rows ++ nl ++
  table (lit "lane") lane rows.

(** What the script prints and the file it writes: [hbp] is what
    [fs::read_to_string] returns, [out_dir] the variable [OUT_DIR], and
    [write] tells whether [fs::write] succeeds. *)
Definition main (hbp out_dir : option bytes) (write : bytes -> bytes -> bool) :
    comp unit (list bytes * option (bytes * bytes)) :=
  let rerun := lit "cargo:rerun-if-changed=" ++ hbp_path in
  match hbp with
  | None => CRet ([rerun; lit "cargo:warning=atlas-canonical-1024.hbp not found; skipping codegen"], None)
  | Some content =>
      let out := generated (parse_rows content) in
      match out_dir with
      | None => CPanic
      | Some dir => if write dir out then CRet ([rerun], Some (dir, out)) else CPanic
      end
  end.

End AtlasGen.

Import AtlasGen.

(** ** The generated functions, read back from the text *)

(** A string literal up to its closing quote; an escape is not read. *)
Fixpoint read_string (s : bytes) : option (bytes * bytes) :=
  match s with
  | [] => None
  | c :: s' =>
      if c =? 34 then Some ([], s')
      else if c =? 92 then None
      else '(v, rest) ← read_string s'; Some (c :: v, rest)
  end.

Definition expect (p s : bytes) : option bytes := strip_prefix p s.

Definition read_number (s : bytes) : option (Z * bytes) :=
  let ds := take_digits s in
  if zlen ds =? 0 then None else Some (dec_value ds, drop (length ds) s).

(** A literal of type [u16]: the compiler refuses one out of range. *)
Definition read_u16 (s : bytes) : option (Z * bytes) :=
  '(n, s) ← read_number s;
  if n <=? 65535 then Some (n, s) else None.

(** Match arms up to the wildcard; each takes a byte at least. *)
Fixpoint read_arms (fuel : nat) (s : bytes) : option (list (Z * bytes) * bytes) :=
  match fuel with
  | O => None
  | S f =>
      match expect table_default s with
      | Some rest => Some ([], rest)
      | None =>
          s ← expect (lit "        ") s;
          '(c, s) ← read_u16 s;
          s ← expect (lit " => Some(" ++ quote) s;
          '(v, s) ← read_string s;
          s ← expect (lit ")," ++ nl) s;
          '(arms, rest) ← read_arms f s;
          Some ((c, v) :: arms, rest)
      end
  end.

Definition read_table (name : bytes) (s : bytes) : option (list (Z * bytes) * bytes) :=
  s ← expect (table_head name) s;
  '(arms, s) ← read_arms (S (length s)) s;
  s ← expect table_tail s;
  Some (arms, s).

Record Tables := mkTables {
  count : Z; domains : list (Z * bytes); supervisors : list (Z * bytes); lanes : list (Z * bytes)
}.

Definition read_generated (s : bytes) : option Tables :=
  s ← expect preamble s;
  '(n, s) ← read_u16 s;
  s ← expect (lit ";" ++ nl ++ nl) s;
  '(ds, s) ← read_table (lit "domain") s;
  s ← expect nl s;
  '(ss, s) ← read_table (lit "supervisor") s;
  s ← expect nl s;
  '(ls, s) ← read_table (lit "lane") s;
  if zlen s =? 0 then Some (mkTables n ds ss ls) else None.

(** A [match] takes the first arm that fits. *)
Definition call (arms : list (Z * bytes)) (c : Z) : option bytes := snd <$> List.find (fun a => a.1 =? c) arms.

(** ** Reading back what is emitted *)

Definition plain (s : bytes) : Prop := Forall (fun b => b <> 34 /\ b <> 92) s.

Definition row_plain (r : Row) : Prop :=
  is_u 16 (cp r) /\ plain (domain r) /\ plain (supervisor r) /\ plain (lane r).

Lemma expect_app p s : expect p (p ++ s) = Some s.
Proof. unfold expect, strip_prefix. by rewrite starts_with_app, drop_app_length. Qed.

Lemma read_string_plain v s : plain v -> read_string (v ++ quote ++ s) = Some (v, s).
Proof.
  induction 1 as [|c v [H1 H2] _ IH]; [done|]. cbn [app read_string].
  rewrite (proj2 (Z.eqb_neq c 34)), (proj2 (Z.eqb_neq c 92)) by done. by rewrite IH.
Qed.

Lemma take_digits_app ds c s : forallb is_ascii_digit ds = true -> is_ascii_digit c = false ->
  take_digits (ds ++ c :: s) = ds.
Proof.
  intros Hd Hc. induction ds as [|d ds IH]; cbn [app take_digits]; [by rewrite Hc|].
  cbn [forallb] in Hd. apply andb_true_iff in Hd as [H1 H2]. rewrite H1. f_equal. by apply IH.
Qed.

Lemma read_number_dec n c s : is_u 64 n -> is_ascii_digit c = false ->
  read_number (dec n ++ c :: s) = Some (n, c :: s).
Proof.
  intros Hn Hc. destruct (dec_spec n Hn) as (V & Ne & _ & D).
  unfold read_number. rewrite take_digits_app by done.
  destruct (Z.eqb_spec (zlen (dec n)) 0) as [E|_]; [by apply zlen_zero_nil in E|].
  by rewrite V, drop_app_length.
Qed.

Lemma is_u_16_64 z : is_u 16 z -> is_u 64 z.
Proof. unfold is_u. lia. Qed.

Lemma read_u16_dec n c s : is_u 64 n -> is_ascii_digit c = false ->
  read_u16 (dec n ++ c :: s) = if n <=? 65535 then Some (n, c :: s) else None.
Proof. intros Hn Hc. unfold read_u16. by rewrite read_number_dec. Qed.

Lemma read_u16_in n c s : is_u 16 n -> is_ascii_digit c = false ->
  read_u16 (dec n ++ c :: s) = Some (n, c :: s).
Proof.
  intros Hn Hc. rewrite read_u16_dec by (done || by apply is_u_16_64). unfold is_u in Hn.
  by rewrite (proj2 (Z.leb_le n 65535)) by lia.
Qed.

(** An arm does not look like the wildcard: a digit follows the indent. *)
Lemma arm_not_default n s : is_u 64 n -> expect table_default (lit "        " ++ dec n ++ s) = None.
Proof.
  intros Hn. destruct (dec_spec n Hn) as (_ & Ne & _ & D). destruct (dec n) as [|d ds]; [done|].
  cbn [forallb] in D. apply andb_true_iff in D as [D _]. unfold is_ascii_digit in D. to_prop.
  unfold expect, strip_prefix. destruct (starts_with _ _) eqn:E; [|done].
  apply starts_with_spec in E as [r E]. apply (f_equal (lookup 8%nat)) in E. cbn in E. injection E as E. vm_compute in E. lia.
Qed.

Definition emitted (f : Row -> bytes) (rows : list Row) : list (Z * bytes) := map (fun r => (cp r, f r)) rows.

Lemma read_arms_emitted f rows s fuel :
  Forall (fun r => is_u 16 (cp r) /\ plain (f r)) rows -> (length rows < fuel)%nat ->
  read_arms fuel (flat_map (fun r => arm (cp r) (f r)) rows ++ table_default ++ s) = Some (emitted f rows, s).
Proof.
  intros H. revert fuel. induction H as [|r rows [Hc Hp] _ IH]; intros [|fuel] Hf; cbn in Hf; try lia.
  { cbn [flat_map app]. cbn [read_arms]. by rewrite expect_app. }
  cbn [flat_map emitted map]. unfold arm. rewrite <- !app_assoc. cbn [read_arms].
  rewrite arm_not_default by (by apply is_u_16_64). rewrite expect_app. cbn [mbind option_bind].
  change (lit " => Some(" ++ ?x) with (32 :: lit "=> Some(" ++ x).
  rewrite read_u16_in by done. cbn [mbind option_bind].
  change (32 :: lit "=> Some(" ++ quote ++ ?x) with ((lit " => Some(" ++ quote) ++ x).
  rewrite expect_app. cbn [mbind option_bind]. rewrite read_string_plain by done. cbn [mbind option_bind].
  rewrite (app_assoc (lit "),")), expect_app. cbn [mbind option_bind]. by rewrite IH by lia.
Qed.

Lemma arms_length f rows s :
  (length rows < S (length (flat_map (fun r => arm (cp r) (f r)) rows ++ s)))%nat.
Proof.
  induction rows as [|r rows IH]; cbn [flat_map length]; [lia|].
  assert (1 <= length (arm (cp r) (f r)))%nat by (unfold arm; rewrite length_app; cbn; lia).
  rewrite !length_app in *. lia.
Qed.

Lemma read_table_emitted name f rows s :
  Forall (fun r => is_u 16 (cp r) /\ plain (f r)) rows ->
  read_table name (table name f rows ++ s) = Some (emitted f rows, s).
Proof.
  intros H. unfold read_table, table. rewrite <- !app_assoc, expect_app. cbn [mbind option_bind].
  rewrite read_arms_emitted by (done || apply arms_length). cbn [mbind option_bind].
  by rewrite expect_app.
Qed.

(** The three functions of the generated file are the columns of the rows;
    the compiler takes the file when their number is a [u16]. *)
Lemma generated_reads_back rows : Forall row_plain rows -> zlen rows < 2 ^ 64 ->
  read_generated (generated rows) =
  if zlen rows <=? 65535
  then Some (mkTables (zlen rows) (emitted domain rows) (emitted supervisor rows) (emitted lane rows))
  else None.
Proof.
  intros H Hn. pose proof (zlen_nonneg rows). unfold read_generated, generated.
  rewrite expect_app. cbn [mbind option_bind].
  change (lit ";" ++ ?x) with (59 :: x). rewrite read_u16_dec by done.
  destruct (zlen rows <=? 65535); [|done]. cbn [mbind option_bind].
  change (59 :: nl ++ nl ++ ?x) with ((lit ";" ++ nl ++ nl) ++ x). rewrite expect_app. cbn [mbind option_bind].
  rewrite read_table_emitted by (eapply Forall_impl; [exact H|]; by intros r (? & ? & ? & ?)). cbn [mbind option_bind].
  rewrite expect_app. cbn [mbind option_bind].
  rewrite read_table_emitted by (eapply Forall_impl; [exact H|]; by intros r (? & ? & ? & ?)). cbn [mbind option_bind].
  rewrite expect_app. cbn [mbind option_bind].
  rewrite <- (app_nil_r (table (lit "lane") lane rows)).
  by rewrite read_table_emitted by (eapply Forall_impl; [exact H|]; by intros r (? & ? & ? & ?)).
Qed.

(** ** Atlas files *)

Definition row_line (r : Row) : bytes :=
  join_with 124 [lit "HATLASCP"; lit "cp=" ++ dec (cp r); lit "domain=" ++ domain r;
                 lit "supervisor=" ++ supervisor r; lit "lane=" ++ lane r].

Definition atlas_file (rows : list Row) : bytes := flat_map (fun r => row_line r ++ nl) rows.

(** A value that fits a row of the file and a literal of the output. *)
Definition name_ok (s : bytes) : Prop := plain s /\ (124 ∉ s) /\ (10 ∉ s) /\ (13 ∉ s).

Definition row_ok (r : Row) : Prop :=
  is_u 16 (cp r) /\ name_ok (domain r) /\ name_ok (supervisor r) /\ name_ok (lane r).

Lemma row_ok_plain r : row_ok r -> row_plain r.
Proof. by intros (Hc & [Hd _] & [Hs _] & [Hl _]). Qed.

Lemma digits_clean c n : is_u 64 n -> is_ascii_digit c = false -> (c ∉ dec n).
Proof. intros Hn Hc. apply digits_no_sep; [done|]. by destruct (dec_spec n Hn) as (_ & _ & _ & ?). Qed.

Lemma parse_u16_dec n : is_u 16 n -> parse_u16 (dec n) = Some n.
Proof.
  intros Hn. unfold parse_u16. rewrite parse_dec by (by apply is_u_16_64). unfold is_u in Hn.
  by rewrite (proj2 (Z.leb_le n 65535)) by lia.
Qed.

Lemma lit_lacks c s : bool_decide (c ∉ lit s) = true -> (c ∉ lit s).
Proof. apply bool_decide_eq_true. Qed.

Lemma parse_row_line r : row_ok r -> parse_row (row_line r) = r.
Proof.
  intros (Hc & (_ & Hd & _) & (_ & Hs & _) & (_ & Hl & _)). unfold parse_row, row_line.
  pose proof (digits_clean 124 (cp r) (is_u_16_64 _ Hc) eq_refl) as Hn.
  rewrite split_join; [|done|].
  - change (mkRow (default 0 (parse_u16 (dec (cp r)))) (domain r) (supervisor r) (lane r) = r).
    rewrite parse_u16_dec by done. by destruct r.
  - repeat constructor; rewrite ?not_elem_of_app; split_and?; try done; by apply lit_lacks.
Qed.

Lemma row_line_clean r : row_ok r -> (10 ∉ row_line r) /\ (13 ∉ row_line r).
Proof.
  intros (Hc & (_ & _ & Hd & Hd') & (_ & _ & Hs & Hs') & (_ & _ & Hl & Hl')). unfold row_line, join_with.
  pose proof (digits_clean 10 (cp r) (is_u_16_64 _ Hc) eq_refl).
  pose proof (digits_clean 13 (cp r) (is_u_16_64 _ Hc) eq_refl).
  rewrite !not_elem_of_app, !not_elem_of_cons, !not_elem_of_app, !not_elem_of_cons,
    !not_elem_of_app, !not_elem_of_cons, !not_elem_of_app, !not_elem_of_cons, !not_elem_of_app.
  split_and!; try done; by apply lit_lacks.
Qed.

Lemma drop_cr_clean l : (13 ∉ l) -> drop_cr l = l.
Proof.
  intros H. unfold drop_cr. destruct (rev l) as [|c r] eqn:E; [done|].
  destruct (Z.eqb_spec c 13) as [->|]; [|done]. exfalso. apply H.
  rewrite <- (rev_involutive l), E. cbn [rev]. apply elem_of_app. right. by left.
Qed.

Lemma lines_cons l s : (10 ∉ l) -> (13 ∉ l) -> lines (l ++ nl ++ s) = l :: lines s.
Proof.
  intros Hn Hr. unfold lines. change (nl ++ s) with (10 :: s). rewrite split_on_app by done.
  pose proof (split_on_nonempty 10 s). destruct (split_on 10 s) as [|p ps] eqn:E; [done|].
  cbn [lines_of]. by rewrite drop_cr_clean.
Qed.

Lemma parse_atlas_file rows : Forall row_ok rows -> parse_rows (atlas_file rows) = rows.
Proof.
  unfold parse_rows, atlas_file. induction 1 as [|r rows Hr _ IH]; [done|].
  destruct (row_line_clean r Hr) as [H1 H2]. cbn [flat_map]. rewrite <- app_assoc, lines_cons by done.
  rewrite filter_cons_True by done. cbn [map]. by rewrite parse_row_line, IH.
Qed.

(** ** Theorems *)

Definition first_row (rows : list Row) (c : Z) : option Row := List.find (fun r => cp r =? c) rows.

Lemma call_emitted f rows c : call (emitted f rows) c = f <$> first_row rows c.
Proof.
  unfold call, emitted, first_row. induction rows as [|r rows IH]; [done|].
  cbn [map List.find]. cbn [fst]. by destruct (cp r =? c).
Qed.



(** *** Drift check against the hand-written tables *)

Definition named {A} (f : A -> bytes) (o : option A) : bytes := match o with Some a => f a | None => [] end.

(** The atlas the tables of [atlas/mod.rs] describe, the names being any. *)
Definition table_rows (nd : Atlas.AtlasDomain -> bytes) (ns : Atlas.AtlasSupervisor -> bytes)
    (nl : Atlas.AtlasLane -> bytes) : list Row :=
  map (fun c => mkRow c (named nd (Atlas.domain_for_cp c)) (named ns (Atlas.supervisor_for_cp c))
                  (named nl (Atlas.lane_for_cp c))) (seqZ 0 Atlas.BEHCS_1024_CP_COUNT).

Lemma find_seq {A} (f : Z -> A) (key : A -> Z) c n m : (forall k, key (f k) = k) ->
  List.find (fun a => key a =? c) (map f (seqZ m (Z.of_nat n))) =
  if (m <=? c) && (c <? m + Z.of_nat n) then Some (f c) else None.
Proof.
  intros Hk. revert m. induction n as [|n IH]; intros m.
  { rewrite Z.add_0_r. destruct (Z.leb_spec m c), (Z.ltb_spec c m); cbn; (done || lia). }
  rewrite seqZ_cons by lia. cbn [map List.find]. rewrite Hk.
  replace (Z.pred (Z.of_nat (S n))) with (Z.of_nat n) by lia. rewrite IH.
  destruct (Z.eqb_spec m c) as [->|Hne].
  - by rewrite Z.leb_refl, (proj2 (Z.ltb_lt c (c + Z.of_nat (S n)))) by lia.
  - destruct (Z.leb_spec (Z.succ m) c), (Z.leb_spec m c), (Z.ltb_spec c (Z.succ m + Z.of_nat n)),
      (Z.ltb_spec c (m + Z.of_nat (S n))); cbn; (done || lia).
Qed.

Lemma named_ok {A} (f : A -> bytes) o : (forall a, name_ok (f a)) -> name_ok (named f o).
Proof. intros H. destruct o; [apply H|]. split_and!; (constructor || apply not_elem_of_nil). Qed.

Lemma table_rows_ok nd ns nl :
  (forall d, name_ok (nd d)) -> (forall s, name_ok (ns s)) -> (forall l, name_ok (nl l)) ->
  Forall row_ok (table_rows nd ns nl).
Proof.
  intros Hd Hs Hl. apply Forall_map, Forall_forall. intros c Hc%elem_of_seqZ.
  unfold Atlas.BEHCS_1024_CP_COUNT in Hc.
  split_and!; cbn [cp domain supervisor lane]; try by apply named_ok. unfold is_u. lia.
Qed.

(** On an atlas file that lists the hand-written tables under any names,
    the generated functions are the hand-written ones on every [u16]. *)
Theorem drift_check nd ns nl dir :
  (forall d, name_ok (nd d)) -> (forall s, name_ok (ns s)) -> (forall l, name_ok (nl l)) ->
  exists text t,
    main (Some (atlas_file (table_rows nd ns nl))) (Some dir) (fun _ _ => true) =
      CRet ([lit "cargo:rerun-if-changed=" ++ hbp_path], Some (dir, text)) /\
    read_generated text = Some t /\ count t = Atlas.BEHCS_1024_CP_COUNT /\
    forall c, is_u 16 c ->
      call (domains t) c = nd <$> Atlas.domain_for_cp c /\
      call (supervisors t) c = ns <$> Atlas.supervisor_for_cp c /\
      call (lanes t) c = nl <$> Atlas.lane_for_cp c.
Proof.
  intros Hd Hs Hl.
  assert (Hlen : zlen (table_rows nd ns nl) = 1024) by (unfold zlen, table_rows; by rewrite length_map, length_seqZ).
  pose proof (table_rows_ok nd ns nl Hd Hs Hl) as Hok.
  exists (generated (table_rows nd ns nl)).
  exists (let rows := table_rows nd ns nl in
          mkTables (zlen rows) (emitted domain rows) (emitted supervisor rows) (emitted lane rows)).
  split; [unfold main; by rewrite parse_atlas_file|]. split; [|split; [exact Hlen|]].
  - rewrite generated_reads_back; [by rewrite Hlen | | by rewrite Hlen].
    eapply Forall_impl; [exact Hok|]. by apply row_ok_plain.
  - intros c Hc. cbn [domains supervisors lanes]. rewrite !call_emitted.
    assert (E : first_row (table_rows nd ns nl) c =
      if c <? 1024 then Some (mkRow c (named nd (Atlas.domain_for_cp c)) (named ns (Atlas.supervisor_for_cp c))
                          (named nl (Atlas.lane_for_cp c))) else None).
    { unfold first_row, table_rows. rewrite (find_seq _ cp c 1024 0) by done. unfold is_u in Hc.
      by rewrite (proj2 (Z.leb_le 0 c)) by lia. }
    rewrite E. destruct (atlas_single_table c Hc) as (Hv & _ & -> & -> & _).
    unfold Atlas.is_valid_cp, Atlas.BEHCS_1024_CP_COUNT in Hv.
    destruct (Atlas.domain_for_cp c) as [d|], (c <? 1024); try done.
    + by discriminate (proj2 Hv (ex_intro _ d eq_refl)).
    + by destruct (proj1 Hv eq_refl).
Qed.

Lemma drift_check_witness :
  exists text t,
    main (Some (atlas_file (table_rows (fun _ => lit "D") (fun _ => lit "S") (fun _ => lit "L")))) (Some []) (fun _ _ => true) =
      CRet ([lit "cargo:rerun-if-changed=" ++ hbp_path], Some ([], text)) /\
    read_generated text = Some t /\ call (domains t) 261 = Some (lit "D") /\ call (lanes t) 1024 = None.
Proof.
  assert (N : forall s, bool_decide ((124 ∉ lit s) /\ (10 ∉ lit s) /\ (13 ∉ lit s) /\ (34 ∉ lit s) /\ (92 ∉ lit s)) = true ->
              name_ok (lit s)).
  { intros s (? & ? & ? & H1 & H2)%bool_decide_eq_true. split; [|done].
    apply Forall_forall. intros b Hb. split; intros ->; done. }
  destruct (drift_check (fun _ => lit "D") (fun _ => lit "S") (fun _ => lit "L") []) as (text & t & H & R & _ & C);
    [intros _; by apply N..|].
  exists text, t. split_and!; [done|done| |].
  - by destruct (C 261) as (-> & _); [by vm_compute|].
  - by destruct (C 1024) as (_ & _ & ->); [by vm_compute|].
Defined.
