(* ===== verification/SeatConfig.v ===== *)
(** * The seat of a build ([kernel/boot/build.rs])

    The build script of the boot program: it checks the seat label and
    writes two constants that [main.rs] includes. The text is read back as
    the compiler reads it, which ties the label of the environment to the
    seat [Boot.v] and [BootChain.v] start from. *)

From S2P Require Import Prelude Utf8 SurfaceText Atlas AtlasGen BootChain BootLines BootScreen Hwinv Boot.

Import SurfaceText BootChain.

#[local] Open Scope Z_scope.

Module SeatConfig.

Definition DEFAULT_SEAT : bytes := lit "liris".

(** The label: the variable unless it is unset or no text, trimmed. *)
Definition seat_of (variable : option bytes) : bytes := trim (default DEFAULT_SEAT variable).

(** A [const] of a byte string; [AtlasGen.nl] and [AtlasGen.quote] are the
    escapes of the literals. *)
Definition constant (name value : bytes) : bytes :=
  lit "const " ++ name ++ lit ": &[u8] = b" ++ AtlasGen.quote ++ value ++ AtlasGen.quote ++ lit ";" ++ AtlasGen.nl.

Definition HEAD : bytes :=
  lit "// @generated by kernel/boot/build.rs from ASOLARIA_SEAT — do not edit by hand." ++ AtlasGen.nl ++
  lit "/// Build-seat label for this machine-specific kernel artifact (trilateral build)." ++ AtlasGen.nl.

Definition MIDDLE : bytes :=
  lit "/// Human/pixel projection of the build-seat boundary (seat baked in at build time)." ++ AtlasGen.nl.

Definition generated (seat : bytes) : bytes :=
  HEAD ++ constant (lit "BOOT_SEAT") seat ++ MIDDLE ++ constant (lit "BOOT_SEAT_ROW") (Boot.BOOT_SEAT_ROW seat).

(** What the script prints, and the file it leaves in the output directory.
    [variable] is [env::var("ASOLARIA_SEAT").ok()], [out_dir] the variable
    [OUT_DIR], and [write] tells whether [fs::write] succeeds. *)
Definition main (variable out_dir : option bytes) (write : bytes -> bytes -> bool) :
    comp unit (bytes * (bytes * bytes)) :=
  let rerun := lit "cargo:rerun-if-env-changed=ASOLARIA_SEAT" in
  let seat := seat_of variable in
  if negb (seat_accepted seat) then CPanic
  else
    match out_dir with
    | None => CPanic
    | Some dir => if write dir (generated seat) then CRet (rerun, (dir, generated seat)) else CPanic
    end.

End SeatConfig.

Import SeatConfig.

(** ** The constants, read back from the text *)

(** A byte string literal up to its closing quote: ASCII, no escape. *)
Definition read_constant (name s : bytes) : option (bytes * bytes) :=
  s ← expect (lit "const " ++ name ++ lit ": &[u8] = b" ++ AtlasGen.quote) s;
  '(v, s) ← read_string s;
  s ← expect (lit ";" ++ AtlasGen.nl) s;
  if forallb (fun b => b <? 128) v then Some (v, s) else None.

Definition read_seat_config (s : bytes) : option (bytes * bytes) :=
  s ← expect HEAD s;
  '(seat, s) ← read_constant (lit "BOOT_SEAT") s;
  s ← expect MIDDLE s;
  '(row, s) ← read_constant (lit "BOOT_SEAT_ROW") s;
  if zlen s =? 0 then Some (seat, row) else None.

(** ** Reading back what is emitted *)

Definition ascii_plain (s : bytes) : Prop := Forall (fun b => b <> 34 /\ b <> 92 /\ b < 128) s.

Lemma read_constant_emitted name v s : ascii_plain v -> read_constant name (constant name v ++ s) = Some (v, s).
Proof.
  intros H.
  assert (E : constant name v ++ s = (lit "const " ++ name ++ lit ": &[u8] = b" ++ AtlasGen.quote) ++
                v ++ AtlasGen.quote ++ (lit ";" ++ AtlasGen.nl) ++ s)
    by (unfold constant; by rewrite <- !app_assoc).
  unfold read_constant. rewrite E, expect_app. cbn [mbind option_bind].
  rewrite read_string_plain by (eapply Forall_impl; [exact H|]; naive_solver).
  cbn [mbind option_bind]. rewrite expect_app. cbn [mbind option_bind].
  rewrite (proj2 (forallb_forall _ v)); [done|]. intros b Hb. apply Z.ltb_lt.
  unfold ascii_plain in H. rewrite Forall_forall in H. apply H. by apply list_elem_of_In.
Qed.

Lemma seat_plain seat : seat_accepted seat = true -> ascii_plain seat.
Proof.
  unfold seat_accepted. intros [_ H]%andb_true_iff. apply Forall_forall. intros b Hb.
  rewrite forallb_forall in H. apply list_elem_of_In, H in Hb. unfold seat_char, is_ascii_lowercase, is_ascii_digit in Hb.
  to_prop. lia.
Qed.

Lemma lit_plain s : forallb (fun b => negb (b =? 34) && negb (b =? 92) && (b <? 128)) (lit s) = true -> ascii_plain (lit s).
Proof.
  intros H. apply Forall_forall. intros b Hb. rewrite forallb_forall in H. apply list_elem_of_In, H in Hb.
  rewrite !andb_true_iff, !negb_true_iff, !Z.eqb_neq, Z.ltb_lt in Hb. tauto.
Qed.

Lemma seat_row_ascii_plain seat : seat_accepted seat = true -> ascii_plain (Boot.BOOT_SEAT_ROW seat).
Proof.
  intros H. unfold Boot.BOOT_SEAT_ROW, ascii_plain. rewrite !Forall_app.
  split_and!; first [by apply lit_plain | by apply seat_plain].
Qed.

Lemma seat_config_reads_back seat : seat_accepted seat = true ->
  read_seat_config (generated seat) = Some (seat, Boot.BOOT_SEAT_ROW seat).
Proof.
  intros H. unfold read_seat_config, generated. rewrite expect_app. cbn [mbind option_bind].
  rewrite read_constant_emitted by (by apply seat_plain). cbn [mbind option_bind].
  rewrite expect_app. cbn [mbind option_bind].
  rewrite <- (app_nil_r (constant (lit "BOOT_SEAT_ROW") _)).
  by rewrite read_constant_emitted by (by apply seat_row_ascii_plain).
Qed.

(** ** Theorem *)

(** A build leaves the constants of a trimmed label that matches
    [[a-z0-9-]{1,32}], or stops: the compiler reads the label and its row
    from the generated file, and a boot program with that label derives its
    identity on any machine without a panic. *)
Theorem seat_build variable out_dir write :
  let seat := seat_of variable in
  match main variable out_dir write with
  | CRet (_, (dir, text)) =>
      out_dir = Some dir /\ write dir text = true /\
      (1 <= zlen seat <= 32 /\ forallb seat_char seat = true) /\
      read_seat_config text = Some (seat, Boot.BOOT_SEAT_ROW seat) /\
      forall pci cmos ts, is_u 64 ts -> exists r, identity_chain pci cmos ts seat = CRet r
  | _ => seat_accepted seat = false \/ out_dir = None \/
         exists dir, out_dir = Some dir /\ write dir (generated seat) = false
  end.
Proof.
  intros seat. unfold main. fold seat. destruct (seat_accepted seat) eqn:Es; cbn [negb]; [|by left].
  destruct out_dir as [dir|]; [|right; by left]. destruct (write dir _) eqn:Ew; [|right; right; by exists dir].
  split; [done|]. split; [done|]. split; [|split; [by apply seat_config_reads_back|]].
  - pose proof (zlen_nonneg seat). unfold seat_accepted in Es. to_prop. split; [lia | tauto].
  - intros pci cmos ts Hts.
    destruct (identity_chain_total pci cmos ts seat Es Hts) as (rows & hw & t & pid & E & _). by eexists.
Qed.

(** The label of the default build and of one with spaces around it. *)
Lemma seat_build_witness :
  (exists f, main None (Some (lit "out")) (fun _ _ => true) = CRet f) /\
  seat_of (Some (lit " acer ")) = lit "acer" /\
  main (Some (lit "OP-FELIPE")) (Some (lit "out")) (fun _ _ => true) = CPanic /\
  forall pci cmos, exists r, identity_chain pci cmos 7 (seat_of None) = CRet r.
Proof.
  split; [by eexists|]. split; [by vm_compute|]. split; [by vm_compute|].
  intros pci cmos. destruct (seat_build None (Some (lit "out")) (fun _ _ => true)) as (_ & _ & _ & _ & T).
  apply T. by vm_compute.
Defined.
