(* ===== verification/Surface.v ===== *)
(** * Front-end shell ([surface/src/main.rs])

    Module [Requests]: a request read from a connection, and the route it
    takes. Module [Sessions]: the terminal sessions as threads over the
    shared session table: the handlers, the pumps that collect the output
    of a shell, the event streams, and the shells themselves as seen from
    their standard input. *)

From stdpp Require Import gmap.
From S2P Require Import Prelude Utf8 Interleave SurfaceText.
Import SurfaceText.SurfaceText.

#[local] Open Scope Z_scope.

Module Requests.

(** [BufRead::read_line] on the bytes still to come: the line with its line
    break, empty at the end; ill-formed UTF-8 is an I/O error. *)
Fixpoint split_line (s : bytes) : bytes * bytes :=
  match s with
  | [] => ([], [])
  | c :: s' => if c =? 10 then ([c], s') else let '(l, r) := split_line s' in (c :: l, r)
  end.

Definition read_line (s : bytes) : comp unit (bytes * bytes) :=
  let '(l, r) := split_line s in if utf8_valid l then CRet (l, r) else CErr tt.

(** The header loop; every line read is not empty, so the input bounds its
    rounds. *)
Fixpoint headers (fuel : nat) (content_length : Z) (s : bytes) : comp unit (Z * bytes) :=
  match fuel with
  | O => CRet (content_length, s)
  | S f =>
      '(line, rest) ← read_line s;
      if zlen line =? 0 then CRet (content_length, rest)
      else
        let t := trim_end line in
        if zlen t =? 0 then CRet (content_length, rest)
        else
          let lower := map to_ascii_lower t in
          match strip_prefix (lit "content-length:") lower with
          | Some v => headers f (default 0 (parse_u64 (trim v))) rest
          | None => headers f content_length rest
          end
  end.

(** [vec![0u8; n]] panics when [n] exceeds [isize::MAX]. *)
Definition ISIZE_MAX : Z := 9223372036854775807.

Definition read_body (content_length : Z) (s : bytes) : comp unit bytes :=
  if content_length >? ISIZE_MAX then CPanic
  else if content_length >? 0 then
    if zlen s <? content_length then CErr tt else CRet (take (Z.to_nat content_length) s)
  else CRet [].

Record Request := mkRequest { method : bytes; path : bytes; query : bytes; body : bytes }.

(** [target.split_once('?')] *)
Definition split_target (target : bytes) : bytes * bytes :=
  match find_sub (lit "?") target with
  | Some i => (take i target, drop (i + 1) target)
  | None => (target, [])
  end.

(** The request of a connection; [None] when it closed without sending. *)
Definition read_request (s : bytes) : comp unit (option Request) :=
  '(req_line, rest) ← read_line s;
  if zlen req_line =? 0 then CRet None
  else
    let parts := split_whitespace req_line in
    let method := default [] (parts !! 0%nat) in
    let target := default (lit "/") (parts !! 1%nat) in
    '(content_length, rest) ← headers (S (length rest)) 0 rest;
    body ← read_body content_length rest;
    let '(path, query) := split_target target in
    CRet (Some (mkRequest method path query body)).

Inductive Route :=
| Index | Health | Live | Spawn (shell : bytes) | Input (id : Z) (body : bytes)
| Kill (id : Z) | Stream (id : Z) | Launch | NotFound.

Definition route (r : Request) : Route :=
  let at_ m p := bytes_eqb (method r) (lit m) && bytes_eqb (path r) (lit p) in
  if at_ "GET" "/" || at_ "GET" "/index.html" then Index
  else if at_ "GET" "/health" then Health
  else if at_ "GET" "/api/live" then Live
  else if at_ "POST" "/term/spawn" then Spawn (trim (from_utf8_lossy (body r)))
  else if at_ "POST" "/term/input" then Input (query_id (query r)) (body r)
  else if at_ "POST" "/term/kill" then Kill (query_id (query r))
  else if at_ "GET" "/term/stream" then Stream (query_id (query r))
  else if at_ "POST" "/win/launch" then Launch
  else NotFound.

(** [str::replace] *)
Fixpoint replace_loop (fuel : nat) (pat by_ s : bytes) : bytes :=
  match fuel with
  | O => s
  | S f =>
      match find_sub pat s with
      | Some i => take i s ++ by_ ++ replace_loop f pat by_ (drop (i + length pat) s)
      | None => s
      end
  end.

Definition replace (pat by_ s : bytes) : bytes := replace_loop (S (length s)) pat by_ s.

Definition index_page (INDEX_HTML seat pid : bytes) : bytes :=
  replace (lit "__ASOLARIA_PID__") pid (replace (lit "__ASOLARIA_SEAT__") seat INDEX_HTML).

(** The answers that do not touch the sessions; [launched] is the report of
    the window launcher. *)
Definition respond (INDEX_HTML seat pid live launched : bytes) (r : Route) : option bytes :=
  match r with
  | Index => Some (write_resp 200 (lit "text/html; charset=utf-8") (index_page INDEX_HTML seat pid))
  | Health => Some (write_resp 200 (lit "text/plain") (lit "ok"))
  | Live => Some (write_resp 200 (lit "text/plain; charset=utf-8") live)
  | Launch => Some (write_resp 200 (lit "text/plain") launched)
  | NotFound => Some (write_resp 404 (lit "text/plain") (lit "not found"))
  | Spawn _ | Input _ _ | Kill _ | Stream _ => None
  end.

(** The shell a spawn request runs, on Unix. *)
Definition shell_inner (shell : bytes) : bytes :=
  if bytes_eqb shell (lit "zsh") then lit "zsh"
  else if bytes_eqb shell (lit "sh") then lit "sh"
  else if bytes_eqb shell (lit "pwsh") || bytes_eqb shell (lit "powershell") then lit "pwsh"
  else lit "bash".

Definition shell_command (shell : bytes) : list bytes :=
  [lit "script"; lit "-qfec"; shell_inner shell; lit "/dev/null"].

End Requests.

Module Sessions.

(** A session with the bytes waiting in the shell's input pipe (no pipe if
    the shell could not be started) and whether the pipe can be read. *)
Record Session := mkSession {
  stdin : option bytes; out : bytes; reading : bool; killed : bool; label : bytes
}.

Definition with_out (s : Session) (o : bytes) : Session :=
  mkSession (stdin s) o (reading s) (killed s) (label s).
Definition with_stdin (s : Session) (p : bytes) : Session :=
  mkSession (Some p) (out s) (reading s) (killed s) (label s).
Definition with_killed (s : Session) : Session :=
  mkSession (stdin s) (out s) (reading s) true (label s).
Definition with_closed (s : Session) : Session :=
  mkSession (stdin s) (out s) false (killed s) (label s).

(** The session table, the sessions behind its [Arc]s, the id counter, and
    whether a handler keeps the table locked across its steps. *)
Record Server := mkServer {
  table : gmap Z nat; arcs : gmap nat Session; NEXT_ID : Z; locked : bool
}.

Definition initial : Server := mkServer ∅ ∅ 1 false.

Definition set_arc (m : Server) (tag : nat) (s : Session) : Server :=
  mkServer (table m) (<[tag := s]> (arcs m)) (NEXT_ID m) (locked m).
Definition set_table (m : Server) (t : gmap Z nat) : Server :=
  mkServer t (arcs m) (NEXT_ID m) (locked m).
Definition set_locked (m : Server) (l : bool) : Server :=
  mkServer (table m) (arcs m) (NEXT_ID m) l.

Inductive thread :=
| TSpawn (tag : nat) (shell : bytes) (failure : option bytes)
| TSpawned (tag : nat) (id : Z)
| TInput (id : Z) (body : bytes)
| TWriting (tag : nat) (rest : bytes)
| TKill (id : Z)
| TStream (id : Z)
| TTail (id : Z) (tag off : nat) (idle : Z)
| TChunk (id : Z) (tag off : nat) (chunk : bytes)
| TIdle (id : Z) (tag off : nat) (idle : Z)
| TPump (tag : nat) (reads : list bytes)
| TShell (tag : nat) (reads : list nat)
| TReplied (response : bytes)
| TEnded (tag off : nat)
| TDone.

(** What a thread sends on its connection, and the ids handed out. *)
Inductive event :=
| Granted (id : Z) (tag : nat) | Label (l : bytes) | Data (payload : bytes)
| Keepalive | End | NoSession.

Definition ok_response : bytes := write_resp 200 (lit "text/plain") (lit "ok").

(** [spawn_session] up to the start of the pumps: the counter, the output
    buffer and the child; [failure] is the error if it cannot be started. *)
Definition new_session (shell : bytes) (failure : option bytes) : Session :=
  match failure with
  | None => mkSession (Some []) [] true false shell
  | Some e =>
      mkSession None (lit "[asi-os] could not spawn '" ++ shell ++ lit "': " ++ e ++ CRLF) false false shell
  end.

Section Steps.
(** Bytes an operating system pipe holds. *)
Context (PIPE : nat).

(** [write_all] holds the session table locked (the guard of the [if let]
    lives to its end) and waits while the pipe is full. *)
Definition write_step (m : Server) (tag : nat) (rest : bytes) : option (Server * thread * list event) :=
  let release := Some (set_locked m false, TReplied ok_response, []) in
  match arcs m !! tag with
  | None => release
  | Some s =>
      match stdin s with
      | None => release
      | Some p =>
          if negb (reading s) || (zlen rest =? 0) then release
          else
            let n := (PIPE - length p)%nat in
            if Nat.eqb n 0 then None
            else Some (set_arc m tag (with_stdin s (p ++ take n rest)), TWriting tag (drop n rest), [])
      end
  end.

Definition tail_step (m : Server) (id : Z) (tag off : nat) (idle : Z) :
    option (Server * thread * list event) :=
  match arcs m !! tag with
  | None => None
  | Some s =>
      if Nat.ltb off (length (out s))
      then let c := drop off (out s) in Some (m, TChunk id tag (off + length c) c, [])
      else Some (m, TIdle id tag off idle, [])
  end.

Definition idle_step (m : Server) (id : Z) (tag off : nat) (idle : Z) :
    option (Server * thread * list event) :=
  match table m !! id with
  | None => Some (m, TEnded tag off, [End])
  | Some _ =>
      let idle := wrap32 (idle + 1) in
      Some (m, TTail id tag off idle, if idle mod 100 =? 0 then [Keepalive] else [])
  end.

(** The shell reads its input until it exits or is killed. *)
Definition shell_step (m : Server) (tag : nat) (reads : list nat) :
    option (Server * thread * list event) :=
  match arcs m !! tag with
  | None => None
  | Some s =>
      if killed s then Some (set_arc m tag (with_closed s), TDone, [])
      else
        match reads, stdin s with
        | [], _ => Some (set_arc m tag (with_closed s), TDone, [])
        | n :: reads', Some (c :: p) =>
            Some (set_arc m tag (with_stdin s (drop n (c :: p))), TShell tag reads', [])
        | _ :: _, _ => None
        end
  end.

Definition tstep (m : Server) (t : thread) : option (Server * thread * list event) :=
  match t with
  | TSpawn tag shell failure =>
      let id := NEXT_ID m in
      Some (mkServer (table m) (<[tag := new_session shell failure]> (arcs m)) (wrap64 (id + 1)) (locked m),
            TSpawned tag id, [Granted id tag])
  | TSpawned tag id =>
      if locked m then None
      else Some (set_table m (<[id := tag]> (table m)),
                 TReplied (write_resp 200 (lit "text/plain") (dec id)), [])
  | TInput id body =>
      if locked m then None
      else match table m !! id with
           | Some tag => Some (set_locked m true, TWriting tag body, [])
           | None => Some (m, TReplied ok_response, [])
           end
  | TWriting tag rest => write_step m tag rest
  | TKill id =>
      if locked m then None
      else match table m !! id with
           | Some tag =>
               let m := set_table m (delete id (table m)) in
               Some (match arcs m !! tag with Some s => set_arc m tag (with_killed s) | None => m end,
                     TReplied ok_response, [])
           | None => Some (m, TReplied ok_response, [])
           end
  | TStream id =>
      if locked m then None
      else match table m !! id with
           | Some tag =>
               Some (m, TTail id tag 0 0, [Label (match arcs m !! tag with Some s => label s | None => [] end)])
           | None => Some (m, TReplied (write_resp 404 (lit "text/plain") (lit "no session")), [NoSession])
           end
  | TTail id tag off idle => tail_step m id tag off idle
  | TChunk id tag off c => if locked m then None else Some (m, TTail id tag off 0, [Data (base64 c)])
  | TIdle id tag off idle => if locked m then None else idle_step m id tag off idle
  | TPump tag reads =>
      match reads, arcs m !! tag with
      | [], _ => Some (m, TDone, [])
      | c :: reads', Some s => Some (set_arc m tag (with_out s (out s ++ c)), TPump tag reads', [])
      | _ :: _, None => None
      end
  | TShell tag reads => shell_step m tag reads
  | TReplied _ | TEnded _ _ | TDone => None
  end.

End Steps.

(** The handler thread of a session route; [tag] is the new session's
    [Arc], [failure] the outcome of starting the shell. *)
Definition start (tag : nat) (failure : option bytes) (r : Requests.Route) : option thread :=
  match r with
  | Requests.Spawn shell => Some (TSpawn tag shell failure)
  | Requests.Input id body => Some (TInput id body)
  | Requests.Kill id => Some (TKill id)
  | Requests.Stream id => Some (TStream id)
  | _ => None
  end.

End Sessions.

Import Requests.

(** ** Requests *)

(** A visible ASCII character. *)
Definition visible (x : Z) : bool := between 33 126 x.

Lemma visible_ascii w : forallb visible w = true -> forallb is_ascii w = true.
Proof.
  rewrite !forallb_forall. intros H x Hx. specialize (H x Hx).
  unfold visible in H. apply between_true in H. unfold is_ascii.
  apply andb_true_iff. rewrite Z.leb_le, Z.ltb_lt. lia.
Qed.

Lemma visible_not_ws x : visible x = true ->
  ws1 x = false /\ (forall y, ws2 x y = false) /\ (forall y, ws2 y x = false) /\
  (forall y z, ws3 x y z = false) /\ (forall y z, ws3 y z x = false).
Proof.
  intros H%between_true.
  assert (E : forall n, n < 33 \/ 126 < n -> (x =? n) = false) by (intros; apply Z.eqb_neq; lia).
  assert (B : between 9 13 x = false /\ between 128 138 x = false).
  { split; apply not_true_is_false; intros ?%between_true; lia. }
  unfold ws1, ws2, ws3. rewrite (proj1 B), (proj2 B), !E by lia. cbn.
  split_and!; intros; by rewrite ?andb_false_r.
Qed.

Lemma ws_len_visible x s : visible x = true -> ws_len (x :: s) = 0%nat.
Proof.
  intros H. destruct (visible_not_ws x H) as (A & B & _ & C & _).
  cbn [ws_len]. rewrite A. destruct s as [|y [|z s]]; by rewrite ?B, ?C.
Qed.

Lemma ws_len_rev_visible x s : visible x = true -> ws_len_rev (x :: s) = 0%nat.
Proof.
  intros H. destruct (visible_not_ws x H) as (A & _ & B & _ & C).
  cbn [ws_len_rev]. rewrite A. destruct s as [|y [|z s]]; by rewrite ?B, ?C.
Qed.

Lemma words_visible w cur s : forallb visible w = true -> words 0 cur (w ++ s) = words 0 (cur ++ w) s.
Proof.
  revert cur. induction w as [|x w IH]; intros cur H; [by rewrite app_nil_r|].
  cbn [forallb] in H. to_prop. cbn [app words]. rewrite ws_len_visible, IH by done.
  by rewrite <- app_assoc.
Qed.

Lemma words_space cur s : cur <> [] -> words 0 cur (32 :: s) = cur :: words 0 [] s.
Proof. intros H. cbn. by destruct cur. Qed.

Lemma split_line_app l r : 10 ∉ l -> split_line (l ++ 10 :: r) = (l ++ [10], r).
Proof.
  induction l as [|x l IH]; intros H; [done|]. apply not_elem_of_cons in H as [Hx H].
  cbn [app split_line]. rewrite (proj2 (Z.eqb_neq x 10)), IH by congruence. done.
Qed.

Lemma read_line_ascii l r : forallb is_ascii l = true -> 10 ∉ l ->
  read_line (l ++ 10 :: r) = CRet (l ++ [10], r).
Proof.
  intros Ha Hn. unfold read_line. rewrite split_line_app by done.
  by rewrite utf8_valid_ascii by (by rewrite forallb_app, Ha).
Qed.

Lemma visible_no_10 w : forallb visible w = true -> 10 ∉ w.
Proof. intros H Hin. rewrite forallb_forall in H. by apply list_elem_of_In, H in Hin. Qed.

Lemma digits_visible s : forallb is_ascii_digit s = true -> forallb visible s = true.
Proof.
  rewrite !forallb_forall. intros H x Hx. specialize (H x Hx).
  unfold visible, is_ascii_digit in *. to_prop. apply between_true. lia.
Qed.

Lemma trim_end_visible a x : visible x = true -> trim_end (a ++ [x]) = a ++ [x].
Proof.
  intros H. unfold trim_end. rewrite rev_app_distr. cbn [rev app trim_with].
  rewrite ws_len_rev_visible by done. cbn [rev]. by rewrite rev_involutive.
Qed.

Lemma trim_end_crlf a x : visible x = true -> trim_end ((a ++ [x]) ++ CRLF) = a ++ [x].
Proof.
  intros H. rewrite <- (trim_end_visible a x H) at 2. unfold trim_end, CRLF.
  rewrite !rev_app_distr. done.
Qed.

(** The fuel of the header loop and of [replace] never runs out. *)
Lemma split_line_length s : let '(l, r) := split_line s in length s = (length l + length r)%nat.
Proof.
  induction s as [|x s IH]; [done|]. cbn [split_line]. destruct (x =? 10); [done|].
  destruct (split_line s) as [l r]. cbn [length]. lia.
Qed.

Lemma headers_fuel f cl s : (length s < f)%nat -> headers f cl s = headers (S f) cl s.
Proof.
  revert cl s. induction f as [|f IH]; intros cl s Hf; [lia|].
  cbn [headers]. unfold read_line. pose proof (split_line_length s) as Hl.
  destruct (split_line s) as [l r]. destruct (utf8_valid l); [|done]. cbn [mbind comp_bind].
  destruct (Z.eqb_spec (zlen l) 0) as [|Hz]; [done|].
  assert (length r < f)%nat by (unfold zlen in Hz; lia).
  destruct (zlen (trim_end l) =? 0); [done|]. destruct (strip_prefix _ _); by apply IH.
Qed.

Lemma replace_fuel f pat by_ s : pat <> [] -> (length s < f)%nat ->
  replace_loop f pat by_ s = replace pat by_ s.
Proof.
  intros Hp Hf. unfold replace.
  assert (H : forall f g t, (length t < f)%nat -> (length t < g)%nat ->
    replace_loop f pat by_ t = replace_loop g pat by_ t).
  { clear -Hp. induction f as [|f IH]; intros [|g] t H1 H2; try lia. cbn [replace_loop].
    destruct (find_sub pat t) as [i|] eqn:E; [|done]. do 2 f_equal.
    apply find_sub_Some in E as ((c & Ec) & Hi & _). apply (f_equal length) in Ec.
    rewrite !length_app, length_take in Ec. destruct pat; [done|]. cbn in Ec.
    apply IH; rewrite length_drop; cbn; lia. }
  apply H; lia.
Qed.

(** *** Requests as a client writes them *)

Definition word (w : bytes) : Prop := w <> [] /\ forallb visible w = true.

(** The target of a path and a query, the path without a question mark. *)
Definition target_of (p : bytes) (q : option bytes) : bytes :=
  p ++ match q with Some q => lit "?" ++ q | None => [] end.

Definition target_ok (p : bytes) (q : option bytes) : Prop := word (target_of p q) /\ 63 ∉ p.

(** A header line: printable text and tabs, a visible character at its end. *)
Definition header_line (h : bytes) : Prop :=
  Forall (fun b => b = 9 \/ 32 <= b <= 126) h /\ exists a x, h = a ++ [x] /\ 33 <= x <= 126.

(** It does not declare a length. *)
Definition other_header (h : bytes) : Prop :=
  header_line h /\ forall r, map to_ascii_lower h <> lit "content-length:" ++ r.

(** It declares the length [n]: its name in any case, blanks before the digits. *)
Definition length_line (name : bytes) (blanks : nat) (n : Z) : bytes :=
  name ++ lit ":" ++ replicate blanks 32 ++ dec n.

(** The bytes of a request. *)
Definition render (m t : bytes) (hs : list bytes) (payload : bytes) : bytes :=
  m ++ lit " " ++ t ++ lit " HTTP/1.1" ++ CRLF ++ flat_map (fun h => h ++ CRLF) hs ++ CRLF ++ payload.

Lemma render_line m t hs payload :
  word m -> word t ->
  read_line (render m t hs payload) =
    CRet (m ++ lit " " ++ t ++ lit " HTTP/1.1" ++ CRLF, flat_map (fun h => h ++ CRLF) hs ++ CRLF ++ payload).
Proof.
  intros [_ Hm] [_ Ht].
  replace (render m t hs payload) with ((m ++ lit " " ++ t ++ lit " HTTP/1.1" ++ [13]) ++
    10 :: flat_map (fun h => h ++ CRLF) hs ++ CRLF ++ payload).
  2:{ unfold render. change (CRLF ++ flat_map ?f hs ++ ?x) with ([13] ++ 10 :: flat_map f hs ++ x).
      by rewrite <- !app_assoc. }
  rewrite read_line_ascii.
  - f_equal. f_equal. unfold CRLF. by rewrite <- !app_assoc.
  - rewrite !forallb_app, (visible_ascii m), (visible_ascii t) by done. done.
  - rewrite !not_elem_of_app. split_and!; try by apply visible_no_10.
    all: by apply (bool_decide_unpack _); vm_compute.
Qed.

Lemma target_words m t : word m -> word t ->
  split_whitespace (m ++ lit " " ++ t ++ lit " HTTP/1.1" ++ CRLF) = [m; t; lit "HTTP/1.1"].
Proof.
  intros [Hm1 Hm] [Ht1 Ht]. unfold split_whitespace. rewrite words_visible by done. cbn [app].
  change (lit " " ++ ?x) with (32 :: x). rewrite words_space, words_visible by done. cbn [app].
  change (lit " HTTP/1.1" ++ CRLF) with (32 :: lit "HTTP/1.1" ++ CRLF). by rewrite words_space by done.
Qed.

Lemma find_sub_question p r : 63 ∉ p -> find_sub (lit "?") (p ++ 63 :: r) = Some (length p).
Proof.
  induction p as [|x p IH]; intros H; [done|]. apply not_elem_of_cons in H as [Hx H].
  cbn [app find_sub]. assert (starts_with (lit "?") (x :: p ++ 63 :: r) = false) as ->.
  { apply not_true_iff_false. by intros [r2 [= ->]]%starts_with_spec. }
  by rewrite IH.
Qed.

Lemma find_sub_no_question p : 63 ∉ p -> find_sub (lit "?") p = None.
Proof.
  intros H. apply find_sub_None, not_true_iff_false. intros (a & b & ->)%contains_spec.
  apply H. rewrite !elem_of_app. right. left. by left.
Qed.

Lemma split_target_of p q : 63 ∉ p -> split_target (target_of p q) = (p, default [] q).
Proof.
  intros H. unfold split_target, target_of. destruct q as [q|]; cbn [default from_option id].
  - change (lit "?" ++ q) with (63 :: q). rewrite find_sub_question by done.
    rewrite take_app_length. replace (length p + 1)%nat with (length (p ++ [63])) by (rewrite length_app; cbn; lia).
    by rewrite (app_assoc p [63] q : p ++ 63 :: q = _), drop_app_length.
  - by rewrite app_nil_r, find_sub_no_question.
Qed.

Lemma digits_end n : is_u 64 n -> exists a x, dec n = a ++ [x] /\ visible x = true.
Proof.
  intros Hn. destruct (dec_spec n Hn) as (_ & Hne & _ & Hd). apply digits_visible in Hd.
  destruct (dec n) as [|y l] eqn:E using rev_ind; [done|].
  exists l, y. split; [done|]. rewrite forallb_app in Hd. cbn [forallb] in Hd. by to_prop.
Qed.

(** *** The header loop *)

(** What a header line does to the length declared so far. *)
Definition header_effect (cl : Z) (h : bytes) : Z :=
  match strip_prefix (lit "content-length:") (map to_ascii_lower h) with
  | Some v => default 0 (parse_u64 (trim v))
  | None => cl
  end.

Lemma header_step f cl h s : header_line h ->
  headers (S f) cl (h ++ CRLF ++ s) = headers f (header_effect cl h) s.
Proof.
  intros [P (a & x & -> & Hx)]. assert (Vx : visible x = true) by by apply between_true.
  cbn [headers]. replace ((a ++ [x]) ++ CRLF ++ s) with (((a ++ [x]) ++ [13]) ++ 10 :: s)
    by (unfold CRLF; by rewrite <- !app_assoc).
  rewrite Forall_forall in P. rewrite read_line_ascii.
  2:{ rewrite forallb_app. apply andb_true_iff. split; [|done]. apply forallb_forall. intros b Hb.
      apply list_elem_of_In, P in Hb. unfold is_ascii. apply andb_true_iff. rewrite Z.leb_le, Z.ltb_lt. lia. }
  2:{ rewrite not_elem_of_app. split; [|by apply (bool_decide_unpack _); vm_compute].
      intros Hb%P. lia. }
  cbn [mbind comp_bind].
  replace (((a ++ [x]) ++ [13]) ++ [10]) with ((a ++ [x]) ++ CRLF) by (unfold CRLF; by rewrite <- !app_assoc).
  rewrite trim_end_crlf by done.
  assert (Hz : forall l, zlen ((a ++ [x]) ++ l) =? 0 = false).
  { intros l. rewrite !zlen_app. pose proof (zlen_nonneg a). pose proof (zlen_nonneg l).
    apply Z.eqb_neq. change (zlen [x]) with 1. lia. }
  rewrite Hz, <- (app_nil_r (a ++ [x])), Hz, app_nil_r. unfold header_effect.
  by destruct (strip_prefix _ _).
Qed.

Lemma headers_render hs f cl payload : Forall header_line hs -> (length hs < f)%nat ->
  headers f cl (flat_map (fun h => h ++ CRLF) hs ++ CRLF ++ payload) = CRet (fold_left header_effect hs cl, payload).
Proof.
  intros H. revert f cl. induction H as [|h hs Hh _ IH]; intros [|f] cl L; cbn in L; try lia.
  - cbn [flat_map app headers]. unfold CRLF. change ([13; 10] ++ payload) with ([13] ++ 10 :: payload).
    by rewrite read_line_ascii by (done || by apply (bool_decide_unpack _); vm_compute).
  - cbn [flat_map fold_left]. rewrite <- !app_assoc, header_step by done. apply IH. lia.
Qed.

Lemma header_lines_length hs s : (length hs <= length (flat_map (fun h => h ++ CRLF) hs ++ s))%nat.
Proof.
  induction hs as [|h hs IH]; [cbn; lia|]. cbn [flat_map length]. rewrite !length_app in *.
  change (length CRLF) with 2%nat. lia.
Qed.

Lemma other_header_intro a x :
  forallb (fun b => (b =? 9) || between 32 126 b) (a ++ [x]) = true -> visible x = true ->
  starts_with (lit "content-length:") (map to_ascii_lower (a ++ [x])) = false -> other_header (a ++ [x]).
Proof.
  intros H Hx%between_true Hs. split.
  - split; [|by exists a, x]. rewrite forallb_forall in H. apply Forall_forall. intros b Hb%list_elem_of_In%H.
    unfold between in Hb. to_prop. lia.
  - intros r E. by rewrite E, starts_with_app in Hs.
Qed.

Lemma other_header_effect cl h : other_header h -> header_effect cl h = cl.
Proof.
  intros [_ H]. unfold header_effect, strip_prefix. destruct (starts_with _ _) eqn:E; [|done].
  apply starts_with_spec in E as [r E]. by apply H in E.
Qed.

Lemma other_headers_effect cl hs : Forall other_header hs -> fold_left header_effect hs cl = cl.
Proof. induction 1 as [|h hs Hh _ IH]; cbn; [done|]. by rewrite other_header_effect. Qed.

Lemma trim_dec n : is_u 64 n -> trim (dec n) = dec n.
Proof.
  intros Hn. destruct (digits_end n Hn) as (a & x & Ea & Hx). destruct (dec_spec n Hn) as (_ & Hne & _ & Hd).
  assert (E : trim_start (dec n) = dec n).
  { unfold trim_start. destruct (dec n) as [|y l]; [done|]. apply digits_visible in Hd. cbn [forallb] in Hd. to_prop.
    cbn [trim_with]. by rewrite ws_len_visible. }
  unfold trim. rewrite E, Ea. by apply trim_end_visible.
Qed.

Lemma trim_blanks k s : trim (replicate k 32 ++ s) = trim s.
Proof.
  unfold trim, trim_start. induction k as [|k IH]; [done|]. rewrite <- IH. done.
Qed.

Lemma lower_digits s : forallb is_ascii_digit s = true -> map to_ascii_lower s = s.
Proof.
  intros Hd. rewrite <- (map_id s) at 2. apply map_ext_in. intros y Hy.
  rewrite forallb_forall in Hd. apply Hd in Hy. unfold is_ascii_digit, to_ascii_lower, is_ascii_uppercase in *.
  to_prop. split_if; to_prop; lia.
Qed.

Lemma length_line_header name k n : is_u 64 n -> map to_ascii_lower name = lit "content-length" ->
  header_line (length_line name k n).
Proof.
  intros Hn Hname. destruct (digits_end n Hn) as (a & x & Ea & Hx%between_true).
  destruct (dec_spec n Hn) as (_ & _ & _ & Hd). split.
  - unfold length_line. rewrite !Forall_app. split_and!.
    + assert (F : Forall (fun b => 45 <= b <= 122) (map to_ascii_lower name)).
      { rewrite Hname. apply Forall_forall. intros b Hb%list_elem_of_In. cbn in Hb. destruct_or! Hb; subst; done || lia. }
      rewrite Forall_map in F. eapply Forall_impl; [exact F|]. intros b. cbn. unfold to_ascii_lower, is_ascii_uppercase.
      split_if; to_prop; lia.
    + by repeat constructor.
    + apply Forall_replicate. lia.
    + rewrite forallb_forall in Hd. apply Forall_forall. intros b Hb%list_elem_of_In%Hd.
      unfold is_ascii_digit in Hb. to_prop. lia.
  - exists (name ++ lit ":" ++ replicate k 32 ++ a), x. unfold length_line. rewrite Ea. by rewrite <- !app_assoc.
Qed.

Lemma length_line_effect cl name k n : is_u 64 n -> map to_ascii_lower name = lit "content-length" ->
  header_effect cl (length_line name k n) = n.
Proof.
  intros Hn Hname. destruct (dec_spec n Hn) as (_ & _ & _ & Hd). unfold header_effect, length_line.
  rewrite !map_app, Hname, (lower_digits (dec n)) by done.
  assert (map to_ascii_lower (replicate k 32) = replicate k 32) as ->.
  { induction k as [|k IH]; [done|]. cbn. by rewrite IH. }
  change (lit "content-length" ++ map to_ascii_lower (lit ":") ++ ?x) with (lit "content-length:" ++ x).
  unfold strip_prefix. rewrite starts_with_app, drop_app_length, trim_blanks, trim_dec, parse_dec by done. done.
Qed.

(** The request once its header lines are read. *)
Lemma read_request_headers m p q hs payload :
  word m -> target_ok p q -> Forall header_line hs ->
  read_request (render m (target_of p q) hs payload) =
    (body ← read_body (fold_left header_effect hs 0) payload; CRet (Some (mkRequest m p (default [] q) body))).
Proof.
  intros Hm [Ht Hq] Hh. unfold read_request. rewrite render_line by done. cbn [mbind comp_bind].
  assert (zlen (m ++ lit " " ++ target_of p q ++ lit " HTTP/1.1" ++ CRLF) =? 0 = false) as ->.
  { apply Z.eqb_neq. rewrite zlen_app. destruct Hm as [Hm _]. destruct m as [|x m]; [done|].
    rewrite zlen_cons. pose proof (zlen_nonneg m).
    pose proof (zlen_nonneg (lit " " ++ target_of p q ++ lit " HTTP/1.1" ++ CRLF)). lia. }
  rewrite target_words by done. cbn [lookup list_lookup].
  pose proof (header_lines_length hs (CRLF ++ payload)).
  rewrite headers_render by (done || lia). cbn [mbind comp_bind default from_option id].
  by rewrite split_target_of.
Qed.



Import Sessions.

(** ** Sessions *)

(** The terminal bytes a connection received: its data events, decoded. *)
Definition delivered (k : nat) (l : list (nat * event)) : bytes :=
  flat_map (fun p => if Nat.eqb p.1 k then match p.2 with Data d => unbase64 d | _ => [] end else []) l.

Definition grant_free (k : nat) (l : list (nat * event)) : Prop :=
  forall id tag, (k, Granted id tag) ∉ l.

(** [off] bytes of the session behind [tag] have reached connection [k]. *)
Definition reached (m : Server) (l : list (nat * event)) (k tag off : nat) : Prop :=
  exists s, arcs m !! tag = Some s /\ (off <= length (out s))%nat /\ delivered k l = take off (out s).

Definition granted (l : list (nat * event)) (id : Z) (tag : nat) : Prop := (tag, Granted id tag) ∈ l.

(** The threads a server starts with: each new session has its own [Arc],
    named after its handler. *)
Definition starting (k : nat) (t : thread) : Prop :=
  match t with
  | TSpawn tag shell failure =>
      tag = k /\ Forall is_byte shell /\ Forall is_byte (default [] failure)
  | TPump _ reads => Forall (Forall is_byte) reads
  | TInput _ _ | TKill _ | TStream _ | TShell _ _ => True
  | _ => False
  end.

(** Outputs are bytes and the table names live [Arc]s. *)
Definition heap_ok (m : Server) : Prop :=
  (forall tag s, arcs m !! tag = Some s -> Forall is_byte (out s)) /\
  (forall id tag, table m !! id = Some tag -> is_Some (arcs m !! tag)).

Definition ids_ok (m : Server) (l : list (nat * event)) : Prop :=
  1 <= NEXT_ID m <= 1 + zlen l /\
  (forall j id tag, (j, Granted id tag) ∈ l -> tag = j /\ 1 <= id < NEXT_ID m) /\
  (forall j k id tj tk, (j, Granted id tj) ∈ l -> (k, Granted id tk) ∈ l -> j = k) /\
  (forall id tag, table m !! id = Some tag -> granted l id tag).

Definition shared_inv (m : Server) (l : list (nat * event)) : Prop :=
  heap_ok m /\ (zlen l < 2 ^ 63 -> ids_ok m l).

Definition thread_inv (m : Server) (l : list (nat * event)) (k : nat) (t : thread) : Prop :=
  match t with
  | TSpawn tag shell failure =>
      tag = k /\ Forall is_byte shell /\ Forall is_byte (default [] failure) /\
      arcs m !! k = None /\ grant_free k l
  | TSpawned tag id =>
      tag = k /\ is_Some (arcs m !! k) /\ granted l id k /\ (forall id' tag', (k, Granted id' tag') ∈ l -> id' = id)
  | TReplied r =>
      forall id tag, (k, Granted id tag) ∈ l -> r = write_resp 200 (lit "text/plain") (dec id)
  | TStream _ => grant_free k l /\ delivered k l = []
  | TTail id tag off _ | TIdle id tag off _ =>
      grant_free k l /\ reached m l k tag off /\ (zlen l < 2 ^ 63 -> granted l id tag)
  | TChunk id tag off c =>
      grant_free k l /\ (zlen l < 2 ^ 63 -> granted l id tag) /\ Forall is_byte c /\
      exists s, arcs m !! tag = Some s /\ (off <= length (out s))%nat /\
                delivered k l ++ c = take off (out s)
  | TEnded tag off => grant_free k l /\ reached m l k tag off
  | TPump _ reads => Forall (Forall is_byte) reads /\ grant_free k l
  | _ => grant_free k l
  end.

(** How a step of thread [k] changes the sessions: output only grows, and
    the only new [Arc] is [k]'s. *)
Definition grows (k : nat) (m m' : Server) : Prop :=
  (forall tag s, arcs m !! tag = Some s ->
     exists s' more, arcs m' !! tag = Some s' /\ out s' = out s ++ more) /\
  (forall tag, tag <> k -> arcs m !! tag = None -> arcs m' !! tag = None).

Lemma grows_same k m m' : arcs m' = arcs m -> grows k m m'.
Proof. intros E. unfold grows. rewrite E. split; [|done]. intros tag s H. exists s, []. by rewrite app_nil_r. Qed.

Lemma grows_set k m tag s s' more : arcs m !! tag = Some s -> out s' = out s ++ more ->
  grows k m (set_arc m tag s').
Proof.
  intros Hs Ho. unfold grows. cbn [arcs set_arc]. split.
  - intros t u Hu. destruct (decide (t = tag)) as [->|].
    + rewrite lookup_insert_eq. exists s', more. by replace u with s by congruence.
    + rewrite lookup_insert_ne by done. exists u, []. by rewrite app_nil_r.
  - intros t _ Ht. destruct (decide (t = tag)) as [->|]; [congruence|]. by rewrite lookup_insert_ne.
Qed.

Lemma delivered_app k l l' : delivered k (l ++ l') = delivered k l ++ delivered k l'.
Proof. apply flat_map_app. Qed.

Lemma delivered_other j k l es : j <> k -> delivered j (l ++ map (pair k) es) = delivered j l.
Proof.
  intros Hjk. rewrite delivered_app. replace (delivered j (map (pair k) es)) with ([] : bytes);
    [by rewrite app_nil_r|]. induction es as [|e es IH]; [done|]. unfold delivered in *. cbn [map flat_map fst].
  by rewrite (proj2 (Nat.eqb_neq k j)), <- IH by congruence.
Qed.

Lemma log_other (j k : nat) (l : list (nat * event)) es e : j <> k -> (j, e) ∈ l ++ map (pair k) es -> (j, e) ∈ l.
Proof.
  intros Hjk [H|H]%elem_of_app; [done|]. apply list_elem_of_In, in_map_iff in H as (? & [= ? ?] & _). congruence.
Qed.

Lemma log_mono (e : nat * event) (l es : list (nat * event)) : e ∈ l -> e ∈ l ++ es.
Proof. intros H. apply elem_of_app. by left. Qed.

Lemma zlen_prefix {A} (l es : list A) n : zlen (l ++ es) < n -> zlen l < n.
Proof. rewrite zlen_app. pose proof (zlen_nonneg es). lia. Qed.

Lemma reached_other m m' l es j k tag off : j <> k -> grows k m m' ->
  reached m l j tag off -> reached m' (l ++ map (pair k) es) j tag off.
Proof.
  intros Hjk [Hg _] (s & Hs & Hoff & Hd). destruct (Hg tag s Hs) as (s' & more & Hs' & Ho).
  exists s'. rewrite delivered_other, Ho, length_app, take_app_le by (done || lia).
  split_and!; [done|lia|done].
Qed.

Lemma thread_inv_other m m' l es j k u : j <> k -> grows k m m' ->
  thread_inv m l j u -> thread_inv m' (l ++ map (pair k) es) j u.
Proof.
  intros Hjk Hg.
  assert (Hf : grant_free j l -> grant_free j (l ++ map (pair k) es)).
  { intros H id tag Hin. by apply (H id tag), (log_other _ _ _ _ _ Hjk Hin). }
  assert (Hgr : forall id tag, (zlen l < 2 ^ 63 -> granted l id tag) ->
    zlen (l ++ map (pair k) es) < 2 ^ 63 -> granted (l ++ map (pair k) es) id tag).
  { intros id tag H Hl. apply log_mono, H. by eapply zlen_prefix. }
  destruct u; cbn [thread_inv]; try done.
  - intros (-> & H1 & H2 & H3 & H4). split_and!; auto. destruct Hg as [_ Hg]. by apply Hg.
  - intros (-> & [s Hs] & H1 & H2). destruct Hg as [Hg _]. destruct (Hg _ _ Hs) as (s' & more & Hs' & _).
    split_and!; [done|by exists s'|by apply log_mono|]. intros id' tag' Hin. by apply (H2 id' tag'), (log_other _ _ _ _ _ Hjk Hin).
  - intros [H1 H2]. rewrite delivered_other by done. auto.
  - intros (H1 & H2 & H3). split_and!; auto. by eapply reached_other.
  - intros (H1 & H2 & H3 & s & Hs & Hoff & Hd). split_and!; auto.
    destruct Hg as [Hg _]. destruct (Hg tag s Hs) as (s' & more & Hs' & Ho).
    exists s'. rewrite delivered_other, Ho, length_app, take_app_le by (done || lia).
    split_and!; [done|lia|done].
  - intros (H1 & H2 & H3). split_and!; auto. by eapply reached_other.
  - intros [H1 H2]. auto.
  - intros H id tag Hin. by apply (H id tag), (log_other _ _ _ _ _ Hjk Hin).
  - intros [H1 H2]. split; auto. by eapply reached_other.
Qed.

Definition not_grant (e : event) : Prop := match e with Granted _ _ => False | _ => True end.

Lemma no_new_grant (l : list (nat * event)) (k : nat) es j id tag : Forall not_grant es ->
  (j, Granted id tag) ∈ l ++ map (pair k) es -> (j, Granted id tag) ∈ l.
Proof.
  intros He [H|H]%elem_of_app; [done|]. apply list_elem_of_In, in_map_iff in H as (e & [= _ ->] & Hin).
  rewrite Forall_forall in He. by apply list_elem_of_In, He in Hin.
Qed.

(** A step that hands out no id keeps the shared invariant. *)
Lemma shared_keep m m' l k es : shared_inv m l -> Forall not_grant es -> NEXT_ID m' = NEXT_ID m ->
  heap_ok m' ->
  (forall id tag, table m' !! id = Some tag ->
     table m !! id = Some tag \/ (zlen l < 2 ^ 63 -> granted l id tag)) ->
  shared_inv m' (l ++ map (pair k) es).
Proof.
  intros [Hb Hi] He Hn Hb' Ht. split; [done|]. intros Hl. apply zlen_prefix in Hl as Hl'.
  destruct (Hi Hl') as (H1 & H2 & H3 & H4). unfold ids_ok. rewrite Hn. split_and!.
  - lia.
  - rewrite zlen_app. pose proof (zlen_nonneg (map (pair k) es)). lia.
  - intros j id tag Hin%no_new_grant; [|done]. by eapply H2.
  - intros j i id tj ti Hj%no_new_grant Hk%no_new_grant; [|done..]. by eapply H3.
  - intros id tag Hin. apply log_mono. destruct (Ht id tag Hin) as [Hin'|Hin']; [by apply H4|by apply Hin'].
Qed.

Lemma grant_free_keep l k es : Forall not_grant es -> grant_free k l -> grant_free k (l ++ map (pair k) es).
Proof. intros He H id tag Hin%no_new_grant; [|done]. by apply (H id tag). Qed.

Lemma heap_set m tag s : heap_ok m -> Forall is_byte (out s) -> heap_ok (set_arc m tag s).
Proof.
  intros [Hm Ht] Hs. split.
  - intros t u. cbn [arcs set_arc]. intros [[-> <-]|[_ H]]%lookup_insert_Some; [done|by eapply Hm].
  - intros id t H. cbn [arcs set_arc table] in *. destruct (decide (t = tag)) as [->|].
    + rewrite lookup_insert_eq. by eexists.
    + rewrite lookup_insert_ne by done. by eapply Ht.
Qed.

(** The post-condition of a step of thread [k]. *)
Definition step_ok (m m' : Server) (l : list (nat * event)) (k : nat) (t' : thread) (es : list event) : Prop :=
  grows k m m' /\ shared_inv m' (l ++ map (pair k) es) /\ thread_inv m' (l ++ map (pair k) es) k t'.

(** Steps that change one session, its output only by appending bytes. *)
Lemma step_set m l k tag s s' more t' :
  shared_inv m l -> arcs m !! tag = Some s -> out s' = out s ++ more -> Forall is_byte more ->
  thread_inv (set_arc m tag s') l k t' -> step_ok m (set_arc m tag s') l k t' [].
Proof.
  intros HS Hs Ho Hm Ht. unfold step_ok. split_and!.
  - by eapply grows_set.
  - apply (shared_keep m _ l k []); [done|constructor|done| |by left].
    apply heap_set; [apply HS|]. rewrite Ho. apply Forall_app. split; [|done]. by eapply HS.
  - cbn [map]. by rewrite app_nil_r.
Qed.

(** Steps that leave the sessions alone and hand out no id. *)
Lemma step_same m m' l k t' es :
  shared_inv m l -> arcs m' = arcs m -> NEXT_ID m' = NEXT_ID m -> Forall not_grant es ->
  (forall id tag, table m' !! id = Some tag ->
     table m !! id = Some tag \/ (is_Some (arcs m !! tag) /\ (zlen l < 2 ^ 63 -> granted l id tag))) ->
  thread_inv m' (l ++ map (pair k) es) k t' -> step_ok m m' l k t' es.
Proof.
  intros HS Ha Hn He Ht Hi. split_and!; [by apply grows_same| |done].
  apply (shared_keep m); [done..| |].
  - unfold heap_ok. rewrite Ha. split; [apply HS|].
    intros id tag H. destruct (Ht id tag H) as [H'|[H' _]]; [by eapply HS|done].
  - intros id tag H. destruct (Ht id tag H) as [H'|[_ H']]; [by left|by right].
Qed.

Lemma new_session_bytes shell failure :
  Forall is_byte shell -> Forall is_byte (default [] failure) ->
  Forall is_byte (out (new_session shell failure)).
Proof.
  intros Hs Hf. destruct failure as [e|]; [|constructor]. cbn [new_session out].
  rewrite !Forall_app. split_and!; try apply lit_bytes; [done|done|].
  repeat (apply Forall_cons; split; [unfold is_byte; lia|]). by apply Forall_nil.
Qed.

Lemma spawn_step m l k tag shell failure :
  shared_inv m l -> thread_inv m l k (TSpawn tag shell failure) ->
  step_ok m (mkServer (table m) (<[tag := new_session shell failure]> (arcs m)) (wrap64 (NEXT_ID m + 1)) (locked m))
    l k (TSpawned tag (NEXT_ID m)) [Granted (NEXT_ID m) tag].
Proof.
  intros [Hb Hi] (-> & Hs & Hf & Ha & Hg). unfold step_ok. cbn [map]. split_and!.
  - split; cbn [arcs].
    + intros t s Ht. exists s, []. rewrite app_nil_r, lookup_insert_ne; [done|]. intros ->. congruence.
    + intros t Hne Ht. by rewrite lookup_insert_ne.
  - split.
    + split.
      * intros t s. cbn [arcs]. intros [[<- <-]|[_ H]]%lookup_insert_Some; [by apply new_session_bytes|by eapply Hb].
      * intros id t H. cbn [arcs table] in *. destruct Hb as [_ Hb].
        rewrite lookup_insert_ne; [by eapply Hb|]. intros <-. destruct (Hb id k H). congruence.
    + intros Hl. apply zlen_prefix in Hl as Hl'. destruct (Hi Hl') as (H1 & H2 & H3 & H4).
      rewrite zlen_snoc in Hl. unfold ids_ok, granted. cbn [NEXT_ID table].
      rewrite wrap_id, zlen_snoc by (unfold is_u; lia).
      assert (Hnew : forall j id tag, (j, Granted id tag) ∈ l ++ [(k, Granted (NEXT_ID m) k)] ->
        (j, Granted id tag) ∈ l \/ (j = k /\ id = NEXT_ID m /\ tag = k)).
      { intros j id tag [H|H%list_elem_of_singleton]%elem_of_app; [by left|right; by simplify_eq]. }
      split_and!.
      * lia.
      * lia.
      * intros j id tag [H|(-> & -> & ->)]%Hnew; [destruct (H2 j id tag H); lia|lia].
      * intros i j id ti tj [Ha'|(-> & -> & ->)]%Hnew [Hb'|(-> & E & ->)]%Hnew; [by eapply H3| | |done].
        -- destruct (H2 i id ti Ha'). lia.
        -- destruct (H2 _ _ _ Hb'). lia.
      * intros id tag H. by apply log_mono, H4.
  - cbn [thread_inv]. split_and!; [done|cbn [arcs]; rewrite lookup_insert_eq; by eexists|apply elem_of_app; right; by left|].
    intros id' tag' [H|H%list_elem_of_singleton]%elem_of_app; [by destruct (Hg id' tag')|by simplify_eq].
Qed.

Lemma delivered_data k l c : Forall is_byte c ->
  delivered k (l ++ map (pair k) [Data (base64 c)]) = delivered k l ++ c.
Proof.
  intros Hc. rewrite delivered_app. cbn. rewrite Nat.eqb_refl, app_nil_r. f_equal.
  by apply base64_spec.
Qed.

Lemma delivered_silent k l es : Forall (fun e => match e with Data _ => False | _ => True end) es ->
  delivered k (l ++ map (pair k) es) = delivered k l.
Proof.
  intros He. rewrite delivered_app. replace (delivered k (map (pair k) es)) with ([] : bytes);
    [by rewrite app_nil_r|]. induction He as [|e es He _ IH]; [done|]. unfold delivered in *.
  cbn [map flat_map fst snd]. rewrite Nat.eqb_refl, <- IH. by destruct e.
Qed.

Lemma tail_take (o : bytes) off : (off <= length o)%nat ->
  take off o ++ drop off o = take (off + length (drop off o)) o.
Proof. intros H. rewrite take_drop, length_drop, take_ge by lia. done. Qed.

(** Streams. *)
Lemma stream_step PIPE m l k t m' t' es :
  match t with TStream _ | TTail _ _ _ _ | TChunk _ _ _ _ | TIdle _ _ _ _ => True | _ => False end ->
  shared_inv m l -> thread_inv m l k t -> tstep PIPE m t = Some (m', t', es) -> step_ok m m' l k t' es.
Proof.
  intros Hk HS HL E. destruct t as [| | | | |id|id tag off idle|id tag off c|id tag off idle| | | | |]; try done;
    cbn [tstep thread_inv] in E, HL.
  - destruct HL as [Hg Hd]. destruct (locked m); [done|]. destruct (table m !! id) as [tag|] eqn:Et; simplify_eq.
    + assert (Hin : zlen l < 2 ^ 63 -> granted l id tag) by (intros Hl; apply HS in Hl as (_ & _ & _ & H); auto).
      apply step_same; try done; [by repeat constructor|by left|]. cbn [thread_inv]. split_and!.
      * by apply grant_free_keep; [repeat constructor|].
      * destruct HS as [[_ Ha] _]. destruct (Ha id tag Et) as [s Hs]. exists s.
        rewrite delivered_silent by (by repeat constructor). split_and!; [done|lia|done].
      * intros Hl. apply log_mono, Hin. by eapply zlen_prefix.
    + apply step_same; try done; [by repeat constructor|by left|]. cbn [thread_inv].
      intros id' tag' Hin%no_new_grant; [|by repeat constructor]. by destruct (Hg id' tag').
  - destruct HL as (Hg & (s & Hs & Hoff & Hd) & Hgr). unfold tail_step in E. rewrite Hs in E.
    destruct (Nat.ltb_spec off (length (out s))); simplify_eq; apply step_same; try done; try by left.
    all: cbn [thread_inv map]; rewrite app_nil_r.
    + split_and!; [done|done| |].
      * apply Forall_drop. by eapply HS.
      * exists s. rewrite length_drop. split_and!; [done|lia|].
        rewrite Hd, <- length_drop. apply tail_take. lia.
    + split_and!; [done|by exists s|done].
  - destruct HL as (Hg & Hgr & Hc & s & Hs & Hoff & Hd). destruct (locked m); [done|]. simplify_eq.
    apply step_same; try done; [by repeat constructor|by left|]. cbn [thread_inv]. split_and!.
    + by apply grant_free_keep; [repeat constructor|].
    + exists s. rewrite delivered_data by done. by split_and!.
    + intros Hl. apply log_mono, Hgr. by eapply zlen_prefix.
  - destruct HL as (Hg & (s & Hs & Hoff & Hd) & Hgr). destruct (locked m); [done|]. unfold idle_step in E.
    destruct (table m !! id) as [tag'|] eqn:Et; simplify_eq.
    + assert (He : Forall not_grant (if wrap32 (idle + 1) mod 100 =? 0 then [Keepalive] else []) /\
        Forall (fun e => match e with Data _ => False | _ => True end)
          (if wrap32 (idle + 1) mod 100 =? 0 then [Keepalive] else [])) by (destruct (_ =? 0); by repeat constructor).
      apply step_same; try done; [by destruct He|by left|]. cbn [thread_inv]. split_and!.
      * apply grant_free_keep; [by destruct He|done].
      * exists s. rewrite delivered_silent by (by destruct He). done.
      * intros Hl. apply log_mono, Hgr. by eapply zlen_prefix.
    + apply step_same; try done; [by repeat constructor|by left|]. cbn [thread_inv]. split.
      * by apply grant_free_keep; [repeat constructor|].
      * exists s. rewrite delivered_silent by (by repeat constructor). done.
Qed.

Lemma ok_silent m l k : grant_free k l -> thread_inv m l k (TReplied ok_response).
Proof. intros H id tag Hin. by destruct (H id tag). Qed.

Lemma same_out s s' : out s' = out s -> out s' = out s ++ [].
Proof. by rewrite app_nil_r. Qed.

(** The session handlers. *)
Lemma handler_step PIPE m l k t m' t' es :
  match t with TSpawned _ _ | TInput _ _ | TWriting _ _ | TKill _ => True | _ => False end ->
  shared_inv m l -> thread_inv m l k t -> tstep PIPE m t = Some (m', t', es) -> step_ok m m' l k t' es.
Proof.
  intros Hk HS HL E. destruct t as [|tag id|id body|tag rest|id| | | | | | | | |]; try done;
    cbn [tstep thread_inv] in E, HL.
  - destruct HL as (-> & [s Hs] & Hg & Hu). destruct (locked m); [done|]. simplify_eq.
    apply step_same; try done.
    + intros i t. cbn [table set_table]. intros [[<- <-]|[_ H]]%lookup_insert_Some; [right|by left].
      split; [by eexists|by intros _].
    + cbn [thread_inv map]. rewrite app_nil_r. intros i t Hin. by rewrite (Hu i t Hin).
  - destruct (locked m); [done|]. destruct (table m !! id); simplify_eq;
      apply step_same; try done; try (by left); cbn [map]; rewrite app_nil_r; [done|by apply ok_silent].
  - unfold write_step in E.
    assert (Hrel : step_ok m (set_locked m false) l k (TReplied ok_response) []).
    { apply step_same; try done; [by left|]. cbn [map]. rewrite app_nil_r. by apply ok_silent. }
    destruct (arcs m !! tag) as [s|] eqn:Hs; [|by simplify_eq].
    destruct (stdin s) as [p|]; [|by simplify_eq].
    destruct (negb (reading s) || (zlen rest =? 0)); [by simplify_eq|].
    destruct (Nat.eqb (PIPE - length p) 0); [done|]. simplify_eq.
    by eapply step_set; [done|exact Hs|by apply same_out|constructor|].
  - destruct (locked m); [done|]. destruct (table m !! id) as [tag|] eqn:Et; simplify_eq.
    2:{ apply step_same; try done; [by left|]. cbn [map]. rewrite app_nil_r. by apply ok_silent. }
    assert (HD : step_ok m (set_table m (delete id (table m))) l k (TReplied ok_response) []).
    { apply step_same; try done.
      - intros i t. cbn [table set_table]. intros [_ H]%lookup_delete_Some. by left.
      - cbn [map]. rewrite app_nil_r. by apply ok_silent. }
    cbn [arcs set_table]. destruct (arcs m !! tag) as [s|] eqn:Hs; [|done].
    destruct HD as (HD1 & HD2 & HD3). cbn [map] in HD2, HD3. rewrite app_nil_r in HD2, HD3.
    destruct (step_set (set_table m (delete id (table m))) l k tag s (with_killed s) [] (TReplied ok_response))
      as (H1 & H2 & H3); [done|done|by apply same_out|constructor|by apply ok_silent|].
    split_and!; [|exact H2|exact H3]. exact H1.
Qed.

(** The pumps and the shells. *)
Lemma process_step PIPE m l k t m' t' es :
  match t with TPump _ _ | TShell _ _ => True | _ => False end ->
  shared_inv m l -> thread_inv m l k t -> tstep PIPE m t = Some (m', t', es) -> step_ok m m' l k t' es.
Proof.
  intros Hk HS HL E.
  assert (Hdone : grant_free k l -> step_ok m m l k TDone []).
  { intros Hg. apply step_same; try done; [by left|]. cbn [map]. by rewrite app_nil_r. }
  destruct t as [| | | | | | | | |tag reads|tag reads| | |]; try done; cbn [tstep thread_inv] in E, HL.
  - destruct HL as [Hr Hg]. destruct reads as [|c reads]; [simplify_eq; by apply Hdone|].
    apply Forall_cons in Hr as [Hc Hr].
    destruct (arcs m !! tag) as [s|] eqn:Hs; [|done]. simplify_eq.
    by eapply step_set; [done|exact Hs|reflexivity|done|].
  - unfold shell_step in E. destruct (arcs m !! tag) as [s|] eqn:Hs; [|done].
    destruct (killed s); [simplify_eq; by eapply step_set; [done|exact Hs|by apply same_out|constructor|]|].
    destruct reads as [|n reads]; [simplify_eq; by eapply step_set; [done|exact Hs|by apply same_out|constructor|]|].
    destruct (stdin s) as [[|x p]|]; [done| |done]. simplify_eq.
    by eapply step_set; [done|exact Hs|by apply same_out|constructor|].
Qed.

Lemma session_step PIPE m l k t m' t' es :
  shared_inv m l -> thread_inv m l k t -> tstep PIPE m t = Some (m', t', es) -> step_ok m m' l k t' es.
Proof.
  intros HS HL E. destruct t; try done.
  all: try (by eapply stream_step; [..|exact E]).
  all: try (by eapply handler_step; [..|exact E]).
  all: try (by eapply process_step; [..|exact E]).
  cbn [tstep] in E. simplify_eq. by apply spawn_step.
Qed.

Lemma session_inv PIPE ts c :
  (forall k t, ts !! k = Some t -> starting k t) ->
  ireach (tstep PIPE) (IConf initial ts []) c ->
  shared_inv (imem c) (ilog c) /\
  (forall k t, ipool c !! k = Some t -> thread_inv (imem c) (ilog c) k t).
Proof.
  intros Hs. apply (ireach_inv_others (tstep PIPE) shared_inv thread_inv).
  - split; [done|]. intros _. split_and!; try done; intros *; by intros ?%elem_of_nil.
  - intros k t Hk. specialize (Hs k t Hk).
    assert (Hg : grant_free k []) by (by intros ? ? ?%elem_of_nil).
    destruct t; cbn in *; try done. destruct Hs as (-> & ? & ?). by split_and!.
  - intros m l k t m' t' es HS HL E. destruct (session_step _ _ _ _ _ _ _ _ HS HL E) as (H1 & H2 & H3).
    split_and!; [done|done|]. intros j u Hjk. by apply thread_inv_other.
Qed.

(** C2. Terminal sessions under any interleaving of the handlers, the output
    pumps and the shells: every spawn gets its own id, never 0, the id it
    replies is the one its client's queries name, and the table maps an id
    to the session created for it only; and an event stream has delivered,
    at every moment, exactly the first bytes of the output of the session
    it was opened for, in order, none lost, repeated or taken from another
    session. *)
Theorem terminal_sessions PIPE ts c :
  (forall k t, ts !! k = Some t -> starting k t) ->
  ireach (tstep PIPE) (IConf initial ts []) c -> zlen (ilog c) < 2 ^ 63 ->
  (forall j k id tj tk, (j, Granted id tj) ∈ ilog c -> (k, Granted id tk) ∈ ilog c -> j = k /\ id <> 0) /\
  (forall id tag, table (imem c) !! id = Some tag -> granted (ilog c) id tag) /\
  (forall k id tag r, granted (ilog c) id k -> ipool c !! k = Some (TReplied r) ->
     r = write_resp 200 (lit "text/plain") (dec id) /\
     route (mkRequest (lit "GET") (lit "/term/stream") (lit "id=" ++ http_response_body r) tag) = Stream id) /\
  (forall k id tag off idle, ipool c !! k = Some (TTail id tag off idle) ->
     granted (ilog c) id tag /\ reached (imem c) (ilog c) k tag off) /\
  (forall k tag off, ipool c !! k = Some (TEnded tag off) -> reached (imem c) (ilog c) k tag off).
Proof.
  intros Hs Hr Hl. destruct (session_inv PIPE ts c Hs Hr) as [[_ HS] HL].
  destruct (HS Hl) as (H1 & H2 & H3 & H4). split_and!.
  - intros j k id tj tk Hj Hk. split; [by eapply H3|]. destruct (H2 _ _ _ Hj). lia.
  - done.
  - intros k id tag r Hg Hk. pose proof (HL k _ Hk id k Hg) as ->. split; [done|].
    destruct (H2 _ _ _ Hg) as [_ Hid].
    assert (Hu : is_u 64 id) by (unfold is_u; lia).
    rewrite response_body.
    + unfold route. cbn [method path query]. rewrite query_id_dec by done. reflexivity.
    + by apply (bool_decide_unpack _); vm_compute.
    + destruct (dec_spec id Hu) as (_ & _ & Hd & _). unfold is_u, zlen. lia.
  - intros k id tag off idle Hk. destruct (HL k _ Hk) as (_ & Hre & Hgr). split; [by apply Hgr|done].
  - intros k tag off Hk. by destruct (HL k _ Hk).
Qed.

Lemma terminal_sessions_witness :
  exists c, ireach (tstep 8) (IConf initial [TSpawn 0 (lit "bash") None; TPump 0 [lit "hi"]; TStream 1] []) c /\
    ipool c = [TReplied (write_resp 200 (lit "text/plain") (lit "1")); TDone; TTail 1 0 2 0] /\
    delivered 2 (ilog c) = lit "hi".
Proof.
  set (ts := [TSpawn 0 (lit "bash") None; TPump 0 [lit "hi"]; TStream 1]).
  assert (Hs : forall k t, ts !! k = Some t -> starting k t).
  { intros [|[|[|k]]] t [= <-]; unfold starting; [split_and!; [done|exact (lit_bytes "bash")|constructor]| |done].
    constructor; [exact (lit_bytes "hi")|constructor]. }
  assert (R : exists c, irun (tstep 8) [0; 0; 1; 1; 2; 2; 2]%nat (IConf initial ts []) = Some c
      /\ ipool c = [TReplied (write_resp 200 (lit "text/plain") (lit "1")); TDone; TTail 1 0 2 0]
      /\ zlen (ilog c) = 3 /\ (out <$> arcs (imem c) !! 0%nat) = Some (lit "hi")).
  { eexists. split; [vm_compute; reflexivity|]. split_and!; vm_compute; reflexivity. }
  destruct R as (c & R & P & L & O). exists c.
  assert (R' := irun_reach (tstep 8) _ _ _ _ (ireach_refl (tstep 8) _) R).
  split; [exact R'|]. split; [exact P|].
  destruct (terminal_sessions 8 ts c Hs R' ltac:(rewrite L; lia)) as (_ & _ & _ & T & _).
  assert (Hk : ipool c !! 2%nat = Some (TTail 1 0 2 0)) by (by rewrite P).
  destruct (T 2%nat 1 0%nat 2%nat 0 Hk) as (_ & s & Es & _ & D).
  rewrite Es in O. injection O as O. by rewrite D, O.
Defined.

Lemma write_room PIPE m tag s p rest :
  arcs m !! tag = Some s -> stdin s = Some p -> reading s = true -> rest <> [] ->
  write_step PIPE m tag rest =
    if Nat.leb PIPE (length p) then None
    else Some (set_arc m tag (with_stdin s (p ++ take (PIPE - length p) rest)),
               TWriting tag (drop (PIPE - length p) rest), []).
Proof.
  intros Hs Hp Hr Hne. unfold write_step. rewrite Hs, Hp, Hr. cbn [negb orb].
  assert (zlen rest =? 0 = false) as ->.
  { destruct rest; [done|]. rewrite zlen_cons. pose proof (zlen_nonneg rest). apply Z.eqb_neq. lia. }
  destruct (Nat.leb_spec PIPE (length p)).
  - by rewrite (proj2 (Nat.eqb_eq _ _)) by lia.
  - by rewrite (proj2 (Nat.eqb_neq _ _)) by lia.
Qed.

(** A handler that needs the session table. *)
Definition needs_table (t : thread) : Prop :=
  match t with
  | TSpawned _ _ | TInput _ _ | TKill _ | TStream _ | TChunk _ _ _ _ | TIdle _ _ _ _ => True
  | _ => False
  end.

(** C26. A shell that does not read its input blocks the whole server: after
    one input longer than the pipe, a state is reachable in which the input
    handler waits for room while it keeps the session table locked, so that
    no session can be created, reached, streamed or killed; in particular
    the request to kill that very shell waits for ever, and with no shell
    reading nothing can move at all. *)
Theorem input_blocks_kill PIPE shell body :
  (PIPE < length body)%nat ->
  let ts := [TSpawn 0 shell None; TInput 1 body; TKill 1] in
  exists c, ireach (tstep PIPE) (IConf initial ts []) c /\
    ipool c !! 1%nat = Some (TWriting 0 (drop PIPE body)) /\ ipool c !! 2%nat = Some (TKill 1) /\
    table (imem c) !! 1 = Some 0%nat /\
    (forall t, needs_table t -> tstep PIPE (imem c) t = None) /\
    (forall c', ~ istep (tstep PIPE) c c').
Proof.
  intros Hb ts. destruct (Nat.eqb_spec PIPE 0) as [->|Hp].
  - eexists. split.
    { apply (irun_reach _ [0; 0; 1]%nat _ _ _ (ireach_refl _ _)). reflexivity. }
    destruct body as [|x body]; [cbn in Hb; lia|]. split_and!; try done; [by intros []|].
    intros c' Hc. inversion Hc as [? k t m' t' es Hk Ht]; subst. cbn in Hk, Ht.
    destruct k as [|[|[|k]]]; cbn in Hk; simplify_eq; cbn in Ht; try done.
  - set (m1 := mkServer {[1 := 0%nat]} {[0%nat := new_session shell None]} 2 true).
    set (m2 := set_arc m1 0 (with_stdin (new_session shell None) (take PIPE body))).
    set (r := TReplied (write_resp 200 (lit "text/plain") (dec 1))).
    exists (IConf m2 [r; TWriting 0 (drop PIPE body); TKill 1] [(0%nat, Granted 1 0)]).
    assert (Hw : tstep PIPE m1 (TWriting 0 body) = Some (m2, TWriting 0 (drop PIPE body), [])).
    { cbn [tstep]. rewrite (write_room PIPE m1 0 (new_session shell None) []); [|done..|by intros ->; cbn in Hb; lia].
      cbn [length]. rewrite Nat.sub_0_r. by destruct PIPE. }
    assert (Hfull : tstep PIPE m2 (TWriting 0 (drop PIPE body)) = None).
    { cbn [tstep]. rewrite (write_room PIPE m2 0 (with_stdin (new_session shell None) (take PIPE body)) (take PIPE body));
        [|done..|].
      - rewrite length_take, Nat.min_l by lia. by rewrite Nat.leb_refl.
      - intros E%(f_equal length). rewrite length_drop in E. cbn in E. lia. }
    split_and!; try done; [|by intros []|].
    + eapply (ireach_step _ _ (IConf m1 [r; TWriting 0 body; TKill 1] [(0%nat, Granted 1 0)])).
      * apply (irun_reach _ [0; 0; 1]%nat _ _ _ (ireach_refl _ _)). reflexivity.
      * apply (istep_thread (tstep PIPE) (IConf m1 [r; TWriting 0 body; TKill 1] [(0%nat, Granted 1 0)]) 1 _ _ _ [] eq_refl Hw).
    + intros c' Hc. inversion Hc as [? k t m' t' es Hk Ht]; subst. cbn [ipool imem] in Hk, Ht.
      destruct k as [|[|[|k]]]; cbn in Hk; simplify_eq; try done.
Qed.

Lemma input_blocks_kill_witness :
  exists c, ireach (tstep 2) (IConf initial [TSpawn 0 (lit "sh") None; TInput 1 (lit "sleep"); TKill 1] []) c /\
    ipool c !! 2%nat = Some (TKill 1) /\ (forall c', ~ istep (tstep 2) c c').
Proof.
  assert (H : (2 < length (lit "sleep"))%nat) by (cbn; lia).
  destruct (input_blocks_kill 2 (lit "sh") (lit "sleep") H) as (c & R & _ & K & _ & _ & N).
  by exists c.
Defined.
