(* ===== verification/SurfaceHost.v ===== *)
(** * The shell on its host ([surface/src/main.rs])

    What the server takes from the machine it runs on: environment
    variables, files, the clock, connections to the local services and
    started processes, and the answers it makes of them, from the bytes of a
    request to the bytes of the response. *)

From S2P Require Import Prelude Utf8 SurfaceText Surface.

Import SurfaceText.

#[local] Open Scope Z_scope.

Module Host.

(** A connection: whether [set_read_timeout] succeeds, and what a written
    request makes of it: nothing when [write_all] fails, else the results of
    the reads that follow ([None] is an error, the end of the list the end
    of the stream). *)
Record Connection := mkConn {
  timeout_set : bool;
  exchange : bytes -> option (list (option bytes))
}.

(** The host: [env::var(..).ok()], [fs::read_to_string(..).ok()], parsing an
    address and connecting within a timeout, the seconds since the epoch
    unless the clock is before it, [Path::exists], and starting a program
    with its arguments ([Err] holds the text of the error). *)
Record HostEnv := mkEnv {
  var : bytes -> option bytes;
  read_to_string : bytes -> option bytes;
  connect : bytes -> Z -> option Connection;
  unix_secs : option Z;
  path_exists : bytes -> bool;
  spawn : list bytes -> result bytes unit
}.

Definition BIND : bytes := lit "127.0.0.1:4600".

(** The line printed and the connections handed to handler threads;
    [flatten] drops those that failed. *)
Definition main (bound : bool) (incoming : list (option bytes)) : comp unit (bytes * list bytes) :=
  if bound
  then CRet (lit "ASOLARIA ASI OS front-end — live on http://" ++ BIND ++ lit "  (Rust std, 0 deps)", omap id incoming)
  else CPanic.

(** The read loop of [http_get]: up to an error or an empty read. *)
Fixpoint read_loop (reads : list (option bytes)) : bytes :=
  match reads with
  | Some (x :: c) :: rest => (x :: c) ++ read_loop rest
  | _ => []
  end.

Definition http_request (host path : bytes) : bytes :=
  lit "GET " ++ path ++ lit " HTTP/1.1" ++ CRLF ++ lit "Host: " ++ host ++ CRLF ++
  lit "Connection: close" ++ CRLF ++ CRLF.

Section OnHost.
Context (env : HostEnv).

Definition http_get (host : bytes) (port : Z) (path : bytes) (timeout_ms : Z) : option bytes :=
  c ← connect env (host ++ lit ":" ++ dec port) timeout_ms;
  if negb (timeout_set c) then None
  else
    reads ← exchange c (http_request host path);
    http_answer (read_loop reads).

Definition now_unix : Z := default 0 (unix_secs env).

(** [var(a).or_else(|_| var(b)).ok()] *)
Definition var_or (a b : bytes) : option bytes :=
  match var env a with Some v => Some v | None => var env b end.

Definition read_ident (env_key file dflt : bytes) : bytes :=
  (resolve_ident (var env env_key) (var_or (lit "HOME") (lit "USERPROFILE")) file dflt (read_to_string env)).1.

Definition seat_name : bytes := read_ident (lit "ASOLARIA_SEAT") (lit "seat.name") (lit "ASOLARIA-NODE").
Definition seat_pid : bytes := read_ident (lit "ASOLARIA_PID") (lit "seat.pid") (lit "unregistered").

(** The host name of [fabric_port_for_local]. *)
Definition host_name : option bytes := var_or (lit "COMPUTERNAME") (lit "HOSTNAME").

Definition fabric_port_for_local (seat : bytes) : Z := fabric_port_for_context seat host_name.

Definition probe (port : Z) (path : bytes) : option bytes := http_get (lit "127.0.0.1") port path 400.

Definition live : bytes := live_status probe seat_name host_name now_unix.

(** The report and the programs started, in order. *)
Definition launch_windows_env : bytes * list (list bytes) :=
  let sandbox := lit "C:\Windows\System32\WindowsSandbox.exe" in
  let explorer := [lit "explorer.exe"; lit "shell:MyComputerFolder"] in
  let fall_back started :=
    match spawn env explorer with
    | Ok _ => (lit "launched Windows — host desktop / Explorer as a window", started ++ [explorer])
    | Err e => (lit "could not launch Windows env: " ++ e, started)
    end in
  if path_exists env sandbox then
    match spawn env [sandbox] with
    | Ok _ => (lit "launched Windows Sandbox — a clean Windows env in its own window", [[sandbox]])
    | Err _ => fall_back []
    end
  else fall_back [].

(** [shell_command] of the Windows build: program and arguments. *)
Definition windows_shell_command (shell : bytes) : list bytes :=
  if bytes_eqb shell (lit "powershell") || bytes_eqb shell (lit "pwsh")
  then [lit "powershell.exe"; lit "-NoLogo"; lit "-NoProfile"]
  else if bytes_eqb shell (lit "bash") || bytes_eqb shell (lit "wsl")
  then [lit "wsl.exe"; lit "-d"; lit "Ubuntu"; lit "--"; lit "bash"; lit "-il"]
  else [lit "cmd.exe"].

(** [handle] on the bytes of a connection, for the routes that touch no
    session; [None] closes without an answer or leaves to the sessions. *)
Definition handle (INDEX_HTML s : bytes) : comp unit (option bytes) :=
  r ← Requests.read_request s;
  match r with
  | None => CRet None
  | Some r => CRet (Requests.respond INDEX_HTML seat_name seat_pid live launch_windows_env.1 (Requests.route r))
  end.

End OnHost.
End Host.

Import Host.

(** ** Probes *)

(** The service takes a connection and the request, and sends a byte. *)
Definition answers (env : HostEnv) (port : Z) (path : bytes) : Prop :=
  exists c reads,
    connect env (lit "127.0.0.1:" ++ dec port) 400 = Some c /\ timeout_set c = true /\
    exchange c (http_request (lit "127.0.0.1") path) = Some reads /\ read_loop reads <> [].

Lemma probe_some env port path : is_some (probe env port path) = true <-> answers env port path.
Proof.
  unfold probe, http_get, answers.
  change (lit "127.0.0.1" ++ lit ":" ++ dec port) with (lit "127.0.0.1:" ++ dec port).
  destruct (connect env _ _) as [c|]; cbn [mbind option_bind].
  2:{ split; [done|]. by intros (c & reads & ? & _). }
  destruct (timeout_set c) eqn:T; cbn [negb].
  2:{ split; [done|]. intros (c' & reads & [= <-] & ? & _). congruence. }
  destruct (exchange c _) as [reads|] eqn:E; cbn [mbind option_bind].
  2:{ split; [done|]. intros (c' & reads & [= <-] & _ & ? & _). congruence. }
  unfold http_answer. destruct (Z.eqb_spec (zlen (read_loop reads)) 0) as [Z|Z].
  - apply zlen_zero_nil in Z. split; [done|]. intros (c' & reads' & [= <-] & _ & E' & N). congruence.
  - split; [|done]. intros _. exists c, reads. split_and!; [done..|]. intros N. by rewrite N in Z.
Qed.

Lemma probe_none env port path : ~ answers env port path -> probe env port path = None.
Proof. rewrite <- probe_some. by destruct (probe env port path). Qed.

(** ** Pages *)

(** The request line of a browser's GET without a body. *)
Definition get (path : bytes) : bytes := lit "GET " ++ path ++ lit " HTTP/1.1" ++ CRLF ++ CRLF.

Lemma handle_live env INDEX_HTML :
  handle env INDEX_HTML (get (lit "/api/live")) =
  CRet (Some (write_resp 200 (lit "text/plain; charset=utf-8") (live env))).
Proof. reflexivity. Qed.

(** C30. The status page, end to end: the client finds under its own reading of
    the response the six status lines of the seat; the recall and fabric
    services are shown up exactly when they take a connection and the
    request and send a byte back, whatever they send, and a kernel or bus
    that does not answer is shown down with dashes; the number of the fabric
    port is one of two. *)
Theorem live_page env INDEX_HTML :
  clean (seat_name env) -> is_u 64 (now_unix env) -> zlen (live env) < 2 ^ 64 ->
  let port := fabric_port_for_local env (seat_name env) in
  let path := lit "/health" in
  exists page ku kver kanchor ru bu inbox fu,
    handle env INDEX_HTML (get (lit "/api/live")) = CRet (Some page) /\
    map (split_on 124) (split_on 10 (http_response_body page)) =
      status_fields (dec (now_unix env)) (seat_name env) ku kver kanchor (dec (b ru)) bu inbox (dec port) (dec (b fu)) ++ [[[]]] /\
    (ru = true <-> answers env 4796 (lit "/api/health")) /\ (fu = true <-> answers env port path) /\
    (~ answers env 5088 (lit "/health.hbp") -> ku = lit "0" /\ kver = lit "-" /\ kanchor = lit "-") /\
    (~ answers env 4947 (lit "/behcs/health") -> bu = lit "0" /\ inbox = lit "-") /\
    (port = 4944 \/ port = 4949).
Proof.
  intros Hseat Hnow Hlen port path.
  destruct (status_block_fields (probe env) (seat_name env) (host_name env) (now_unix env) Hseat Hnow)
    as (kver & kanchor & inbox & Hf & _ & Hp & Hk & Hb).
  eexists _, _, kver, kanchor, (is_some (probe env 4796 (lit "/api/health"))), _, inbox,
    (is_some (probe env port path)).
  split; [apply handle_live|]. split.
  { rewrite response_body; [exact Hf| |]; [by apply not_in_lit13|].
    pose proof (zlen_nonneg (live env)). unfold is_u. lia. }
  split; [apply probe_some|]. split; [apply probe_some|]. split_and!; [..|exact Hp].
  - intros N%probe_none. rewrite N. split; [done|by apply Hk].
  - intros N%probe_none. rewrite N. split; [done|by apply Hb].
Qed.

(** A host where only the recall vault answers. *)
Definition recall_only : HostEnv := {|
  var := fun _ => None;
  read_to_string := fun _ => None;
  connect := fun addr _ =>
    if bytes_eqb addr (lit "127.0.0.1:4796") then Some (mkConn true (fun _ => Some [Some (lit "up")])) else None;
  unix_secs := Some 7;
  path_exists := fun _ => false;
  spawn := fun _ => Err (lit "no such program")
|}.

Lemma live_page_witness :
  exists page kver kanchor inbox,
    handle recall_only [] (get (lit "/api/live")) = CRet (Some page) /\
    map (split_on 124) (split_on 10 (http_response_body page)) =
      status_fields (dec 7) (lit "ASOLARIA-NODE") (lit "0") kver kanchor (lit "1") (lit "0") inbox (lit "4949") (lit "0")
        ++ [[[]]].
Proof.
  destruct (live_page recall_only []) as (page & ku & kver & kanchor & ru & bu & inbox & fu & H & F & R & U & K & B & _).
  - by apply clean_lit.
  - by vm_compute.
  - by vm_compute.
  - assert (N : forall port path, port <> 4796 -> is_u 64 port -> ~ answers recall_only port path).
    { intros port path Hp Hu (c & reads & Hc & _). cbn [connect recall_only] in Hc.
      destruct (bytes_eqb _ _) eqn:E in Hc; [|done].
      apply bytes_eqb_true in E. change (lit "127.0.0.1:4796") with (lit "127.0.0.1:" ++ dec 4796) in E.
      by apply app_inv_head, dec_inj in E. }
    assert (ru = true) as -> by (apply R; by eexists _, _).
    assert (fu = false) as -> by (apply not_true_is_false; rewrite U; by apply N).
    destruct K as (-> & _); [by apply N|]. destruct B as (-> & _); [by apply N|].
    exists page, kver, kanchor, inbox. by split.
Defined.

(** ** Windows *)

(** The launcher starts at most one program, the sandbox if it is there and
    starts, else the explorer; it reports a failure only when neither could
    be started, with the explorer's error. *)
Lemma launch_spec env :
  let '(report, started) := launch_windows_env env in
  (length started <= 1)%nat /\
  (forall p, p ∈ started -> spawn env p = Ok tt) /\
  (started = [] <-> exists e, report = lit "could not launch Windows env: " ++ e).
Proof.
  unfold launch_windows_env. cbv zeta. set (sandbox := [lit "C:\Windows\System32\WindowsSandbox.exe"]).
  set (explorer := [lit "explorer.exe"; _]).
  destruct (path_exists env _); [destruct (spawn env sandbox) as [[]|] eqn:E1|].
  2, 3: destruct (spawn env explorer) as [[]|] eqn:E2.
  all: cbv beta iota; cbn [app]; split_and!;
    [cbn; lia | intros p Hp; rewrite ?elem_of_nil, ?list_elem_of_singleton in Hp; by subst |].
  all: split; [intros H; try discriminate H; by eexists | intros [x H]; try done; discriminate H].
Qed.
