(* ===== verification/Replay.v ===== *)
(** * Replaying the program's own tests

    The repository's unit tests, translated assertion by assertion into
    propositions on the model, are evaluated by the kernel in the
    [Conformance] files: the model gives the answers the program's authors
    pinned. [unwrap] and [expect] are [on_ok]; loops over arrays are
    [for_all]. The digest is the boot program's SHA-256 unless a Module says
    otherwise, case conversion the ASCII one. *)

From S2P Require Import Prelude Digest Sha256.

#[export] Existing Instances boot_digest ascii_case.

(** [r.unwrap()] and [r.expect(..)], then the rest of the test. *)
Definition on_ok {E A} (r : result E A) (test : A -> Prop) : Prop :=
  match r with Ok a => test a | Err _ => False end.

(** The same for a call that also returns the statics it changed. *)
Definition then_ok {E A S} (r : result E A * S) (test : A -> S -> Prop) : Prop :=
  match r with (Ok a, s) => test a s | (Err _, _) => False end.

(** A byte-string literal of the source, its double quotes written as
    single ones. *)
Definition quoted (b : bytes) : bytes := map (fun x => if (x =? 39)%Z then 34%Z else x) b.

Definition on_some {A} (o : option A) (test : A -> Prop) : Prop :=
  match o with Some a => test a | None => False end.

Definition on_ret {E A} (c : comp E A) (test : A -> Prop) : Prop :=
  match c with CRet a => test a | _ => False end.

(** [r.is_err()]. *)
Definition is_err {E A} (r : result E A) : bool := negb (is_ok r).

(** [for x in l]. *)
Fixpoint for_all {A} (l : list A) (test : A -> Prop) : Prop :=
  match l with
  | [] => True
  | x :: l' => test x /\ for_all l' test
  end.

(** A cheap digest, for tests that only need some digest: the polynomial
    hash of the message on 64 bits, padded to 32 bytes. *)
Definition polynomial_hash (m : bytes) : Z :=
  fold_left (fun h b => Z.land (257 * h + b + 1) (Z.ones 64)) m 1%Z.

Definition checksum (m : bytes) : bytes := be_bytes 8 (polynomial_hash m) ++ replicate 24 1%Z.

Lemma checksum_length m : length (checksum m) = 32%nat.
Proof. unfold checksum. by rewrite length_app, be_bytes_length. Qed.

Lemma checksum_bytes m : Forall is_byte (checksum m).
Proof. apply Forall_app. split; [apply be_bytes_bytes | by apply Forall_replicate]. Qed.

Definition checksum_digest : Digest := {|
  sha256 := checksum;
  sha256_length := checksum_length;
  sha256_bytes := checksum_bytes
|}.

(** Evaluates the tests and checks every assertion. *)
Ltac replay :=
  vm_compute; repeat split; first [reflexivity | discriminate | intros ?; discriminate].
