(* ===== verification/ConformanceGates.v ===== *)
(** * The tests of the gates

    The unit tests of [tier], [tier_gate], [highway], [transit],
    [level_tag], [hookwall], [sign_gate], [spawn_gate] and [link_auth]
    ([kernel/core/src]), replayed on the model; a Module per test module. *)

From S2P Require Import Prelude Digest Sha256 Access CosignChain Crypto Transit LevelTag SyscallTypes Hookwall SignGate SpawnGate.
From S2P Require Import LinkAuth Replay.

Module TierTests.
Import Tier.

Definition seven_tier_policy_table_complete : Prop := length TIER_POLICY_TABLE = 7%nat.

Definition public_authority_is_any_agent_read : Prop := authority <$> policy_for Public = Some AnyAgentRead.

Definition secret_authority_is_operator_witness_required : Prop :=
  authority <$> policy_for Secret = Some OperatorWitnessRequired.

Definition classify_big_pickle_quarantine_is_hidden : Prop :=
  classify_path (lit "C:/asolaria-acer/_big-pickle-quarantine/something") = Ok Hidden.

Definition classify_sovlinux_usb_is_shadow : Prop := classify_path (lit "/mnt/sovlinux/cold-storage") = Ok Shadow.

Definition classify_random_path_is_public : Prop := classify_path (lit "/usr/local/bin/foo") = Ok Public.

Definition empty_path_is_malformed : Prop := classify_path (lit "") = Err PathMalformed.

Definition quintuple_auth_covers_all_tiers_during_window : Prop :=
  for_all [Public; Restricted; Stealth; Hidden; Shadow; Secret; Sovereignty] (fun t => quintuple_auth_covers t = true).

End TierTests.

Module TierGateTests.
Import TierGate.

Definition ALL_TIERS : list AccessTier := [Public; Restricted; Stealth; Hidden; Shadow; Secret; Sovereignty].

Definition public_caller_allows_public_and_restricted_denies_rest : Prop :=
  check Public Public = Allow /\ check Public Restricted = Allow /\ check Public Stealth = Deny /\
  check Public Hidden = Deny /\ check Public Shadow = Deny /\ check Public Secret = Deny /\
  tier_can_access Public Restricted = true /\ tier_can_access Public Hidden = false.

Definition restricted_caller_allows_through_stealth_escalates_higher : Prop :=
  check Restricted Public = Allow /\ check Restricted Restricted = Allow /\ check Restricted Stealth = Allow /\
  check Restricted Hidden = Escalate /\ check Restricted Shadow = Escalate /\ check Restricted Secret = Escalate.

Definition stealth_and_hidden_callers_allow_same_or_lower_escalate_higher : Prop :=
  check Stealth Public = Allow /\ check Stealth Stealth = Allow /\
  check Stealth Hidden = Escalate /\ check Stealth Secret = Escalate /\
  check Hidden Restricted = Allow /\ check Hidden Hidden = Allow /\
  check Hidden Shadow = Escalate /\ check Hidden Secret = Escalate.

Definition shadow_and_secret_callers_allow_lower_or_equal_deny_higher_no_escalation : Prop :=
  check Shadow Public = Allow /\ check Shadow Hidden = Allow /\ check Shadow Shadow = Allow /\
  check Shadow Secret = Deny /\ check Shadow Sovereignty = Deny /\
  for_all ALL_TIERS (fun t => check Secret t = if bool_decide (t = Sovereignty) then Deny else Allow) /\
  for_all ALL_TIERS (fun t => check Shadow t <> Escalate /\ check Secret t <> Escalate).

Definition sovereignty_target_always_denies_for_non_sovereignty_caller : Prop :=
  for_all ALL_TIERS (fun c => if bool_decide (c = Sovereignty) then True else check c Sovereignty = Deny).

Definition sovereignty_caller_allows_all_targets_operator_physical_universal : Prop :=
  for_all ALL_TIERS (fun t => check Sovereignty t = Allow).

Definition matrix_totals_match_canon_allow_deny_escalate_counts_7_tiers : Prop :=
  let matrix := flat_map (fun c => map (fun t => (c, t)) ALL_TIERS) ALL_TIERS in
  let count v := length (filter (fun p => check p.1 p.2 = v) matrix) in
  count Allow = 30%nat /\ count Deny = 11%nat /\ count Escalate = 8%nat /\
  (count Allow + count Deny + count Escalate)%nat = 49%nat /\
  length (filter (fun p => tier_can_access p.1 p.2 = true) matrix) = count Allow.

End TierGateTests.

Module HighwayTests.
Import Highway.

Definition same_tier_is_no_transit : Prop := check_transit Public Public = Err SameTier.

Definition public_to_secret_authorized_under_quintuple_auth : Prop :=
  on_ok (check_transit Public Secret) (fun v => authorized v = true /\ from v = Public /\ to v = Secret).

Definition hidden_to_shadow_authorized_under_quintuple_auth : Prop :=
  on_ok (check_transit Hidden Shadow) (fun v => authorized v = true).

Definition execute_stub_returns_unimplemented : Prop :=
  (execute_transit CosignChain.new Public Restricted (lit "res-0")).1 = Err Unimplemented.

End HighwayTests.

Module TransitTests.
Import Transit.

Definition tier_mismatch_is_denied : Prop :=
  (execute initial_transit_id (Build_TransitRequest Public Public 128)).1 = Err TierMismatch.

Definition oversized_payload_is_denied : Prop :=
  (execute initial_transit_id (Build_TransitRequest Public Restricted (MAX_TRANSIT_ENVELOPE_BYTES + 1))).1 = Err OversizedPayload.

Definition valid_transit_returns_id : Prop :=
  on_ok (execute initial_transit_id (Build_TransitRequest Public Secret 4096)).1 (fun id => (1 <= id)%Z).

Definition transit_id_increments : Prop :=
  let req := Build_TransitRequest Public Hidden 256 in
  let '(a, next) := execute initial_transit_id req in
  on_ok a (fun a => on_ok (execute next req).1 (fun b => (a < b)%Z)).

End TransitTests.

Module LevelTagTests.
Import LevelTag.

Definition legal_evidence_path_is_owner_private : Prop :=
  assign_level (lit "C:/Users/rayss/Asolaria/reports/legal/evidence-package/06-google-support-refund-complaints/x.md")
    (lit "any content") = LEVEL_OWNER_PRIVATE.

Definition cnpj_content_is_owner_private_even_on_a_neutral_path : Prop :=
  assign_level (lit "C:/x/reports/qdd.md") (lit "order for CNPJ 11222333000181 placed") = LEVEL_OWNER_PRIVATE /\
  assign_level (lit "C:/x/notes.md") (lit "paypal payment to ...") = LEVEL_OWNER_PRIVATE.

Definition public_canon_path_is_level_public : Prop :=
  assign_level (lit "reports/asolaria-multi-cylinder-v2.html") (lit "cylinders / pipes / surfaces") = LEVEL_PUBLIC /\
  assign_level (lit "docs/what-is-asolaria.md") (lit "addressing geometry") = LEVEL_PUBLIC.

Definition pii_always_beats_public_canon_naming : Prop :=
  assign_level (lit "reports/asolaria-real-model.html") (lit "leaked: zelle transfer ...") = LEVEL_OWNER_PRIVATE.

Definition unknown_row_is_federation_not_public : Prop :=
  assign_level (lit "C:/x/internal/thing.hbp") (lit "no pii, not canon") = LEVEL_FEDERATION.

Definition helpers_behave : Prop :=
  contains_ci (lit "Legal/Evidence-Package") (lit "evidence-package") = true /\
  contains_ci (lit "clean/path") (lit "evidence-package") = false /\
  has_digit_run (lit "abc 11222333000181 def") 14 = true /\
  has_digit_run (lit "only 1234567 here") 14 = false.

Definition the_public_tier_is_provably_pii_free : Prop :=
  for_all [(lit "reports/legal/x.md", lit "a"); (lit "readme.md", lit "cnpj 12345678000199 here");
           (lit "docs/what-is-asolaria.md", lit "paypal ..."); (lit "x/.asolaria/recall.key", lit "secret")]
    (fun row => assign_level row.1 row.2 <> LEVEL_PUBLIC).

Definition coverage_gap_findings_2026_06_22_are_owner_private : Prop :=
  for_all
    [lit "C:/asolaria-acer/packages/immune-l1-supervisor/keys/supervisor.ed25519.pem";
     lit "C:/Users/acer/Asolaria/data/vault.master.key";
     lit "C:/Users/acer/Asolaria/data/vault/owner/crypto-capsule/ed25519.key.pem";
     lit "C:/Users/acer/Asolaria/sovereignty/data/falcon-dump/sdcard/Download/April bank statement.PDF";
     lit "C:/Users/acer/Asolaria/data/s22-legal-recovery/packet.txt";
     lit "C:/Users/acer/Asolaria/tools/google-password-candidates.py";
     lit "D:/Asolaria-RECOVERED/Asolaria/bank-account-transcrtions/README.md";
     lit "C:/Users/acer/.asolaria";
     lit "C:/x/s22-mounted-access/dcim.json";
     lit "C:/asolaria-acer/packages/dashboard/.../pdf-claude-secret-settings.txt"]
    (fun p => assign_level p [] = LEVEL_OWNER_PRIVATE) /\
  for_all
    [lit "C:/asolaria-acer/README.md"; lit "C:/Users/acer/Asolaria/BROWN-HILBERT.md";
     lit "reports/asolaria-multi-cylinder-v2.html"; lit "docs/what-is-asolaria.md"]
    (fun p => assign_level p (lit "clean canon body") = LEVEL_PUBLIC).

End LevelTagTests.

Module HookwallTests.
Import Hookwall.

Definition slot_count_is_64 : Prop := HOOKWALL_SLOT_COUNT = 64%Z.

Definition micro_tier_pre_proceeds : Prop := hookwall_pre (mkContext 0 1 0 Micro Public) = Ok Proceed.

Definition cosign_tier_pre_holds : Prop := hookwall_pre (mkContext 0 1 0 Cosign Restricted) = Ok Hold.

Definition firmware_tier_pre_blocks : Prop := hookwall_pre (mkContext 0 1 0 Firmware Secret) = Ok Block.

Definition slot_out_of_range_returns_invalid : Prop := hookwall_pre (mkContext 64 1 0 Micro Public) = Err Invalid.

End HookwallTests.

Module SignGateTests.
Import SignGate.

Definition default_denies_match_canon : Prop :=
  length DEFAULT_DENIES = 5%nat /\
  for_all [lit "HD-virus"; lit "drift"; lit "malformed-PID"]
    (fun d => existsb (bytes_eqb d) DEFAULT_DENIES = true).

Definition deny_check_clean_tags_pass : Prop := deny_check [lit "safe-tag"; lit "all-clear"] DEFAULT_DENIES = true.

Definition deny_check_substring_match_fails : Prop :=
  deny_check [lit "something-HD-virus-name"] DEFAULT_DENIES = false /\
  deny_check [lit "drift-detected"] DEFAULT_DENIES = false.

Definition task_39_uppercase_virus_envvar_allowed : Prop :=
  task_39_envvar_virus_allow (lit "ASOLARIA_VIRUS_SCANNER") = true /\
  task_39_envvar_virus_allow (lit "VIRUS_DB") = true /\ task_39_envvar_virus_allow (lit "MY_VIRUS_FLAG_2") = true.

Definition task_39_lowercase_or_freetext_rejected : Prop :=
  task_39_envvar_virus_allow (lit "asolaria_virus_scanner") = false /\
  task_39_envvar_virus_allow (lit "3VIRUS_NAME") = false /\ task_39_envvar_virus_allow (lit "SOMETHING ELSE") = false.

Definition zero_sig : Crypto.Signature := Crypto.mkSignature (replicate 64 0%Z).
Definition zero_pk : Crypto.PublicKey := Crypto.mkPublicKey (replicate 32 0%Z).

Definition gate_envelope_sig_invalid_rejects : Prop :=
  let v := gate_envelope (lit "canonical-bytes") zero_sig zero_pk (lit "ed25519") [lit "safe"] [lit "BAR"] in
  sig_valid v = false /\ admitted v = false.

Definition gate_envelope_empty_bytes_rejects : Prop :=
  let v := gate_envelope [] zero_sig zero_pk (lit "ed25519") [] [] in sig_valid v = false /\ admitted v = false.

End SignGateTests.

Module SpawnGateTests.
Import SpawnGate.

Definition input (tags : list bytes) (tier : Hookwall.HookTier) (fwd rev : Z) : SpawnGateInput :=
  mkInput 0 1 0xABCD tier Public tags fwd rev.

Definition thresholds_match_omniflywheel : Prop := GATE_GENIUS_THRESHOLD_Q = 720%Z /\ GATE_MAX_REVERSE_RISK_Q = 280%Z.

Definition clean_micro_high_score_low_risk_proceeds : Prop :=
  spawn_gate_verdict (input [lit "safe-tag"; lit "all-clear"] Hookwall.Micro 800 100) = Proceed.

Definition banned_tag_blocks_even_if_everything_else_passes : Prop :=
  spawn_gate_verdict (input [lit "work"; lit "drift-detected"] Hookwall.Micro 999 0) = Block.

Definition firmware_blocks_and_cosign_holds_regardless_of_score : Prop :=
  spawn_gate_verdict (input [lit "safe-tag"] Hookwall.Firmware 999 0) = Block /\
  spawn_gate_verdict (input [lit "safe-tag"] Hookwall.Cosign 999 0) = Hold.

Definition clean_micro_but_weak_score_or_high_risk_holds : Prop :=
  let tags := [lit "safe-tag"] in
  spawn_gate_verdict (input tags Hookwall.Micro 700 100) = Hold /\
  spawn_gate_verdict (input tags Hookwall.Micro 800 300) = Hold /\
  spawn_gate_verdict (input tags Hookwall.Micro GATE_GENIUS_THRESHOLD_Q GATE_MAX_REVERSE_RISK_Q) = Proceed.

Definition out_of_range_slot_blocks_conservatively : Prop :=
  spawn_gate_verdict (mkInput 64 1 0xABCD Hookwall.Micro Public [lit "safe-tag"] 800 100) = Block.

Definition seal_row_is_hvd_witness_bytes : Prop :=
  let row := seal_row (input [lit "safe-tag"] Hookwall.Micro 800 100) Proceed in
  take 3 (drop 13 row) = lit "HVD" /\ row !! 3%nat = Some 1%Z.

End SpawnGateTests.

Module LinkAuthTests.
Import LinkAuth.

(** [hex32]. *)
Definition hex32 (mac : bytes) : bytes := hex_of mac.

Definition hmac_matches_rfc_known_vector : Prop :=
  hex32 (hmac_sha256_parts (lit "key") [lit "The quick brown fox jumps over the lazy dog"]) =
  lit "f7bc83f430538424b13298e6aa6fb143ef4d59a14946175997479dbc2d1a3cd8".

Definition signed_request (key owner host verb nonce : bytes) (ts : Z) : LinkRequest :=
  let mac := hmac_sha256_parts key
    [lit "LINK|"; owner; lit "|"; host; lit "|"; verb; lit "|"; nonce; lit "|"; be_bytes 8 ts] in
  mkRequest owner host verb nonce ts (hex32 mac).

Definition KEY : bytes := lit "test-link-key-fixture-not-a-real-secret".
Definition GRANTS : list bytes := [lit "OP-JESSE"; lit "OP-RAYSSA"].

Definition rayssa : LinkRequest := signed_request KEY (lit "OP-RAYSSA") (lit "liris") (lit "search") (lit "n1") 1000.

Definition valid_keyed_consented_fresh_request_is_allowed : Prop := verify_link rayssa KEY GRANTS 1005 120 = Allow.

Definition wrong_key_is_denied_bad_hmac : Prop :=
  verify_link rayssa (lit "not-the-shared-key") GRANTS 1005 120 = DenyBadHmac.

Definition ungranted_owner_is_denied : Prop :=
  verify_link (signed_request KEY (lit "OP-STRANGER") (lit "evil") (lit "search") (lit "n1") 1000) KEY GRANTS 1005 120
  = DenyOwnerNotGranted.

Definition stale_request_is_denied : Prop :=
  verify_link (signed_request KEY (lit "OP-JESSE") (lit "acer") (lit "search") (lit "n1") 1000) KEY GRANTS (1000 + 9999) 120
  = DenyStale.

Definition verb_is_bound_into_the_signature : Prop :=
  verify_link (mkRequest (owner_pid rayssa) (host rayssa) (lit "fabric-write") (nonce rayssa) (ts_unix_s rayssa)
                 (hmac_hex rayssa)) KEY GRANTS 1005 120 = DenyBadHmac.

Definition malformed_request_is_denied : Prop :=
  verify_link (mkRequest (lit "OP-JESSE") (lit "acer") (lit "search") (lit "n1") 1000 (lit "tooshort")) KEY GRANTS 1005 120
  = DenyMalformed.

Definition access_levels_share_different_tiers_per_owner : Prop :=
  let grants := [mkGrant (lit "OP-RAYSSA") 9; mkGrant (lit "OP-GUEST") LEVEL_PUBLIC] in
  granted_level (lit "OP-RAYSSA") grants = Some 9%Z /\ granted_level (lit "OP-GUEST") grants = Some LEVEL_PUBLIC /\
  granted_level (lit "OP-STRANGER") grants = None /\ effective_level (lit "OP-GUEST") 9 grants = Some LEVEL_PUBLIC /\
  effective_level (lit "OP-RAYSSA") 5 grants = Some 5%Z /\ effective_level (lit "OP-RAYSSA") 99 grants = Some 9%Z /\
  effective_level (lit "OP-STRANGER") 0 grants = None.

End LinkAuthTests.

Lemma tier_tests_pass : for_all [
    TierTests.seven_tier_policy_table_complete;
    TierTests.public_authority_is_any_agent_read;
    TierTests.secret_authority_is_operator_witness_required;
    TierTests.classify_big_pickle_quarantine_is_hidden;
    TierTests.classify_sovlinux_usb_is_shadow;
    TierTests.classify_random_path_is_public;
    TierTests.empty_path_is_malformed;
    TierTests.quintuple_auth_covers_all_tiers_during_window] (fun test => test).
Proof. replay. Qed.

Lemma tier_gate_tests_pass : for_all [
    TierGateTests.public_caller_allows_public_and_restricted_denies_rest;
    TierGateTests.restricted_caller_allows_through_stealth_escalates_higher;
    TierGateTests.stealth_and_hidden_callers_allow_same_or_lower_escalate_higher;
    TierGateTests.shadow_and_secret_callers_allow_lower_or_equal_deny_higher_no_escalation;
    TierGateTests.sovereignty_target_always_denies_for_non_sovereignty_caller;
    TierGateTests.sovereignty_caller_allows_all_targets_operator_physical_universal;
    TierGateTests.matrix_totals_match_canon_allow_deny_escalate_counts_7_tiers] (fun test => test).
Proof. replay. Qed.

Lemma highway_tests_pass : for_all [
    HighwayTests.same_tier_is_no_transit;
    HighwayTests.public_to_secret_authorized_under_quintuple_auth;
    HighwayTests.hidden_to_shadow_authorized_under_quintuple_auth;
    HighwayTests.execute_stub_returns_unimplemented] (fun test => test).
Proof. replay. Qed.

Lemma transit_tests_pass : for_all [
    TransitTests.tier_mismatch_is_denied;
    TransitTests.oversized_payload_is_denied;
    TransitTests.valid_transit_returns_id;
    TransitTests.transit_id_increments] (fun test => test).
Proof. replay. Qed.

Lemma level_tag_tests_pass : for_all [
    LevelTagTests.legal_evidence_path_is_owner_private;
    LevelTagTests.cnpj_content_is_owner_private_even_on_a_neutral_path;
    LevelTagTests.public_canon_path_is_level_public;
    LevelTagTests.pii_always_beats_public_canon_naming;
    LevelTagTests.unknown_row_is_federation_not_public;
    LevelTagTests.helpers_behave;
    LevelTagTests.the_public_tier_is_provably_pii_free;
    LevelTagTests.coverage_gap_findings_2026_06_22_are_owner_private] (fun test => test).
Proof. replay. Qed.

Lemma hookwall_tests_pass : for_all [
    HookwallTests.slot_count_is_64;
    HookwallTests.micro_tier_pre_proceeds;
    HookwallTests.cosign_tier_pre_holds;
    HookwallTests.firmware_tier_pre_blocks;
    HookwallTests.slot_out_of_range_returns_invalid] (fun test => test).
Proof. replay. Qed.

Lemma sign_gate_tests_pass : for_all [
    SignGateTests.default_denies_match_canon;
    SignGateTests.deny_check_clean_tags_pass;
    SignGateTests.deny_check_substring_match_fails;
    SignGateTests.task_39_uppercase_virus_envvar_allowed;
    SignGateTests.task_39_lowercase_or_freetext_rejected;
    SignGateTests.gate_envelope_sig_invalid_rejects;
    SignGateTests.gate_envelope_empty_bytes_rejects] (fun test => test).
Proof. replay. Qed.

Lemma spawn_gate_tests_pass : for_all [
    SpawnGateTests.thresholds_match_omniflywheel;
    SpawnGateTests.clean_micro_high_score_low_risk_proceeds;
    SpawnGateTests.banned_tag_blocks_even_if_everything_else_passes;
    SpawnGateTests.firmware_blocks_and_cosign_holds_regardless_of_score;
    SpawnGateTests.clean_micro_but_weak_score_or_high_risk_holds;
    SpawnGateTests.out_of_range_slot_blocks_conservatively;
    SpawnGateTests.seal_row_is_hvd_witness_bytes] (fun test => test).
Proof. replay. Qed.

Lemma link_auth_tests_pass : for_all [
    LinkAuthTests.hmac_matches_rfc_known_vector;
    LinkAuthTests.valid_keyed_consented_fresh_request_is_allowed;
    LinkAuthTests.wrong_key_is_denied_bad_hmac;
    LinkAuthTests.ungranted_owner_is_denied;
    LinkAuthTests.stale_request_is_denied;
    LinkAuthTests.verb_is_bound_into_the_signature;
    LinkAuthTests.malformed_request_is_denied;
    LinkAuthTests.access_levels_share_different_tiers_per_owner] (fun test => test).
Proof. replay. Qed.
