(* ===== verification/ConformanceKernel.v ===== *)
(** * The tests of the kernel services

    The unit tests of [frame_alloc], [envelope], [vfs], [gnn] and [syscall]
    ([kernel/core/src]), replayed on the model; a Module per test module.
    [reset_for_tests] is the start of the replay from the initial statics,
    and a test that runs several calls threads them. *)

From S2P Require Import Prelude Digest Sha256 Access CosignChain SyscallTypes Hookwall Gnn Envelope Queue FrameAlloc Vfs.
From S2P Require Import AgentRuntime AgentRegistry Utf8 Syscall Replay.

#[local] Open Scope Z_scope.

Module FrameAllocTests.
Import FrameAlloc.

(** [reset_for_tests()]. *)
Definition reset_for_tests (next : Z) : Z := VIRTUAL_BASE_START.

Definition fresh : Z := reset_for_tests initial.

Definition alloc_zero_len_returns_invalid_len : Prop := (alloc_pages fresh 0).1 = Err InvalidLen.

Definition alloc_one_byte_rounds_to_full_page : Prop :=
  then_ok (alloc_pages fresh 1) (fun p next => p = VIRTUAL_BASE_START /\ used_bytes next = PAGE_BYTES).

Definition alloc_returns_page_aligned_pointers : Prop :=
  then_ok (alloc_pages fresh 8000) (fun p1 next =>
  then_ok (alloc_pages next 4096) (fun p2 _ =>
  p1 mod PAGE_BYTES = 0 /\ p2 mod PAGE_BYTES = 0 /\ p1 < p2)).

Definition alloc_exhausting_pool_returns_pool_exhausted : Prop :=
  then_ok (alloc_pages fresh POOL_BYTES) (fun p next =>
  p = VIRTUAL_BASE_START /\ used_bytes next = POOL_BYTES /\ (alloc_pages next 1).1 = Err PoolExhausted).

Definition alloc_oversized_first_request_returns_pool_exhausted : Prop :=
  (alloc_pages fresh (POOL_BYTES + 1)).1 = Err PoolExhausted.

Definition free_null_pointer_returns_invalid_pointer : Prop := free_pages 0 PAGE_BYTES = Err InvalidPointer.

Definition free_zero_len_returns_invalid_len : Prop := free_pages VIRTUAL_BASE_START 0 = Err InvalidLen.

Definition free_out_of_range_pointer_returns_invalid_pointer : Prop :=
  free_pages 2048 PAGE_BYTES = Err InvalidPointer /\ free_pages VIRTUAL_BASE_END PAGE_BYTES = Err InvalidPointer.

Definition free_unaligned_in_range_pointer_returns_not_page_aligned : Prop :=
  free_pages (VIRTUAL_BASE_START + 1) PAGE_BYTES = Err NotPageAligned.

Definition alloc_then_free_round_trip_succeeds : Prop :=
  then_ok (alloc_pages fresh 8192) (fun p _ => free_pages p 8192 = Ok tt).

End FrameAllocTests.

Module EnvelopeTests.
Import Envelope.

Definition capacity_is_16384 : Prop := ENVELOPE_QUEUE_CAPACITY = 16384.

Definition gc_threshold_is_75pct : Prop :=
  ENVELOPE_GC_TRIGGER_PCT = 75 /\ ENVELOPE_QUEUE_CAPACITY * ENVELOPE_GC_TRIGGER_PCT / 100 = 12288.

Definition route_hints_have_canonical_values : Prop :=
  route_value LOCAL = 0 /\ route_value QUAD_BROADCAST = 1 /\ route_value TRIAD_BROADCAST = 2.

Definition min_envelope_bytes_is_syscall_floor : Prop := MIN_ENVELOPE_BYTES = 32.

Definition stub_enqueue_returns_unimplemented : Prop :=
  let sig := replicate 64 0 in
  let header := mkHeader 0 0 (lit "TEST") (lit "EVT-TEST") (lit "test-0") 0 (lit "") sig in
  dispatch_enqueue header LOCAL = Err Unimplemented.

Definition queue_depth_starts_empty : Prop := queue_depth initial = 0 /\ should_trigger_gc initial = false.

End EnvelopeTests.

Module GnnTests.
Import Gnn.

Definition gnn_edges_target_is_2_16_m : Prop := GNN_EDGES_TARGET = 2158671.

Definition latency_budget_is_100ms : Prop := GNN_INFER_P99_LATENCY_MS_BUDGET = 100.

Definition batch_target_matches_q_cohort_canon : Prop := GNN_BATCH_TARGET_PER_SEC = 40783.

Definition new_inference_not_ready : Prop := is_ready new = false.

Definition fallback_route_is_local : Prop := predict_route new (lit "test") = Ok Local.

Definition fallback_verdict_is_hold : Prop := aggregate_verdict new 50 100 = Ok Hold.

Definition deterministic_fallback_top_3 : Prop :=
  let items := [lit "a"; lit "b"; lit "c"; lit "d"] in
  let ranked := top_n_deterministic_fallback items 3 in
  length ranked = 3%nat /\
  on_some (ranked !! 0%nat) (fun r0 => on_some (ranked !! 1%nat) (fun r1 =>
  item_id r0 = lit "a" /\ score_micro r1 < score_micro r0)).

End GnnTests.

Module VfsTests.
Import Vfs.

Definition fresh : table := reset_for_tests initial.
Definition empty_slot : Envelope.Slot := Envelope.reset_slot_for_tests Envelope.initial.
Definition buf (n : nat) : bytes := replicate n 0.

(** The results of a read and of a write with the slot empty. *)
Definition read (t : table) (fd : Z) (b : bytes) (len : Z) : result VfsErr Z := (vfs_read t empty_slot fd b len).1.1.
Definition write (t : table) (fd : Z) (b : bytes) : result VfsErr Z := (vfs_write t empty_slot fd b).1.

Definition reserved_fd_constants_are_canonical : Prop :=
  STDIN_FD = 0 /\ STDOUT_FD = 1 /\ STDERR_FD = 2 /\ RESERVED_FD_MAX = 2.

Definition vfs_read_stdin_returns_eof : Prop := read fresh STDIN_FD (buf 16) 8 = Ok 0.

Definition vfs_read_stdout_or_stderr_rejects : Prop :=
  read fresh STDOUT_FD (buf 16) 8 = Err InvalidOpForFd /\ read fresh STDERR_FD (buf 16) 8 = Err InvalidOpForFd.

Definition vfs_read_other_fd_returns_invalid_fd : Prop :=
  read fresh 99 (buf 16) 8 = Err InvalidFd /\ read fresh (2 ^ 64 - 1) (buf 16) 8 = Err InvalidFd.

Definition vfs_read_len_exceeding_buf_rejects : Prop := read fresh STDIN_FD (buf 4) 5 = Err LenExceedsBuf.

Definition vfs_write_stdout_accepts : Prop := write fresh STDOUT_FD (lit "hello") = Ok 5.

Definition vfs_write_stderr_accepts : Prop := write fresh STDERR_FD (lit "error message") = Ok 13.

Definition vfs_write_stdin_rejects : Prop := write fresh STDIN_FD (lit "x") = Err InvalidOpForFd.

Definition vfs_write_other_fd_returns_invalid_fd : Prop :=
  write fresh 99 (lit "x") = Err InvalidFd /\ write fresh (2 ^ 64 - 1) (lit "x") = Err InvalidFd.

Definition vfs_write_empty_buf_returns_invalid_buf : Prop := write fresh STDOUT_FD (lit "") = Err InvalidBuf.

Definition vfs_v02_fd_table_size_is_256 : Prop := FD_TABLE_SIZE = 256.

Definition vfs_v02_mode_bits_are_canonical : Prop :=
  O_RDONLY = 1 /\ O_WRONLY = 2 /\ O_RDWR = 3 /\ MODE_MASK = 3.

Definition reserved_open (t : table) : Prop :=
  vfs_is_open t STDIN_FD = true /\ vfs_is_open t STDOUT_FD = true /\ vfs_is_open t STDERR_FD = true.

Definition vfs_v02_reserved_fds_are_always_open : Prop := reserved_open fresh.

Definition vfs_v02_is_open_rejects_out_of_range : Prop :=
  vfs_is_open fresh FD_TABLE_SIZE = false /\ vfs_is_open fresh (2 ^ 64 - 1) = false.

Definition vfs_v02_open_rejects_empty_path : Prop := (vfs_open fresh (lit "") O_RDONLY).1 = Err InvalidPath.

Definition vfs_v02_open_rejects_zero_mode : Prop := (vfs_open fresh (lit "/foo") 0).1 = Err InvalidMode.

Definition vfs_v02_open_rejects_unknown_mode_bits : Prop :=
  (vfs_open fresh (lit "/foo") 128).1 = Err InvalidMode /\
  (vfs_open fresh (lit "/foo") (Z.lor O_RDWR 128)).1 = Err InvalidMode.

Definition vfs_v02_open_allocates_lowest_free_slot_starting_at_3 : Prop :=
  then_ok (vfs_open fresh (lit "/dev/null") O_RDONLY) (fun fd t => fd = 3 /\ vfs_is_open t fd = true).

Definition vfs_v02_open_returns_monotonic_lowest_free : Prop :=
  then_ok (vfs_open fresh (lit "/a") O_RDONLY) (fun a t =>
  then_ok (vfs_open t (lit "/b") O_WRONLY) (fun b t =>
  then_ok (vfs_open t (lit "/c") O_RDWR) (fun c _ => a = 3 /\ b = 4 /\ c = 5))).

Definition vfs_v02_open_then_close_recycles_lowest_slot : Prop :=
  then_ok (vfs_open fresh (lit "/a") O_RDONLY) (fun a t =>
  then_ok (vfs_open t (lit "/b") O_RDONLY) (fun b t =>
  a = 3 /\ b = 4 /\
  then_ok (vfs_close t a) (fun _ t =>
  then_ok (vfs_open t (lit "/c") O_RDONLY) (fun c _ => c = 3)))).

Definition vfs_v02_close_rejects_reserved_fds : Prop :=
  for_all [STDIN_FD; STDOUT_FD; STDERR_FD] (fun fd => (vfs_close fresh fd).1 = Err InvalidOpForFd).

Definition vfs_v02_close_rejects_out_of_range_fd : Prop :=
  (vfs_close fresh FD_TABLE_SIZE).1 = Err InvalidFd /\ (vfs_close fresh (2 ^ 64 - 1)).1 = Err InvalidFd.

Definition vfs_v02_close_rejects_free_slot : Prop := (vfs_close fresh 5).1 = Err InvalidFd.

Definition vfs_v02_double_close_rejects : Prop :=
  then_ok (vfs_open fresh (lit "/foo") O_RDONLY) (fun fd t =>
  then_ok (vfs_close t fd) (fun _ t => (vfs_close t fd).1 = Err InvalidFd)).

Definition vfs_v02_reset_clears_user_slots_but_reserved_stay_open : Prop :=
  then_ok (vfs_open fresh (lit "/foo") O_RDONLY) (fun fd t =>
  vfs_is_open t fd = true /\ vfs_is_open (reset_for_tests t) fd = false /\ reserved_open (reset_for_tests t)).

Definition vfs_v02_table_full_after_exhausting_user_slots : Prop :=
  let user_slot_count := Z.to_nat (FD_TABLE_SIZE - (RESERVED_FD_MAX + 1)) in
  then_ok
    (fold_left (fun (acc : result VfsErr unit * table) _ =>
                  let '(r, t) := acc in
                  let '(r', t') := vfs_open t (lit "/x") O_RDONLY in
                  (match r, r' with Ok _, Ok _ => Ok tt | Err e, _ | _, Err e => Err e end, t'))
       (seq 0 user_slot_count) (Ok tt, fresh))
    (fun _ t => (vfs_open t (lit "/y") O_RDONLY).1 = Err TableFull).

Definition vfs_v02_read_on_user_slot_still_returns_invalid_fd : Prop :=
  then_ok (vfs_open fresh (lit "/foo") O_RDWR) (fun fd t => read t fd (buf 16) 8 = Err InvalidFd).

Definition vfs_v02_write_on_user_slot_still_returns_invalid_fd : Prop :=
  then_ok (vfs_open fresh (lit "/foo") O_RDWR) (fun fd t => write t fd (lit "hello") = Err InvalidFd).

Definition vfs_v03_binding_kind_constants_canonical : Prop :=
  FD_BIND_UNBACKED = 1 /\ FD_BIND_DEVNULL = 2 /\ FD_BIND_BUSENVELOPE = 3 /\ FD_STATE_OPEN = FD_BIND_UNBACKED.

Definition vfs_v03_binding_kind_for_path_dispatch : Prop :=
  binding_kind_for_path (lit "/dev/null") = FD_BIND_DEVNULL /\
  binding_kind_for_path (lit "/dev/bus/envelope") = FD_BIND_BUSENVELOPE /\
  binding_kind_for_path (lit "/foo") = FD_BIND_UNBACKED /\
  binding_kind_for_path (lit "/dev/null/extra") = FD_BIND_UNBACKED.

(** [FD_STATE[fd as usize].load(Acquire)]. *)
Definition bound (t : table) (fd kind : Z) : Prop := t !! Z.to_nat fd = Some kind.

Definition vfs_v03_open_dev_null_returns_devnull_binding : Prop :=
  then_ok (vfs_open fresh (lit "/dev/null") O_RDWR) (fun fd t =>
  bound t fd FD_BIND_DEVNULL /\ vfs_is_open t fd = true).

Definition vfs_v03_open_dev_bus_envelope_returns_busenvelope_binding : Prop :=
  then_ok (vfs_open fresh (lit "/dev/bus/envelope") O_RDWR) (fun fd t =>
  bound t fd FD_BIND_BUSENVELOPE /\ vfs_is_open t fd = true).

Definition vfs_v03_read_devnull_returns_eof : Prop :=
  then_ok (vfs_open fresh (lit "/dev/null") O_RDONLY) (fun fd t => read t fd (buf 16) 8 = Ok 0).

Definition vfs_v03_write_devnull_discards_and_returns_buf_len : Prop :=
  then_ok (vfs_open fresh (lit "/dev/null") O_WRONLY) (fun fd t =>
  write t fd (lit "hello world") = Ok 11 /\ write t fd (lit "") = Err InvalidBuf).

Definition vfs_v03_read_busenvelope_empty_returns_would_block : Prop :=
  then_ok (vfs_open fresh (lit "/dev/bus/envelope") O_RDWR) (fun fd t => read t fd (buf 128) 128 = Err WouldBlock).

Definition vfs_v03_busenvelope_write_then_read_round_trip : Prop :=
  then_ok (vfs_open fresh (lit "/dev/bus/envelope") O_RDWR) (fun fd t =>
  let env := quoted (lit "{'from':'acer','to':'liris','type':'VFS'}padding") in
  32 <= zlen env /\
  then_ok (vfs_write t empty_slot fd env) (fun w q =>
  let '(r, q, b) := vfs_read t q fd (buf 128) 128 in
  w = zlen env /\
  on_ok r (fun n => n = zlen env /\ take (Z.to_nat n) b = env) /\
  (vfs_read t q fd b 128).1.1 = Err WouldBlock)).

Definition vfs_v03_busenvelope_write_oversize_returns_payload_oversize : Prop :=
  then_ok (vfs_open fresh (lit "/dev/bus/envelope") O_WRONLY) (fun fd t =>
  write t fd (replicate 1025 170) = Err PayloadOversize).

Definition vfs_v03_close_releases_devnull_binding : Prop :=
  then_ok (vfs_open fresh (lit "/dev/null") O_RDWR) (fun fd t =>
  then_ok (vfs_close t fd) (fun _ t =>
  read t fd (buf 16) 8 = Err InvalidFd /\ write t fd (lit "x") = Err InvalidFd)).

Definition vfs_v03_close_releases_busenvelope_binding : Prop :=
  then_ok (vfs_open fresh (lit "/dev/bus/envelope") O_RDWR) (fun fd t =>
  then_ok (vfs_close t fd) (fun _ t =>
  read t fd (buf 64) 64 = Err InvalidFd /\ write t fd (lit "x") = Err InvalidFd)).

End VfsTests.

Module SyscallTests.
Import Syscall.

(** The kernel with the slot and the frame pool reset. *)
Definition k0 : Kernel Envelope.Slot := boot_kernel.
Definition reset_slot (k : Kernel Envelope.Slot) : Kernel Envelope.Slot :=
  set_queue k (Envelope.reset_slot_for_tests (queue k)).
Definition buf (n : nat) : bytes := replicate n 0.
Definition read (k : Kernel Envelope.Slot) (fd : Z) (b : bytes) (len : Z) : result SyscallErr Z := (sys_read k fd b len).1.1.
Definition write (k : Kernel Envelope.Slot) (fd : Z) (b : bytes) : result SyscallErr Z := (sys_write k fd b).1.

Definition canonical_syscall_count_is_exactly_16 : Prop := length CANONICAL_SYSCALLS = 16%nat.

Definition sys_read_stdin_returns_eof_v0_3_2 : Prop := read k0 0 (buf 16) 8 = Ok 0.

Definition sys_read_invalid_fd_returns_invalid : Prop :=
  for_all [99; 1; 2] (fun fd => read k0 fd (buf 16) 8 = Err Invalid).

Definition sys_write_stdout_returns_buf_len_v0_3_2 : Prop :=
  write k0 1 (lit "hello") = Ok 5 /\ write k0 2 (lit "err msg") = Ok 7.

Definition sys_write_invalid_fd_returns_invalid : Prop :=
  for_all [0; 99] (fun fd => write k0 fd (lit "x") = Err Invalid).

Definition sys_pid_current_returns_federation_anchor_fingerprint : Prop := sys_pid_current = Ok 0xe00b1a465d6dcb50.

Definition sys_munmap_rejects_null_pointer : Prop := (sys_munmap k0 0 4096).1 = Err Invalid.

(** [&mut byte], a stack address outside the virtual range: any address at
    or above [VIRTUAL_BASE_END]. *)
Definition byte : Z := 0x7ffd_0000_1001.

Definition sys_munmap_rejects_zero_length : Prop := (sys_munmap k0 byte 0).1 = Err Invalid.

Definition sys_munmap_releases_allocated_page_v0_3_1 : Prop :=
  then_ok (sys_mmap k0 4096 3) (fun p k => (sys_munmap k p 4096).1 = Ok tt).

Definition sys_munmap_out_of_range_pointer_returns_invalid : Prop := (sys_munmap k0 byte 4096).1 = Err Invalid.

Definition sys_exec_rejects_undersized_envelope : Prop :=
  for_all [lit "too short"; []] (fun env => (sys_exec k0 env).1 = Err Invalid).

Definition sys_exec_dispatches_valid_envelope_and_returns_monotonic_handle : Prop :=
  let env := quoted (lit "{'from':'X','to':'Y','type':'EXEC'}padding") in
  32 <= zlen env /\
  then_ok (sys_exec k0 env) (fun h1 k =>
  1 <= h1 /\ then_ok (sys_exec (reset_slot k) env) (fun h2 _ => h1 < h2)).

Definition sys_read_rejects_len_greater_than_buf_len : Prop :=
  read k0 0 (buf 8) 9 = Err Invalid /\ read k0 0 (buf 8) (2 ^ 64 - 1) = Err Invalid.

Definition sys_read_stdin_returns_ok_zero_v0_3_2 : Prop := read k0 0 (buf 8) 8 = Ok 0 /\ read k0 0 (buf 8) 0 = Ok 0.

Definition sys_write_rejects_empty_buf : Prop := write k0 0 [] = Err Invalid.

Definition sys_write_to_stdin_returns_invalid_v0_3_2 : Prop := write k0 0 [1; 2; 3] = Err Invalid.

Definition sys_mmap_rejects_zero_length : Prop := (sys_mmap k0 0 3).1 = Err Invalid.

Definition sys_mmap_rejects_zero_prot : Prop := (sys_mmap k0 4096 0).1 = Err Invalid.

Definition sys_mmap_allocates_non_null_page_aligned_pointer_v0_3_1 : Prop :=
  then_ok (sys_mmap k0 4096 3) (fun p k =>
  p <> 0 /\ p mod 4096 = 0 /\
  then_ok (sys_mmap k 8192 7) (fun p2 k =>
  p < p2 /\ then_ok (sys_munmap k p 4096) (fun _ k => (sys_munmap k p2 8192).1 = Ok tt))).

Definition sys_envelope_send_rejects_undersized_envelope : Prop :=
  let short := replicate (Z.to_nat (Envelope.MIN_ENVELOPE_BYTES - 1)) 0 in
  for_all [lit "too short"; short; []] (fun env => (sys_envelope_send k0 env 0).1 = Err Invalid).

Definition sys_envelope_send_accepts_minimum_sized_envelope : Prop :=
  let env := replicate (Z.to_nat Envelope.MIN_ENVELOPE_BYTES) 0x41 in
  (sys_envelope_send (reset_slot k0) env 0).1 = Ok tt.

Definition sys_envelope_send_dispatches_to_envelope_module : Prop :=
  let env := quoted (lit "{'from':'X','to':'Y','type':'Z'}padding-padding") in
  32 <= zlen env /\ (sys_envelope_send (reset_slot k0) env 0).1 = Ok tt.

Definition sys_envelope_recv_rejects_empty_buf : Prop := (sys_envelope_recv k0 [] 0).1.1 = Err Invalid.

Definition sys_envelope_recv_returns_data_or_would_block : Prop :=
  let '(empty, k, b) := sys_envelope_recv (reset_slot k0) (buf 128) 0 in
  empty = Err WouldBlock /\
  let env := quoted (lit "{'from':'acer','to':'liris','type':'TEST'}xx") in
  32 <= zlen env /\
  then_ok (sys_envelope_send k env 1) (fun _ k =>
  let '(r, _, b) := sys_envelope_recv k b 0 in
  on_ok r (fun n => n = zlen env /\ take (Z.to_nat n) b = env)).

Definition sys_cosign_append_rejects_undersized_row : Prop :=
  for_all [buf 8; []] (fun row => (sys_cosign_append k0 row).1 = Err Invalid).

Definition sys_cosign_append_returns_sequence_number_for_valid_row : Prop :=
  then_ok (sys_cosign_append k0 (buf 16)) (fun seq _ => 1 <= seq).

Definition sys_cosign_append_increments_sequence_across_appends : Prop :=
  then_ok (sys_cosign_append k0 (replicate 16 0xAA)) (fun s1 k =>
  then_ok (sys_cosign_append k (replicate 32 0xBB)) (fun s2 k =>
  then_ok (sys_cosign_append k (replicate 16 0xCC)) (fun s3 _ => s1 < s2 /\ s2 < s3))).

Definition sys_fork_returns_child_handle : Prop :=
  match (sys_fork k0).1 with Ok handle => 1 <= handle | Err e => e = Exhausted end.

Definition sys_fork_increments_registry : Prop :=
  let before := AgentRuntime.spawn_child_agent_count (spawn_counter k0) in
  let '(res, k) := sys_fork k0 in
  let after := AgentRuntime.spawn_child_agent_count (spawn_counter k) in
  match res with Ok _ => after = before + 1 | Err e => e = Exhausted /\ before <= after end.

End SyscallTests.

Lemma frame_alloc_tests_pass : for_all [
    FrameAllocTests.alloc_zero_len_returns_invalid_len;
    FrameAllocTests.alloc_one_byte_rounds_to_full_page;
    FrameAllocTests.alloc_returns_page_aligned_pointers;
    FrameAllocTests.alloc_exhausting_pool_returns_pool_exhausted;
    FrameAllocTests.alloc_oversized_first_request_returns_pool_exhausted;
    FrameAllocTests.free_null_pointer_returns_invalid_pointer;
    FrameAllocTests.free_zero_len_returns_invalid_len;
    FrameAllocTests.free_out_of_range_pointer_returns_invalid_pointer;
    FrameAllocTests.free_unaligned_in_range_pointer_returns_not_page_aligned;
    FrameAllocTests.alloc_then_free_round_trip_succeeds] (fun test => test).
Proof. replay. Qed.

Lemma envelope_tests_pass : for_all [
    EnvelopeTests.capacity_is_16384;
    EnvelopeTests.gc_threshold_is_75pct;
    EnvelopeTests.route_hints_have_canonical_values;
    EnvelopeTests.min_envelope_bytes_is_syscall_floor;
    EnvelopeTests.stub_enqueue_returns_unimplemented;
    EnvelopeTests.queue_depth_starts_empty] (fun test => test).
Proof. replay. Qed.

Lemma gnn_tests_pass : for_all [
    GnnTests.gnn_edges_target_is_2_16_m;
    GnnTests.latency_budget_is_100ms;
    GnnTests.batch_target_matches_q_cohort_canon;
    GnnTests.new_inference_not_ready;
    GnnTests.fallback_route_is_local;
    GnnTests.fallback_verdict_is_hold;
    GnnTests.deterministic_fallback_top_3] (fun test => test).
Proof. replay. Qed.

Lemma vfs_tests_pass : for_all [
    VfsTests.reserved_fd_constants_are_canonical;
    VfsTests.vfs_read_stdin_returns_eof;
    VfsTests.vfs_read_stdout_or_stderr_rejects;
    VfsTests.vfs_read_other_fd_returns_invalid_fd;
    VfsTests.vfs_read_len_exceeding_buf_rejects;
    VfsTests.vfs_write_stdout_accepts;
    VfsTests.vfs_write_stderr_accepts;
    VfsTests.vfs_write_stdin_rejects;
    VfsTests.vfs_write_other_fd_returns_invalid_fd;
    VfsTests.vfs_write_empty_buf_returns_invalid_buf;
    VfsTests.vfs_v02_fd_table_size_is_256;
    VfsTests.vfs_v02_mode_bits_are_canonical;
    VfsTests.vfs_v02_reserved_fds_are_always_open;
    VfsTests.vfs_v02_is_open_rejects_out_of_range;
    VfsTests.vfs_v02_open_rejects_empty_path;
    VfsTests.vfs_v02_open_rejects_zero_mode;
    VfsTests.vfs_v02_open_rejects_unknown_mode_bits;
    VfsTests.vfs_v02_open_allocates_lowest_free_slot_starting_at_3;
    VfsTests.vfs_v02_open_returns_monotonic_lowest_free;
    VfsTests.vfs_v02_open_then_close_recycles_lowest_slot;
    VfsTests.vfs_v02_close_rejects_reserved_fds;
    VfsTests.vfs_v02_close_rejects_out_of_range_fd;
    VfsTests.vfs_v02_close_rejects_free_slot;
    VfsTests.vfs_v02_double_close_rejects;
    VfsTests.vfs_v02_reset_clears_user_slots_but_reserved_stay_open;
    VfsTests.vfs_v02_table_full_after_exhausting_user_slots;
    VfsTests.vfs_v02_read_on_user_slot_still_returns_invalid_fd;
    VfsTests.vfs_v02_write_on_user_slot_still_returns_invalid_fd;
    VfsTests.vfs_v03_binding_kind_constants_canonical;
    VfsTests.vfs_v03_binding_kind_for_path_dispatch;
    VfsTests.vfs_v03_open_dev_null_returns_devnull_binding;
    VfsTests.vfs_v03_open_dev_bus_envelope_returns_busenvelope_binding;
    VfsTests.vfs_v03_read_devnull_returns_eof;
    VfsTests.vfs_v03_write_devnull_discards_and_returns_buf_len;
    VfsTests.vfs_v03_read_busenvelope_empty_returns_would_block;
    VfsTests.vfs_v03_busenvelope_write_then_read_round_trip;
    VfsTests.vfs_v03_busenvelope_write_oversize_returns_payload_oversize;
    VfsTests.vfs_v03_close_releases_devnull_binding;
    VfsTests.vfs_v03_close_releases_busenvelope_binding] (fun test => test).
Proof. replay. Qed.

Lemma syscall_tests_pass : for_all [
    SyscallTests.canonical_syscall_count_is_exactly_16;
    SyscallTests.sys_read_stdin_returns_eof_v0_3_2;
    SyscallTests.sys_read_invalid_fd_returns_invalid;
    SyscallTests.sys_write_stdout_returns_buf_len_v0_3_2;
    SyscallTests.sys_write_invalid_fd_returns_invalid;
    SyscallTests.sys_pid_current_returns_federation_anchor_fingerprint;
    SyscallTests.sys_munmap_rejects_null_pointer;
    SyscallTests.sys_munmap_rejects_zero_length;
    SyscallTests.sys_munmap_releases_allocated_page_v0_3_1;
    SyscallTests.sys_munmap_out_of_range_pointer_returns_invalid;
    SyscallTests.sys_exec_rejects_undersized_envelope;
    SyscallTests.sys_exec_dispatches_valid_envelope_and_returns_monotonic_handle;
    SyscallTests.sys_read_rejects_len_greater_than_buf_len;
    SyscallTests.sys_read_stdin_returns_ok_zero_v0_3_2;
    SyscallTests.sys_write_rejects_empty_buf;
    SyscallTests.sys_write_to_stdin_returns_invalid_v0_3_2;
    SyscallTests.sys_mmap_rejects_zero_length;
    SyscallTests.sys_mmap_rejects_zero_prot;
    SyscallTests.sys_mmap_allocates_non_null_page_aligned_pointer_v0_3_1;
    SyscallTests.sys_envelope_send_rejects_undersized_envelope;
    SyscallTests.sys_envelope_send_accepts_minimum_sized_envelope;
    SyscallTests.sys_envelope_send_dispatches_to_envelope_module;
    SyscallTests.sys_envelope_recv_rejects_empty_buf;
    SyscallTests.sys_envelope_recv_returns_data_or_would_block;
    SyscallTests.sys_cosign_append_rejects_undersized_row;
    SyscallTests.sys_cosign_append_returns_sequence_number_for_valid_row;
    SyscallTests.sys_cosign_append_increments_sequence_across_appends;
    SyscallTests.sys_fork_returns_child_handle;
    SyscallTests.sys_fork_increments_registry] (fun test => test).
Proof. replay. Qed.
