(* ===== verification/ConformanceRecords.v ===== *)
(** * The tests of the registry, the chain and the envelope formats

    The unit tests of [agent_runtime], [cosign_chain], [crypto] and
    [envelope/fedenv] ([kernel/core/src]), replayed on the model; a Module
    per test module. The chain and signature tests hold for any digest that
    separates their inputs and use the checksum of [Replay.v]. *)

From S2P Require Import Prelude Digest Sha256 Access Crypto CosignChain SyscallTypes AgentRuntime AgentRegistry Fedenv Replay.

#[local] Open Scope Z_scope.

Module AgentRuntimeTests.
Import AgentRuntime.

Definition registry_starts_empty : Prop := count new = 0 /\ count_in_vantage new Acer = 0.

Definition registry_max_is_10k : Prop := AGENT_REGISTRY_MAX = 10000.

Definition fleet_capacity_is_10k_per_substrate_20k_total : Prop :=
  SUBSTRATE_COUNT = 2 /\ AGENT_REGISTRY_MAX_PER_SUBSTRATE = 10000 /\ AGENT_REGISTRY_MAX_TOTAL = 20000.

Definition heartbeat_timeout_is_60s : Prop := HEARTBEAT_TIMEOUT_NS = 60000000000.

Definition gulp_threshold_matches_canon : Prop := GULP_THRESHOLD = 2000.

Definition big_pickle_requires_witness : Prop :=
  big_pickle_action_requires_witness BigPickle = true /\ big_pickle_action_requires_witness Hermes = false /\
  big_pickle_action_requires_witness SubAgent = false.

Definition spawn_appends_and_returns_pid : Prop :=
  count new = 0 /\
  then_ok (spawn new Hermes Acer Public) (fun pid r =>
  starts_with (lit "AGT-ACER-HRM-H") pid = true /\ count r = 1 /\ count_in_vantage r Acer = 1 /\
  then_ok (spawn new Hermes Acer Public) (fun pid2 _ =>
  pid = pid2 /\
  then_ok (spawn new SubAgent Acer Public) (fun pid3 _ =>
  pid <> pid3 /\ starts_with (lit "AGT-ACER-SUB-H") pid3 = true))).

Definition registry_full_when_at_max : Prop := count new < AGENT_REGISTRY_MAX.

Definition retire_marks_retired_never_removes : Prop :=
  then_ok (spawn new SubAgent Acer Public) (fun pid r =>
  count r = 1 /\
  then_ok (retire r pid) (fun _ r =>
  count r = 0 /\ length (entries r) = 1%nat /\ (retire r (lit "AGT-NOPE")).1 = Err NotFound)).

Definition heartbeat_stamps_time_rejects_retired : Prop :=
  then_ok (spawn new SubAgent Acer Public) (fun pid r =>
  then_ok (heartbeat r pid 12345) (fun _ r =>
  last_heartbeat_ns <$> (entries r !! 0%nat) = Some 12345 /\
  then_ok (retire r pid) (fun _ r =>
  (heartbeat r pid 99999).1 = Err InvalidStateTransition /\
  (heartbeat r (lit "AGT-NOPE") 1).1 = Err NotFound))).

Definition dispatch_counters_stay_separate_by_layer : Prop :=
  then_ok (spawn new SubAgent Acer Public) (fun _ r =>
  then_ok (spawn r SubAgent Acer Public) (fun _ r =>
  then_ok (spawn_real_gated r Hermes Acer Restricted true) (fun _ r =>
  let r := note_opencode_free_agent_call (note_omnidispatch_routed r) in
  let c := counters r in
  virtual_registered c = 2 /\ receipt_gated_helper c = 1 /\ omnidispatch_routed c = 1 /\
  opencode_free_agent_call c = 1 /\ os_process_spawn c = 0 /\ ambiguous_held c = 0 /\
  class <$> (entries r !! 0%nat) = Some VirtualPointer /\
  class <$> (entries r !! 2%nat) = Some RealReceiptGated /\ count r = 3))).

Definition ambiguous_real_request_is_held_not_launched : Prop :=
  then_ok (spawn_real_gated new Hermes Acer Restricted false) (fun pid r =>
  class <$> (entries r !! 0%nat) = Some Ambiguous /\
  let c := counters r in
  ambiguous_held c = 1 /\ receipt_gated_helper c = 0 /\ os_process_spawn c = 0 /\
  starts_with (lit "AGT-") pid = true /\
  classify_request 0 false = VirtualPointer /\ classify_request 2 true = RealReceiptGated /\
  classify_request 2 false = Ambiguous).

Definition spawn_child_agent_returns_monotonic_handles : Prop :=
  let before := spawn_child_agent_count counter_initial in
  then_ok (spawn_child_agent counter_initial) (fun h1 c =>
  then_ok (spawn_child_agent c) (fun h2 c => h2 = h1 + 1 /\ spawn_child_agent_count c = before + 2)).

End AgentRuntimeTests.

Module CosignChainTests.
Import CosignChain.

#[local] Existing Instance checksum_digest.

Definition empty_chain_head_is_genesis : Prop :=
  head new = GENESIS_PREV_SHA16 /\ depth new = 0 /\ next_row new = 1.

Definition genesis_marker_is_16_zeros : Prop :=
  length GENESIS_PREV_SHA16 = 16%nat /\ for_all GENESIS_PREV_SHA16 (fun c => [c] = lit "0").

Definition sample_row (num : Z) (prev : bytes) : CosignRow :=
  mkRow num (1000000 + num) prev (lit "TEST") (lit "0000000000000000") (Crypto.mkSignature (replicate 64 0)).

(** [r.kind = String::new()]. *)
Definition without_kind (r : CosignRow) : CosignRow := mkRow (row r) (ts_ns r) (prev_sha16 r) [] (payload_sha16 r) (sig r).

Definition push_unchecked_for_tests (c : CosignChain) (r : CosignRow) : CosignChain :=
  {| head_sha16 := head_sha16 c; next_row := next_row c; rows := rows c ++ [r] |}.

Definition append_single_row_links_to_genesis_and_advances_head : Prop :=
  then_ok (append new (sample_row 1 GENESIS_PREV_SHA16)) (fun _ c =>
  depth c = 1 /\ next_row c = 2 /\ head c <> GENESIS_PREV_SHA16 /\ length (head c) = 16%nat /\
  forallb is_ascii_hexdigit (head c) = true).

Definition append_chains_multiple_rows_with_sha_link : Prop :=
  then_ok (append new (sample_row 1 GENESIS_PREV_SHA16)) (fun _ c1 =>
  then_ok (append c1 (sample_row 2 (head c1))) (fun _ c2 =>
  head c2 <> head c1 /\
  then_ok (append c2 (sample_row 3 (head c2))) (fun _ c3 => depth c3 = 3 /\ next_row c3 = 4))).

Definition append_rejects_non_monotonic_row_number : Prop :=
  (append new (sample_row 2 GENESIS_PREV_SHA16)).1 = Err NonMonotonicRow /\
  then_ok (append new (sample_row 1 GENESIS_PREV_SHA16)) (fun _ c =>
  (append c (sample_row 1 (head c))).1 = Err NonMonotonicRow).

Definition append_rejects_broken_chain_link : Prop :=
  (append new (sample_row 1 (lit "deadbeefcafe1234"))).1 = Err ChainLinkBroken.

Definition append_rejects_empty_kind : Prop :=
  (append new (without_kind (sample_row 1 GENESIS_PREV_SHA16))).1 = Err KindMalformed.

Definition validate_empty_chain_returns_ok : Prop := validate_end_to_end new = Ok tt.

Definition validate_genuine_chain_returns_ok : Prop :=
  then_ok (append new (sample_row 1 GENESIS_PREV_SHA16)) (fun _ c =>
  then_ok (append c (sample_row 2 (head c))) (fun _ c =>
  then_ok (append c (sample_row 3 (head c))) (fun _ c => validate_end_to_end c = Ok tt))).

Definition validate_detects_tampered_prev_sha16 : Prop :=
  let r1 := sample_row 1 GENESIS_PREV_SHA16 in
  then_ok (append new r1) (fun _ c =>
  then_ok (append c (sample_row 2 (head c))) (fun _ c =>
  validate_end_to_end c = Ok tt /\
  let tampered := push_unchecked_for_tests new r1 in
  let tampered := push_unchecked_for_tests tampered (sample_row 2 (lit "0123456789abcdef")) in
  validate_end_to_end tampered = Err ChainLinkBroken)).

Definition validate_detects_non_monotonic_row_number : Prop :=
  validate_end_to_end (push_unchecked_for_tests new (sample_row 5 GENESIS_PREV_SHA16)) = Err NonMonotonicRow.

Definition validate_detects_empty_kind_row : Prop :=
  validate_end_to_end (push_unchecked_for_tests new (without_kind (sample_row 1 GENESIS_PREV_SHA16))) = Err KindMalformed.

Definition canonical_bytes_are_deterministic : Prop :=
  let r := sample_row 1 GENESIS_PREV_SHA16 in
  let b1 := canonical_bytes_of_row r in
  let b2 := canonical_bytes_of_row r in
  b1 = b2 /\
  for_all [lit "row=1"; lit "ts="; lit "prev=0000000000000000"; lit "kind=TEST"; lit "payload=0000000000000000"]
    (fun part => contains part b1 = true).

Definition sha16_of_is_16_hex_chars : Prop :=
  let s := sha16_of (lit "hello world") in
  length s = 16%nat /\ forallb is_ascii_hexdigit s = true /\ s = sha16_of (lit "hello world") /\
  s <> sha16_of (lit "hello world!").

End CosignChainTests.

Module CryptoTests.
Import Crypto.

#[local] Existing Instance checksum_digest.

Definition lengths_match_ed25519_canon : Prop := SIGNATURE_LEN = 64%nat /\ PUBLIC_KEY_LEN = 32%nat /\ PRIVATE_KEY_LEN = 32%nat.

Definition canonical_bytes_deterministic : Prop :=
  let env := canonical_envelope_bytes 1 2 (lit "TEST_TYPE") (lit "EVT-TEST") (lit "id-0") 123 (lit "payload") in
  on_ok env (fun a => on_ok env (fun b => a = b /\ 10 < zlen a)).

Definition empty_type_rejected : Prop :=
  canonical_envelope_bytes 1 2 (lit "") (lit "EVT") (lit "id") 0 (lit "") = Err CanonicalizationFailed.

Definition empty_id_rejected : Prop :=
  canonical_envelope_bytes 1 2 (lit "T") (lit "EVT") (lit "") 0 (lit "") = Err CanonicalizationFailed.

(** [PrivateKey([b; 32])]. *)
Definition key (b : Z) : PrivateKey := mkPrivateKey (replicate 32 b).

Definition sign_deterministic_same_inputs : Prop :=
  let msg := lit "hello-canonical" in
  on_ok (sign msg (key 7)) (fun a => on_ok (sign msg (key 7)) (fun b =>
  a = b /\ take 32 (sig_bytes a) <> drop 32 (sig_bytes a))).

Definition sign_differs_across_secrets : Prop :=
  let msg := lit "same-msg" in
  on_ok (sign msg (key 1)) (fun s1 => on_ok (sign msg (key 2)) (fun s2 => s1 <> s2)).

Definition derive_public_deterministic : Prop :=
  on_ok (derive_public (key 0x11)) (fun p1 => on_ok (derive_public (key 0x11)) (fun p2 =>
  p1 = p2 /\ length (pub_bytes p1) = PUBLIC_KEY_LEN)).

Definition derive_public_distinct_across_secrets : Prop :=
  on_ok (derive_public (key 1)) (fun p1 => on_ok (derive_public (key 2)) (fun p2 =>
  p1 <> p2 /\ pub_bytes p1 <> pub_bytes p2)).

Definition derive_sign_verify_loop_structural : Prop :=
  let msg := lit "loop-closure-msg" in
  on_ok (derive_public (key 0x42)) (fun pk => on_ok (sign msg (key 0x42)) (fun sig =>
  length (sig_bytes sig) = SIGNATURE_LEN /\ length (pub_bytes pk) = PUBLIC_KEY_LEN /\
  verify msg sig pk = Ok tt /\ on_ok (derive_public (key 0x42)) (fun pk2 => pk = pk2))).

Definition verify_roundtrip_succeeds : Prop :=
  let msg := lit "sign-verify-roundtrip-canonical-bytes" in
  on_ok (derive_public (key 0xA7)) (fun pk => on_ok (sign msg (key 0xA7)) (fun sig => verify msg sig pk = Ok tt)).

(** [bad[i] ^= mask]. *)
Definition flip (i : nat) (mask : Z) (b : bytes) : bytes := alter (fun x => Z.lxor x mask) i b.

Definition verify_tampered_signature_fails : Prop :=
  let msg := lit "tamper-detection-msg" in
  on_ok (derive_public (key 0x5C)) (fun pk => on_ok (sign msg (key 0x5C)) (fun good =>
  for_all [flip 0 0x01 (sig_bytes good); flip 33 0x80 (sig_bytes good); flip (SIGNATURE_LEN - 1) 0xFF (sig_bytes good)]
    (fun bad => verify msg (mkSignature bad) pk = Err VerificationFailed))).

Definition verify_wrong_public_key_fails : Prop :=
  let msg := lit "wrong-public-key-msg" in
  on_ok (derive_public (key 0x22)) (fun pk_b => on_ok (sign msg (key 0x11)) (fun sig_a =>
  on_ok (derive_public (key 0x11)) (fun pk_a => on_ok (sign msg (key 0x22)) (fun sig_b =>
  verify msg sig_a pk_b = Err VerificationFailed /\ verify msg sig_b pk_a = Err VerificationFailed)))).

Definition ct_eq_xor_fold_basics : Prop :=
  let a := replicate SIGNATURE_LEN 0 in
  ct_eq a a = true /\ ct_eq a (<[17%nat := 1]> a) = false /\ ct_eq a (<[(SIGNATURE_LEN - 1)%nat := 0xFF]> a) = false.

End CryptoTests.

Module FedenvTests.
Import Fedenv.

Definition valid : FedenvView := {|
  caller_pid := lit "AGT-ACER-HRM-HABCDEF012345";
  target := lit "cli:engineering:opencode/big-pickle";
  verb := lit "EVT-DISPATCH";
  payload := lit "hello world";
  back_address := lit "pid:H740C";
  cube_47d := lit "1-2-3-4-5-6";
  glyph_5 := lit "ABCDE";
  cosign_token := lit "tok|FOUNDATION-V3-LAW-EXTENDED-4MO";
  ttl_seconds := lit "300";
  antecedents := lit "0000000000000000";
  row_hash := lit "0123456789abcdef";
  ts := None
|}.

Inductive field :=
| FVerb (v : bytes) | FTarget (v : bytes) | FCube (v : bytes) | FGlyph (v : bytes) | FTtl (v : bytes) | FRowHash (v : bytes)
| FAntecedents (v : bytes) | FToken (v : bytes) | FTs (v : bytes).

(** [e.field = v]. *)
Definition assign (f : field) (e : FedenvView) : FedenvView :=
  let '(mkView ca ta ve pa ba cu gl co tl an ro t) := e in
  match f with
  | FVerb v => mkView ca ta v pa ba cu gl co tl an ro t
  | FTarget v => mkView ca v ve pa ba cu gl co tl an ro t
  | FCube v => mkView ca ta ve pa ba v gl co tl an ro t
  | FGlyph v => mkView ca ta ve pa ba cu v co tl an ro t
  | FTtl v => mkView ca ta ve pa ba cu gl co v an ro t
  | FRowHash v => mkView ca ta ve pa ba cu gl co tl an v t
  | FAntecedents v => mkView ca ta ve pa ba cu gl co tl v ro t
  | FToken v => mkView ca ta ve pa ba cu gl v tl an ro t
  | FTs v => mkView ca ta ve pa ba cu gl co tl an ro (Some v)
  end.

Definition valid_envelope_passes : Prop := validate valid = Ok tt.

Definition missing_field_is_malformed : Prop := validate (assign (FVerb (lit "")) valid) = Err Malformed.

Definition unknown_prefix_is_unresolvable : Prop := validate (assign (FTarget (lit "ftp://nope")) valid) = Err UnresolvableTarget.

Definition bad_cube_is_malformed : Prop :=
  validate (assign (FCube (lit "1-2-3-4-5")) valid) = Err Malformed /\
  validate (assign (FCube (lit "1-2-3-4-5-9")) valid) = Err Malformed.

Definition short_glyph_is_malformed : Prop := validate (assign (FGlyph (lit "ABC")) valid) = Err Malformed.

Definition ttl_out_of_range_is_malformed : Prop :=
  for_all [lit "0"; lit "100000"; lit "abc"] (fun t => validate (assign (FTtl t) valid) = Err Malformed).

Definition bad_hex_fields_are_malformed : Prop :=
  validate (assign (FRowHash (lit "XYZ")) valid) = Err Malformed /\
  validate (assign (FAntecedents (lit "0123456789ABCDEF")) valid) = Err Malformed.

Definition missing_cosign_window_is_expired : Prop :=
  validate (assign (FToken (lit "tok|NO-VALID-WINDOW")) valid) = Err ExpiredCosign.

Definition admin_override_accepted : Prop := validate (assign (FToken (lit "ADMIN-OVERRIDE-OP-JESSE")) valid) = Ok tt.

Definition resolve_targets_by_prefix : Prop :=
  resolve_target (lit "cli:eng:opencode") = Some Cli /\ resolve_target (lit "pid:H740C") = Some PidRouted /\
  resolve_target (lit "citizen:liris") = Some Citizen /\ resolve_target (lit "antigravity:gpt") = Some Antigravity /\
  resolve_target (lit "daemon:gaia") = Some Daemon /\ resolve_target (lit "google:bigquery") = Some Google /\
  resolve_target (lit "meta:sup") = Some Meta /\ resolve_target (lit "ftp://x") = None.

Definition priority_default_is_normal : Prop :=
  priority_of (lit "apex") = Apex /\ priority_of (lit "high") = High /\ priority_of (lit "low") = Low /\
  priority_of (lit "garbage") = Normal.

Definition reject_reason_event_strings : Prop :=
  as_event_str Malformed = lit "EVT-FEDENV-REJECTED-MALFORMED" /\
  as_event_str UnresolvableTarget = lit "EVT-FEDENV-REJECTED-UNRESOLVABLE-TARGET" /\
  as_event_str RowHashMismatch = lit "EVT-FEDENV-REJECTED-ROW-HASH-MISMATCH".

Definition row_hash_self_verify_pass_and_fail : Prop :=
  let ts := lit "2026-06-22T00:00:00Z" in
  let out := sha256_parts [lit "FEDENV|"; caller_pid valid; verb valid; payload valid; ts] in
  let e := assign (FRowHash (hex_of (take 8 out))) (assign (FTs ts) valid) in
  validate e = Ok tt /\ validate (assign (FRowHash (lit "ffffffffffffffff")) e) = Err RowHashMismatch.

End FedenvTests.

Lemma agent_runtime_tests_pass : for_all [
    AgentRuntimeTests.registry_starts_empty;
    AgentRuntimeTests.registry_max_is_10k;
    AgentRuntimeTests.fleet_capacity_is_10k_per_substrate_20k_total;
    AgentRuntimeTests.heartbeat_timeout_is_60s;
    AgentRuntimeTests.gulp_threshold_matches_canon;
    AgentRuntimeTests.big_pickle_requires_witness;
    AgentRuntimeTests.spawn_appends_and_returns_pid;
    AgentRuntimeTests.registry_full_when_at_max;
    AgentRuntimeTests.retire_marks_retired_never_removes;
    AgentRuntimeTests.heartbeat_stamps_time_rejects_retired;
    AgentRuntimeTests.dispatch_counters_stay_separate_by_layer;
    AgentRuntimeTests.ambiguous_real_request_is_held_not_launched;
    AgentRuntimeTests.spawn_child_agent_returns_monotonic_handles] (fun test => test).
Proof. replay. Qed.

Lemma cosign_chain_tests_pass : for_all [
    CosignChainTests.empty_chain_head_is_genesis;
    CosignChainTests.genesis_marker_is_16_zeros;
    CosignChainTests.append_single_row_links_to_genesis_and_advances_head;
    CosignChainTests.append_chains_multiple_rows_with_sha_link;
    CosignChainTests.append_rejects_non_monotonic_row_number;
    CosignChainTests.append_rejects_broken_chain_link;
    CosignChainTests.append_rejects_empty_kind;
    CosignChainTests.validate_empty_chain_returns_ok;
    CosignChainTests.validate_genuine_chain_returns_ok;
    CosignChainTests.validate_detects_tampered_prev_sha16;
    CosignChainTests.validate_detects_non_monotonic_row_number;
    CosignChainTests.validate_detects_empty_kind_row;
    CosignChainTests.canonical_bytes_are_deterministic;
    CosignChainTests.sha16_of_is_16_hex_chars] (fun test => test).
Proof. replay. Qed.

Lemma crypto_tests_pass : for_all [
    CryptoTests.lengths_match_ed25519_canon;
    CryptoTests.canonical_bytes_deterministic;
    CryptoTests.empty_type_rejected;
    CryptoTests.empty_id_rejected;
    CryptoTests.sign_deterministic_same_inputs;
    CryptoTests.sign_differs_across_secrets;
    CryptoTests.derive_public_deterministic;
    CryptoTests.derive_public_distinct_across_secrets;
    CryptoTests.derive_sign_verify_loop_structural;
    CryptoTests.verify_roundtrip_succeeds;
    CryptoTests.verify_tampered_signature_fails;
    CryptoTests.verify_wrong_public_key_fails;
    CryptoTests.ct_eq_xor_fold_basics] (fun test => test).
Proof. replay. Qed.

Lemma fedenv_tests_pass : for_all [
    FedenvTests.valid_envelope_passes;
    FedenvTests.missing_field_is_malformed;
    FedenvTests.unknown_prefix_is_unresolvable;
    FedenvTests.bad_cube_is_malformed;
    FedenvTests.short_glyph_is_malformed;
    FedenvTests.ttl_out_of_range_is_malformed;
    FedenvTests.bad_hex_fields_are_malformed;
    FedenvTests.missing_cosign_window_is_expired;
    FedenvTests.admin_override_accepted;
    FedenvTests.resolve_targets_by_prefix;
    FedenvTests.priority_default_is_normal;
    FedenvTests.reject_reason_event_strings;
    FedenvTests.row_hash_self_verify_pass_and_fail] (fun test => test).
Proof. replay. Qed.
