(* ===== verification/ConformanceIdentities.v ===== *)
(** * The tests of the identities and of the reflection rooms

    The unit tests of [pid] and [reflection_room] ([kernel/core/src]),
    replayed on the model; a Module per test module. The room tests hold for
    any digest that separates their inputs and are replayed with the
    checksum of [Replay.v]; the two that publish 2000 events and more are
    left to the theorems of [ReflectionRoom.v]. *)

From S2P Require Import Prelude Digest Sha256 Utf8 Pid ReflectionRoom Replay.

#[local] Open Scope Z_scope.

Module PidTests.
Import Pid.

(** [parse_pid(p).unwrap()] matched against [ParsedPid::Canonical]. *)
Definition canonical (p : bytes) (test : PidParts -> Prop) : Prop :=
  match parse_pid p with CRet (Canonical parts) => test parts | _ => False end.

Definition anchor (p : bytes) (test : AnchorPidParts -> Prop) : Prop :=
  match parse_pid p with CRet (AnchorPid parts) => test parts | _ => False end.

Definition known_roles_contains_canonical_set : Prop :=
  for_all [lit "OP-RAYSSA"; lit "OPERATOR"; lit "ACER"; lit "LIRIS"; lit "FALCON"; lit "AETHER"]
    (fun r => is_valid_role r = true) /\
  is_valid_role (lit "RANDOM") = false.

Definition region_validation : Prop :=
  for_all (lit "GHFD") (fun c => is_valid_region c = true) /\ for_all (lit "X") (fun c => is_valid_region c = false).

Definition historical_pid_op_rayssa_validates : Prop := validate_pid (lit "OP-RAYSSA-PID-G0000-A00-W000") true = CRet tt.

Definition historical_pid_operator_h1001_validates : Prop := validate_pid (lit "OPERATOR-PID-H1001-A00-W110") true = CRet tt.

Definition anchor_pid_asolaria_federation_remake_validates : Prop :=
  validate_pid (lit "ASOLARIA-FEDERATION-REMAKE-1024-PID-2026-05-11") true = CRet tt.

Definition parse_canonical_roundtrip : Prop :=
  let p := lit "ACER-PID-H740C-A07-W104" in
  canonical p (fun parts =>
  role parts = lit "ACER" /\ [region parts] = lit "H" /\ host_code parts = lit "740C" /\
  activity parts = lit "07" /\ wave parts = lit "104" /\
  mint_pid (role parts) (region parts) (host_code parts) (activity parts) (wave parts) = Ok p).

Definition parse_anchor_roundtrip : Prop :=
  let p := lit "ASOLARIA-FEDERATION-REMAKE-1024-PID-2026-05-11" in
  anchor p (fun parts =>
  anchor_role parts = lit "ASOLARIA-FEDERATION-REMAKE-1024" /\ date parts = lit "2026-05-11" /\
  mint_anchor_pid (anchor_role parts) (date parts) = Ok p).

Definition invalid_region_rejected : Prop := parse_pid (lit "ACER-PID-X740C-A07-W104") = CErr InvalidRegion.

Definition fingerprint_is_16_chars_hex : Prop :=
  let fp := pid_fingerprint_sha16 (lit "ACER-PID-H740C-A07-W104") in
  length fp = 16%nat /\ forallb is_ascii_hexdigit fp = true.

Definition short_form_classifies_as_regular_per_aether_v3 : Prop :=
  classify_subclass (lit "ACER-PID-H740C-A07-W104") = CRet Regular /\
  classify_subclass (lit "OP-RAYSSA-PID-G0000-A00-W000") = CRet Regular /\
  is_in_subclass (lit "ACER-PID-H740C-A07-W104") Regular = CRet true.

Definition anchor_form_classifies_as_anchor_per_aether_v3 : Prop :=
  classify_subclass (lit "ASOLARIA-FEDERATION-REMAKE-1024-PID-2026-05-11") = CRet Anchor.

Definition malformed_input_still_pending : Prop := classify_subclass (lit "not-a-pid") = CRet Pending.

Definition extended_form_classifies_as_regular_extended_per_aether_86285 : Prop :=
  for_all [lit "ACER-PID-H740C-A07-W104-P00-N00000"; lit "OP-JESSE-PID-G0000-A00-W000-P00-N00000";
           lit "OP-RAYSSA-PID-G0000-A00-W000-P00-N00000"; lit "ACER-PID-H3CC5-A02-W200-P00-N8e813";
           lit "ACER-PID-H7741-A02-W200-P00-N5e62a"]
    (fun p => classify_subclass p = CRet RegularExtended).

Definition is_in_subclass_true_for_extended_form_regular_extended : Prop :=
  let p := lit "ACER-PID-H740C-A07-W104-P00-N00000" in
  is_in_subclass p RegularExtended = CRet true /\ is_in_subclass p Regular = CRet false /\
  is_in_subclass p HookwallCp = CRet false.

Definition validate_subclass_yields_regular_extended_on_extended_form : Prop :=
  validate_subclass (lit "ACER-PID-H740C-A07-W104-P00-N00000") = CRet RegularExtended.

Definition validate_subclass_yields_regular_on_short_form : Prop :=
  validate_subclass (lit "ACER-PID-H740C-A07-W104") = CRet Regular.

Definition validate_subclass_yields_anchor_on_date_form : Prop :=
  validate_subclass (lit "ASOLARIA-FEDERATION-REMAKE-1024-PID-2026-05-11") = CRet Anchor.

Definition validate_subclass_rejects_malformed_input : Prop :=
  match validate_subclass (lit "not-a-pid") with CErr _ => True | _ => False end.

Definition extended_form_acer_anchor_validates : Prop :=
  validate_pid (lit "ACER-PID-H740C-A07-W104-P00-N00000") false = CRet tt.

Definition extended_form_op_jesse_anchor_validates : Prop :=
  validate_pid (lit "OP-JESSE-PID-G0000-A00-W000-P00-N00000") true = CRet tt.

Definition extended_form_op_rayssa_anchor_validates : Prop :=
  validate_pid (lit "OP-RAYSSA-PID-G0000-A00-W000-P00-N00000") true = CRet tt.

Definition extended_form_argus_m4_drift_samples_now_canonical : Prop :=
  for_all [lit "ACER-PID-H740C-A07-W104-P00-N00000"; lit "ACER-PID-H3CC5-A02-W200-P00-N8e813";
           lit "ACER-PID-H7741-A02-W200-P00-N5e62a"]
    (fun p => validate_pid p false = CRet tt).

Definition extended_form_parse_roundtrip : Prop :=
  let p := lit "ACER-PID-H740C-A07-W104-P00-N00000" in
  canonical p (fun parts =>
  role parts = lit "ACER" /\ [region parts] = lit "H" /\ host_code parts = lit "740C" /\
  activity parts = lit "07" /\ wave parts = lit "104" /\
  process_tag parts = Some (lit "00") /\ nonce parts = Some (lit "00000") /\
  on_some (process_tag parts) (fun t => on_some (nonce parts) (fun n =>
  mint_pid_extended (role parts) (region parts) (host_code parts) (activity parts) (wave parts) t n = Ok p))).

Definition short_form_still_parses_with_none_extension_fields : Prop :=
  canonical (lit "ACER-PID-H740C-A07-W104") (fun parts => process_tag parts = None /\ nonce parts = None).

Definition extended_form_rejects_invalid_process_tag : Prop :=
  parse_pid (lit "ACER-PID-H740C-A07-W104-PZZ-N00000") = CErr InvalidProcess.

Definition extended_form_rejects_invalid_nonce : Prop :=
  parse_pid (lit "ACER-PID-H740C-A07-W104-P00-N0000") = CErr InvalidNonce.

Definition four_parts_still_malformed : Prop :=
  parse_pid (lit "ACER-PID-H740C-A07-W104-P00") = CErr MalformedFormat.

End PidTests.

Module ReflectionRoomTests.
Import ReflectionRoom.

#[local] Existing Instance checksum_digest.

Definition hash (parts : list bytes) : bytes := sha256_parts parts.

(** [room()], then the rest of the test. *)
Definition room (test : RoomWriter -> Prop) : Prop :=
  on_ok (new (lit "room0001") (hash [lit "full-room-pid-60d"])) test.

Definition draft (kind : RoomEventKind) (nonce : Z) (parent_sha256 : bytes) : EventDraft :=
  let n := be_bytes 8 nonce in {|
  kind := kind;
  source_handle8 := lit "source01";
  source_pid_sha256 := hash [lit "source-pid"; n];
  target_handle8 := lit "target01";
  target_pid_sha256 := hash [lit "target-pid"; n];
  verb_sha256 := hash [lit "verb"; n];
  timestamp_ns := nonce + 1;
  parent_sha256 := parent_sha256;
  body := mkBody (nonce * 100) 64 (hash [lit "body"; n]);
  selector_dims := 60;
  selector_tuple_sha256 := hash [lit "selector-60d"; n];
  authority := Measured;
  access_level := FederationLevel;
  pii_state := PiiNone;
  owner_pid_sha256 := GENESIS_SHA256;
  idempotency_key := hash [lit "idempotency"; n]
|}.

(** A draft with its access level, PII state and owner replaced. *)
Definition with_access (d : EventDraft) (a : RecallAccessLevel) (p : PiiState) (owner : bytes) : EventDraft :=
  mkDraft (kind d) (source_handle8 d) (source_pid_sha256 d) (target_handle8 d) (target_pid_sha256 d) (verb_sha256 d)
    (timestamp_ns d) (parent_sha256 d) (body d) (selector_dims d) (selector_tuple_sha256 d) (authority d) a p owner
    (idempotency_key d).

(** [match writer.commit(prepared).unwrap()] with a [Committed] outcome. *)
Definition committed (w : RoomWriter) (p : PreparedEvent) (test : CommittedEvent -> RoomWriter -> Prop) : Prop :=
  then_ok (commit w p) (fun o w => match o with Committed e => test e w | Duplicate _ => False end).

Definition hierarchy_is_2k_10k_50k : Prop :=
  ACTIVE_ENVELOPE_WINDOW = 2000 /\ CHECKPOINT_ENVELOPES = 10000 /\ SUPER_GULP_ENVELOPES = 50000.

(** Preparing takes the writer by shared reference: it is unchanged. *)
Definition prepared_event_is_invisible_until_commit : Prop :=
  room (fun writer =>
  on_ok (prepare writer (draft TaskIn 1 GENESIS_SHA256)) (fun prepared =>
  committed writer prepared (fun e writer =>
  let after := read_committed_head writer in
  active_events after = 1 /\ h_total_events after = 1 /\ h_head_sha256 after = full_sha256 e))).

Definition competing_preparation_is_rejected_after_head_moves : Prop :=
  room (fun writer =>
  on_ok (prepare writer (draft TaskIn 1 GENESIS_SHA256)) (fun first =>
  on_ok (prepare writer (draft TaskIn 2 GENESIS_SHA256)) (fun stale =>
  then_ok (commit writer first) (fun _ writer => (commit writer stale).1 = Err StalePreparedEvent)))).

Definition duplicate_idempotency_key_returns_original_commit : Prop :=
  room (fun writer =>
  let original_draft := draft TaskIn 1 GENESIS_SHA256 in
  on_ok (prepare writer original_draft) (fun first =>
  committed writer first (fun original writer =>
  on_ok (prepare writer original_draft) (fun replay =>
  let '(r, writer) := commit writer replay in
  r = Ok (Duplicate original) /\ h_total_events (read_committed_head writer) = 1)))).

Definition reflection_requires_a_committed_parent : Prop :=
  room (fun writer =>
  prepare writer (draft SelfReflection 2 (hash [lit "missing"])) = Err ParentNotCommitted /\
  on_ok (prepare writer (draft WorkNote 1 GENESIS_SHA256)) (fun work =>
  committed writer work (fun work writer =>
  on_ok (prepare writer (draft SelfReflection 2 (full_sha256 work))) (fun reflection =>
  committed writer reflection (fun _ _ => True))))).

Definition full_pid_hashes_not_short_handles_own_event_identity : Prop :=
  room (fun writer =>
  let d := draft TaskIn 1 GENESIS_SHA256 in
  let changed := mkDraft (kind d) (source_handle8 d) (hash [lit "different-full-source-pid"]) (target_handle8 d)
    (target_pid_sha256 d) (verb_sha256 d) (timestamp_ns d) (parent_sha256 d) (body d) (selector_dims d)
    (selector_tuple_sha256 d) (authority d) (access_level d) (pii_state d) (owner_pid_sha256 d) (idempotency_key d) in
  on_ok (prepare writer d) (fun one => on_ok (prepare writer changed) (fun two =>
  full_sha256 (event one) <> full_sha256 (event two)))).

Definition selector_floor_is_60d : Prop :=
  room (fun writer =>
  let d := draft TaskIn 1 GENESIS_SHA256 in
  let old_bridge := mkDraft (kind d) (source_handle8 d) (source_pid_sha256 d) (target_handle8 d)
    (target_pid_sha256 d) (verb_sha256 d) (timestamp_ns d) (parent_sha256 d) (body d) 49
    (selector_tuple_sha256 d) (authority d) (access_level d) (pii_state d) (owner_pid_sha256 d) (idempotency_key d) in
  prepare writer old_bridge = Err (SelectorDimsTooSmall 49)).

Definition pii_is_fail_closed_to_owner_private_l9 : Prop :=
  room (fun writer =>
  let d n := draft TaskIn n GENESIS_SHA256 in
  prepare writer (with_access (d 1) PublicLevel KeyedConsented GENESIS_SHA256) = Err PiiRequiresOwnerPrivate /\
  prepare writer (with_access (d 2) FederationLevel PiiUnknown GENESIS_SHA256) = Err PiiRequiresOwnerPrivate /\
  prepare writer (with_access (d 3) OwnerPrivate KeyedConsented GENESIS_SHA256) = Err OwnerIdentityMissing /\
  on_ok (prepare writer (with_access (d 3) OwnerPrivate KeyedConsented (hash [lit "consenting-owner-human-pid"])))
    (fun _ => True)).

Definition novelty_gate_saturates_and_resets : Prop :=
  on_ok (new_gate 500 3) (fun gate =>
  then_ok (observe_similarity gate 9600) (fun d1 gate =>
  then_ok (observe_similarity gate 9700) (fun d2 gate =>
  then_ok (observe_similarity gate 9800) (fun d3 gate =>
  then_ok (observe_similarity gate 8000) (fun d4 gate =>
  then_ok (observe_similarity gate 9900) (fun d5 _ =>
  match d1, d2, d3, d4, d5 with
  | LowNovelty _ 1, LowNovelty _ 2, Saturated _ 3, Continue _, LowNovelty _ 1 => True
  | _, _, _, _, _ => False
  end)))))).

End ReflectionRoomTests.

Lemma pid_tests_pass : for_all [
    PidTests.known_roles_contains_canonical_set;
    PidTests.region_validation;
    PidTests.historical_pid_op_rayssa_validates;
    PidTests.historical_pid_operator_h1001_validates;
    PidTests.anchor_pid_asolaria_federation_remake_validates;
    PidTests.parse_canonical_roundtrip;
    PidTests.parse_anchor_roundtrip;
    PidTests.invalid_region_rejected;
    PidTests.fingerprint_is_16_chars_hex;
    PidTests.short_form_classifies_as_regular_per_aether_v3;
    PidTests.anchor_form_classifies_as_anchor_per_aether_v3;
    PidTests.malformed_input_still_pending;
    PidTests.extended_form_classifies_as_regular_extended_per_aether_86285;
    PidTests.is_in_subclass_true_for_extended_form_regular_extended;
    PidTests.validate_subclass_yields_regular_extended_on_extended_form;
    PidTests.validate_subclass_yields_regular_on_short_form;
    PidTests.validate_subclass_yields_anchor_on_date_form;
    PidTests.validate_subclass_rejects_malformed_input;
    PidTests.extended_form_acer_anchor_validates;
    PidTests.extended_form_op_jesse_anchor_validates;
    PidTests.extended_form_op_rayssa_anchor_validates;
    PidTests.extended_form_argus_m4_drift_samples_now_canonical;
    PidTests.extended_form_parse_roundtrip;
    PidTests.short_form_still_parses_with_none_extension_fields;
    PidTests.extended_form_rejects_invalid_process_tag;
    PidTests.extended_form_rejects_invalid_nonce;
    PidTests.four_parts_still_malformed] (fun test => test).
Proof. replay. Qed.

Lemma reflection_room_tests_pass : for_all [
    ReflectionRoomTests.hierarchy_is_2k_10k_50k;
    ReflectionRoomTests.prepared_event_is_invisible_until_commit;
    ReflectionRoomTests.competing_preparation_is_rejected_after_head_moves;
    ReflectionRoomTests.duplicate_idempotency_key_returns_original_commit;
    ReflectionRoomTests.reflection_requires_a_committed_parent;
    ReflectionRoomTests.full_pid_hashes_not_short_handles_own_event_identity;
    ReflectionRoomTests.selector_floor_is_60d;
    ReflectionRoomTests.pii_is_fail_closed_to_owner_private_l9;
    ReflectionRoomTests.novelty_gate_saturates_and_resets] (fun test => test).
Proof. replay. Qed.
