(* ===== verification/ConformanceWaves.v ===== *)
(** * The bulk tests of the reflection rooms

    The two unit tests of [reflection_room] ([kernel/core/src]) that publish
    windows of 2000 events. They are not evaluated but follow from
    [RoomWaves.v]; the digest is the checksum of [Replay.v], which keeps the
    keys of a window apart. *)

From S2P Require Import Prelude Digest ReflectionRoom RoomWaves Replay ConformanceIdentities.

#[local] Open Scope Z_scope.

Module ReflectionRoomWaveTests.
Import ReflectionRoom RoomWaves ReflectionRoomTests.

#[local] Existing Instance checksum_digest.

(** The drafts of the inner loop, nonces [first] to [first + 1999]. *)
Definition window_drafts (first : Z) : list EventDraft :=
  map (fun slot => draft WorkNote (first + Z.of_nat slot) GENESIS_SHA256) (seq 0 2000).

(** The loop over [wave], then the rest of the test. *)
Fixpoint run_waves (writer : RoomWriter) (last_seal : option GulpSeal) (ws : list Z)
    (test : RoomWriter -> option GulpSeal -> Prop) : Prop :=
  match ws with
  | [] => test writer last_seal
  | wave :: ws' =>
      then_ok (publish_all writer (window_drafts (wave * ACTIVE_ENVELOPE_WINDOW + 1))) (fun _ writer =>
      then_ok (seal_gulp writer (hash [lit "distilled-product"; be_bytes 8 wave])) (fun seal writer =>
      active_events (read_committed_head writer) = 0 /\ run_waves writer (Some seal) ws' test))
  end.

Definition twenty_five_windows_form_one_50k_super_gulp : Prop :=
  room (fun writer => run_waves writer None (map Z.of_nat (seq 0 25)) (fun writer last_seal =>
  on_some last_seal (fun seal =>
  tier seal = SuperGulp50k /\ cumulative_events seal = 50000 /\ gulp_index seal = 25 /\
  checkpoint_index seal = 5 /\ super_gulp_index seal = 1 /\
  let head := read_committed_head writer in
  h_total_events head = 50000 /\ total_checkpoints head = 5 /\ total_super_gulps head = 1))).

Definition gulp_refuses_to_release_without_full_window_and_product : Prop :=
  room (fun writer =>
  (seal_gulp writer (hash [lit "product"])).1 = Err (GulpNotReady 0) /\
  then_ok (publish_all writer (window_drafts 1)) (fun _ writer =>
  let '(r, writer) := seal_gulp writer GENESIS_SHA256 in
  r = Err DistilledProductMissing /\ active_events (read_committed_head writer) = ACTIVE_ENVELOPE_WINDOW)).

End ReflectionRoomWaveTests.

Import ReflectionRoom RoomWaves ReflectionRoomTests ReflectionRoomWaveTests.

(** ** The checksum on the tests' inputs *)

Lemma hash_nonzero parts : is_zero_sha (hash parts) = false.
Proof.
  unfold hash, sha256_parts, sha256, checksum_digest, checksum, is_zero_sha.
  rewrite forallb_app. change (forallb _ (replicate 24 1)) with false. apply andb_false_r.
Qed.

Lemma draft_admissible n : admissible (draft WorkNote n GENESIS_SHA256).
Proof.
  intros w. unfold validate_draft, draft.
  cbn [body length_ body_sha256 idempotency_key selector_tuple_sha256 selector_dims access_level pii_state
       owner_pid_sha256 kind requires_parent].
  rewrite !hash_nonzero. reflexivity.
Qed.

Lemma low_bytes n : 0 <= n < 65536 -> be_bytes 8 n = [0; 0; 0; 0; 0; 0; n / 256; n mod 256].
Proof.
  intros Hn. unfold be_bytes. cbn [le_bytes rev app].
  assert (E : n / 256 / 256 = 0) by (rewrite Z.div_div by lia; apply Z.div_small; lia).
  rewrite E, (Z.mod_small (n / 256)) by (pose proof (Z.div_lt_upper_bound n 256 256); pose proof (Z.div_pos n 256); lia).
  reflexivity.
Qed.

Definition idempotency_state : Z := polynomial_hash (lit "idempotency" ++ [0; 0; 0; 0; 0; 0]).

Lemma mod_push a b m : 0 < m -> (257 * (a mod m) + b) mod m = (257 * a + b) mod m.
Proof. intros. by rewrite <- Z.add_mod_idemp_l, Z.mul_mod_idemp_r, Z.add_mod_idemp_l by lia. Qed.

Lemma idempotency_hash n : 0 <= n < 65536 ->
  polynomial_hash (lit "idempotency" ++ be_bytes 8 n) =
  (257 * (257 * idempotency_state + n / 256 + 1) + (n mod 256 + 1)) mod 2 ^ 64.
Proof.
  intros Hn. rewrite low_bytes by done.
  change [0; 0; 0; 0; 0; 0; n / 256; n mod 256] with ([0; 0; 0; 0; 0; 0] ++ [n / 256; n mod 256]).
  unfold polynomial_hash. rewrite app_assoc, fold_left_app.
  change (fold_left _ (lit "idempotency" ++ _) 1) with idempotency_state.
  cbn [fold_left]. rewrite !Z.land_ones by lia. rewrite <- Z.add_assoc. apply mod_push. lia.
Qed.

Lemma mod_eq_small a b m : 0 < m -> Z.abs (a - b) < m -> a mod m = b mod m -> a = b.
Proof.
  intros Hm Ha E. assert (H : (a - b) mod m = 0) by (rewrite Zminus_mod, E, Z.sub_diag; by apply Z.mod_0_l; lia).
  apply Z.mod_divide in H as [k Hk]; [|lia]. assert (k = 0); [|lia]. nia.
Qed.

Lemma idempotency_inj x y : 0 <= x < 65536 -> 0 <= y < 65536 ->
  idempotency_key (draft WorkNote x GENESIS_SHA256) = idempotency_key (draft WorkNote y GENESIS_SHA256) -> x = y.
Proof.
  intros Hx Hy E. cbn [draft idempotency_key] in E.
  unfold hash, sha256_parts in E. cbn [concat] in E. rewrite !app_nil_r in E.
  unfold sha256, checksum_digest, checksum in E.
  apply app_eq_len in E as [E _]; [|by rewrite !be_bytes_length].
  rewrite !idempotency_hash in E by done. apply be_bytes_inj in E; [|apply Z.mod_pos_bound; lia..].
  pose proof (Z.mod_pos_bound x 256). pose proof (Z.mod_pos_bound y 256).
  pose proof (Z.div_pos x 256). pose proof (Z.div_pos y 256).
  pose proof (Z.div_lt_upper_bound x 256 256). pose proof (Z.div_lt_upper_bound y 256 256).
  pose proof (Z.div_mod x 256). pose proof (Z.div_mod y 256).
  apply mod_eq_small in E; lia.
Qed.

Lemma window_drafts_ok first product :
  0 <= first < 60000 -> is_zero_sha product = false -> window_ok (window_drafts first, product).
Proof.
  intros Hf Hp. unfold window_drafts. split; cbn [fst snd].
  - unfold zlen. by rewrite length_map, length_seq.
  - apply Forall_forall. intros d (i & -> & _)%list_elem_of_fmap. apply draft_admissible.
  - rewrite map_map. change (map ?f ?l) with (f <$> l). apply NoDup_fmap_2_strong; [|apply NoDup_seq].
    intros i j Hi%elem_of_seq Hj%elem_of_seq E. apply idempotency_inj in E; lia.
  - exact Hp.
Qed.

(** ** The tests pass *)

#[local] Existing Instance checksum_digest.

Lemma one_fill g w ds product :
  0 <= g -> ACTIVE_ENVELOPE_WINDOW * (g + 1) < U64_MAX -> rested g w -> window_ok (ds, product) ->
  exists os w1, publish_all w ds = (Ok os, w1) /\ zlen (recent w1) = ACTIVE_ENVELOPE_WINDOW.
Proof.
  intros Hg Hu R W. destruct (fill g w (ds, product) 2000) as (es & w' & E & _ & Hr & Hl & _); [done..|].
  rewrite window_take in E by done. do 2 eexists. split; [exact E|]. by rewrite Hr, Hl.
Qed.

Lemma one_wave g w ds product :
  0 <= g -> ACTIVE_ENVELOPE_WINDOW * (g + 1) < U64_MAX -> rested g w -> window_ok (ds, product) ->
  exists os w1 s w', publish_all w ds = (Ok os, w1) /\ seal_gulp w1 product = (Ok s, w') /\
    seal_of (g + 1) product s /\ rested (g + 1) w'.
Proof.
  intros Hg Hu R W. destruct (wave_rested g w (ds, product)) as (s & w' & E & S & R'); try done.
  unfold RoomWaves.wave in E. cbn [fst snd] in E. destruct (publish_all w ds) as [[os|] w1]; [|done].
  by exists os, w1, s, w'.
Qed.

Lemma run_waves_cons writer last_seal wave ws test :
  run_waves writer last_seal (wave :: ws) test =
  then_ok (publish_all writer (window_drafts (wave * ACTIVE_ENVELOPE_WINDOW + 1))) (fun _ writer =>
  then_ok (seal_gulp writer (hash [lit "distilled-product"; be_bytes 8 wave])) (fun seal writer =>
  active_events (read_committed_head writer) = 0 /\ run_waves writer (Some seal) ws test)).
Proof. reflexivity. Qed.

Lemma run_waves_ok ws g writer last_seal (test : RoomWriter -> option GulpSeal -> Prop) :
  0 <= g -> g + zlen ws <= 1000 -> Forall (fun wave => 0 <= wave < 25) ws -> rested g writer ->
  (forall writer' last', rested (g + zlen ws) writer' ->
     (last' = last_seal /\ ws = [] \/ exists s product, last' = Some s /\ seal_of (g + zlen ws) product s) ->
     test writer' last') ->
  run_waves writer last_seal ws test.
Proof.
  revert g writer last_seal. induction ws as [|wave ws IH]; intros g writer last_seal Hg Hws Hf R Ht.
  { cbn. apply Ht; [by rewrite zlen_nil, Z.add_0_r | by left]. }
  rewrite zlen_cons in *. pose proof (zlen_nonneg ws). inversion Hf as [|? ? Hw Hf']; subst.
  destruct (one_wave g writer (window_drafts (wave * ACTIVE_ENVELOPE_WINDOW + 1))
              (hash [lit "distilled-product"; be_bytes 8 wave])) as (os & w1 & s & w' & E1 & E2 & S & R').
  - lia.
  - unfold ACTIVE_ENVELOPE_WINDOW, U64_MAX. lia.
  - done.
  - apply window_drafts_ok; [unfold ACTIVE_ENVELOPE_WINDOW; lia | apply hash_nonzero].
  - rewrite run_waves_cons, E1. unfold then_ok. rewrite E2.
    split; [unfold read_committed_head; cbn; by rewrite (re_recent (g + 1) w')|].
    apply (IH (g + 1)); [lia | lia | done | done |]. intros w2 last' R2 HL.
    replace (g + 1 + zlen ws) with (g + (1 + zlen ws)) in * by lia. apply Ht; [done|]. right.
    destruct HL as [[-> ->]|HL]; [|done]. exists s, (hash [lit "distilled-product"; be_bytes 8 wave]).
    split; [done|]. by rewrite zlen_nil, Z.add_0_r.
Qed.

Lemma room_rested (test : RoomWriter -> Prop) : (forall w, rested 0 w -> test w) -> room test.
Proof.
  intros Ht. unfold room, new. rewrite hash_nonzero. cbn [on_ok]. apply Ht. by split.
Qed.

Lemma reflection_room_wave_tests_pass : for_all [
    ReflectionRoomWaveTests.twenty_five_windows_form_one_50k_super_gulp;
    ReflectionRoomWaveTests.gulp_refuses_to_release_without_full_window_and_product] (fun test => test).
Proof.
  split; [|split; [|exact I]]; apply room_rested; intros w R.
  - apply (run_waves_ok _ 0); [done | done | | done |].
    { apply Forall_forall. intros x (i & -> & Hi%elem_of_seq)%list_elem_of_fmap. lia. }
    intros w' last' R' [[_ Hn]|(s & product & -> & S)]; [done|].
    change (0 + zlen _) with 25 in R', S. destruct R' as [Rr Rs Rt Rg], S. unfold on_some, read_committed_head.
    cbn [h_total_events total_checkpoints total_super_gulps]. rewrite Rt, Rg. by split_and!.
  - destruct R as [Rr Rs Rt Rg]. split; [unfold seal_gulp; by rewrite Rr|].
    destruct (one_fill 0 w (window_drafts 1) (hash [])) as (os & w' & E & Hl); [lia | by unfold U64_MAX | by split | |].
    { apply window_drafts_ok; [lia | apply hash_nonzero]. }
    rewrite E. unfold then_ok, seal_gulp, read_committed_head. rewrite Hl. cbn [active_events].
    change (wrap32 ACTIVE_ENVELOPE_WINDOW) with ACTIVE_ENVELOPE_WINDOW. rewrite Z.eqb_refl. cbn [negb].
    change (is_zero_sha GENESIS_SHA256) with true. cbn [active_events]. by rewrite Hl.
Qed.
