(* ===== verification/ConformanceFabric.v ===== *)
(** * The tests of the fabric, the atlas, the peers and the fingerprints

    The unit tests of [atlas], [bus_and_kick], [bus_fabric], [cycle_orch],
    [glyph_genesis] and the two copies of the cross-runtime fingerprint
    tests ([kernel/core/src/triple_runtime_parity.rs] and
    [kernel/core/tests/triple_runtime_parity.rs]), replayed on the model; a
    Module per test module. The glyph tests use the checksum of
    [Replay.v]. *)

From S2P Require Import Prelude Digest Sha256 Utf8 Pid CycleOrch BusFabric GlyphGenesis Atlas BusAndKick Replay.

#[local] Open Scope Z_scope.

Module AtlasTests.
Import Atlas.

Definition U16_MAX : Z := 2 ^ 16 - 1.

Definition domain_for_cp_legacy_range_0_to_255 : Prop :=
  for_all [0; 128; 255] (fun cp => domain_for_cp cp = Some LegacySubset256) /\ domain_for_cp 256 <> Some LegacySubset256.

Definition domain_for_cp_sovereignty_range_256_to_383 : Prop :=
  for_all [256; 260; 261; 383] (fun cp => domain_for_cp cp = Some Sovereignty) /\
  domain_for_cp 384 <> Some Sovereignty /\
  supervisor_for_cp 260 = Some Gaia /\ lane_for_cp 260 = Some Skeletal.

Definition domain_for_cp_emergent_residual_range_896_to_1023 : Prop :=
  for_all [896; 960; 1023] (fun cp => domain_for_cp cp = Some EmergentResidual) /\
  supervisor_for_cp 1023 = Some LiveFree /\ lane_for_cp 1023 = Some Memory.

Definition domain_for_cp_returns_none_above_1023 : Prop :=
  for_all [1024; 2048; U16_MAX] (fun cp => domain_for_cp cp = None) /\
  supervisor_for_cp 1024 = None /\ lane_for_cp 1024 = None.

Definition behcs_1024_constants_are_canonical : Prop :=
  BEHCS_1024_CP_COUNT = 1024 /\ BEHCS_1024_MAX_CP = 1023 /\ BEHCS_256_CP_COUNT = 256.

Definition is_valid_cp_accepts_full_range : Prop :=
  for_all [0; 1; 255; 256; 512; 1023] (fun cp => is_valid_cp cp = true).

Definition is_valid_cp_rejects_out_of_range : Prop :=
  for_all [1024; 2048; U16_MAX] (fun cp => is_valid_cp cp = false).

Definition is_valid_cp_is_const : Prop :=
  [is_valid_cp 0; is_valid_cp BEHCS_1024_MAX_CP; is_valid_cp BEHCS_1024_CP_COUNT] = [true; true; false].

Definition subset_embedding_identity_on_legacy_band : Prop :=
  for_all [0; 1; 127; 255] (fun cp => subset_embedding_cp cp = Some cp).

Definition subset_embedding_inherits_from_cp_mod_256 : Prop :=
  for_all [(256, 0); (257, 1); (383, 127); (512, 0); (768, 0); (1023, 255)]
    (fun p => subset_embedding_cp p.1 = Some p.2).

Definition subset_embedding_rejects_out_of_range : Prop :=
  subset_embedding_cp 1024 = None /\ subset_embedding_cp U16_MAX = None.

Definition subset_embedding_invariant_holds_for_full_range : Prop :=
  for_all (seqZ 0 BEHCS_1024_CP_COUNT) (fun cp => subset_embedding_cp cp = Some (wrap8 (cp mod BEHCS_256_CP_COUNT))).

Definition subset_embedding_is_const : Prop :=
  subset_embedding_cp 0 = Some 0 /\ subset_embedding_cp 400 = Some 144 /\ subset_embedding_cp 1024 = None.

End AtlasTests.

Module BusAndKickTests.
Import BusAndKick.

Definition hilbert_room_is_29 : Prop := BUS_AND_KICK_HILBERT_ROOM = 29.

Definition classify_heartbeat_is_bus_only : Prop :=
  for_all [lit "EVT-ACER-HEARTBEAT"; lit "LIRIS_HEARTBEAT_STEADY"] (fun v => classify_verb v = Heartbeat).

Definition classify_directive_is_post_and_kick : Prop :=
  for_all [lit "EVT-LIRIS-DIRECTIVE-RESPAWN"; lit "WAKE_LIRIS_NOW"] (fun v => classify_verb v = PostAndKick).

Definition classify_misc_is_bus_only : Prop :=
  for_all [lit "EVT-ACER-PHASE-2-CARGO-SCAFFOLD-LANDED"; lit "ACER_COSIGN_LIRIS_BUS_BIAS_RECEIPTS"]
    (fun v => classify_verb v = BusOnly).

Definition compose_with_id_hint : Prop :=
  let e := compose (Some (lit "custom-id")) (lit "acer") (lit "liris") (lit "test-actor") (lit "liris")
             (lit "2026-05-11T18:00:00Z") (lit "EVT-TEST") (lit "payload-string") in
  id e = lit "custom-id" /\ mode e = lit "real" /\ from e = lit "acer" /\ to e = lit "liris".

Definition compose_without_id_generates_one : Prop :=
  let e := compose None (lit "acer") (lit "liris") (lit "test-actor") (lit "liris")
             (lit "2026-05-11T18:00:00Z") (lit "EVT-TEST") (lit "p") in
  starts_with (lit "acer-batk-") (id e) = true.

Definition heartbeat_verb_uppercases : Prop :=
  heartbeat_verb_for (lit "acer") = lit "EVT-ACER-HEARTBEAT" /\
  heartbeat_verb_for (lit "falcon") = lit "EVT-FALCON-HEARTBEAT".

End BusAndKickTests.

Module BusFabricTests.
Import BusFabric.

Definition alphabet_is_1024 : Prop := BEHCS1024_ALPHABET_SIZE = 1024.

Definition max_depth_is_20 : Prop := PREFIX_TREE_MAX_DEPTH = 20.

Definition ceiling_log10_is_60 : Prop := ADDRESSABLE_CEILING_LOG10 = 60.

Definition port_label_from_levels_ok : Prop := on_ok (from_levels [1; 2; 3]) (fun p => depth p = 3).

Definition port_label_too_deep_rejected : Prop := from_levels (seqZ 0 21) = Err LabelTooDeep.

Definition port_label_glyph_out_of_range : Prop := from_levels [1024] = Err GlyphOutOfRange.

Definition throughput_targets_match_canon : Prop :=
  T1_MICRO_ENVELOPES_PER_SEC = 100 /\ T2_COSIGN_ENVELOPES_PER_SEC = 10 /\ T3_FIRMWARE_ENVELOPES_PER_SEC = 1 /\
  GC_TRIGGER_EVERY_N_ENVELOPES = 2000.

Definition resolve_label_is_deterministic : Prop :=
  on_ok (from_levels [1; 2; 3; 4]) (fun p =>
  on_ok (resolve_label p) (fun h1 => on_ok (resolve_label p) (fun h2 => h1 = h2))).

Definition resolve_label_distinct_labels_differ : Prop :=
  on_ok (from_levels [1; 2; 3]) (fun a => on_ok (from_levels [1; 2; 4]) (fun b =>
  on_ok (resolve_label a) (fun ha => on_ok (resolve_label b) (fun hb => ha <> hb)))).

Definition canonical_glyph_bytes_big_endian_u16 : Prop :=
  on_ok (from_levels [0x0102; 0x03FF]) (fun p => canonical_glyph_bytes p = [0x01; 0x02; 0x03; 0xFF]).

Definition alphabet_table_is_identity_phase1 : Prop :=
  for_all [0; 1; 42; 1023] (fun i => BEHCS1024_ALPHABET_TABLE !! Z.to_nat i = Some i).

Definition alphabet_table_length_is_1024 : Prop := wrap32 (zlen BEHCS1024_ALPHABET_TABLE) = BEHCS1024_ALPHABET_SIZE.

Definition prefix_tree_walk_parity_with_resolve_label : Prop :=
  for_all [[0]; [7; 8]; [1; 2; 3]; [100; 200; 300; 400; 500]] (fun lv =>
  on_ok (from_levels lv) (fun p =>
  on_ok (resolve_label p) (fun h => on_ok (prefix_tree_walk p) (fun h' => h = h')))).

Definition label_for_handle_phase1_returns_branch_empty : Prop :=
  label_for_handle 0 = Err BranchEmpty /\ label_for_handle 0xDEADBEEFCAFEF00D = Err BranchEmpty.

Definition resolve_label_handle_zero_reserved_for_nonempty : Prop :=
  for_all (seqZ 0 256) (fun i =>
  on_ok (from_levels [i]) (fun p => on_ok (resolve_label p) (fun h => h <> RESERVED_HANDLE_ZERO))).

End BusFabricTests.

Module CycleOrchTests.
Import CycleOrch.

Definition peer : PeerStateMachine := new (lit "test-peer").

Definition dark_can_only_go_to_probing : Prop := legal_transitions Dark = [Probing].

Definition alive_can_go_to_three_states : Prop :=
  for_all [Kicked; Dark; Probing] (fun s => bool_decide (s ∈ legal_transitions Alive) = true).

Definition illegal_transition_rejected : Prop :=
  let '(r, psm) := transition peer Alive (lit "test") 100 in is_err r = true /\ state psm = Dark.

Definition legal_path_dark_probing_alive : Prop :=
  then_ok (transition peer Probing (lit "probe") 100) (fun _ psm =>
  then_ok (transition psm Alive (lit "got-reply") 200) (fun _ psm =>
  state psm = Alive /\ length (history psm) = 2%nat)).

Definition kick_overdue_after_deadline : Prop :=
  then_ok (transition peer Probing (lit "probe") 100) (fun _ psm =>
  then_ok (transition psm Alive (lit "alive") 200) (fun _ psm =>
  then_ok (on_kick psm (lit "hi") 1000 300) (fun _ psm =>
  is_overdue psm 1000 = false /\ is_overdue psm 2000 = true))).

Definition op_halt_whitelist_matches : Prop :=
  for_all [lit "OP-HALT"; lit "EVT-HALT"; lit "EVT-LIRIS-HALT-EMIT"; lit "EVT-FALCON-HALT-EMIT"]
    (fun v => is_op_halt_verb v = true).

Definition op_halt_does_not_match_loose_strings : Prop :=
  for_all [lit "HALT-EMIT"; lit "EVT-X-HALT"; lit "EVT-SOMETHING-HALT-OTHER"; lit "ACER_OWNER_REFRESH_VERIFICATION"]
    (fun v => is_op_halt_verb v = false).

Definition slo_thresholds_match_canon_defaults : Prop :=
  let t := default_slo in
  mem_free_mb_floor t = 200 /\ err_rate_threshold_permille t = 100 /\ flap_threshold t = 5 /\ cadence_floor_ms t = 5000.

End CycleOrchTests.

Module GlyphGenesisTests.
Import GlyphGenesis.

#[local] Existing Instance checksum_digest.

(** [g.chars().count()]. *)
Definition chars_count (s : bytes) : Z := zlen (filter (fun b => is_continuation b = false) s).

Definition alphabet_size_is_256 : Prop := BEHCS256_ALPHABET_SIZE = 256.

Definition glyph_is_8_words_long : Prop := chars_count (glyph (lit "D1:liris") test_alphabet_v0_1) = 8.

Definition glyph_deterministic : Prop :=
  glyph (lit "D1:liris") test_alphabet_v0_1 = glyph (lit "D1:liris") test_alphabet_v0_1.

Definition different_keys_produce_different_glyphs : Prop :=
  glyph (lit "D1:liris") test_alphabet_v0_1 <> glyph (lit "D1:falcon") test_alphabet_v0_1.

Definition sentence_returns_one_word_per_field : Prop :=
  let s := sentence [(lit "D1", lit "liris"); (lit "D2", lit "heartbeat"); (lit "D7", lit "alive")] test_alphabet_v0_1 in
  length s = 3%nat /\
  on_some (s !! 0%nat) (fun w => dim w = lit "D1" /\ tuple w = lit "D1:liris" /\ chars_count (word_glyph w) = 8).

End GlyphGenesisTests.

(** The two files hold the same constants and tests. *)
Module ParityTests.
Import Pid.

Definition HISTORICAL_VECTORS : list (bytes * bytes) :=
  [(lit "OP-RAYSSA-PID-G0000-A00-W000", lit "bf5fa7a1a57f384b");
   (lit "OPERATOR-PID-H1001-A00-W110", lit "760ba73b84f31861");
   (lit "ASOLARIA-FEDERATION-REMAKE-1024-PID-2026-05-11", lit "e00b1a465d6dcb50")].

Definition AETHER_MIGRATION_VECTOR : bytes * bytes := (lit "AETHER-CLAUDE-PID-G0049-A00-W001", lit "ac28f4ce43d17fea").

Definition historical_pids_match_cross_runtime_canonical_fingerprints : Prop :=
  for_all HISTORICAL_VECTORS (fun '(pid, expected) => pid_fingerprint_sha16 pid = expected).

Definition aether_migration_pid_matches_liris_verdict_fingerprint : Prop :=
  let '(pid, expected) := AETHER_MIGRATION_VECTOR in pid_fingerprint_sha16 pid = expected.

Definition historical_pids_all_validate_against_strict_role : Prop :=
  for_all HISTORICAL_VECTORS (fun '(pid, _) => validate_pid pid true = CRet tt).

Definition aether_migration_pid_parses_canonical_shape_but_role_not_yet_in_known_roles : Prop :=
  let '(pid, _) := AETHER_MIGRATION_VECTOR in
  on_ret (parse_pid pid) (fun parsed =>
  match parsed with
  | Canonical parts =>
      role parts = lit "AETHER-CLAUDE" /\ [region parts] = lit "G" /\ host_code parts = lit "0049" /\
      activity parts = lit "00" /\ wave parts = lit "001"
  | AnchorPid _ => False
  end) /\
  match validate_pid pid true with CErr _ => True | _ => False end.

Definition fingerprint_is_deterministic : Prop :=
  let pid := lit "OP-RAYSSA-PID-G0000-A00-W000" in pid_fingerprint_sha16 pid = pid_fingerprint_sha16 pid.

Definition fingerprint_is_16_hex_chars : Prop :=
  let fp := pid_fingerprint_sha16 (lit "ASOLARIA-FEDERATION-REMAKE-1024-PID-2026-05-11") in
  length fp = 16%nat /\ forallb is_ascii_hexdigit fp = true.

End ParityTests.

Lemma atlas_tests_pass : for_all [
    AtlasTests.domain_for_cp_legacy_range_0_to_255;
    AtlasTests.domain_for_cp_sovereignty_range_256_to_383;
    AtlasTests.domain_for_cp_emergent_residual_range_896_to_1023;
    AtlasTests.domain_for_cp_returns_none_above_1023;
    AtlasTests.behcs_1024_constants_are_canonical;
    AtlasTests.is_valid_cp_accepts_full_range;
    AtlasTests.is_valid_cp_rejects_out_of_range;
    AtlasTests.is_valid_cp_is_const;
    AtlasTests.subset_embedding_identity_on_legacy_band;
    AtlasTests.subset_embedding_inherits_from_cp_mod_256;
    AtlasTests.subset_embedding_rejects_out_of_range;
    AtlasTests.subset_embedding_invariant_holds_for_full_range;
    AtlasTests.subset_embedding_is_const] (fun test => test).
Proof. replay. Qed.

Lemma bus_and_kick_tests_pass : for_all [
    BusAndKickTests.hilbert_room_is_29;
    BusAndKickTests.classify_heartbeat_is_bus_only;
    BusAndKickTests.classify_directive_is_post_and_kick;
    BusAndKickTests.classify_misc_is_bus_only;
    BusAndKickTests.compose_with_id_hint;
    BusAndKickTests.compose_without_id_generates_one;
    BusAndKickTests.heartbeat_verb_uppercases] (fun test => test).
Proof. replay. Qed.

Lemma bus_fabric_tests_pass : for_all [
    BusFabricTests.alphabet_is_1024;
    BusFabricTests.max_depth_is_20;
    BusFabricTests.ceiling_log10_is_60;
    BusFabricTests.port_label_from_levels_ok;
    BusFabricTests.port_label_too_deep_rejected;
    BusFabricTests.port_label_glyph_out_of_range;
    BusFabricTests.throughput_targets_match_canon;
    BusFabricTests.resolve_label_is_deterministic;
    BusFabricTests.resolve_label_distinct_labels_differ;
    BusFabricTests.canonical_glyph_bytes_big_endian_u16;
    BusFabricTests.alphabet_table_is_identity_phase1;
    BusFabricTests.alphabet_table_length_is_1024;
    BusFabricTests.prefix_tree_walk_parity_with_resolve_label;
    BusFabricTests.label_for_handle_phase1_returns_branch_empty;
    BusFabricTests.resolve_label_handle_zero_reserved_for_nonempty] (fun test => test).
Proof. replay. Qed.

Lemma cycle_orch_tests_pass : for_all [
    CycleOrchTests.dark_can_only_go_to_probing;
    CycleOrchTests.alive_can_go_to_three_states;
    CycleOrchTests.illegal_transition_rejected;
    CycleOrchTests.legal_path_dark_probing_alive;
    CycleOrchTests.kick_overdue_after_deadline;
    CycleOrchTests.op_halt_whitelist_matches;
    CycleOrchTests.op_halt_does_not_match_loose_strings;
    CycleOrchTests.slo_thresholds_match_canon_defaults] (fun test => test).
Proof. replay. Qed.

Lemma glyph_genesis_tests_pass : for_all [
    GlyphGenesisTests.alphabet_size_is_256;
    GlyphGenesisTests.glyph_is_8_words_long;
    GlyphGenesisTests.glyph_deterministic;
    GlyphGenesisTests.different_keys_produce_different_glyphs;
    GlyphGenesisTests.sentence_returns_one_word_per_field] (fun test => test).
Proof. replay. Qed.

Lemma parity_tests_pass : for_all [
    ParityTests.historical_pids_match_cross_runtime_canonical_fingerprints;
    ParityTests.aether_migration_pid_matches_liris_verdict_fingerprint;
    ParityTests.historical_pids_all_validate_against_strict_role;
    ParityTests.aether_migration_pid_parses_canonical_shape_but_role_not_yet_in_known_roles;
    ParityTests.fingerprint_is_deterministic;
    ParityTests.fingerprint_is_16_hex_chars] (fun test => test).
Proof. replay. Qed.
