(* ===== verification/ConformanceBoot.v ===== *)
(** * The tests of the boot lines and of the shell server

    The unit tests of [boot_diag] and [boot_identity] ([kernel/core/src])
    and of the shell ([surface/src/main.rs]), replayed on the model; a
    Module per test module. *)

From S2P Require Import Prelude Digest Sha256 Utf8 Pid BootLines SurfaceText Replay.

#[local] Open Scope Z_scope.

Module BootDiagTests.
Import LineWriter BootDiag.

Definition FULL_FB : FramebufferObservation := mkFb 1920 1080 Bgr 8294400 true true.

Definition observed : BootObservations := mkObs true true true true FULL_FB SbDisabled FirmwareEfi.

(** [line] for [out] of [n] zero bytes, with the count [written]. *)
Definition rendered (o : BootObservations) (n : nat) (test : bytes -> Z -> Prop) : Prop :=
  match render_status_line o (replicate n 0) with
  | (Ok written, Some out) => test (take (Z.to_nat written) out) written
  | _ => False
  end.

Definition classifies_structural_boot_surfaces : Prop :=
  classify_boot_stage EMPTY = NoUefi /\
  classify_boot_stage (mkObs true false false false ABSENT SbUnknown LoaderUnknown) = UefiTable /\
  classify_boot_stage (mkObs true true false false ABSENT SbUnknown LoaderUnknown) = UefiConsole /\
  classify_boot_stage (mkObs true true true false ABSENT SbUnknown LoaderUnknown) = BootServices /\
  classify_boot_stage (mkObs true true true true ABSENT SbUnknown LoaderUnknown) = GraphicsOutput.

Definition classifies_framebuffer_and_metal_policy : Prop :=
  let obs := mkObs true true true true FULL_FB in
  classify_boot_stage observed = MetalReady /\
  classify_boot_stage (obs SbUnknown FirmwareEfi) = MetalCandidate /\
  classify_boot_stage (obs SbEnabled FirmwareEfi) = PolicyGuarded /\
  classify_boot_stage (obs SbDisabled WindowsBootManager) = PolicyGuarded /\
  classify_boot_stage (obs SbDisabled LoaderUnknown) = Framebuffer.

Definition blt_only_is_not_direct_framebuffer : Prop :=
  let fb := mkFb 1024 768 BltOnly 3145728 true true in
  classify_boot_stage (mkObs true true true true fb SbDisabled FirmwareEfi) = GraphicsOutput.

Definition renders_exact_hbp_status_line : Prop :=
  rendered observed 320 (fun line written =>
  line = lit "ASOBTDIAG|format=hbpish|evidence=MEASURED_BOOT|source=uefi|seat=unknown|receipt=unsealed|tuple=boot:diag:early|stage=pre-driver-ready|uefi=1|conout=1|bs=1|gop=1|fb=1920x1080/bgr/8294400|fbbase=1|fblayout=1|sb=disabled|loader=firmware-efi" /\
  written = status_line_len observed).

Definition render_reports_required_len_for_short_buffer : Prop :=
  render_status_line observed (replicate 8 0) =
    (Err (BufferTooSmall (status_line_len observed)), Some (lit "ASOBTDIA")).

Definition render_handles_zero_framebuffer_values : Prop :=
  rendered (mkObs true false false true ABSENT SbUnknown LoaderUnknown) 320 (fun line _ =>
  line = lit "ASOBTDIAG|format=hbpish|evidence=MEASURED_BOOT|source=uefi|seat=unknown|receipt=unsealed|tuple=boot:diag:early|stage=graphics-output|uefi=1|conout=0|bs=0|gop=1|fb=0x0/unknown/0|fbbase=0|fblayout=0|sb=unknown|loader=unknown").

End BootDiagTests.

Module BootIdentityTests.
Import LineWriter BootIdentity.

Definition id : BootIdentity := ACER_FABLE5_BOOT_IDENTITY.

Definition boot_identity_pids_are_canonical_extended : Prop :=
  for_all [device_pid id; operator_pid id; co_operator_pid id] (fun p => Pid.validate_pid p true = CRet tt) /\
  Pid.validate_subclass (device_pid id) = CRet Pid.RegularExtended.

Definition selector_frame_is_sixty_axes_bounded_to_behcs_1024 : Prop :=
  tuple_dim id = AXIS_COUNT /\
  for_all (seqZ 0 AXIS_COUNT) (fun i => on_ret (selector_axis_u10 id i) (fun axis => axis < 1024)).

Definition renders_hbpish_identity_line_without_json : Prop :=
  on_ret (render_boot_identity_line id (replicate 1024 0)) (fun '(r, out) =>
  on_ok r (fun written => on_some out (fun out =>
  let line := take (Z.to_nat written) out in
  starts_with (lit "ASOBTID|format=hbpish|") line = true /\
  for_all [lit "|json=0|"; lit "|seat=ACER-CLAUDE-FABLE5|"; lit "|device_pid=ACER-PID-H740C-A07-W104-P00-N00000|";
           lit "|operator_pid=OP-JESSE-PID-G0000-A00-W000-P00-N00000|";
           lit "|co_operator_pid=OP-RAYSSA-PID-G0000-A00-W000-P00-N00000|";
           lit "|tuple_dim=60|"; lit "|date=2026-07-09|"; lit "|location=SEC-FABLE5-1720|"]
    (fun part => contains part line = true) /\
  for_all [lit "{"; lit "}"; [34]] (fun part => contains part line = false) /\
  boot_identity_line_len id = CRet written))).

Definition render_reports_required_len_for_short_buffer : Prop :=
  on_ret (boot_identity_line_len id) (fun required =>
  render_boot_identity_line id (replicate 7 0) = CRet (Err (BufferTooSmall required), Some (lit "ASOBTID"))).

Definition line_fits_uefi_console_buffer : Prop := on_ret (boot_identity_line_len id) (fun n => n < 1024).

End BootIdentityTests.

Module SurfaceTests.
Import SurfaceText.

Definition base64_matches_standard_vectors : Prop :=
  for_all [(lit "", lit ""); (lit "f", lit "Zg=="); (lit "fo", lit "Zm8="); (lit "foo", lit "Zm9v");
           (lit "foobar", lit "Zm9vYmFy"); ([0; 1; 2; 253; 254; 255], lit "AAEC/f7/")]
    (fun p => base64 p.1 = p.2).

Definition query_id_returns_first_valid_id_or_zero : Prop :=
  for_all [(lit "id=42", 42); (lit "x=1&id=7&y=2", 7); (lit "id=4&id=9", 4); (lit "", 0); (lit "x=1", 0);
           (lit "id=not-a-number", 0); (lit "xid=5", 0)]
    (fun p => query_id p.1 = p.2).

Definition identity_uses_trimmed_env_before_file : Prop :=
  let '(value, calls) :=
    resolve_ident (Some (lit "  SEAT-A  " ++ [10])) (Some (lit "C:/home")) (lit "seat.name") (lit "DEFAULT")
      (fun _ => Some (lit "SEAT-B")) in
  value = lit "SEAT-A" /\ calls = [].

(** The reader that panics is a reader that is not called: no path read. *)
Definition identity_falls_back_to_trimmed_file_then_default : Prop :=
  let resolve env home := resolve_ident env home (lit "seat.pid") (lit "DEFAULT") in
  resolve (Some (lit "  " ++ [9])) (Some (lit "C:/home")) (fun _ => Some ([10] ++ lit "PID-123" ++ [10])) =
    (lit "PID-123", [lit "C:/home/.asolaria/seat.pid"]) /\
  (resolve None (Some (lit "C:/home")) (fun _ => Some (lit " " ++ [10]))).1 = lit "DEFAULT" /\
  (resolve None (Some (lit "C:/home")) (fun _ => None)).1 = lit "DEFAULT" /\
  resolve None None (fun _ => None) = (lit "DEFAULT", []).

Definition fabric_port_tracks_liris_vs_default_acer_surface : Prop :=
  fabric_port_for_context (lit "liris-Codex") None = 4944 /\
  fabric_port_for_context (lit "ASOLARIA-NODE") (Some (lit "DESKTOP-PTSQTIE")) = 4944 /\
  fabric_port_for_context (lit "acer-Claude") (Some (lit "DESKTOP-J99VCNH")) = 4949 /\
  fabric_port_for_context (lit "ASOLARIA-NODE") None = 4949.

Definition http_response_body_splits_after_first_header_boundary : Prop :=
  http_response_body (lit "HTTP/1.1 200 OK" ++ CRLF ++ lit "Content-Length: 4" ++ CRLF ++ CRLF ++ lit "body") = lit "body" /\
  http_response_body (lit "body without headers") = lit "body without headers" /\
  http_response_body (lit "HTTP/1.1 200 OK" ++ CRLF ++ CRLF ++ lit "body" ++ CRLF ++ CRLF ++ lit "trailer") =
    lit "body" ++ CRLF ++ CRLF ++ lit "trailer".

End SurfaceTests.

Lemma boot_diag_tests_pass : for_all [
    BootDiagTests.classifies_structural_boot_surfaces;
    BootDiagTests.classifies_framebuffer_and_metal_policy;
    BootDiagTests.blt_only_is_not_direct_framebuffer;
    BootDiagTests.renders_exact_hbp_status_line;
    BootDiagTests.render_reports_required_len_for_short_buffer;
    BootDiagTests.render_handles_zero_framebuffer_values] (fun test => test).
Proof. replay. Qed.

Lemma boot_identity_tests_pass : for_all [
    BootIdentityTests.boot_identity_pids_are_canonical_extended;
    BootIdentityTests.selector_frame_is_sixty_axes_bounded_to_behcs_1024;
    BootIdentityTests.renders_hbpish_identity_line_without_json;
    BootIdentityTests.render_reports_required_len_for_short_buffer;
    BootIdentityTests.line_fits_uefi_console_buffer] (fun test => test).
Proof. replay. Qed.

Lemma surface_tests_pass : for_all [
    SurfaceTests.base64_matches_standard_vectors;
    SurfaceTests.query_id_returns_first_valid_id_or_zero;
    SurfaceTests.identity_uses_trimmed_env_before_file;
    SurfaceTests.identity_falls_back_to_trimmed_file_then_default;
    SurfaceTests.fabric_port_tracks_liris_vs_default_acer_surface;
    SurfaceTests.http_response_body_splits_after_first_header_boundary] (fun test => test).
Proof. replay. Qed.
